(* ===== verification/_CoqProject ===== *)
-Q . S2P
Prelude.v
Kernel.v
Bitset.v
Alloc.v
Meminfo.v
EarlyHeap.v
Frames.v
Asa.v
Machine.v
KPaging.v
Paging.v
Window.v
PagingSpec.v
PagingInit.v
Kheap.v
KheapBlock.v
KheapSpec.v
KheapProps.v
Boot.v
PagingProps.v
KheapDemo.v
MemProps.v
Digits.v
Strings.v
StringProps.v
Printf.v
PrintfProps.v
Ports.v
Textmode.v
TextmodeProps.v
KernelStdio.v
Fields.v
Pit.v
Terminal.v
TerminalProps.v
Descriptors.v
Interrupts.v
Keyboard.v
Vfs.v
Layout.v
Stubs.v
Tables.v
OrderedArray.v
Pci.v
Main.v
Screen.v
Diagnostics.v
Startup.v
System.v
Preemption.v
HeapMemory.v
HeapLayout.v
HeapBlocks.v
HeapWords.v
HeapSafety.v
HeapPaging.v
HeapMemDemo.v
Entry.v
