(* ===== verification/Prelude.v ===== *)
(** * ShawnOS: verification development

    ShawnOS is a small kernel for the i386 PC.  The loader enters
    [kernel_early] ([src/kernel/kernel/kernel.c]), which sets up the screen,
    the descriptor tables, the page frames, the address-space allocator, paging
    and the heap, installs the timer and keyboard drivers and enables
    interrupts; afterwards everything happens in calls from [kernel_main] and
    in interrupt handlers.  This development models its C code, and the
    assembly around it, as functions on explicit states, and proves what
    each part promises and where it does not keep the promise.

    ** Conventions

    A C function becomes a function on the globals it uses, which are a record,
    and returns an [outcome]: [Ret], [Abort] after [abort()], [Fault] for an
    access outside an object, to an unmapped address, or a division by zero, and
    [NoFuel] when a bound was too small.  [wp m Q] says that [m] returns and [Q]
    holds, so a theorem with [wp] or [= Ret _] is total correctness.  32-bit
    arithmetic wraps ([⊕], [⊖], [⊗]); narrower types are [u8], [u16], [s8],
    [s16].  [for] loops are [for_range] and, with an exit, [for_return]; loops
    without structural bound are [while_fuel].  C arrays are lists; byte memory
    and the words of physical memory are finite maps.

    Bounds of the loops without structural bound: string loops get one round
    per mapped byte and one more (they visit each address once); digit loops
    65 (a 64-bit number has at most 64 digits); the loop of [vprintf] one round
    per character of the format and one more (each round moves on); the list of
    file-system drivers one round per mapped byte (nodes are distinct, lemma
    [drivers_fuel]); the retry loop of [kheap_malloc] the bound [malloc_fuel],
    one more than there are pages to expand by; the walks over the blocks in
    memory [block_fuel], one more than the kernel has pages (lemma
    [blocks_fuel]: each block has a page of its own); the walk over the memory map one
    round per four bytes of it (an entry has more); the loop of [kernel_main] one
    round per page of kernel address space and one more.  That they suffice is
    part of the theorems, except where the end of the loop depends on data that
    a hypothesis describes (a terminated string, a well-formed memory map).

    ** Memory (C1 to C17, C23)

    - [Kernel.v]: [kernel/include/kernel/kernel.h], codes and macros;
    - [Bitset.v]: [kernel/include/kernel/bitset.h], a set of indices (C16);
    - [Alloc.v]: [kernel/mm/alloc.c], [kmalloc] and its siblings over a record
      of two function pointers; [Provider] is the class of its implementations;
    - [Meminfo.v], [EarlyHeap.v], [Frames.v]: [kernel/arch/i386/mem.c]: the
      multiboot header and the memory map, with the exact condition under which
      a page is reported free (C13), the placement allocator of early start-up,
      and the frame bitset, with what it marks at first, which is neither its
      own words nor the early heap (C12), and the frame allocator (C14);
    - [Asa.v]: [kernel/mm/asa.c], the address-space allocator (C11; what
      [asa_free] does not give back is [MemProps.asa_free_leaks]);
    - [Machine.v]: CR3, CR0.PG, physical words, the translation cache
      ([pagingstub.asm]), and translation as the processor does it;
    - [KPaging.v]: [kernel/mm/paging.c], the interface of an architecture, and
      [PageMapper], the class of what the heap needs of it;
    - [Paging.v]: [kernel/arch/i386/paging.c]; [Window.v], [PagingSpec.v],
      [PagingInit.v], [PagingProps.v] prove the page that serves as a window
      to page tables (C9), mapping and unmapping, which keep the contents of
      the other client pages (C2, C3, C17), identity mapping without memory,
      initialisation (C10) and that paging is a [PageMapper];
    - [Kheap.v]: [kernel/mm/heap.c] on block headers as records and the linked
      list as a list; [KheapBlock.v], [KheapSpec.v], [KheapProps.v] prove
      allocation and freeing over any [PageMapper], that they undo each other
      (C7), which requests fit and which never do (C23), and the frees that leak;
      [KheapDemo.v] runs them;
    - [HeapMemory.v]: the same code on memory: headers, pointers and bitsets
      are words of mapped pages, read and written at their addresses.
      [HeapLayout.v] says what words promise ([PagedMemory]), how a block lies
      in them ([block_at]) and gives the rules for code on words ([runs]);
      [HeapBlocks.v] takes the code on one block to the record, [HeapWords.v]
      the walks over the pointers, expansion and both operations to the list.
      [HeapSafety.v]: allocation (C5), freeing (C6), [kmalloc] (C15) and that
      allocations are private: nothing that other clients do reaches the words
      of an allocation (C8);
    - [HeapPaging.v]: the i386 pages are a [PagedMemory] (C4); [HeapMemDemo.v]:
      the heap that [kernel_early] leaves, and the theorems at work on it;
    - [Boot.v]: the calls of [kernel_early] from [i386_mem_init] to
      [kheap_kalloc_install], end to end (C1); [MemProps.v]: theorems on frames,
      address space and the search of sections;
    - [Diagnostics.v]: the debugging reports of [mem.c] and [heap.c].

    ** The layout of structures

    - [Layout.v]: the structures of [multiboot.h], [elf.h], [gdt.h], [idt.h],
      [isr.h], [tss.h], [heap.h] and [vfs.h] as the i386 ABI lays them out, used
      by Stubs.v and Tables.v and compared with the offsets that the other files
      use; also the Multiboot header of the image, [tss.c] and the enumeration
      of [ahci.h].

    ** The C library (C24, C27, C28)

    - [Digits.v]: positional numerals, the specification of printing numbers;
    - [Strings.v], [StringProps.v]: [libsc/string/*.c] and [itoa.c] over byte
      memory: copies (C24), comparison, [itoa] (C27), concatenation;
    - [Printf.v], [PrintfProps.v]: [libsc/stdio/printf.c], over any [putchar];
      the relation [outputs] says what any format prints and how many bytes
      behind its buffers it overwrites (C28); [renders] is the part of it that
      a reader of the format expects.

    ** Output (C31, C33, C34)

    - [Ports.v]: port input and output as a log of writes and a function of it;
    - [Textmode.v], [TextmodeProps.v]: [kernel/drivers/vga/textmode.c] and
      [putchar]; one character on the screen (C31), formatted output;
    - [Screen.v]: [abort], [PANIC], [ASSERT] and the stack protector with what
      they print; output as a list of [screen_action]s, and equality of screens
      up to the log of ports;
    - [Preemption.v]: [vga_textmode_putchar] interrupted in the middle by a
      handler that prints (C33);
    - [KernelStdio.v]: [kernel/kernel/kernel_stdio.c], queues of 256 characters;
    - [Terminal.v], [TerminalProps.v]: [kernel/kernel/kernel_terminal.c] refines
      the [console] of Terminal.v (C34).

    ** Interrupts and devices (C25, C30, C35 to C40)

    - [Fields.v]: lemmas on bit fields;
    - [Descriptors.v]: [descriptors/gdt.c], [idt.c] and the tables that [isr.c]
      and [irq.c] fill, read back the way the hardware does (C39);
    - [Interrupts.v]: the stubs of [isrstub.asm] and [irqstub.asm], dispatch
      and reports of [isr.c] and [irq.c] (C35), and [printk_debug]; of the stubs
      it has what they push and which handler they call;
    - [Stubs.v]: every instruction of the stubs, on all registers and the bytes
      of the stack, from the interrupt to [iret]: the handler finds the
      interrupted code's registers in its structure, and the interrupted code
      goes on as if nothing had happened (C25);
    - [Tables.v]: the instructions of [gdtflush.asm] and [idtflush.asm] and the
      tables as raw bytes, taken apart as the processor does it: the segments
      that the kernel runs in and where each interrupt goes (C30);
    - [Pit.v]: [kernel/drivers/pc/pit.c] and [kernel_thread.c]: ticks (C36) and
      waiting (C37);
    - [Keyboard.v]: [kernel/drivers/pc/pckbd.c] and [pckbd_us.h], from the
      interrupt request to the screen (C40);
    - [Pci.v]: [kernel/drivers/pci/pci.c], the bus scan (C38).

    ** The whole kernel (C18 to C21, C26)

    - [Main.v]: the page fault handler, [kernel_main], and the path from the
      start to the panic in which the allocation test of [kernel_main] ends
      (C26);
    - [Startup.v]: [kernel_early] with every call in its order, on the globals
      of all the components (C21);
    - [System.v]: the kernel from [sti] in [kernel_early] on: its last message
      and [kernel_main] as a [thread], the handlers of the timer and the keyboard, and the interrupt requests of
      the sixteen lines, as a step relation on one state.  A request may arrive
      before every character that the thread prints and every round of its
      loop, while interrupts are on.  Whatever the trace, nothing crashes (C18),
      the screen is made of an interleaving of known texts and the counters
      agree with the requests (C19), and the thread halts (C20).  The lemma
      [opening_run] justifies the split into characters: run without
      interruption, the actions are what [printk_debug] and
      [kernel_main_banner] do;
    - [Entry.v]: the instructions of [boot.asm], [crti.asm], [crtn.asm] and
      [modes.asm]: how the kernel is entered, and what happens if
      [kernel_main] returned ([start_correct]).

    ** Other parts (C22, C29, C32)

    - [Vfs.v]: [kernel/fs/vfs.c], drivers and mounts (C22) and inodes (C32), over
      structures in byte memory and any allocator of the class [AllocatorLaws];
    - [OrderedArray.v]: [kernel/kernel/ordered_array.c] (C29).

    ** What is outside the model

    Hardware and code of others is a parameter: what ports answer, the PCI
    configuration space, the addresses of functions and tables, the functions
    of file-system drivers, and what lies on the stack.  Console output is a
    part of the state where a component's purpose is output, and in
    [Diagnostics.v], [Screen.v], [Startup.v] and [System.v]; in the models of
    the memory subsystem it is left out, and [Startup.v] and [System.v] add the
    messages of the calls that they compose ([i386_mem_init]'s among them).  The
    multiboot data that [i386_mem_init] reads ([boot_mem]) is kept apart from the
    words of physical memory that paging and the heap change: that the loader
    put it out of the way of the frame bitset and the early heap is not checked.
    [slack] in Printf.v is the number of bytes behind a buffer that the compiler
    happens to leave unused.  [Abort] carries no state: what
    [abort] prints is in [Screen.v].

    ** Not modelled

    The linker script [linker.ld] computes nothing; what the compiler's own
    start-up files put into [_init] is a parameter.  The programs under [#if 0]
    in [kernel.c] are not compiled.
    [System.v] does not interrupt a character or a round of the loop of
    [kernel_main] in the middle; for a character, [Preemption.v] shows that this
    is not harmless (C33), and a round shares no globals with the handlers.  Handlers run to their end:
    their stubs disable interrupts. *)
From Stdlib Require Import ZArith Lia Bool.
From stdpp Require Import base numbers list gmap tactics.

#[global] Open Scope Z_scope.

(** * Results of kernel code

    [Ret a]: the code returned [a].  [Abort]: the code called [abort()]
    (through [ASSERT], [PANIC] or directly) and the machine is halted.
    [Fault]: an access outside the object it is made to, an unmapped virtual
    address, or a division by zero.  [NoFuel]: the bound given to a loop that
    has no structural bound was too small. *)
Inductive outcome (A : Type) : Type :=
| Ret (a : A)
| Abort
| Fault
| NoFuel.
Arguments Ret {A} a.
Arguments Abort {A}.
Arguments Fault {A}.
Arguments NoFuel {A}.

#[global] Instance outcome_ret : MRet outcome := fun A a => Ret a.
#[global] Instance outcome_bind : MBind outcome := fun A B f m =>
  match m with
  | Ret a => f a
  | Abort => Abort
  | Fault => Fault
  | NoFuel => NoFuel
  end.

(** Total correctness: the computation returns, and what it returns
    satisfies [Q]. *)
Definition wp {A} (m : outcome A) (Q : A → Prop) : Prop :=
  match m with Ret a => Q a | _ => False end.

(** [ASSERT(x)] of kernel.h. *)
Definition assert (b : bool) : outcome unit := if b then Ret tt else Abort.

(** * Loops

    A C loop body either goes on with a new local state or leaves the
    function with a result. *)
Inductive flow (S R : Type) : Type :=
| Continue (s : S)
| Return (r : R).
Arguments Continue {S R} s.
Arguments Return {S R} r.

Section loops.
Context {S R : Type}.

(** [n] rounds from index [i], with an exit. *)
Fixpoint rounds (n : nat) (i : Z) (body : Z → S → outcome (flow S R)) (s : S)
    : outcome (flow S R) :=
  match n with
  | O => Ret (Continue s)
  | Datatypes.S n' =>
      f ← body i s;
      match f with
      | Continue s' => rounds n' (i + 1) body s'
      | Return r => Ret (Return r)
      end
  end.

(** [n] rounds from index [i], without exit. *)
Fixpoint rounds_all (n : nat) (i : Z) (body : Z → S → outcome S) (s : S)
    : outcome S :=
  match n with
  | O => Ret s
  | Datatypes.S n' => s' ← body i s; rounds_all n' (i + 1) body s'
  end.

(** [for (i = lo; i < hi; i++) body]. *)
Definition for_return (lo hi : Z) := rounds (Z.to_nat (hi - lo)) lo.
Definition for_range (lo hi : Z) := rounds_all (Z.to_nat (hi - lo)) lo.
End loops.

(** A loop without structural bound: [fuel] rounds of a body that ends by
    returning. *)
Fixpoint while_fuel {S R : Type} (fuel : nat) (body : S → outcome (flow S R)) (s : S)
    : outcome R :=
  match fuel with
  | O => NoFuel
  | Datatypes.S fuel' =>
      f ← body s;
      match f with
      | Continue s' => while_fuel fuel' body s'
      | Return r => Ret r
      end
  end.

(** * 32-bit unsigned arithmetic *)

Definition u32 (x : Z) : Z := x mod 2 ^ 32.
Definition is_u32 (x : Z) : Prop := 0 ≤ x < 2 ^ 32.

Declare Scope u32_scope.
Delimit Scope u32_scope with u32.
Notation "x ⊕ y" := (u32 (x + y)) (at level 50, left associativity) : u32_scope.
Notation "x ⊖ y" := (u32 (x - y)) (at level 50, left associativity) : u32_scope.
Notation "x ⊗ y" := (u32 (x * y)) (at level 40, left associativity) : u32_scope.
#[global] Open Scope u32_scope.

(** Conversions to the other integer types: [unsigned char], [uint16_t],
    [char] (signed on i386) and [int]. *)
Definition u8 (x : Z) : Z := x mod 2 ^ 8.
Definition u16 (x : Z) : Z := x mod 2 ^ 16.
Definition s8 (x : Z) : Z := (x + 2 ^ 7) mod 2 ^ 8 - 2 ^ 7.
Definition s16 (x : Z) : Z := (x + 2 ^ 15) mod 2 ^ 16 - 2 ^ 15.
Definition s32 (x : Z) : Z := (x + 2 ^ 31) mod 2 ^ 32 - 2 ^ 31.

(** [1 << j] and [~x] on 32-bit operands. *)
Definition shl1 (j : Z) : Z := u32 (Z.shiftl 1 j).
Definition not32 (x : Z) : Z := u32 (Z.lnot x).

#[global] Arguments u32 : simpl never.
#[global] Arguments shl1 : simpl never.
#[global] Arguments not32 : simpl never.

(** A C condition on an integer. *)
Definition truthy (x : Z) : bool := negb (x =? 0).

(** * Arrays of C as lists: an access out of range is a fault. *)
Section arrays.
Context {A : Type}.

Definition array_get (l : list A) (i : Z) : outcome A :=
  if 0 <=? i then match l !! Z.to_nat i with Some x => Ret x | None => Fault end
  else Fault.

Definition array_set (l : list A) (i : Z) (x : A) : outcome (list A) :=
  if (0 <=? i) && (i <? Z.of_nat (length l)) then Ret (<[Z.to_nat i := x]> l)
  else Fault.
End arrays.

(** * Lemmas *)

Section wp_lemmas.
Context {A B : Type}.
Implicit Types (m : outcome A) (k : A → outcome B).

Lemma wp_ret (a : A) Q : wp (Ret a) Q ↔ Q a.
Proof. done. Qed.

Lemma wp_bind m k Q : wp (m ≫= k) Q ↔ wp m (λ a, wp (k a) Q).
Proof. by destruct m. Qed.

Lemma bind_assoc {C} m k (l : B → outcome C) : (m ≫= k) ≫= l = m ≫= (λ a, k a ≫= l).
Proof. by destruct m. Qed.

Lemma wp_mono m (Q Q' : A → Prop) : wp m Q → (∀ a, Q a → Q' a) → wp m Q'.
Proof. destruct m; simpl; auto. Qed.

Lemma wp_inv m Q : wp m Q ↔ ∃ a, m = Ret a ∧ Q a.
Proof.
  split; [destruct m; simpl; try done; by eauto|]. by intros (a & -> & HQ).
Qed.

Lemma wp_and m (Q Q' : A → Prop) : wp m Q → wp m Q' → wp m (λ a, Q a ∧ Q' a).
Proof. by destruct m. Qed.

Lemma bind_Ret_inv m k b : m ≫= k = Ret b → ∃ a, m = Ret a ∧ k a = Ret b.
Proof. destruct m as [a| | |]; simpl; try done. by exists a. Qed.

Lemma Ret_bind (a : A) k : Ret a ≫= k = k a.
Proof. done. Qed.
End wp_lemmas.

Section loop_lemmas.
Context {S R : Type}.

(** The invariant rule for loops with an exit. *)
Lemma wp_for_return (I : Z → S → Prop) (Q : flow S R → Prop) lo hi body s :
  lo ≤ hi → I lo s →
  (∀ i s', lo ≤ i < hi → I i s' →
     wp (body i s') (λ f, match f with
                          | Continue s'' => I (i + 1) s''
                          | Return r => Q (Return r)
                          end)) →
  (∀ s', I hi s' → Q (Continue s')) →
  wp (for_return lo hi body s) Q.
Proof.
  intros Hle HI Hbody HQ. unfold for_return.
  enough (Hgen : ∀ n i s', lo ≤ i → i + Z.of_nat n = hi → I i s' →
            wp (rounds n i body s') Q) by (apply Hgen; [lia|lia|done]).
  induction n as [|n IH]; intros i s' Hi Hn Hs'; simpl.
  - apply HQ. by replace hi with i by lia.
  - apply wp_bind. eapply wp_mono; [apply Hbody; [lia|done]|].
    intros [s''|r] Hf; [|done]. apply IH; [lia|lia|done].
Qed.

(** The invariant rule for loops without exit. *)
Lemma wp_for_range (I : Z → S → Prop) lo hi body s :
  lo ≤ hi → I lo s →
  (∀ i s', lo ≤ i < hi → I i s' → wp (body i s') (I (i + 1))) →
  wp (for_range lo hi body s) (I hi).
Proof.
  intros Hle HI Hbody. unfold for_range.
  enough (Hgen : ∀ n i s', lo ≤ i → i + Z.of_nat n = hi → I i s' →
            wp (rounds_all n i body s') (I hi)) by (apply Hgen; [lia|lia|done]).
  induction n as [|n IH]; intros i s' Hi Hn Hs'; simpl.
  - by replace hi with i by lia.
  - apply wp_bind. eapply wp_mono; [apply Hbody; [lia|done]|].
    intros s'' Hs''. apply IH; [lia|lia|done].
Qed.

Lemma for_range_empty lo hi (body : Z → S → outcome S) s :
  hi ≤ lo → for_range lo hi body s = Ret s.
Proof. intros H. unfold for_range. by replace (Z.to_nat (hi - lo)) with O by lia. Qed.

Lemma for_range_step lo hi (body : Z → S → outcome S) s :
  lo < hi → for_range lo hi body s = body lo s ≫= for_range (lo + 1) hi body.
Proof.
  intros H. unfold for_range.
  replace (Z.to_nat (hi - lo)) with (Datatypes.S (Z.to_nat (hi - (lo + 1)))) by lia. done.
Qed.

Lemma rounds_app n m i (body : Z → S → outcome (flow S R)) s :
  rounds (n + m) i body s =
    (f ← rounds n i body s;
     match f with Continue s' => rounds m (i + Z.of_nat n) body s' | Return r => Ret (Return r) end).
Proof.
  revert i s. induction n as [|n IH]; intros i s; simpl; [by rewrite Z.add_0_r|].
  destruct (body i s) as [[s'|r]| | |]; simpl; [|done..]. rewrite IH.
  by replace (i + 1 + Z.of_nat n) with (i + Z.pos (Pos.of_succ_nat n)) by lia.
Qed.

Lemma rounds_ext n i j (body body' : Z → S → outcome (flow S R)) s :
  (∀ k s, (0 ≤ k < Z.of_nat n) → body (i + k) s = body' (j + k) s) →
  rounds n i body s = rounds n j body' s.
Proof.
  revert i j s. induction n as [|n IH]; intros i j s H; [done|]. simpl.
  pose proof (H 0 s ltac:(lia)) as H0. rewrite !Z.add_0_r in H0. rewrite H0.
  destruct (body' j s) as [[s'|r]| | |]; simpl; [|done..]. apply IH. intros k s2 Hk.
  rewrite <- !Z.add_assoc. apply H. lia.
Qed.

Lemma for_return_ext lo hi (body body' : Z → S → outcome (flow S R)) s :
  (∀ i s, lo ≤ i < hi → body i s = body' i s) → for_return lo hi body s = for_return lo hi body' s.
Proof. intros H. apply rounds_ext. intros k s' Hk. apply H. lia. Qed.

(** Two nested loops that leave together are one loop. *)
Lemma for_return_nest a b (body : Z → S → outcome (flow S R)) s :
  0 ≤ a → 0 ≤ b →
  for_return 0 a (λ i, for_return 0 b (λ j, body (i * b + j))) s = for_return 0 (a * b) body s.
Proof.
  intros Ha Hb. unfold for_return. rewrite !Z.sub_0_r.
  enough (H : ∀ n i s, 0 ≤ i →
    rounds n i (λ i, rounds (Z.to_nat b) 0 (λ j, body (i * b + j))) s =
    rounds (n * Z.to_nat b) (i * b) body s).
  { rewrite H by lia. f_equal. lia. }
  induction n as [|n IH]; intros i s' Hi; [done|]. simpl. rewrite rounds_app.
  rewrite (rounds_ext (Z.to_nat b) 0 (i * b) _ body) by (intros; f_equal; lia).
  destruct (rounds (Z.to_nat b) (i * b) body s') as [[s2|r]| | |]; simpl; [|done..].
  rewrite IH by lia. f_equal. lia.
Qed.

(** The variant rule for loops without structural bound. *)
Lemma wp_while (I : S → Prop) (measure : S → nat) (Q : R → Prop) fuel body s :
  I s → (measure s < fuel)%nat →
  (∀ s', I s' →
     wp (body s') (λ f, match f with
                        | Continue s'' => I s'' ∧ (measure s'' < measure s')%nat
                        | Return r => Q r
                        end)) →
  wp (while_fuel fuel body s) Q.
Proof.
  intros HI Hfuel Hbody. revert s HI Hfuel. induction fuel as [|fuel IH]; intros s HI Hfuel; [lia|].
  simpl. apply wp_bind. eapply wp_mono; [by apply Hbody|].
  intros [s'|r]; [|done]. intros [HI' Hlt]. apply IH; [done|lia].
Qed.
End loop_lemmas.

Lemma u8_small x : 0 ≤ x < 256 → u8 x = x.
Proof. apply Z.mod_small. Qed.

Lemma u16_small x : 0 ≤ x < 2 ^ 16 → u16 x = x.
Proof. apply Z.mod_small. Qed.

Lemma s8_small x : - 2 ^ 7 ≤ x < 2 ^ 7 → s8 x = x.
Proof. intros H. unfold s8. rewrite Z.mod_small by lia. lia. Qed.

Lemma s8_byte x : 0 ≤ x < 256 → s8 x = if x <? 128 then x else x - 256.
Proof.
  intros H. unfold s8. destruct (Z.ltb_spec x 128).
  - rewrite Z.mod_small by lia. lia.
  - replace (x + 2 ^ 7) with (x - 128 + 1 * 2 ^ 8) by lia. rewrite Z_mod_plus_full, Z.mod_small by lia. lia.
Qed.

Lemma s32_small x : - 2 ^ 31 ≤ x < 2 ^ 31 → s32 x = x.
Proof. intros H. unfold s32. rewrite Z.mod_small by lia. lia. Qed.

Section u32_lemmas.
Lemma u32_small x : is_u32 x → u32 x = x.
Proof. apply Z.mod_small. Qed.

Lemma u32_range x : is_u32 (u32 x).
Proof. apply Z.mod_pos_bound. lia. Qed.

Lemma is_u32_shl1 j : is_u32 (shl1 j).
Proof. apply u32_range. Qed.

Lemma is_u32_not32 x : is_u32 (not32 x).
Proof. apply u32_range. Qed.

Lemma testbit_u32 x i : 0 ≤ i → Z.testbit (u32 x) i = (i <? 32) && Z.testbit x i.
Proof.
  intros Hi. unfold u32. destruct (Z.ltb_spec i 32); simpl.
  - by rewrite Z.mod_pow2_bits_low by lia.
  - by rewrite Z.mod_pow2_bits_high by lia.
Qed.

Lemma testbit_shl1 j i : 0 ≤ j → 0 ≤ i < 32 → Z.testbit (shl1 j) i = (i =? j).
Proof.
  intros Hj Hi. unfold shl1. rewrite testbit_u32, Z.shiftl_1_l by lia.
  rewrite Z.pow2_bits_eqb by lia.
  destruct (Z.ltb_spec i 32), (Z.eqb_spec j i), (Z.eqb_spec i j); simpl; try done; lia.
Qed.

Lemma shl1_small j : 0 ≤ j < 32 → shl1 j = 2 ^ j.
Proof.
  intros Hj. unfold shl1. rewrite Z.shiftl_1_l. apply u32_small.
  split; [lia|]. apply Z.pow_lt_mono_r; lia.
Qed.

Lemma is_u32_testbit x i : is_u32 x → 32 ≤ i → Z.testbit x i = false.
Proof.
  intros Hx Hi. rewrite <- (u32_small x Hx), testbit_u32 by lia.
  destruct (Z.ltb_spec i 32); [lia|done].
Qed.

(** Two 32-bit words with the same 32 bits are equal. *)
Lemma u32_bits_inj x y :
  is_u32 x → is_u32 y → (∀ i, 0 ≤ i < 32 → Z.testbit x i = Z.testbit y i) → x = y.
Proof.
  intros Hx Hy H. apply Z.bits_inj'. intros i Hi.
  destruct (decide (i < 32)); [by apply H|].
  rewrite !is_u32_testbit by (done || lia). done.
Qed.

Lemma is_u32_of_bits x : 0 ≤ x → (∀ i, 32 ≤ i → Z.testbit x i = false) → is_u32 x.
Proof.
  intros Hx H. enough (Heq : u32 x = x) by (rewrite <- Heq; apply u32_range).
  apply Z.bits_inj'. intros i Hi. rewrite testbit_u32 by lia.
  destruct (Z.ltb_spec i 32); simpl; [done|]. by rewrite H.
Qed.

Lemma is_u32_lor x y : is_u32 x → is_u32 y → is_u32 (Z.lor x y).
Proof.
  intros Hx Hy. apply is_u32_of_bits.
  - apply Z.lor_nonneg. unfold is_u32 in *. lia.
  - intros i Hi. by rewrite Z.lor_spec, !is_u32_testbit.
Qed.

Lemma is_u32_land x y : is_u32 x → is_u32 (Z.land x y).
Proof.
  intros Hx. apply is_u32_of_bits.
  - apply Z.land_nonneg. unfold is_u32 in *. lia.
  - intros i Hi. by rewrite Z.land_spec, is_u32_testbit.
Qed.

Lemma testbit_not32 x i : 0 ≤ i < 32 → Z.testbit (not32 x) i = negb (Z.testbit x i).
Proof.
  intros Hi. unfold not32. rewrite testbit_u32, Z.lnot_spec by lia.
  destruct (Z.ltb_spec i 32); [done|lia].
Qed.

Lemma truthy_false x : truthy x = false ↔ x = 0.
Proof. unfold truthy. by destruct (Z.eqb_spec x 0). Qed.

Lemma truthy_land_shl1 x j : 0 ≤ j < 32 → truthy (Z.land x (shl1 j)) = Z.testbit x j.
Proof.
  intros Hj. destruct (Z.testbit x j) eqn:Hb.
  - unfold truthy. destruct (Z.eqb_spec (Z.land x (shl1 j)) 0) as [He|]; [|done].
    exfalso. assert (Ht : Z.testbit (Z.land x (shl1 j)) j = true).
    { rewrite Z.land_spec, Hb, testbit_shl1, Z.eqb_refl by lia. done. }
    rewrite He, Z.bits_0 in Ht. done.
  - apply truthy_false. apply u32_bits_inj.
    + rewrite Z.land_comm. apply is_u32_land, u32_range.
    + unfold is_u32. lia.
    + intros i Hi. rewrite Z.land_spec, testbit_shl1, Z.bits_0 by lia.
      destruct (Z.eqb_spec i j); [subst; by rewrite Hb|by rewrite andb_false_r].
Qed.
End u32_lemmas.

Section array_lemmas.
Context {A : Type}.
Implicit Types l : list A.

Lemma array_get_Ret l i x : array_get l i = Ret x ↔ 0 ≤ i ∧ l !! Z.to_nat i = Some x.
Proof.
  unfold array_get. destruct (Z.leb_spec 0 i); [|split; [done|lia]].
  destruct (l !! Z.to_nat i); split; [by intros [= ->]|by intros [_ [= ->]]|done|by intros []].
Qed.

Lemma array_get_in l i :
  0 ≤ i < Z.of_nat (length l) → ∃ x, l !! Z.to_nat i = Some x ∧ array_get l i = Ret x.
Proof.
  intros Hi. destruct (lookup_lt_is_Some_2 l (Z.to_nat i)) as [x Hx]; [lia|].
  exists x. split; [done|]. apply array_get_Ret. split; [lia|done].
Qed.

Lemma array_get_out l i : ¬ (0 ≤ i < Z.of_nat (length l)) → array_get l i = Fault.
Proof.
  intros Hi. unfold array_get. destruct (Z.leb_spec 0 i); [|done].
  rewrite lookup_ge_None_2 by lia. done.
Qed.

Lemma array_set_in l i x :
  0 ≤ i < Z.of_nat (length l) → array_set l i x = Ret (<[Z.to_nat i := x]> l).
Proof.
  intros Hi. unfold array_set.
  destruct (Z.leb_spec 0 i), (Z.ltb_spec i (Z.of_nat (length l))); simpl; try lia. done.
Qed.

Lemma array_set_out l i x : ¬ (0 ≤ i < Z.of_nat (length l)) → array_set l i x = Fault.
Proof.
  intros Hi. unfold array_set.
  destruct (Z.leb_spec 0 i), (Z.ltb_spec i (Z.of_nat (length l))); simpl; try lia; done.
Qed.
End array_lemmas.

(** Filtering by two predicates that agree on the list. *)
Lemma filter_ext_elem {A} (P Q : A → Prop) `{∀ x, Decision (P x), ∀ x, Decision (Q x)} (l : list A) :
  (∀ x, x ∈ l → P x ↔ Q x) → filter P l = filter Q l.
Proof.
  induction l as [|x l IH]; intros H1; [done|].
  rewrite !filter_cons, IH by (intros; apply H1; by constructor).
  assert (HPQ : P x ↔ Q x) by (apply H1; by constructor).
  repeat case_decide; tauto || done.
Qed.

Lemma filter_all {A} (P : A → Prop) `{∀ x, Decision (P x)} (l : list A) :
  (∀ x, x ∈ l → P x) → filter P l = l.
Proof.
  induction l as [|x l IH]; intros H1; [done|].
  rewrite filter_cons_True by (apply H1; constructor).
  f_equal. apply IH. intros y Hy. apply H1. by constructor.
Qed.

Lemma filter_none {A} (P : A → Prop) `{∀ x, Decision (P x)} (l : list A) :
  (∀ x, x ∈ l → ¬ P x) → filter P l = [].
Proof.
  induction l as [|x l IH]; intros H1; [done|].
  rewrite filter_cons_False by (apply H1; constructor).
  apply IH. intros y Hy. apply H1. by constructor.
Qed.

(** * Automation *)

Create HintDb u32db.
#[export] Hint Resolve u32_range is_u32_shl1 is_u32_not32 is_u32_lor is_u32_land : u32db.

(** Unfold the range predicate and hand the goal to [lia]. *)
Ltac u32_lia := unfold is_u32 in *; lia.

(** Linear arithmetic with divisions and remainders. *)
Ltac div_lia := Z.to_euclidean_division_equations; lia.

(** Symbolic execution: expose the next step of a [wp] goal. *)
Ltac wp_step :=
  match goal with
  | |- wp (_ ≫= _) _ => apply wp_bind
  | |- wp (mret _) _ => apply wp_ret
  | |- wp (Ret _) _ => apply wp_ret
  end.
Ltac wp_steps := repeat (wp_step; cbv beta iota).

(** Case analysis on the boolean comparisons in sight. *)
Ltac case_bool :=
  match goal with
  | |- context [?x <? ?y] => let H := fresh "Hcmp" in destruct (Z.ltb_spec x y) as [H|H]
  | |- context [?x <=? ?y] => let H := fresh "Hcmp" in destruct (Z.leb_spec x y) as [H|H]
  | |- context [?x =? ?y] => let H := fresh "Hcmp" in destruct (Z.eqb_spec x y) as [H|H]
  end.

(** Take apart a hypothesis [m ≫= k = Ret b]. *)
Ltac inv_bind :=
  repeat match goal with
  | H : mbind _ _ = Ret _ |- _ =>
      let a := fresh "r" in let Ha := fresh "Hr" in let Hk := fresh "Hk" in
      apply bind_Ret_inv in H as (a & Ha & Hk)
  | H : Ret _ = Ret _ |- _ => injection H as H; subst
  end.
