(* ===== verification/Kernel.v ===== *)
(** Result codes, integer macros and address-space constants of
    [kernel/include/kernel/kernel.h]. *)
From stdpp Require Import base numbers list.
From Stdlib Require Import ZArith Lia.
From S2P Require Import Prelude.

(** * Result codes ([k_return_t]) *)
Definition K_SUCCESS : Z := 0.
Definition K_UNIMPL : Z := 1.
Definition K_OOM : Z := 2.
Definition K_IO : Z := 3.
Definition K_NOSPACE : Z := 4.
Definition K_NOTSUP : Z := 5.
Definition K_INVALOP : Z := 6.

Definition K_FAILED (code : Z) : bool := negb (code =? K_SUCCESS).

(** * Unsigned division: a zero divisor raises the CPU's divide error *)
Definition udiv (a b : Z) : outcome Z := if b =? 0 then Fault else Ret (a / b).
Definition umod (a b : Z) : outcome Z := if b =? 0 then Fault else Ret (a mod b).

(** [((a) - 1) / (b)) + 1] on 32-bit unsigned operands. *)
Definition DIV_ROUND_UP (a b : Z) : outcome Z :=
  q ← udiv (a ⊖ 1) b;
  Ret (q ⊕ 1).

(** [__max_impl_ulong] and its siblings: [(a>b)?a:b]. *)
Definition MAX (a b : Z) : Z := if b <? a then a else b.

(** * Address-space constants *)
Definition KVIRT_RESERVED : Z := 0x17c000.
Definition KVIRT_MAX : Z := 0x3FFFFFFF.
Definition PAGE_SIZE : Z := 4096.

(** * Specifications *)

(** The mathematical ceiling the macro is meant to compute. *)
Definition ceil_div (a b : Z) : Z := (a + b - 1) / b.

Lemma udiv_pos a b : 0 < b → udiv a b = Ret (a / b).
Proof. intros Hb. unfold udiv. destruct (Z.eqb_spec b 0); [lia|done]. Qed.

Lemma umod_pos a b : 0 < b → umod a b = Ret (a mod b).
Proof. intros Hb. unfold umod. destruct (Z.eqb_spec b 0); [lia|done]. Qed.

Lemma ceil_div_alt a b : 0 < b → ceil_div a b = (a - 1) / b + 1.
Proof.
  intros Hb. unfold ceil_div.
  replace (a + b - 1) with ((a - 1) + 1 * b) by lia.
  rewrite Z.div_add by lia. done.
Qed.

Lemma ceil_div_bounds a b : 0 < b → b * (ceil_div a b - 1) < a ≤ b * ceil_div a b.
Proof.
  intros Hb. rewrite ceil_div_alt by done.
  pose proof (Z.div_mod (a - 1) b ltac:(lia)). pose proof (Z.mod_pos_bound (a - 1) b Hb).
  lia.
Qed.

Lemma DIV_ROUND_UP_ceil a b :
  1 ≤ a < 2 ^ 32 → 1 ≤ b → DIV_ROUND_UP a b = Ret (ceil_div a b).
Proof.
  intros Ha Hb. unfold DIV_ROUND_UP. rewrite udiv_pos, Ret_bind by lia.
  rewrite (u32_small (a - 1)) by u32_lia. rewrite ceil_div_alt by lia. f_equal.
  destruct (decide (b = 1)) as [->|Hb1].
  - rewrite Z.div_1_r. apply u32_small. u32_lia.
  - apply u32_small. unfold is_u32.
    pose proof (Z.div_pos (a - 1) b ltac:(lia) ltac:(lia)).
    pose proof (Z.div_le_upper_bound (a - 1) b (2 ^ 31) ltac:(lia) ltac:(nia)). lia.
Qed.

(** At zero the macro wraps: the subtraction underflows. *)
Lemma DIV_ROUND_UP_zero b :
  2 ≤ b → DIV_ROUND_UP 0 b = Ret ((2 ^ 32 - 1) / b + 1).
Proof.
  intros Hb. unfold DIV_ROUND_UP. rewrite udiv_pos, Ret_bind by lia.
  change (0 ⊖ 1) with (2 ^ 32 - 1). f_equal. apply u32_small. unfold is_u32.
  pose proof (Z.div_pos (2 ^ 32 - 1) b ltac:(lia) ltac:(lia)).
  pose proof (Z.div_le_upper_bound (2 ^ 32 - 1) b (2 ^ 31) ltac:(lia) ltac:(nia)). lia.
Qed.

Lemma MAX_max a b : MAX a b = Z.max a b.
Proof. unfold MAX. destruct (Z.ltb_spec b a); lia. Qed.

(** Masking off the page offset. *)
(** Clearing the low [k] bits. *)
Lemma land_high_mask x k :
  is_u32 x → 0 ≤ k ≤ 32 → Z.land x (Z.shiftl (Z.ones (32 - k)) k) = x - x mod 2 ^ k.
Proof.
  intros Hx Hk. transitivity (Z.shiftl (Z.shiftr x k) k).
  - apply Z.bits_inj'. intros i Hi. rewrite Z.land_spec, !Z.shiftl_spec by lia. destruct (decide (i < k)).
    + rewrite !(Z.testbit_neg_r _ (i - k)) by lia. by rewrite andb_false_r.
    + rewrite Z.shiftr_spec, Z.sub_add by lia. destruct (decide (i < 32)).
      * rewrite Z.ones_spec_low by lia. by rewrite andb_true_r.
      * by rewrite is_u32_testbit by (done || lia).
  - rewrite Z.shiftr_div_pow2, Z.shiftl_mul_pow2 by lia.
    pose proof (Z.div_mod x (2 ^ k) ltac:(lia)). lia.
Qed.

Lemma land_page_mask x : is_u32 x → Z.land x 0xFFFFF000 = x - x mod PAGE_SIZE.
Proof. intros Hx. exact (land_high_mask x 12 Hx ltac:(lia)). Qed.

Lemma page_mask_aligned x : is_u32 x → Z.land x 0xFFFFF000 mod PAGE_SIZE = 0.
Proof. intros Hx. rewrite land_page_mask by done. by rewrite Zminus_mod_idemp_r, Z.sub_diag. Qed.

(** A page-aligned address is its page number times the page size. *)
Lemma aligned_page a : a mod PAGE_SIZE = 0 → a = a / PAGE_SIZE * PAGE_SIZE.
Proof. intros H. unfold PAGE_SIZE in *. pose proof (Z.div_mod a 4096). lia. Qed.
