(* ===== verification/Bitset.v ===== *)
(** Bitsets: [kernel/include/kernel/bitset.h].

    A [bitset] record is the C struct together with the words its [start]
    pointer points to: every bitset of the kernel owns the memory it was
    given, so the words are part of its state. *)
From stdpp Require Import base numbers list.
From Stdlib Require Import ZArith Lia.
From S2P Require Import Prelude Kernel.

(** * The code *)

Definition INDEX_FROM_BIT (a : Z) : Z := a / 32.
Definition OFFSET_FROM_BIT (a : Z) : Z := a mod 32.

Record bitset := Bitset {
  bs_length : Z;      (** number of entries *)
  bs_start : list Z   (** the words at [start] *)
}.

#[export] Instance bitset_eq_dec : EqDecision bitset.
Proof. solve_decision. Defined.

(** [memset(start, 0, DIV_ROUND_UP(length, 32)*sizeof(uint32_t))]. *)
Definition bitset_init (length : Z) : outcome bitset :=
  n ← DIV_ROUND_UP length 32;
  Ret (Bitset length (replicate (Z.to_nat n) 0)).

Definition bitset_set_bit (b : bitset) (n : Z) : outcome bitset :=
  _ ← assert (n <? bs_length b);
  w ← array_get (bs_start b) (INDEX_FROM_BIT n);
  ws ← array_set (bs_start b) (INDEX_FROM_BIT n) (Z.lor w (shl1 (OFFSET_FROM_BIT n)));
  Ret (Bitset (bs_length b) ws).

Definition bitset_get_bit (b : bitset) (n : Z) : outcome Z :=
  _ ← assert (n <? bs_length b);
  w ← array_get (bs_start b) (INDEX_FROM_BIT n);
  Ret (Z.land w (shl1 (OFFSET_FROM_BIT n))).

Definition bitset_clear_bit (b : bitset) (n : Z) : outcome bitset :=
  _ ← assert (n <? bs_length b);
  w ← array_get (bs_start b) (INDEX_FROM_BIT n);
  ws ← array_set (bs_start b) (INDEX_FROM_BIT n)
         (Z.land w (not32 (shl1 (OFFSET_FROM_BIT n))));
  Ret (Bitset (bs_length b) ws).

(** * The abstract view: a set of indices *)

(** Bit [n], as the set of entries sees it. *)
Definition bit (b : bitset) (n : Z) : bool :=
  Z.testbit (default 0 (bs_start b !! Z.to_nat (n / 32))) (n mod 32).

(** Well-formed: there is a 32-bit word for every group of 32 entries. *)
Record bs_wf (b : bitset) : Prop := BsWf {
  bs_wf_length : is_u32 (bs_length b);
  bs_wf_words : bs_length b ≤ 32 * Z.of_nat (length (bs_start b));
  bs_wf_u32 : Forall is_u32 (bs_start b)
}.

(** Number of clear entries. *)
Definition clear_in (b : bitset) (lo hi : Z) : list Z :=
  filter (λ n, bit b n = false) (seqZ lo (hi - lo)).
Definition count_clear (b : bitset) : Z := Z.of_nat (length (clear_in b 0 (bs_length b))).

(** Two bitsets are equivalent when they hold the same entries: the unused
    bits of the last word do not matter. *)
#[export] Instance bitset_equiv : Equiv bitset := λ b1 b2,
  bs_length b1 = bs_length b2 ∧ ∀ n, 0 ≤ n < bs_length b1 → bit b1 n = bit b2 n.

(** [b'] is [b] with bit [n] of the range [lo, hi) set to [v]. *)
Definition range_update (b b' : bitset) (lo hi : Z) (v : bool) : Prop :=
  bs_wf b' ∧ bs_length b' = bs_length b ∧
  ∀ n, 0 ≤ n → bit b' n = if decide (lo ≤ n < hi) then v else bit b n.

(** * Lemmas *)

#[export] Instance bitset_equivalence : Equivalence (≡@{bitset}).
Proof.
  split.
  - intros b. by split.
  - intros b1 b2 [Hl H]. split; [done|]. intros n Hn. symmetry. apply H. lia.
  - intros b1 b2 b3 [Hl1 H1] [Hl2 H2]. split; [congruence|]. intros n Hn.
    rewrite H1 by done. apply H2. lia.
Qed.

#[export] Instance count_clear_proper : Proper ((≡) ==> (=)) count_clear.
Proof.
  intros b1 b2 [Hl H]. unfold count_clear, clear_in. rewrite <- Hl. do 2 f_equal.
  apply filter_ext_elem. intros n Hn%elem_of_seqZ. by rewrite H by lia.
Qed.

Lemma word_index n : 0 ≤ n → 0 ≤ n / 32 ∧ 0 ≤ n mod 32 < 32 ∧ n = 32 * (n / 32) + n mod 32.
Proof. intros Hn. pose proof (Z.div_mod n 32). pose proof (Z.mod_pos_bound n 32). lia. Qed.

Lemma same_word n m : n / 32 = m / 32 → n mod 32 = m mod 32 → n = m.
Proof. intros H1 H2. rewrite (Z.div_mod n 32), (Z.div_mod m 32) by lia. lia. Qed.

Section access.
Context (b : bitset) (Hwf : bs_wf b).

Lemma word_lookup n :
  0 ≤ n < bs_length b →
  ∃ w, bs_start b !! Z.to_nat (n / 32) = Some w ∧
       array_get (bs_start b) (INDEX_FROM_BIT n) = Ret w ∧ is_u32 w.
Proof.
  intros Hn. destruct Hwf as [Hl Hw Hu].
  destruct (array_get_in (bs_start b) (n / 32)) as (w & Hw1 & Hw2).
  { pose proof (word_index n). lia. }
  exists w. split_and!; [done..|]. by eapply (Forall_lookup_1 _ _ _ _ Hu).
Qed.

(** Reading: the word's bit, nonzero exactly when the entry is in the set. *)
Lemma bitset_get_bit_spec n :
  0 ≤ n < bs_length b →
  ∃ v, bitset_get_bit b n = Ret v ∧ truthy v = bit b n.
Proof.
  intros Hn. destruct (word_lookup n Hn) as (w & Hw & Hget & _).
  exists (Z.land w (shl1 (OFFSET_FROM_BIT n))).
  unfold bitset_get_bit, assert. destruct (Z.ltb_spec n (bs_length b)); [|lia].
  rewrite Ret_bind, Hget. split; [done|].
  unfold bit. rewrite Hw. simpl. apply truthy_land_shl1. apply Z.mod_pos_bound. lia.
Qed.

(** A write of word [n / 32] by a word that agrees with the old one except
    at offset [n mod 32]. *)
Lemma word_update n w w' v :
  0 ≤ n < bs_length b →
  bs_start b !! Z.to_nat (n / 32) = Some w → is_u32 w' →
  (∀ i, 0 ≤ i < 32 → Z.testbit w' i = if decide (i = n mod 32) then v else Z.testbit w i) →
  range_update b (Bitset (bs_length b) (<[Z.to_nat (n / 32) := w']> (bs_start b))) n (n + 1) v.
Proof.
  intros Hn Hw Hw' Hbits. destruct Hwf as [Hl Hlen Hu]. split_and!.
  - split; simpl; [done|by rewrite length_insert|]. by apply Forall_insert.
  - done.
  - intros m Hm. unfold bit; simpl.
    destruct (word_index n ltac:(lia)) as (Hn1 & Hn2 & Hn3).
    destruct (word_index m Hm) as (Hm1 & Hm2 & Hm3).
    destruct (decide (m / 32 = n / 32)) as [He|Hne].
    + rewrite He, list_lookup_insert_eq by (by eapply lookup_lt_Some). simpl.
      rewrite Hbits, Hw by lia. simpl.
      destruct (decide (m mod 32 = n mod 32)), (decide (n ≤ m < n + 1)); lia || done.
    + rewrite list_lookup_insert_ne by lia.
      destruct (decide (n ≤ m < n + 1)) as [?|]; [|done].
      exfalso. apply Hne. f_equal. lia.
Qed.

Lemma bitset_set_bit_spec n :
  0 ≤ n < bs_length b →
  ∃ b', bitset_set_bit b n = Ret b' ∧ range_update b b' n (n + 1) true.
Proof.
  intros Hn. destruct (word_lookup n Hn) as (w & Hw & Hget & Hu).
  unfold bitset_set_bit, assert. destruct (Z.ltb_spec n (bs_length b)); [|lia].
  rewrite Ret_bind, Hget, Ret_bind. unfold INDEX_FROM_BIT, OFFSET_FROM_BIT.
  destruct (word_index n ltac:(lia)) as (Hn1 & Hn2 & Hn3).
  rewrite array_set_in, Ret_bind.
  2:{ pose proof (lookup_lt_Some _ _ _ Hw). lia. }
  eexists. split; [done|]. eapply word_update; [done..| |].
  - auto with u32db.
  - intros i Hi. rewrite Z.lor_spec, testbit_shl1 by lia.
    destruct (Z.eqb_spec i (n mod 32)), (decide (i = n mod 32)); try lia;
      by rewrite ?orb_true_r, ?orb_false_r.
Qed.

Lemma bitset_clear_bit_spec n :
  0 ≤ n < bs_length b →
  ∃ b', bitset_clear_bit b n = Ret b' ∧ range_update b b' n (n + 1) false.
Proof.
  intros Hn. destruct (word_lookup n Hn) as (w & Hw & Hget & Hu).
  unfold bitset_clear_bit, assert. destruct (Z.ltb_spec n (bs_length b)); [|lia].
  rewrite Ret_bind, Hget, Ret_bind. unfold INDEX_FROM_BIT, OFFSET_FROM_BIT.
  destruct (word_index n ltac:(lia)) as (Hn1 & Hn2 & Hn3).
  rewrite array_set_in, Ret_bind.
  2:{ pose proof (lookup_lt_Some _ _ _ Hw). lia. }
  eexists. split; [done|]. eapply word_update; [done..| |].
  - auto with u32db.
  - intros i Hi. rewrite Z.land_spec, testbit_not32, testbit_shl1 by lia.
    destruct (Z.eqb_spec i (n mod 32)), (decide (i = n mod 32)); try lia;
      by rewrite ?andb_false_r, ?andb_true_r.
Qed.
End access.

(** ** Updates of ranges *)

Lemma range_update_refl b lo v : bs_wf b → range_update b b lo lo v.
Proof. intros Hwf. split_and!; [done..|]. intros n Hn. case_decide; [lia|done]. Qed.

Lemma range_update_trans b1 b2 b3 lo mid hi v :
  lo ≤ mid ≤ hi →
  range_update b1 b2 lo mid v → range_update b2 b3 mid hi v → range_update b1 b3 lo hi v.
Proof.
  intros Hle (_ & Hl2 & H2) (Hwf & Hl3 & H3). split_and!; [done|congruence|].
  intros n Hn. rewrite H3, H2 by done. repeat case_decide; lia || done.
Qed.

(** Setting (clearing) the entries of a range one by one. *)
Definition set_range (b : bitset) (lo hi : Z) : outcome bitset :=
  for_range lo hi (λ i b, bitset_set_bit b i) b.
Definition clear_range (b : bitset) (lo hi : Z) : outcome bitset :=
  for_range lo hi (λ i b, bitset_clear_bit b i) b.

Lemma set_range_spec b lo hi :
  bs_wf b → 0 ≤ lo ≤ hi → hi ≤ bs_length b →
  wp (set_range b lo hi) (λ b', range_update b b' lo hi true).
Proof.
  intros Hwf Hlo Hhi. apply (wp_for_range (λ i b', range_update b b' lo i _));
    [lia|by apply range_update_refl|].
  intros i b' Hi Hb'. pose proof Hb' as (Hwf' & Hl & _).
  destruct (bitset_set_bit_spec b' Hwf' i) as (b'' & -> & Hb''); [lia|].
  eapply range_update_trans; [|done..]. lia.
Qed.

Lemma clear_range_spec b lo hi :
  bs_wf b → 0 ≤ lo ≤ hi → hi ≤ bs_length b →
  wp (clear_range b lo hi) (λ b', range_update b b' lo hi false).
Proof.
  intros Hwf Hlo Hhi. apply (wp_for_range (λ i b', range_update b b' lo i _));
    [lia|by apply range_update_refl|].
  intros i b' Hi Hb'. pose proof Hb' as (Hwf' & Hl & _).
  destruct (bitset_clear_bit_spec b' Hwf' i) as (b'' & -> & Hb''); [lia|].
  eapply range_update_trans; [|done..]. lia.
Qed.

(** Setting and then clearing a range that was clear restores the set. *)
Lemma range_update_undo b1 b2 b3 lo hi v :
  (∀ n, lo ≤ n < hi → bit b1 n = negb v) →
  range_update b1 b2 lo hi v → range_update b2 b3 lo hi (negb v) → b3 ≡ b1.
Proof.
  intros Hv (_ & Hl2 & H2) (_ & Hl3 & H3). split; [congruence|]. intros n Hn.
  rewrite H3 by lia. case_decide; [by rewrite Hv|]. rewrite H2 by lia.
  case_decide; [lia|done].
Qed.

(** A fresh bitset is empty. *)
Lemma bitset_init_spec n :
  1 ≤ n < 2 ^ 32 →
  ∃ b, bitset_init n = Ret b ∧ bs_wf b ∧ bs_length b = n ∧ ∀ m, bit b m = false.
Proof.
  intros Hn. unfold bitset_init. rewrite DIV_ROUND_UP_ceil, Ret_bind by lia.
  pose proof (ceil_div_bounds n 32 ltac:(lia)).
  eexists. split_and!; [done| |done|].
  - split; simpl; [u32_lia|rewrite length_replicate; lia|].
    apply Forall_replicate. u32_lia.
  - intros m. unfold bit; simpl.
    destruct (replicate _ _ !! _) as [w|] eqn:Hw; simpl; [|by rewrite Z.bits_0].
    apply lookup_replicate in Hw as [-> _]. by rewrite Z.bits_0.
Qed.

(** ** Counting *)

Lemma clear_in_split b lo mid hi :
  lo ≤ mid ≤ hi → clear_in b lo hi = clear_in b lo mid ++ clear_in b mid hi.
Proof.
  intros H. unfold clear_in. rewrite <- filter_app. f_equal.
  replace (hi - lo) with ((mid - lo) + (hi - mid)) by lia.
  rewrite seqZ_app by lia. do 2 f_equal. lia.
Qed.

Lemma clear_in_ext b b' lo hi :
  (∀ n, lo ≤ n < hi → bit b n = bit b' n) → clear_in b lo hi = clear_in b' lo hi.
Proof.
  intros H. apply filter_ext_elem. intros n Hn%elem_of_seqZ. by rewrite H by lia.
Qed.

Lemma clear_in_const b lo hi v :
  lo ≤ hi → (∀ n, lo ≤ n < hi → bit b n = v) →
  Z.of_nat (length (clear_in b lo hi)) = if v then 0 else hi - lo.
Proof.
  intros Hle H.
  replace (clear_in b lo hi) with (if v then [] else seqZ lo (hi - lo)).
  { destruct v; simpl; [done|]. rewrite length_seqZ. lia. }
  unfold clear_in. destruct v; symmetry.
  - apply filter_none. intros n Hn%elem_of_seqZ. by rewrite H by lia.
  - apply filter_all. intros n Hn%elem_of_seqZ. apply H. lia.
Qed.

Lemma count_clear_nonneg b : 0 ≤ count_clear b.
Proof. unfold count_clear. lia. Qed.

Lemma count_clear_le b : 0 ≤ bs_length b → count_clear b ≤ bs_length b.
Proof.
  intros Hl. unfold count_clear, clear_in.
  pose proof (length_filter (λ n, bit b n = false) (seqZ 0 (bs_length b - 0))) as Hle.
  rewrite length_seqZ in Hle. lia.
Qed.

(** A range update that flips every entry of the range changes the number of
    clear entries by the size of the range. *)
Lemma range_update_count b b' lo hi v :
  0 ≤ lo ≤ hi → hi ≤ bs_length b →
  (∀ n, lo ≤ n < hi → bit b n = negb v) →
  range_update b b' lo hi v →
  count_clear b' = count_clear b + if v then - (hi - lo) else hi - lo.
Proof.
  intros Hlo Hhi Hold (_ & Hl & Hbits). unfold count_clear. rewrite Hl.
  rewrite !(clear_in_split _ 0 lo (bs_length b)), !(clear_in_split _ lo hi (bs_length b)) by lia.
  rewrite (clear_in_ext b' b 0 lo), (clear_in_ext b' b hi (bs_length b)).
  2,3: intros n Hn; rewrite Hbits by lia; case_decide; [lia|done].
  rewrite !length_app, !Nat2Z.inj_add.
  rewrite (clear_in_const b lo hi (negb v)), (clear_in_const b' lo hi v) by
    (lia || done || (intros n Hn; rewrite Hbits by lia; case_decide; [done|lia])).
  destruct v; simpl; lia.
Qed.
