(* ===== verification/Alloc.v ===== *)
(** The kernel allocation interface: [kernel/mm/alloc.c], [kernel/include/mm/alloc.h].

    [kalloc_data] is a pair of function pointers; a provider (the early
    placement allocator, then the kernel heap) installs itself in it.  The
    interface is generic in the state [S] the provider works on. *)
From stdpp Require Import base numbers list.
From Stdlib Require Import ZArith Lia.
From S2P Require Import Prelude Kernel.

(** * Allocation flags *)
Definition KALLOC_CRITICAL : Z := Z.shiftl 1 0.
Definition KALLOC_GENERAL : Z := Z.shiftl 1 1.
Definition KALLOC_PAGE_ALIGN : Z := Z.shiftl 1 2.

(** [flags & mask] as a condition. *)
Definition has_flag (flags mask : Z) : bool := truthy (Z.land flags mask).

(** * The interface

    [kalloc_malloc_real size phys flags]: the boolean [phys] says whether the
    C pointer argument is non-null; the optional result is what the provider
    stores through it. *)
Record kalloc_interface (S : Type) := KallocInterface {
  ki_malloc_real : option (Z → bool → Z → S → outcome (Z * option Z * S));
  ki_free : option (Z → S → outcome S)
}.
Arguments KallocInterface {S} _ _.
Arguments ki_malloc_real {S} _.
Arguments ki_free {S} _.

(** Both pointers start out null. *)
Definition kalloc_data_initial {S} : kalloc_interface S := KallocInterface None None.

Section entry_points.
Context {S : Type} (kalloc_data : kalloc_interface S).

(** [ASSERT(kalloc_data.f)]: the function pointer must be installed. *)
Definition installed {F} (f : option F) : outcome F :=
  match f with Some g => Ret g | None => Abort end.

Definition kalloc_malloc_real (size : Z) (phys : bool) (flags : Z) (s : S)
    : outcome (Z * option Z * S) :=
  f ← installed (ki_malloc_real kalloc_data);
  f size phys flags s.

Definition kmalloc_a (size flags : Z) (s : S) : outcome (Z * S) :=
  f ← installed (ki_malloc_real kalloc_data);
  '(p, _, s') ← f size false (Z.lor flags KALLOC_PAGE_ALIGN) s;
  Ret (p, s').

Definition kmalloc_p (size flags : Z) (s : S) : outcome (Z * option Z * S) :=
  f ← installed (ki_malloc_real kalloc_data);
  f size true flags s.

Definition kmalloc_ap (size flags : Z) (s : S) : outcome (Z * option Z * S) :=
  f ← installed (ki_malloc_real kalloc_data);
  f size true (Z.lor flags KALLOC_PAGE_ALIGN) s.

Definition kmalloc (size flags : Z) (s : S) : outcome (Z * S) :=
  f ← installed (ki_malloc_real kalloc_data);
  '(p, _, s') ← f size false flags s;
  Ret (p, s').

Definition kfree (addr : Z) (s : S) : outcome S :=
  f ← installed (ki_free kalloc_data);
  f addr s.
End entry_points.

(** * What a provider promises

    [Provider ki inv used]: in a state satisfying [inv], the bytes [used s]
    are in use; a nonzero result of the provider is a fresh range of the
    requested size inside the 32-bit address space, page aligned when that was
    asked for, and the range is in use afterwards.  A zero result changes
    nothing that is in use. *)
Class Provider {S} (ki : kalloc_interface S) (inv : S → Prop) (used : S → Z → Prop) := {
  provider_malloc :
    ∃ f, ki_malloc_real ki = Some f ∧
    ∀ size phys flags s, inv s → 1 ≤ size < 2 ^ 31 → is_u32 flags →
      ∀ p ph s', f size phys flags s = Ret (p, ph, s') →
        inv s' ∧ (∀ a, used s a → used s' a) ∧
        (p ≠ 0 →
           p + size ≤ 2 ^ 32 ∧ 0 < p ∧
           (has_flag flags KALLOC_PAGE_ALIGN = true → p mod PAGE_SIZE = 0) ∧
           (∀ a, p ≤ a < p + size → ¬ used s a ∧ used s' a))
}.

Section clients.
Context {S} (ki : kalloc_interface S) {inv : S → Prop} {used : S → Z → Prop}
  `{!Provider ki inv used}.

(** Two allocations in a row never overlap, whoever the provider is. *)
Lemma kmalloc_disjoint size1 size2 fl1 fl2 s p1 p2 s1 s2 :
  inv s → 1 ≤ size1 < 2 ^ 31 → 1 ≤ size2 < 2 ^ 31 → is_u32 fl1 → is_u32 fl2 →
  kmalloc ki size1 fl1 s = Ret (p1, s1) → kmalloc ki size2 fl2 s1 = Ret (p2, s2) →
  p1 ≠ 0 → p2 ≠ 0 → ∀ a, ¬ (p1 ≤ a < p1 + size1 ∧ p2 ≤ a < p2 + size2).
Proof.
  destruct provider_malloc as (f & Hf & Hspec). unfold kmalloc, installed. rewrite Hf.
  intros Hinv H1 H2 Hf1 Hf2 Hk1 Hk2 Hp1 Hp2 a [Ha1 Ha2].
  apply bind_Ret_inv in Hk1 as (? & [= <-] & Hk1).
  apply bind_Ret_inv in Hk1 as ([[q1 o1] t1] & Hk1 & [= -> ->]).
  apply bind_Ret_inv in Hk2 as (? & [= <-] & Hk2).
  apply bind_Ret_inv in Hk2 as ([[q2 o2] t2] & Hk2 & [= -> ->]).
  apply Hspec in Hk1 as (Hinv1 & _ & Hr1); [|done..].
  apply Hspec in Hk2 as (_ & _ & Hr2); [|done..].
  destruct Hr1 as (_ & _ & _ & Hr1); [done|]. destruct Hr2 as (_ & _ & _ & Hr2); [done|].
  destruct (Hr2 a Ha2) as [Hn _]. apply Hn. by apply Hr1.
Qed.
End clients.
