(* ===== verification/Meminfo.v ===== *)
(** Boot-time memory information: [kernel/arch/i386/mem.c] (ELF sections,
    memory map, reserved ranges), with the record of [mem.h] and the layouts of
    [multiboot.h] and [elf.h].

    The boot loader leaves the multiboot structures in physical memory; the
    functions here only read them, so that memory is a function from addresses
    to bytes. *)
From stdpp Require Import base numbers list.
From Stdlib Require Import ZArith Lia.
From S2P Require Import Prelude Kernel.

(** * Memory states ([enum mem_states_t]) *)
Definition MEM_RESERVED : Z := 0.
Definition MEM_FREE : Z := 1.
Definition MEM_NONEXISTANT : Z := 2.

Definition EARLY_HEAP_MAXSIZE : Z := 0x50000.

(** * The boot image *)
Definition boot_mem := Z → Z.

(** [n] little-endian bytes from address [a]. *)
Fixpoint read_le (mem : boot_mem) (n : nat) (a : Z) : Z :=
  match n with
  | O => 0
  | S n' => mem (u32 a) mod 256 + 256 * read_le mem n' (a + 1)
  end.
Definition read32 (mem : boot_mem) (a : Z) : Z := read_le mem 4 a.
Definition read64 (mem : boot_mem) (a : Z) : Z := read_le mem 8 a.

(** [struct multiboot_info], up to the fields the kernel reads. *)
Record multiboot_info := MultibootInfo {
  mbi_flags : Z; mbi_mem_lower : Z; mbi_mem_upper : Z;
  mbi_elf_num : Z; mbi_elf_size : Z; mbi_elf_addr : Z; mbi_elf_shndx : Z;
  mbi_mmap_length : Z; mbi_mmap_addr : Z
}.
Definition sizeof_multiboot_info : Z := 88.

Definition read_multiboot_info (mem : boot_mem) (p : Z) : multiboot_info :=
  MultibootInfo (read32 mem p) (read32 mem (p + 4)) (read32 mem (p + 8))
    (read32 mem (p + 28)) (read32 mem (p + 32)) (read32 mem (p + 36)) (read32 mem (p + 40))
    (read32 mem (p + 44)) (read32 mem (p + 48)).

(** [struct multiboot_mmap_entry], packed. *)
Record mmap_entry := MmapEntry {
  me_size : Z; me_addr : Z; me_len : Z; me_type : Z
}.
Definition MULTIBOOT_MEMORY_AVAILABLE : Z := 1.
Definition MULTIBOOT_MEMORY_RESERVED : Z := 2.

Definition read_mmap_entry (mem : boot_mem) (p : Z) : mmap_entry :=
  MmapEntry (read32 mem p) (read64 mem (p + 4)) (read64 mem (p + 12)) (read32 mem (p + 20)).

#[export] Instance mmap_entry_eq_dec : EqDecision mmap_entry.
Proof. solve_decision. Defined.
#[global] Arguments read_mmap_entry : simpl never.

(** [struct elf_section_header]: ten 32-bit fields, [sh_addr] is the fourth. *)
Definition sizeof_elf_section_header : Z := 40.
Definition read_sh_addr (mem : boot_mem) (p : Z) : Z := read32 mem (p + 12).

(** * [struct i386_mem_info] *)
Record i386_mem_info := MemInfo {
  mboot_header : Z;
  mmap_length : Z;
  mmap : Z;
  elf_sec_num : Z;            (** [elf_sec->num] *)
  elf_sec_addr : Z;           (** [elf_sec->addr] *)
  kernel_reserved_start : Z;
  kernel_reserved_end : Z;
  multiboot_reserved_start : Z;
  multiboot_reserved_end : Z;
  kernel_heap_start : Z;
  kernel_heap_curpos : Z;
  mem_lower : Z;
  mem_upper : Z;
  highest_free_address : Z
}.

(** ** Reading the ELF section headers: [_i386_elf_sections_read] *)

(** The highest [sh_addr] of [n] headers from [cur_header]. *)
Fixpoint elf_max_addr (mem : boot_mem) (n : nat) (cur_header best : Z) : Z :=
  match n with
  | O => best
  | S n' =>
      let sh_addr := read_sh_addr mem cur_header in
      elf_max_addr mem n' (cur_header ⊕ sizeof_elf_section_header)
        (if best <? sh_addr then sh_addr else best)
  end.

(** Returns [(kernel_reserved_start, kernel_reserved_end)]. *)
Definition i386_elf_sections_read (mem : boot_mem) (num addr : Z) : Z * Z :=
  let cur_header := addr ⊕ sizeof_elf_section_header in
  let max_addr := elf_max_addr mem (Z.to_nat (num ⊖ 1)) cur_header 0 in
  (read_sh_addr mem cur_header, max_addr ⊕ max_addr mod 0x1000).

(** ** Looking an address up in the memory map: [_i386_mmap_check_reserved] *)

(** What one entry says about [addr]: [None] when [addr] is outside it. *)
Definition mmap_entry_verdict (e : mmap_entry) (addr : Z) : option Z :=
  let current_entry_end := u32 (me_addr e + me_len e) in
  if (me_addr e <=? addr) && (addr <=? current_entry_end) then
    Some (if me_type e =? MULTIBOOT_MEMORY_RESERVED then MEM_RESERVED
          else if current_entry_end <? addr ⊕ PAGE_SIZE then MEM_RESERVED
          else MEM_FREE)
  else None.

Fixpoint mmap_walk (fuel : nat) (mem : boot_mem) (addr cur_mmap_addr mmap_end_addr : Z)
    : outcome Z :=
  match fuel with
  | O => NoFuel
  | S fuel' =>
      if cur_mmap_addr <? mmap_end_addr then
        let current_entry := read_mmap_entry mem cur_mmap_addr in
        match mmap_entry_verdict current_entry addr with
        | Some v => Ret v
        | None =>
            mmap_walk fuel' mem addr (cur_mmap_addr ⊕ (me_size current_entry ⊕ 4)) mmap_end_addr
        end
      else Ret MEM_NONEXISTANT
  end.

(** One round per four bytes of the map is enough when no entry wraps. *)
Definition i386_mmap_check_reserved (mem : boot_mem) (meminfo : i386_mem_info) (addr : Z)
    : outcome Z :=
  mmap_walk (S (Z.to_nat (mmap_length meminfo / 4 + 1))) mem addr (mmap meminfo)
    (mmap meminfo ⊕ mmap_length meminfo).

(** ** [i386_mem_check_reserved] *)
Definition in_range (x lo hi : Z) : bool := (lo <=? x) && (x <=? hi).

Definition i386_mem_check_reserved (mem : boot_mem) (meminfo : i386_mem_info) (addr : Z)
    : outcome Z :=
  let addr_end := addr ⊕ PAGE_SIZE in
  if addr_end <=? 0x1000 then Ret MEM_RESERVED
  else if in_range addr (kernel_reserved_start meminfo) (kernel_reserved_end meminfo)
       || in_range addr_end (kernel_reserved_start meminfo) (kernel_reserved_end meminfo)
  then Ret MEM_RESERVED
  else if in_range addr (multiboot_reserved_start meminfo) (multiboot_reserved_end meminfo)
       || in_range addr_end (multiboot_reserved_start meminfo) (multiboot_reserved_end meminfo)
  then Ret MEM_RESERVED
  else
    mmap_reserved ← i386_mmap_check_reserved mem meminfo addr;
    if negb (mmap_reserved =? MEM_FREE) then Ret mmap_reserved else Ret MEM_FREE.

(** * Specification of the memory map *)

(** [mmap_at mem a es z]: the entries [es] lie one after the other in memory
    from [a], the last one ends at [z], and none wraps around. *)
Inductive mmap_at (mem : boot_mem) : Z → list mmap_entry → Z → Prop :=
| mmap_at_nil a : mmap_at mem a [] a
| mmap_at_cons a e es z :
    read_mmap_entry mem a = e → 0 ≤ a → 0 ≤ me_size e →
    a + (me_size e + 4) < 2 ^ 32 →
    mmap_at mem (a + (me_size e + 4)) es z →
    mmap_at mem a (e :: es) z.

(** The first entry that has an opinion decides. *)
Fixpoint mmap_verdict (es : list mmap_entry) (addr : Z) : Z :=
  match es with
  | [] => MEM_NONEXISTANT
  | e :: es' =>
      match mmap_entry_verdict e addr with Some v => v | None => mmap_verdict es' addr end
  end.

(** * Lemmas *)

Lemma mmap_at_length mem a es z : mmap_at mem a es z → a + 4 * Z.of_nat (length es) ≤ z.
Proof. induction 1; simpl length; lia. Qed.

(** The walk over the raw bytes is the list lookup, given enough rounds. *)
Lemma mmap_walk_verdict mem addr a es z fuel :
  mmap_at mem a es z → (length es < fuel)%nat →
  mmap_walk fuel mem addr a z = Ret (mmap_verdict es addr).
Proof.
  intros Hat. revert fuel. induction Hat as [a|a e es z He Ha Hsize Hwrap Hat IH];
    intros [|fuel] Hfuel; simpl in Hfuel; try lia; cbn [mmap_walk mmap_verdict].
  - by rewrite Z.ltb_irrefl.
  - pose proof (mmap_at_length _ _ _ _ Hat).
    destruct (Z.ltb_spec a z); [|lia]. cbv zeta. rewrite He.
    destruct (mmap_entry_verdict e addr); [done|].
    rewrite (u32_small (me_size e + 4)), u32_small by u32_lia. apply IH. lia.
Qed.

Lemma i386_mmap_check_reserved_verdict mem meminfo es addr :
  mmap_at mem (mmap meminfo) es (mmap meminfo + mmap_length meminfo) →
  0 ≤ mmap meminfo → mmap meminfo + mmap_length meminfo < 2 ^ 32 →
  i386_mmap_check_reserved mem meminfo addr = Ret (mmap_verdict es addr).
Proof.
  intros Hat Hm Hl. pose proof (mmap_at_length _ _ _ _ Hat).
  unfold i386_mmap_check_reserved. rewrite u32_small by u32_lia.
  apply mmap_walk_verdict; [done|].
  pose proof (Z.div_le_lower_bound (mmap_length meminfo) 4 (Z.of_nat (length es))). lia.
Qed.

(** The entry holds the address, its end included. *)
Definition covers (e : mmap_entry) (addr : Z) : Prop := me_addr e ≤ addr ≤ u32 (me_addr e + me_len e).

(** The first entry that holds the address decides; it must not be reserved
    and must hold the whole page. *)
Definition free_in_map (es : list mmap_entry) (addr : Z) : Prop :=
  ∃ before e after, es = before ++ e :: after ∧ (∀ e', e' ∈ before → ¬ covers e' addr) ∧ covers e addr ∧
    me_type e ≠ MULTIBOOT_MEMORY_RESERVED ∧ addr + PAGE_SIZE ≤ u32 (me_addr e + me_len e).

Lemma mmap_verdict_free es addr :
  0 ≤ addr → addr + PAGE_SIZE < 2 ^ 32 → mmap_verdict es addr = MEM_FREE ↔ free_in_map es addr.
Proof.
  intros Ha Hpage. unfold PAGE_SIZE in Hpage. induction es as [|e es IH]; simpl.
  { split; [done|]. by intros ([|? ?] & ? & ? & ? & _). }
  assert (Hc : mmap_entry_verdict e addr = None ∧ ¬ covers e addr ∨ covers e addr ∧
            mmap_entry_verdict e addr = Some (if me_type e =? MULTIBOOT_MEMORY_RESERVED then MEM_RESERVED
              else if u32 (me_addr e + me_len e) <? addr + PAGE_SIZE then MEM_RESERVED else MEM_FREE)).
  { unfold mmap_entry_verdict, covers. rewrite (u32_small (addr + PAGE_SIZE)) by (unfold PAGE_SIZE; u32_lia).
    destruct (Z.leb_spec (me_addr e) addr), (Z.leb_spec addr (u32 (me_addr e + me_len e))); simpl;
      [right|left; split; [done|]..]; lia || done. }
  destruct Hc as [[-> Hn]|[Hy ->]].
  - rewrite IH. split.
    + intros (l & e1 & r & -> & Hl & H). exists (e :: l), e1, r. split; [done|]. split; [|done].
      intros e' [->|He]%elem_of_cons; [done|by apply Hl].
    + intros ([|e0 l] & e1 & r & [= -> ->] & Hl & Hcov & H); [done|]. exists l, e1, r. split; [done|]. split; [|done].
      intros e' He. apply Hl. by right.
  - split.
    + intros Hv. exists [], e, es. split; [done|]. split; [by intros e' He%elem_of_nil|]. split; [done|].
      destruct (Z.eqb_spec (me_type e) MULTIBOOT_MEMORY_RESERVED); [done|]. split; [done|].
      destruct (Z.ltb_spec (u32 (me_addr e + me_len e)) (addr + PAGE_SIZE)); done || lia.
    + intros ([|e0 l] & e1 & r & [= -> ->] & Hl & _ & Ht & Hend).
      * destruct (Z.eqb_spec (me_type e1) MULTIBOOT_MEMORY_RESERVED); [done|].
        destruct (Z.ltb_spec (u32 (me_addr e1 + me_len e1)) (addr + PAGE_SIZE)); done || lia.
      * exfalso. apply (Hl e0); [by left|done].
Qed.

(** ** Reserved pages *)

(** No address of the page at [addr], nor the one after it, is in [[lo, hi]]. *)
Definition page_clear (addr lo hi : Z) : Prop := ∀ a, addr ≤ a ≤ addr + PAGE_SIZE → ¬ (lo ≤ a ≤ hi).

(** Testing both ends of a page against a range that is at least a page long,
    or that starts on a page boundary, finds every overlap. *)
Lemma endpoints_clear addr lo hi :
  PAGE_SIZE - 1 ≤ hi - lo ∨ (addr mod PAGE_SIZE = 0 ∧ lo mod PAGE_SIZE = 0) →
  in_range addr lo hi || in_range (addr + PAGE_SIZE) lo hi = false ↔ page_clear addr lo hi.
Proof.
  unfold in_range, page_clear, PAGE_SIZE. intros Hsize. split.
  - intros H a Ha Hin. assert (addr < lo ∧ hi < addr + 4096) as [Hlo Hhi] by lia.
    destruct Hsize as [|[Hm1 Hm2]]; [lia|].
    pose proof (Z.div_mod addr 4096). pose proof (Z.div_mod lo 4096). lia.
  - intros H. pose proof (H addr). pose proof (H (addr + 4096)). lia.
Qed.

Section reserved.
Context (mem : boot_mem) (meminfo : i386_mem_info) (es : list mmap_entry).
Context (Hat : mmap_at mem (mmap meminfo) es (mmap meminfo + mmap_length meminfo)).
Context (Hm : 0 ≤ mmap meminfo) (Hl : mmap meminfo + mmap_length meminfo < 2 ^ 32).
Context (Hk : kernel_reserved_start meminfo mod PAGE_SIZE = 0).
Context (Hb : PAGE_SIZE - 1 ≤ multiboot_reserved_end meminfo - multiboot_reserved_start meminfo).

Lemma check_reserved_free_iff addr :
  0 ≤ addr → addr + PAGE_SIZE < 2 ^ 32 → addr mod PAGE_SIZE = 0 →
  i386_mem_check_reserved mem meminfo addr = Ret MEM_FREE ↔
    addr ≠ 0 ∧ page_clear addr (kernel_reserved_start meminfo) (kernel_reserved_end meminfo) ∧
    page_clear addr (multiboot_reserved_start meminfo) (multiboot_reserved_end meminfo) ∧ free_in_map es addr.
Proof.
  intros Ha Hpage Hal. unfold i386_mem_check_reserved.
  rewrite (u32_small (addr + PAGE_SIZE)) by (unfold PAGE_SIZE in *; u32_lia).
  rewrite <- (endpoints_clear _ _ _ (or_intror (conj Hal Hk))), <- (endpoints_clear addr _ _ (or_introl Hb)).
  rewrite <- mmap_verdict_free by done.
  destruct (Z.leb_spec (addr + PAGE_SIZE) 4096) as [|Hne].
  { unfold PAGE_SIZE in *. split; [done|]. intros [? _]. lia. }
  assert (addr ≠ 0) by (unfold PAGE_SIZE in *; lia).
  destruct (in_range addr (kernel_reserved_start _) _ || _); [by split; [|intros (_ & ? & _)]|].
  destruct (in_range addr (multiboot_reserved_start _) _ || _); [by split; [|intros (_ & _ & ? & _)]|].
  erewrite i386_mmap_check_reserved_verdict, Ret_bind by done.
  destruct (Z.eqb_spec (mmap_verdict es addr) MEM_FREE) as [Hv|Hv]; simpl; [tauto|].
  split; [by intros [= ?]|tauto].
Qed.
End reserved.

(** ** The section headers *)

(** The address of section [k]. *)
Definition section_addr (mem : boot_mem) (elf k : Z) : Z :=
  read_sh_addr mem (elf ⊕ sizeof_elf_section_header * k).

Lemma elf_max_addr_ge mem n elf k0 best :
  let r := elf_max_addr mem n (elf ⊕ sizeof_elf_section_header * k0) best in
  best ≤ r ∧ ∀ k, k0 ≤ k < k0 + Z.of_nat n → section_addr mem elf k ≤ r.
Proof.
  revert k0 best. induction n as [|n IH]; intros k0 best; cbn [elf_max_addr]; [split; simpl; lia|].
  replace (elf ⊕ sizeof_elf_section_header * k0 ⊕ sizeof_elf_section_header)
    with (elf ⊕ sizeof_elf_section_header * (k0 + 1)) by (unfold u32; rewrite Zplus_mod_idemp_l; f_equal; lia).
  fold (section_addr mem elf k0).
  set (best' := if best <? section_addr mem elf k0 then section_addr mem elf k0 else best).
  destruct (IH (k0 + 1) best') as [H1 H2].
  assert (best ≤ best' ∧ section_addr mem elf k0 ≤ best') as [? ?] by (unfold best'; case_bool; lia).
  split; [lia|]. intros k Hk. destruct (decide (k = k0)) as [->|]; [lia|]. apply H2. lia.
Qed.

Lemma elf_max_addr_le mem n elf k0 best hi :
  best ≤ hi → (∀ k, k0 ≤ k < k0 + Z.of_nat n → section_addr mem elf k ≤ hi) →
  elf_max_addr mem n (elf ⊕ sizeof_elf_section_header * k0) best ≤ hi.
Proof.
  revert k0 best. induction n as [|n IH]; intros k0 best Hb Hs; cbn [elf_max_addr]; [lia|].
  replace (elf ⊕ sizeof_elf_section_header * k0 ⊕ sizeof_elf_section_header)
    with (elf ⊕ sizeof_elf_section_header * (k0 + 1)) by (unfold u32; rewrite Zplus_mod_idemp_l; f_equal; lia).
  fold (section_addr mem elf k0). apply IH; [|intros k Hk; apply Hs; lia].
  pose proof (Hs k0 ltac:(lia)). case_bool; lia.
Qed.

(** The kernel range runs from the start of section 1 to the highest start of
    a section and its remainder modulo 4096. *)
Lemma elf_sections_range mem num elf lo hi :
  1 ≤ num < 2 ^ 32 → (∀ k, 1 ≤ k < num → section_addr mem elf k ≤ 2 ^ 32 - 2 * PAGE_SIZE) →
  i386_elf_sections_read mem num elf = (lo, hi) →
  lo = section_addr mem elf 1 ∧ ∀ k, 1 ≤ k < num → section_addr mem elf k ≤ hi.
Proof.
  intros Hnum Hs. unfold i386_elf_sections_read. intros [= <- <-].
  unfold section_addr at 1. split; [by rewrite Z.mul_1_r|]. intros k Hk.
  rewrite (u32_small (num - 1)) by u32_lia.
  destruct (elf_max_addr_ge mem (Z.to_nat (num - 1)) elf 1 0) as [H0 H1].
  pose proof (elf_max_addr_le mem (Z.to_nat (num - 1)) elf 1 0 (2 ^ 32 - 2 * PAGE_SIZE)
    ltac:(unfold PAGE_SIZE; lia) ltac:(intros; apply Hs; lia)) as H2.
  specialize (H1 k ltac:(lia)). rewrite Z.mul_1_r in H0, H1, H2.
  set (m := elf_max_addr _ _ _ _) in *. unfold PAGE_SIZE in *.
  pose proof (Z.mod_pos_bound m 4096 ltac:(lia)). rewrite u32_small by u32_lia. lia.
Qed.

(** C13: the reserved-page test, exactly.  For a page below the end of the
    address space, if the kernel starts at a page boundary and the multiboot
    range is at least a page long, [i386_mem_check_reserved] reports the page
    free if and only if it is not page 0, neither it nor the byte after it lies
    in the kernel range or in the multiboot range, and the first entry of the
    memory map that holds its address is not of type 2 and holds the whole
    page.  The kernel range is that of [_i386_elf_sections_read]: no section
    starts in a page reported free, unless it starts below section 1.  The
    range ends where the highest section starts (plus that address modulo
    4096), so the pages of that section which lie behind are judged by the
    memory map alone, which the equivalence says as well. *)
Theorem i386_mem_check_reserved_exact mem meminfo es addr :
  mmap_at mem (mmap meminfo) es (mmap meminfo + mmap_length meminfo) →
  0 ≤ mmap meminfo → mmap meminfo + mmap_length meminfo < 2 ^ 32 →
  0 ≤ addr → addr + PAGE_SIZE < 2 ^ 32 → addr mod PAGE_SIZE = 0 →
  kernel_reserved_start meminfo mod PAGE_SIZE = 0 →
  PAGE_SIZE - 1 ≤ multiboot_reserved_end meminfo - multiboot_reserved_start meminfo →
  (i386_mem_check_reserved mem meminfo addr = Ret MEM_FREE ↔
     addr ≠ 0 ∧ page_clear addr (kernel_reserved_start meminfo) (kernel_reserved_end meminfo) ∧
     page_clear addr (multiboot_reserved_start meminfo) (multiboot_reserved_end meminfo) ∧
     free_in_map es addr) ∧
  (∀ num elf k, 1 ≤ k < num → num < 2 ^ 32 →
     (∀ j, 1 ≤ j < num → section_addr mem elf j ≤ 2 ^ 32 - 2 * PAGE_SIZE) →
     i386_elf_sections_read mem num elf = (kernel_reserved_start meminfo, kernel_reserved_end meminfo) →
     i386_mem_check_reserved mem meminfo addr = Ret MEM_FREE →
     addr ≤ section_addr mem elf k < addr + PAGE_SIZE → section_addr mem elf k < section_addr mem elf 1).
Proof.
  intros Hat Hm Hl Ha Hpage Hal Hk Hb.
  pose proof (check_reserved_free_iff mem meminfo es Hat Hm Hl Hk Hb addr Ha Hpage Hal) as Hiff.
  split; [exact Hiff|]. intros num elf k Hk1 Hnum Hs Hread Hfree Hin.
  apply Hiff in Hfree as (_ & Hclear & _).
  destruct (elf_sections_range mem num elf _ _ ltac:(lia) Hs Hread) as [Hlo Hhi].
  specialize (Hclear (section_addr mem elf k) ltac:(lia)). specialize (Hhi k ltac:(lia)). lia.
Qed.
