(* ===== verification/EarlyHeap.v ===== *)
(** The early placement allocator: [i386_mem_kmalloc_real] and its wrappers in
    [kernel/arch/i386/mem.c].  It is the provider behind [kmalloc] until the
    kernel heap is installed. *)
From stdpp Require Import base numbers list.
From Stdlib Require Import ZArith Lia.
From S2P Require Import Prelude Kernel Alloc Meminfo.

(** * The code *)

Definition with_curpos (m : i386_mem_info) (pos : Z) : i386_mem_info :=
  MemInfo (mboot_header m) (mmap_length m) (mmap m) (elf_sec_num m) (elf_sec_addr m)
    (kernel_reserved_start m) (kernel_reserved_end m)
    (multiboot_reserved_start m) (multiboot_reserved_end m)
    (kernel_heap_start m) pos (mem_lower m) (mem_upper m) (highest_free_address m).

(** The position after the alignment step. *)
Definition early_align (flags curpos : Z) : Z :=
  if has_flag flags KALLOC_PAGE_ALIGN && negb (curpos mod PAGE_SIZE =? 0) then
    Z.land curpos (0x100000000 - PAGE_SIZE) ⊕ PAGE_SIZE
  else if negb (has_flag flags KALLOC_PAGE_ALIGN) && negb (curpos mod 8 =? 0) then
    curpos ⊕ (8 - curpos mod 8)
  else curpos.

Definition i386_mem_kmalloc_real (size : Z) (phys : bool) (flags : Z) (m : i386_mem_info)
    : outcome (Z * option Z * i386_mem_info) :=
  if negb (has_flag flags KALLOC_CRITICAL) then Ret (0, None, m)
  else if kernel_heap_start m ⊕ EARLY_HEAP_MAXSIZE
          <? size ⊕ kernel_heap_curpos m ⊕ PAGE_SIZE then Ret (0, None, m)
  else
    let pos := early_align flags (kernel_heap_curpos m) in
    Ret (pos, if phys then Some pos else None, with_curpos m (pos ⊕ size)).

(** The stub for [kfree] only prints. *)
Definition i386_mem_kfree (addr : Z) (m : i386_mem_info) : outcome i386_mem_info := Ret m.

(** What [i386_mem_init] installs in [kalloc_data]. *)
Definition early_kalloc : kalloc_interface i386_mem_info :=
  KallocInterface (Some i386_mem_kmalloc_real) (Some i386_mem_kfree).

Definition i386_mem_kmalloc (size : Z) (m : i386_mem_info) : outcome (Z * i386_mem_info) :=
  '(p, _, m') ← i386_mem_kmalloc_real size false KALLOC_CRITICAL m; Ret (p, m').
Definition i386_mem_kmalloc_a (size : Z) (m : i386_mem_info) : outcome (Z * i386_mem_info) :=
  '(p, _, m') ← i386_mem_kmalloc_real size false (Z.lor KALLOC_CRITICAL KALLOC_PAGE_ALIGN) m;
  Ret (p, m').
Definition i386_mem_kmalloc_p (size : Z) (m : i386_mem_info)
    : outcome (Z * option Z * i386_mem_info) :=
  i386_mem_kmalloc_real size true KALLOC_CRITICAL m.
Definition i386_mem_kmalloc_ap (size : Z) (m : i386_mem_info)
    : outcome (Z * option Z * i386_mem_info) :=
  i386_mem_kmalloc_real size true (Z.lor KALLOC_CRITICAL KALLOC_PAGE_ALIGN) m.

(** * Invariant *)

(** The cursor stays inside the early heap, which ends well below 2 GiB. *)
Record early_inv (m : i386_mem_info) : Prop := EarlyInv {
  early_start : 0 < kernel_heap_start m < 2 ^ 30;
  early_pos : kernel_heap_start m ≤ kernel_heap_curpos m
                ≤ kernel_heap_start m + EARLY_HEAP_MAXSIZE
}.

(** Bytes below the cursor are in use. *)
Definition early_used (m : i386_mem_info) (a : Z) : Prop := a < kernel_heap_curpos m.

(** * Lemmas *)

Lemma early_align_spec flags pos :
  0 ≤ pos < 2 ^ 31 →
  pos ≤ early_align flags pos < pos + PAGE_SIZE ∧
  (if has_flag flags KALLOC_PAGE_ALIGN then early_align flags pos mod PAGE_SIZE = 0
   else early_align flags pos mod 8 = 0).
Proof.
  intros Hp. unfold early_align.
  pose proof (Z.mod_pos_bound pos PAGE_SIZE eq_refl).
  pose proof (Z.mod_pos_bound pos 8 eq_refl).
  destruct (has_flag flags KALLOC_PAGE_ALIGN); simpl.
  - destruct (Z.eqb_spec (pos mod PAGE_SIZE) 0); simpl; [unfold PAGE_SIZE in *; lia|].
    change (0x100000000 - PAGE_SIZE) with 0xFFFFF000.
    rewrite land_page_mask by u32_lia. unfold PAGE_SIZE in *.
    rewrite u32_small by u32_lia. split; [lia|].
    replace (pos - pos mod 4096 + 4096) with ((pos / 4096 + 1) * 4096)
      by (pose proof (Z.div_mod pos 4096); lia).
    apply Z.mod_mul. lia.
  - destruct (Z.eqb_spec (pos mod 8) 0); simpl; [unfold PAGE_SIZE; lia|].
    rewrite u32_small by u32_lia. split; [unfold PAGE_SIZE; lia|].
    replace (pos + (8 - pos mod 8)) with ((pos / 8 + 1) * 8)
      by (pose proof (Z.div_mod pos 8); lia).
    apply Z.mod_mul. lia.
Qed.

(** What a call does, on every branch. *)
Lemma i386_mem_kmalloc_real_spec size phys flags m :
  early_inv m → 1 ≤ size < 2 ^ 31 →
  ∃ p ph m', i386_mem_kmalloc_real size phys flags m = Ret (p, ph, m') ∧ early_inv m' ∧
    (p = 0 ∧ m' = m ∧
       (has_flag flags KALLOC_CRITICAL = false ∨
        kernel_heap_start m + EARLY_HEAP_MAXSIZE < size + kernel_heap_curpos m + PAGE_SIZE)
     ∨ kernel_heap_curpos m ≤ p ∧ p = early_align flags (kernel_heap_curpos m) ∧
       p + size = kernel_heap_curpos m' ∧ m' = with_curpos m (p + size) ∧
       p + size ≤ kernel_heap_start m + EARLY_HEAP_MAXSIZE ∧
       ph = (if phys then Some p else None)).
Proof.
  intros Hinv Hsize. pose proof Hinv as [Hs Hc].
  unfold i386_mem_kmalloc_real, EARLY_HEAP_MAXSIZE, PAGE_SIZE in *.
  destruct (has_flag flags KALLOC_CRITICAL); simpl.
  2:{ eexists _, _, _. split_and!; [done..|]. left. auto. }
  rewrite !u32_small by (rewrite ?u32_small; u32_lia).
  case_bool.
  { eexists _, _, _. split_and!; [done..|]. left. auto. }
  pose proof (early_align_spec flags (kernel_heap_curpos m) ltac:(lia)) as [Hal _].
  unfold PAGE_SIZE in Hal. rewrite u32_small by u32_lia.
  eexists _, _, _. split_and!; [done| |].
  - split; simpl; unfold EARLY_HEAP_MAXSIZE; lia.
  - right. split_and!; simpl; try done; lia.
Qed.

(** The early heap keeps the promise of the allocation interface. *)
#[export] Instance early_provider : Provider early_kalloc early_inv early_used.
Proof.
  split. exists i386_mem_kmalloc_real. split; [done|].
  intros size phys flags s Hinv Hsize Hfl p ph s' Hcall.
  destruct (i386_mem_kmalloc_real_spec size phys flags s Hinv Hsize)
    as (p' & ph' & m' & Hcall' & Hinv' & Hres).
  rewrite Hcall in Hcall'. injection Hcall' as <- <- <-. pose proof Hinv as [Hs Hc].
  unfold EARLY_HEAP_MAXSIZE, early_used in *.
  destruct Hres as [(-> & -> & _)|(Hp & Hal & Hpos & _ & Hend & _)].
  - split_and!; [done|auto|done].
  - split_and!; [done|lia|]. intros _. split_and!; [lia|lia| |intros; lia].
    intros Hf. pose proof (early_align_spec flags (kernel_heap_curpos s) ltac:(lia)) as [_ H].
    rewrite Hf in H. congruence.
Qed.
