(* ===== verification/Frames.v ===== *)
(** The physical frame allocator and the initialisation of the memory
    subsystem: [i386_mem_init], [_i386_mem_init_bitset],
    [i386_mem_allocate_frame] and friends in [kernel/arch/i386/mem.c]. *)
From stdpp Require Import base numbers list.
From Stdlib Require Import ZArith Lia.
From S2P Require Import Prelude Kernel Bitset Alloc Meminfo EarlyHeap.

(** * The code *)

(** ** Frames *)

(** [i386_mem_get_next_free_frame]: the first clear bit, or 0. *)
Definition i386_mem_get_next_free_frame (meminfo : i386_mem_info) (b : bitset) : outcome Z :=
  r ← for_return 0 (INDEX_FROM_BIT (highest_free_address meminfo / PAGE_SIZE)) (λ i _,
        w ← array_get (bs_start b) i;
        if w =? 0xFFFFFFFF then Ret (Continue ())
        else
          for_return 0 32 (λ j _,
            w' ← array_get (bs_start b) i;
            if negb (truthy (Z.land w' (shl1 j))) then Ret (Return (i ⊗ 32 ⊕ j))
            else Ret (Continue ())) ()) ();
  match r with
  | Return f => Ret f
  | Continue _ => Ret 0
  end.

Definition i386_mem_allocate_frame (meminfo : i386_mem_info) (b : bitset)
    : outcome (Z * bitset) :=
  next_free_frame ← i386_mem_get_next_free_frame meminfo b;
  if truthy next_free_frame then
    b' ← bitset_set_bit b next_free_frame;
    Ret (next_free_frame, b')
  else Ret (next_free_frame, b).

Definition i386_mem_free_frame (frame : Z) (b : bitset) : outcome bitset :=
  bitset_clear_bit b frame.

Definition i386_mem_get_frame_start_addr (num : Z) : Z := num ⊗ PAGE_SIZE.
Definition i386_mem_get_frame_num (addr : Z) : Z := addr / PAGE_SIZE.

(** ** Initialisation *)

Fixpoint init_bitset_loop (fuel : nat) (mem : boot_mem) (meminfo : i386_mem_info)
    (i : Z) (b : bitset) : outcome bitset :=
  match fuel with
  | O => NoFuel
  | S fuel' =>
      if i ⊕ PAGE_SIZE <? highest_free_address meminfo then
        v ← i386_mem_check_reserved mem meminfo i;
        b' ← (if v =? MEM_RESERVED then bitset_set_bit b (i / PAGE_SIZE) else Ret b);
        init_bitset_loop fuel' mem meminfo (i ⊕ PAGE_SIZE) b'
      else Ret b
  end.

(** One round per page of memory. *)
Definition i386_mem_init_bitset (mem : boot_mem) (meminfo : i386_mem_info) (b : bitset)
    : outcome bitset :=
  init_bitset_loop (S (Z.to_nat (highest_free_address meminfo / PAGE_SIZE + 1)))
    mem meminfo 0 b.

(** What [i386_mem_init] leaves behind: the global [meminfo], the frame bitset
    with the address of its words, and the allocator installed in
    [kalloc_data]. *)
Record mem_state := MemState {
  ms_meminfo : i386_mem_info;
  ms_bitset : bitset;
  ms_bitset_start : Z;
  ms_kalloc : kalloc_interface i386_mem_info
}.

(** The fields of [meminfo] filled in before the first allocation. *)
Definition meminfo_of_header (mem : boot_mem) (mboot : Z) : i386_mem_info :=
  let h := read_multiboot_info mem mboot in
  let '(kstart, kend) := i386_elf_sections_read mem (mbi_elf_num h) (mbi_elf_addr h) in
  let heap_start := Z.land (kend ⊕ 0x1000) 0xFFFFF000 in
  MemInfo mboot (mbi_mmap_length h) (mbi_mmap_addr h) (mbi_elf_num h) (mbi_elf_addr h)
    kstart kend
    mboot (mboot ⊕ sizeof_multiboot_info * sizeof_multiboot_info)
    heap_start heap_start
    (mbi_mem_lower h) (mbi_mem_upper h) (mbi_mem_upper h ⊗ 1024).

Definition i386_mem_init (mem : boot_mem) (mboot : Z) : outcome mem_state :=
  let flags := mbi_flags (read_multiboot_info mem mboot) in
  if negb (truthy (Z.land flags (shl1 6))) then Abort
  else if negb (truthy (Z.land flags (shl1 5))) then Abort
  else
    let meminfo := meminfo_of_header mem mboot in
    let bitset_length := highest_free_address meminfo / 0x1000 in
    n ← DIV_ROUND_UP bitset_length 32;
    let bitset_size := n ⊗ 4 in
    '(bitset_start, meminfo') ← i386_mem_kmalloc bitset_size meminfo;
    b ← bitset_init bitset_length;
    b' ← i386_mem_init_bitset mem meminfo' b;
    Ret (MemState meminfo' b' bitset_start early_kalloc).

(** * Invariant *)

(** The bitset has one entry per frame below the highest free address. *)
Record frames_inv (meminfo : i386_mem_info) (b : bitset) : Prop := FramesInv {
  frames_wf : bs_wf b;
  frames_high : is_u32 (highest_free_address meminfo);
  frames_length : bs_length b = highest_free_address meminfo / PAGE_SIZE
}.

(** The frames the allocator hands out: it looks at whole words only. *)
Definition n_frames (b : bitset) : Z := 32 * (bs_length b / 32).

(** * Lemmas *)

Section frames.
Context (meminfo : i386_mem_info) (b : bitset) (Hinv : frames_inv meminfo b).

Lemma n_frames_bounds : 0 ≤ n_frames b ≤ bs_length b ∧ bs_length b < 2 ^ 20.
Proof.
  destruct Hinv as [[Hl _ _] Hh Hlen]. unfold n_frames, is_u32 in *.
  pose proof (Z.div_mod (bs_length b) 32). pose proof (Z.mod_pos_bound (bs_length b) 32).
  pose proof (Z.div_pos (bs_length b) 32). unfold PAGE_SIZE in *.
  pose proof (Z.div_lt_upper_bound (highest_free_address meminfo) 4096 (2 ^ 20)). lia.
Qed.

(** The word at index [i], bit by bit. *)
Lemma frame_word i :
  0 ≤ i < bs_length b / 32 →
  ∃ w, array_get (bs_start b) i = Ret w ∧ is_u32 w ∧
       ∀ j, 0 ≤ j < 32 → Z.testbit w j = bit b (32 * i + j).
Proof.
  intros Hi. destruct Hinv as [Hwf _ _].
  assert (Hn : 0 ≤ 32 * i < bs_length b).
  { pose proof (Z.div_mod (bs_length b) 32). pose proof (Z.mod_pos_bound (bs_length b) 32). lia. }
  destruct (word_lookup b Hwf (32 * i) Hn) as (w & Hw & Hget & Hu).
  unfold INDEX_FROM_BIT in Hget. rewrite Z.mul_comm, Z.div_mul in Hw, Hget by lia.
  exists w. split_and!; [done..|]. intros j Hj. unfold bit.
  rewrite (Z.mul_comm 32 i), Z.div_add_l, Z.div_small, Z.add_0_r, Hw by lia. simpl.
  rewrite Z.add_comm, Z.mod_add, Z.mod_small by lia. done.
Qed.

(** The search finds the lowest clear frame, and returns 0 when there is none. *)
Lemma get_next_free_frame_spec :
  wp (i386_mem_get_next_free_frame meminfo b) (λ f,
    (0 ≤ f < n_frames b ∧ bit b f = false ∧ ∀ n, 0 ≤ n < f → bit b n = true)
    ∨ (f = 0 ∧ ∀ n, 0 ≤ n < n_frames b → bit b n = true)).
Proof.
  destruct n_frames_bounds as [Hn Hlen]. unfold n_frames in *.
  unfold i386_mem_get_next_free_frame, INDEX_FROM_BIT.
  rewrite <- (frames_length _ _ Hinv). apply wp_bind.
  apply (wp_for_return (λ i _, ∀ n, 0 ≤ n < 32 * i → bit b n = true)); [lia|lia| |].
  2:{ intros _ Hall. apply wp_ret. by right. }
  intros i _ Hi Hall. destruct (frame_word i Hi) as (w & Hget & Hu & Hbits).
  rewrite Hget, Ret_bind. case_bool.
  - apply wp_ret. intros n Hn'. destruct (decide (n < 32 * i)); [apply Hall; lia|].
    replace n with (32 * i + (n - 32 * i)) by lia. rewrite <- Hbits by lia. subst w.
    change 0xFFFFFFFF with (Z.ones 32). apply Z.ones_spec_low. lia.
  - apply (wp_for_return (λ j _, ∀ n, 0 ≤ n < 32 * i + j → bit b n = true)).
    + lia.
    + intros m Hm. apply Hall. lia.
    + intros j _ Hj Hlow. rewrite Ret_bind, truthy_land_shl1, Hbits by lia.
      destruct (bit b (32 * i + j)) eqn:Hb; simpl.
      * intros m Hm. destruct (decide (m = 32 * i + j)); [by subst|]. apply Hlow. lia.
      * rewrite !u32_small by (rewrite ?u32_small; u32_lia). left.
        rewrite (Z.mul_comm i 32). split_and!; [lia|lia|done|done].
    + intros _ Hlow m Hm. apply Hlow. lia.
Qed.

(** Allocation: a frame that was clear becomes set and nothing else changes;
    a zero result changes nothing. *)
Lemma allocate_frame_spec :
  wp (i386_mem_allocate_frame meminfo b) (λ '(f, b'),
    (0 < f < n_frames b ∧ bit b f = false ∧ (∀ n, 0 ≤ n < f → bit b n = true) ∧
     frames_inv meminfo b' ∧ range_update b b' f (f + 1) true)
    ∨ (f = 0 ∧ b' = b ∧
       ((∀ n, 0 ≤ n < n_frames b → bit b n = true) ∨ bit b 0 = false))).
Proof.
  unfold i386_mem_allocate_frame. apply wp_bind.
  destruct n_frames_bounds as [Hn Hlen].
  eapply wp_mono; [apply get_next_free_frame_spec|]. intros f Hf.
  unfold truthy. destruct (Z.eqb_spec f 0) as [->|Hf0]; simpl.
  - right. split_and!; [done..|]. destruct Hf as [(?&?&?)|[_ ?]]; auto.
  - destruct Hf as [(Hf & Hb & Hlow)|[? _]]; [|lia].
    destruct (bitset_set_bit_spec b (frames_wf _ _ Hinv) f) as (b' & -> & Hup); [lia|].
    simpl. left. pose proof Hup as (Hwf' & Hl' & _). destruct Hinv.
    split_and!; [lia|lia|done..| |done]. split; [done..|congruence].
Qed.

(** When frame 0 is clear the search finds it first, and its number is the
    value that stands for "none". *)
Lemma allocate_frame_zero :
  bit b 0 = false → i386_mem_allocate_frame meminfo b = Ret (0, b).
Proof.
  intros Hb. unfold i386_mem_allocate_frame.
  pose proof get_next_free_frame_spec as (f & -> & Hf)%wp_inv. rewrite Ret_bind.
  assert (f = 0) as ->; [|done]. destruct Hf as [(Hf & _ & Hlow)|[-> _]]; [|done].
  destruct (decide (f = 0)); [done|]. rewrite Hlow in Hb by lia. done.
Qed.
End frames.

Lemma frames_inv_update meminfo b b' lo hi v :
  frames_inv meminfo b → range_update b b' lo hi v → frames_inv meminfo b'.
Proof. intros [] (Hwf & Hl & _). split; [done..|congruence]. Qed.
#[export] Hint Resolve frames_inv_update : u32db.

(** ** Initialisation *)

(** What the loop puts in the bitset: the frames that lie entirely below the
    highest free address and whose page is reported reserved. *)
Definition initially_reserved (mem : boot_mem) (meminfo : i386_mem_info) (n : Z) : Prop :=
  n * PAGE_SIZE + PAGE_SIZE < highest_free_address meminfo ∧
  i386_mem_check_reserved mem meminfo (n * PAGE_SIZE) = Ret MEM_RESERVED.

(** The memory map of [meminfo] is a list of entries in memory. *)
Definition mmap_ok (mem : boot_mem) (meminfo : i386_mem_info) : Prop :=
  0 ≤ mmap meminfo ∧ mmap meminfo + mmap_length meminfo < 2 ^ 32 ∧
  ∃ es, mmap_at mem (mmap meminfo) es (mmap meminfo + mmap_length meminfo).

Lemma check_reserved_total mem meminfo addr :
  mmap_ok mem meminfo → ∃ v, i386_mem_check_reserved mem meminfo addr = Ret v.
Proof.
  intros (Hm & Hl & es & Hat). unfold i386_mem_check_reserved.
  rewrite (i386_mmap_check_reserved_verdict _ _ es) by done.
  repeat case_match; eauto. simpl. case_match; eauto.
Qed.

Lemma init_bitset_loop_spec mem meminfo fuel k b :
  mmap_ok mem meminfo →
  frames_inv meminfo b → highest_free_address meminfo ≤ 2 ^ 32 - PAGE_SIZE →
  0 ≤ k → (Z.to_nat (highest_free_address meminfo / PAGE_SIZE + 1 - k) < fuel)%nat →
  k = 0 ∨ k * PAGE_SIZE < highest_free_address meminfo →
  wp (init_bitset_loop fuel mem meminfo (k * PAGE_SIZE) b) (λ b',
    frames_inv meminfo b' ∧
    ∀ n, 0 ≤ n → bit b' n = true ↔ bit b n = true ∨ (k ≤ n ∧ initially_reserved mem meminfo n)).
Proof.
  intros Hmm Hinv Hhigh. revert k b Hinv.
  induction fuel as [|fuel IH]; intros k b Hinv Hk Hfuel Hkle; [lia|].
  pose proof Hinv as [Hwf Hhi Hlen]. pose proof (Z.div_mod (highest_free_address meminfo) PAGE_SIZE).
  pose proof (Z.mod_pos_bound (highest_free_address meminfo) PAGE_SIZE eq_refl).
  cbn [init_bitset_loop]. rewrite u32_small by (unfold PAGE_SIZE in *; u32_lia). case_bool.
  2:{ apply wp_ret. split; [done|]. intros n Hn. unfold initially_reserved, PAGE_SIZE in *.
      split; [auto|]. intros [?|(? & ? & _)]; [done|lia]. }
  destruct (check_reserved_total mem meminfo (k * PAGE_SIZE) Hmm) as [v Hv].
  rewrite Hv, Ret_bind. apply wp_bind.
  assert (Hb : wp (if v =? MEM_RESERVED then bitset_set_bit b (k * PAGE_SIZE / PAGE_SIZE)
                   else Ret b) (λ b', frames_inv meminfo b' ∧ ∀ n, 0 ≤ n →
            bit b' n = true ↔ bit b n = true ∨ (n = k ∧ v = MEM_RESERVED))).
  { case_bool; [|apply wp_ret; split; [done|]; intros j Hj; split; [auto|by intros [?|[_ ?]]]].
    rewrite Z.div_mul by done.
    destruct (bitset_set_bit_spec b Hwf k) as (b' & -> & Hup).
    { unfold PAGE_SIZE in *. lia. }
    apply wp_ret. split; [by eapply frames_inv_update|]. intros n Hn.
    destruct Hup as (_ & _ & ->); [|done]. case_decide; split; try tauto; try done.
    - intros _. right. split; [lia|done].
    - intros [|[? _]]; [done|lia]. }
  eapply wp_mono; [apply Hb|]. intros b' [Hinv' Hbits].
  replace (k * PAGE_SIZE + PAGE_SIZE) with ((k + 1) * PAGE_SIZE) by lia.
  eapply wp_mono; [apply IH; [done|lia| |]|].
  - unfold PAGE_SIZE in *. lia.
  - unfold PAGE_SIZE in *. lia.
  - intros b'' [Hinv'' Hbits']. split; [done|]. intros n Hn.
    rewrite Hbits', Hbits by done. unfold initially_reserved.
    destruct (decide (n = k)) as [->|].
    + rewrite Hv. split; [intros [[?|[_ ->]]|[? _]]|intros [?|(_ & _ & [= ->])]; auto].
      * by left.
      * right. split_and!; [lia|lia|done].
      * lia.
    + split; [intros [[?|[? _]]|[? ?]]|intros [?|[? ?]]; auto].
      * by left.
      * done.
      * right. split; [lia|done].
      * right. split; [lia|done].
Qed.

(** The bitset's words never exhaust the early heap: even 4 GiB of memory
    needs only 128 KiB of bitset. *)
Lemma bitset_fits m len :
  early_inv m → kernel_heap_curpos m = kernel_heap_start m →
  kernel_heap_start m mod PAGE_SIZE = 0 → 1 ≤ len < 2 ^ 20 →
  let size := ceil_div len 32 ⊗ 4 in
  size = 4 * ceil_div len 32 ∧ 1 ≤ ceil_div len 32 ≤ 2 ^ 15 ∧
  i386_mem_kmalloc size m
    = Ret (kernel_heap_start m, with_curpos m (kernel_heap_start m + size)) ∧
  early_inv (with_curpos m (kernel_heap_start m + size)).
Proof.
  intros Hinv Hpos Hal Hlen size.
  pose proof (ceil_div_bounds len 32 ltac:(lia)).
  assert (Hsize : size = 4 * ceil_div len 32).
  { unfold size. rewrite u32_small; [lia|u32_lia]. }
  destruct (i386_mem_kmalloc_real_spec size false KALLOC_CRITICAL m Hinv)
    as (p & ph & m' & Hcall & Hinv' & Hres); [lia|].
  split; [done|]. split; [lia|].
  destruct Hres as [(_ & _ & [Hf|Hf])|(_ & Hp & _ & Hm' & _)]; [done| |].
  { rewrite Hpos in Hf. unfold EARLY_HEAP_MAXSIZE, PAGE_SIZE in Hf. lia. }
  assert (p = kernel_heap_start m) as ->.
  { rewrite Hp, Hpos. unfold early_align. simpl.
    replace (kernel_heap_start m mod 8) with 0; [done|].
    unfold PAGE_SIZE in Hal. pose proof (Z.div_mod (kernel_heap_start m) 4096).
    symmetry. replace (kernel_heap_start m) with (kernel_heap_start m / 4096 * 512 * 8) by lia.
    by rewrite Z.mod_mul. }
  subst m'. split; [|done]. unfold i386_mem_kmalloc. by rewrite Hcall.
Qed.

Lemma heap_start_aligned mem mboot :
  kernel_heap_start (meminfo_of_header mem mboot) mod PAGE_SIZE = 0.
Proof.
  unfold meminfo_of_header. case_match. simpl.
  apply page_mask_aligned, u32_range.
Qed.

Lemma mem_init_run mem mboot :
  let h := read_multiboot_info mem mboot in
  let mi := meminfo_of_header mem mboot in
  Z.testbit (mbi_flags h) 6 = true → Z.testbit (mbi_flags h) 5 = true →
  mmap_ok mem mi →
  PAGE_SIZE ≤ highest_free_address mi ≤ 2 ^ 32 - PAGE_SIZE →
  0 < kernel_heap_start mi < 2 ^ 30 →
  ∃ st, i386_mem_init mem mboot = Ret st ∧
    early_inv (ms_meminfo st) ∧ frames_inv (ms_meminfo st) (ms_bitset st) ∧
    ms_bitset_start st = kernel_heap_start mi ∧
    ms_meminfo st = with_curpos mi (kernel_heap_start mi
                      + 4 * ceil_div (highest_free_address mi / PAGE_SIZE) 32) ∧
    ∀ n, 0 ≤ n → bit (ms_bitset st) n = true ↔ initially_reserved mem (ms_meminfo st) n.
Proof.
  intros h mi H6 H5 Hmm Hhigh Hheap. unfold i386_mem_init. fold h mi.
  rewrite !truthy_land_shl1, H6, H5 by lia. simpl negb. cbv iota.
  assert (Hlen : 1 ≤ highest_free_address mi / 0x1000 < 2 ^ 20).
  { unfold PAGE_SIZE in *. pose proof (Z.div_mod (highest_free_address mi) 4096).
    pose proof (Z.mod_pos_bound (highest_free_address mi) 4096). lia. }
  rewrite DIV_ROUND_UP_ceil, Ret_bind by lia.
  destruct (bitset_fits mi (highest_free_address mi / 0x1000)) as (Hsize & _ & Hk & Hinv);
    [|reflexivity|apply heap_start_aligned|done|].
  { split; [done|]. unfold EARLY_HEAP_MAXSIZE. change (kernel_heap_curpos mi) with
      (kernel_heap_start mi). lia. }
  rewrite Hk, Ret_bind. rewrite Hsize in *.
  destruct (bitset_init_spec (highest_free_address mi / 0x1000)) as (b & -> & Hwf & Hbl & Hb);
    [lia|]. rewrite Ret_bind.
  set (mi' := with_curpos mi _) in *.
  assert (Hf : frames_inv mi' b).
  { split; [done| |done]. unfold PAGE_SIZE, is_u32 in *.
    change (highest_free_address mi') with (highest_free_address mi). lia. }
  pose proof (init_bitset_loop_spec mem mi' (S (Z.to_nat (highest_free_address mi' / PAGE_SIZE + 1)))
    0 b Hmm Hf) as Hloop.
  rewrite Z.mul_0_l in Hloop.
  apply wp_inv in Hloop as (b' & Hrun & Hinv' & Hbits).
  - unfold i386_mem_init_bitset. rewrite Hrun.
    eexists. split; [done|]. simpl. split_and!; try done.
    intros n Hn. rewrite Hbits, Hb by done. split; [by intros [?|[_ ?]]|auto].
  - apply Hhigh.
  - lia.
  - rewrite Z.sub_0_r. lia.
  - by left.
Qed.

(** From the start of the early heap on, where the bitset lies, the kernel
    range has no say. *)
Lemma heap_frames_judged_by_map mem mi n :
  kernel_reserved_end mi < kernel_heap_start mi → kernel_heap_start mi ≤ n * PAGE_SIZE → 0 < kernel_heap_start mi →
  n * PAGE_SIZE + PAGE_SIZE < 2 ^ 32 →
  page_clear (n * PAGE_SIZE) (multiboot_reserved_start mi) (multiboot_reserved_end mi) →
  i386_mem_check_reserved mem mi (n * PAGE_SIZE) = i386_mmap_check_reserved mem mi (n * PAGE_SIZE).
Proof.
  intros Hend Hn Hpos Htop Hclear. unfold i386_mem_check_reserved, in_range.
  pose proof (Hclear (n * PAGE_SIZE)) as C1. pose proof (Hclear (n * PAGE_SIZE + PAGE_SIZE)) as C2.
  rewrite u32_small by (unfold PAGE_SIZE in *; u32_lia). unfold PAGE_SIZE in *.
  destruct (Z.leb_spec (n * 4096 + 4096) 4096); [lia|].
  destruct (Z.leb_spec (kernel_reserved_start mi) (n * 4096)), (Z.leb_spec (n * 4096) (kernel_reserved_end mi)),
    (Z.leb_spec (kernel_reserved_start mi) (n * 4096 + 4096)), (Z.leb_spec (n * 4096 + 4096) (kernel_reserved_end mi));
    try lia; simpl;
  destruct (Z.leb_spec (multiboot_reserved_start mi) (n * 4096)), (Z.leb_spec (n * 4096) (multiboot_reserved_end mi)),
    (Z.leb_spec (multiboot_reserved_start mi) (n * 4096 + 4096)), (Z.leb_spec (n * 4096 + 4096) (multiboot_reserved_end mi));
    try lia; simpl;
  (destruct (i386_mmap_check_reserved mem mi (n * 4096)) as [v| | |]; [|done..]);
  rewrite Ret_bind; destruct (Z.eqb_spec v MEM_FREE) as [->|]; done.
Qed.

Lemma heap_start_behind_kernel mem mboot :
  let mi := meminfo_of_header mem mboot in
  0 < kernel_heap_start mi → kernel_reserved_end mi < kernel_heap_start mi.
Proof.
  unfold meminfo_of_header. destruct (i386_elf_sections_read _ _ _) as [lo hi] eqn:Hread.
  assert (Hhi : is_u32 hi).
  { unfold i386_elf_sections_read in Hread. injection Hread as _ <-. apply u32_range. }
  cbn [kernel_heap_start kernel_reserved_end]. intros Hpos.
  pose proof (land_high_mask (hi ⊕ 0x1000) 12 (u32_range _) ltac:(lia)) as Hmask.
  change (Z.shiftl (Z.ones (32 - 12)) 12) with 0xFFFFF000 in Hmask. rewrite Hmask in *. change (2 ^ 12) with 4096 in *.
  unfold u32, is_u32 in *. clear Hread Hmask. div_lia.
Qed.

(** C12: initialisation.  Given the two sections it asks for and a memory map,
    [i386_mem_init] returns; the early allocator and the frame bitset satisfy
    their invariants, the words of the bitset are the first bytes of the early
    heap, and a frame is marked if and only if its end lies below the highest
    free address and [i386_mem_check_reserved] reports its page reserved, which
    leaves out the pages that no entry of the memory map holds.  Nothing is
    marked for the bitset and the early heap themselves: from the start of the
    early heap on, a frame outside the multiboot range is marked if and only
    if the memory map says reserved. *)
Theorem i386_mem_init_spec mem mboot :
  let h := read_multiboot_info mem mboot in
  let mi := meminfo_of_header mem mboot in
  Z.testbit (mbi_flags h) 6 = true → Z.testbit (mbi_flags h) 5 = true →
  mmap_ok mem mi →
  PAGE_SIZE ≤ highest_free_address mi ≤ 2 ^ 32 - PAGE_SIZE →
  0 < kernel_heap_start mi < 2 ^ 30 →
  ∃ st, i386_mem_init mem mboot = Ret st ∧
    early_inv (ms_meminfo st) ∧ frames_inv (ms_meminfo st) (ms_bitset st) ∧
    ms_bitset_start st = kernel_heap_start mi ∧
    ms_meminfo st = with_curpos mi (kernel_heap_start mi
                      + 4 * ceil_div (highest_free_address mi / PAGE_SIZE) 32) ∧
    (∀ n, 0 ≤ n → bit (ms_bitset st) n = true ↔ initially_reserved mem (ms_meminfo st) n) ∧
    (∀ n, kernel_heap_start mi ≤ n * PAGE_SIZE → n * PAGE_SIZE + PAGE_SIZE < highest_free_address mi →
       page_clear (n * PAGE_SIZE) (multiboot_reserved_start mi) (multiboot_reserved_end mi) →
       bit (ms_bitset st) n = true ↔ i386_mmap_check_reserved mem mi (n * PAGE_SIZE) = Ret MEM_RESERVED).
Proof.
  intros h mi H6 H5 Hmm Hhigh Hheap.
  destruct (mem_init_run mem mboot H6 H5 Hmm Hhigh Hheap) as (st & Hrun & H1 & H2 & H3 & H4 & H7).
  exists st. split_and!; try done. intros n Hn Htop Hclear.
  rewrite H7 by (unfold PAGE_SIZE in *; fold mi in Hheap; lia). unfold initially_reserved. rewrite H4.
  rewrite heap_frames_judged_by_map.
  - fold mi. change (highest_free_address (with_curpos mi _)) with (highest_free_address mi). tauto.
  - exact (heap_start_behind_kernel mem mboot (proj1 Hheap)).
  - exact Hn.
  - exact (proj1 Hheap).
  - unfold PAGE_SIZE in *. lia.
  - exact Hclear.
Qed.
