(* ===== verification/Asa.v ===== *)
(** The kernel address-space allocator: [kernel/mm/asa.c].  It reserves runs of
    virtual pages in a bitset; mapping them is the client's business. *)
From stdpp Require Import base numbers list.
From Stdlib Require Import ZArith Lia.
From S2P Require Import Prelude Kernel Bitset Alloc.

(** * The code *)

Record kasa_data := KasaData {
  kasa_pages : bitset;
  kasa_page_size : Z
}.

(** The global before [asa_init]: zeroed memory. *)
Definition kasa_data_zero : kasa_data := KasaData (Bitset 0 []) 0.

Definition asa_init {S} (kalloc_data : kalloc_interface S) (page_size : Z) (k : kasa_data) (s : S)
    : outcome (Z * kasa_data * S) :=
  n_entries ← udiv KVIRT_MAX page_size;
  n ← DIV_ROUND_UP n_entries 32;
  '(bitset_start, s') ← kmalloc kalloc_data (n ⊗ 4) KALLOC_CRITICAL s;
  if bitset_start =? 0 then Ret (K_OOM, KasaData (kasa_pages k) page_size, s')
  else
    b ← bitset_init n_entries;
    max ← udiv KVIRT_RESERVED page_size;
    b' ← set_range b 0 max;
    Ret (K_SUCCESS, KasaData b' page_size, s').

(** The local state of the scan is [(first_free, continuous_pages)]. *)
Definition asa_scan_step (pages : bitset) (n_pages i : Z) (st : Z * Z)
    : outcome (flow (Z * Z) (Z * bitset)) :=
  let '(first_free, continuous_pages) := st in
  v ← bitset_get_bit pages i;
  if v =? 0 then
    let first_free := if continuous_pages =? 0 then i else first_free in
    let continuous_pages := continuous_pages ⊕ 1 in
    if continuous_pages =? n_pages then
      pages' ← set_range pages first_free (first_free ⊕ continuous_pages);
      Ret (Return (first_free, pages'))
    else Ret (Continue (first_free, continuous_pages))
  else Ret (Continue (first_free, 0)).

(** Returns the address ([NULL] is 0) and the new state. *)
Definition asa_alloc (n_pages : Z) (k : kasa_data) : outcome (Z * kasa_data) :=
  r ← for_return 0 (bs_length (kasa_pages k)) (asa_scan_step (kasa_pages k) n_pages) (0, 0);
  match r with
  | Return (first_free, pages') =>
      Ret (first_free ⊗ kasa_page_size k, KasaData pages' (kasa_page_size k))
  | Continue _ => Ret (0, k)
  end.

Definition asa_free (addr n_pages : Z) (k : kasa_data) : outcome (Z * kasa_data) :=
  start ← udiv addr (kasa_page_size k);
  pages' ← clear_range (kasa_pages k) start n_pages;
  Ret (K_SUCCESS, KasaData pages' (kasa_page_size k)).

(** * Invariant *)

(** Pages of 4 KiB covering the kernel address space, of which the first
    [reserved_pages] belong to the identity-mapped early region. *)
Definition reserved_pages : Z := KVIRT_RESERVED / PAGE_SIZE.
Definition n_kernel_pages : Z := KVIRT_MAX / PAGE_SIZE.

Record asa_inv (k : kasa_data) : Prop := AsaInv {
  asa_wf : bs_wf (kasa_pages k);
  asa_page_size : kasa_page_size k = PAGE_SIZE;
  asa_length : bs_length (kasa_pages k) = n_kernel_pages;
  asa_reserved : ∀ n, 0 ≤ n < reserved_pages → bit (kasa_pages k) n = true
}.

(** Free pages left: what bounds the number of allocations. *)
Definition asa_free_pages (k : kasa_data) : Z := count_clear (kasa_pages k).

(** Pages [lo, lo + n) are free. *)
Definition free_run (k : kasa_data) (lo n : Z) : Prop :=
  0 ≤ lo ∧ lo + n ≤ bs_length (kasa_pages k) ∧
  ∀ j, lo ≤ j < lo + n → bit (kasa_pages k) j = false.

(** * Lemmas *)

(** The scan finds the lowest run of [n] clear entries. *)
Lemma asa_scan_spec pages n :
  bs_wf pages → 1 ≤ n → bs_length pages < 2 ^ 31 →
  wp (for_return 0 (bs_length pages) (asa_scan_step pages n) (0, 0)) (λ r,
    match r with
    | Return (f, pages') =>
        0 ≤ f ∧ f + n ≤ bs_length pages ∧
        (∀ j, f ≤ j < f + n → bit pages j = false) ∧
        (∀ f', 0 ≤ f' < f → ∃ j, f' ≤ j < f' + n ∧ bit pages j = true) ∧
        range_update pages pages' f (f + n) true
    | Continue _ =>
        ∀ f, 0 ≤ f → f + n ≤ bs_length pages → ∃ j, f ≤ j < f + n ∧ bit pages j = true
    end).
Proof.
  intros Hwf Hn Hlen. pose proof (bs_wf_length _ Hwf) as [Hl0 _].
  apply (wp_for_return (λ i '(ff, c),
    0 ≤ c < n ∧ c ≤ i ∧ (c ≠ 0 → ff = i - c) ∧
    (∀ j, i - c ≤ j < i → bit pages j = false) ∧
    (∀ f', 0 ≤ f' < i - c → ∃ j, f' ≤ j < f' + n ∧ bit pages j = true))).
  - lia.
  - split_and!; try lia. all: intros; lia.
  - intros i [ff c] Hi (Hc & Hci & Hff & Hclear & Hbusy). unfold asa_scan_step.
    destruct (bitset_get_bit_spec pages Hwf i Hi) as (v & -> & Hv). rewrite Ret_bind.
    unfold truthy in Hv. destruct (Z.eqb_spec v 0); simpl in Hv.
    + rewrite (u32_small (c + 1)) by u32_lia.
      assert (Hff' : (if c =? 0 then i else ff) = i - c).
      { case_bool; [lia|]. by apply Hff. }
      rewrite Hff'.
      assert (Hclear' : ∀ j, i - c ≤ j < i + 1 → bit pages j = false).
      { intros j Hj. destruct (decide (j = i)) as [->|]; [done|]. apply Hclear. lia. }
      case_bool.
      * rewrite u32_small by u32_lia. apply wp_bind.
        eapply wp_mono; [apply set_range_spec; [done|lia|lia]|].
        intros pages' Hup. apply wp_ret. simpl. subst n.
        replace (i - c + (c + 1)) with (i + 1) in * by lia.
        split_and!; [lia|lia|done|done|done].
      * apply wp_ret. replace (i + 1 - (c + 1)) with (i - c) by lia.
        split_and!; [lia|lia|lia|lia|done|done].
    + apply wp_ret. split_and!; [lia|lia|lia|lia|intros; lia|].
      intros f' Hf'. destruct (decide (f' < i - c)); [apply Hbusy; lia|].
      exists i. split; [lia|done].
  - intros [ff c] (Hc & Hci & _ & _ & Hbusy) f Hf Hfn. apply Hbusy. lia.
Qed.

(** What a call does, on both branches. *)
Lemma asa_alloc_spec n k :
  asa_inv k → 1 ≤ n →
  wp (asa_alloc n k) (λ '(p, k'),
    asa_inv k' ∧
    ((∃ f, p = f * PAGE_SIZE ∧ reserved_pages ≤ f ∧ free_run k f n ∧
           (∀ f', f' < f → ¬ free_run k f' n) ∧
           range_update (kasa_pages k) (kasa_pages k') f (f + n) true ∧
           asa_free_pages k' = asa_free_pages k - n)
     ∨ (p = 0 ∧ k' = k ∧ ∀ f, ¬ free_run k f n))).
Proof.
  intros Hinv Hn. pose proof Hinv as [Hwf Hps Hlen Hres]. unfold asa_alloc. apply wp_bind.
  eapply wp_mono; [apply asa_scan_spec; [done|done|rewrite Hlen; vm_compute; done]|].
  intros [[ff c]|[f pages']].
  - intros Hnone. apply wp_ret. split; [done|]. right. split_and!; [done..|].
    intros f (Hf & Hfn & Hclear). destruct (Hnone f Hf Hfn) as (j & Hj & Hb).
    rewrite Hclear in Hb; [done|lia].
  - intros (Hf & Hfn & Hclear & Hfirst & Hup). apply wp_ret. rewrite Hps.
    assert (Hlow : reserved_pages ≤ f).
    { destruct (decide (reserved_pages ≤ f)); [done|].
      specialize (Hres f). rewrite Hclear in Hres; [|lia]. discriminate Hres. lia. }
    rewrite Hlen in Hfn. change n_kernel_pages with 262143 in *. unfold PAGE_SIZE in *.
    rewrite u32_small by u32_lia. split.
    + pose proof Hup as (Hwf' & Hl' & Hbits). split; simpl; [done|done|by rewrite Hl'|].
      intros m Hm. rewrite Hbits by lia. case_decide; [done|]. by apply Hres.
    + left. exists f. split_and!; [done|done| | |done|].
      * split_and!; [lia|rewrite Hlen; done|done].
      * intros f' Hf' (Hf0 & Hfn' & Hclear'). destruct (Hfirst f') as (j & Hj & Hb); [lia|].
        rewrite Hclear' in Hb; [done|lia].
      * unfold asa_free_pages; simpl.
        rewrite (range_update_count (kasa_pages k) pages' f (f + n) true);
          [lia|lia|lia|done|done].
Qed.

(** The loop of [asa_free] runs from the first page number up to the page
    {e count}: it does nothing unless the run starts below its own length. *)
Lemma asa_free_noop addr n k :
  kasa_page_size k = PAGE_SIZE → n ≤ addr / PAGE_SIZE →
  asa_free addr n k = Ret (K_SUCCESS, k).
Proof.
  intros Hps Hn. unfold asa_free. rewrite Hps, udiv_pos, Ret_bind by done.
  unfold clear_range. rewrite for_range_empty by done. destruct k. simpl in *. by subst.
Qed.

Lemma asa_init_spec {S} (ki : kalloc_interface S) k s p s' :
  kmalloc ki 0x8000 KALLOC_CRITICAL s = Ret (p, s') → p ≠ 0 →
  ∃ k', asa_init ki PAGE_SIZE k s = Ret (K_SUCCESS, k', s') ∧ asa_inv k' ∧
    ∀ n, 0 ≤ n → bit (kasa_pages k') n = bool_decide (n < reserved_pages).
Proof.
  intros Hk Hp. unfold asa_init. rewrite (udiv_pos KVIRT_MAX), Ret_bind by done.
  rewrite DIV_ROUND_UP_ceil, Ret_bind by (vm_compute; done || split; done).
  replace (ceil_div (KVIRT_MAX / PAGE_SIZE) 32 ⊗ 4) with 0x8000 by reflexivity.
  rewrite Hk, Ret_bind. destruct (Z.eqb_spec p 0) as [?|_]; [done|].
  destruct (bitset_init_spec (KVIRT_MAX / PAGE_SIZE)) as (b & -> & Hwf & Hl & Hb);
    [by vm_compute|].
  rewrite Ret_bind, (udiv_pos KVIRT_RESERVED), Ret_bind by done.
  pose proof (set_range_spec b 0 (KVIRT_RESERVED / PAGE_SIZE) Hwf) as Hset.
  apply wp_inv in Hset as (b' & -> & Hwf' & Hl' & Hbits); [|by vm_compute|by rewrite Hl].
  rewrite Ret_bind. eexists. split; [done|]. split; [split|]; simpl.
  - done.
  - done.
  - rewrite Hl'. done.
  - intros m Hm. rewrite Hbits by lia. unfold reserved_pages in Hm.
    case_decide; [done|lia].
  - intros m Hm. rewrite Hbits, Hb by done. unfold reserved_pages.
    case_decide; symmetry; [apply bool_decide_true|apply bool_decide_false]; lia.
Qed.
