(* ===== verification/Machine.v ===== *)
(** The machine the paging code drives: physical memory, the [cr3] register,
    the paging switch and the translation cache, with the privileged
    operations of [kernel/arch/i386/pagingstub.asm].

    Translation is the i386 two-level page walk.  The cache keeps every
    translation it has used until it is invalidated: among the behaviours the
    hardware is allowed this is the one in which a stale entry lives longest.
    Entries that are not present are never cached. *)
From stdpp Require Import base numbers list gmap.
From Stdlib Require Import ZArith Lia.
From S2P Require Import Prelude Kernel.

(** * State *)

Record machine := Machine {
  pm : gmap Z Z;      (** 32-bit words of physical memory, by byte address *)
  cr3 : Z;
  paging : bool;
  tlb : gmap Z Z      (** page number to page frame address *)
}.

Definition phys_read (m : machine) (a : Z) : Z := default 0 (pm m !! a).
Definition phys_write (m : machine) (a v : Z) : machine :=
  Machine (<[a := v]> (pm m)) (cr3 m) (paging m) (tlb m).

(** ** Address translation *)

Definition entry_addr (e : Z) : Z := Z.land e 0xFFFFF000.
Definition entry_present (e : Z) : bool := Z.testbit e 0.
Definition entry_target (e : Z) : option Z :=
  if entry_present e then Some (entry_addr e) else None.

Definition pde (m : machine) (t : Z) : Z := phys_read m (cr3 m + 4 * t).
Definition pte (m : machine) (table i : Z) : Z := phys_read m (table + 4 * i).

(** The page frame address of virtual page [p], if it is mapped. *)
Definition walk (m : machine) (p : Z) : option Z :=
  match entry_target (pde m (p / 1024)) with
  | Some table => entry_target (pte m table (p mod 1024))
  | None => None
  end.

Definition cache (m : machine) (p f : Z) : machine :=
  Machine (pm m) (cr3 m) (paging m) (<[p := f]> (tlb m)).

Definition translate (va : Z) (m : machine) : outcome (Z * machine) :=
  if paging m then
    let p := va / PAGE_SIZE in
    match tlb m !! p with
    | Some f => Ret (f + va mod PAGE_SIZE, m)
    | None =>
        match walk m p with
        | Some f => Ret (f + va mod PAGE_SIZE, cache m p f)
        | None => Fault
        end
    end
  else Ret (va, m).

(** ** Memory accesses of the code *)

Definition vread (va : Z) (m : machine) : outcome (Z * machine) :=
  '(pa, m') ← translate va m;
  Ret (phys_read m' pa, m').

Definition vwrite (va v : Z) (m : machine) : outcome machine :=
  '(pa, m') ← translate va m;
  Ret (phys_write m' pa v).

(** [memset32] of [libsc/string/memset.c]. *)
Definition memset32 (bufptr value size : Z) (m : machine) : outcome machine :=
  for_range 0 size (λ i m, vwrite (bufptr + 4 * i) value m) m.

(** ** [pagingstub.asm] *)

Definition load_page_dir (dir : Z) (m : machine) : machine := Machine (pm m) dir (paging m) ∅.
Definition enable_paging (m : machine) : machine := Machine (pm m) (cr3 m) true (tlb m).
Definition invlpg (va : Z) (m : machine) : machine :=
  Machine (pm m) (cr3 m) (paging m) (delete (va / PAGE_SIZE) (tlb m)).
Definition flush_tlb (m : machine) : machine := Machine (pm m) (cr3 m) (paging m) ∅.

(** * Well-formed translation structures *)

(** [table] is the page table of directory slot [t]. *)
Definition has_table (m : machine) (t table : Z) : Prop :=
  0 ≤ t < 1024 ∧ entry_target (pde m t) = Some table.

(** The directory and the tables are distinct pages, and every word of memory
    is a 32-bit word. *)
Record tables_wf (m : machine) : Prop := TablesWf {
  tw_cr3 : is_u32 (cr3 m);
  tw_cr3_aligned : cr3 m mod PAGE_SIZE = 0;
  tw_words : ∀ a, is_u32 (phys_read m a);
  tw_dir : ∀ t table, has_table m t table → table ≠ cr3 m;
  tw_inj : ∀ t1 t2 table, has_table m t1 table → has_table m t2 table → t1 = t2
}.

(** Page numbers of the 32-bit address space. *)
Definition is_page (p : Z) : Prop := 0 ≤ p < 2 ^ 20.

(** Whatever is cached agrees with the tables, except possibly at the pages [x]. *)
Definition tlb_ok_but (x : Z → Prop) (m : machine) : Prop :=
  ∀ p f, tlb m !! p = Some f → is_page p ∧ (x p ∨ walk m p = Some f).
Definition tlb_ok (m : machine) : Prop := tlb_ok_but (λ _, False) m.

(** * Lemmas *)

Lemma phys_read_write_eq m a v : phys_read (phys_write m a v) a = v.
Proof. unfold phys_read, phys_write; simpl. by rewrite lookup_insert_eq. Qed.

Lemma phys_read_write_ne m a b v : a ≠ b → phys_read (phys_write m a v) b = phys_read m b.
Proof. intros H. unfold phys_read, phys_write; simpl. by rewrite lookup_insert_ne. Qed.

(** ** Entries *)

Lemma entry_addr_spec e : is_u32 e → entry_addr e = e - e mod PAGE_SIZE.
Proof. apply land_page_mask. Qed.

Lemma entry_addr_aligned e : is_u32 e → entry_addr e mod PAGE_SIZE = 0.
Proof. apply page_mask_aligned. Qed.

Lemma entry_addr_u32 e : is_u32 e → is_u32 (entry_addr e).
Proof.
  intros He. rewrite entry_addr_spec by done. pose proof (Z.mod_pos_bound e PAGE_SIZE eq_refl).
  pose proof (Z.mod_le e PAGE_SIZE). unfold is_u32, PAGE_SIZE in *. lia.
Qed.

(** An aligned address with flags in its low bits. *)
Lemma lor_flags a fl :
  is_u32 a → a mod PAGE_SIZE = 0 → 0 ≤ fl < PAGE_SIZE →
  Z.lor a fl = a + fl ∧ is_u32 (Z.lor a fl).
Proof.
  intros Ha Hal Hfl. assert (Hand : Z.land a fl = 0).
  { apply Z.bits_inj'. intros i Hi. rewrite Z.land_spec, Z.bits_0.
    unfold PAGE_SIZE in *. change 4096 with (2 ^ 12) in *.
    destruct (decide (i < 12)).
    - rewrite <- (Z.mod_pow2_bits_low a 12), Hal, Z.bits_0 by lia. done.
    - rewrite <- (Z.mod_small fl (2 ^ 12)), Z.mod_pow2_bits_high by lia. apply andb_false_r. }
  rewrite <- Z.lxor_lor, <- Z.add_nocarry_lxor by done. split; [done|].
  unfold PAGE_SIZE, is_u32 in *. pose proof (Z.div_mod a 4096). lia.
Qed.

Lemma lor_flags_entry a fl :
  is_u32 a → a mod PAGE_SIZE = 0 → 0 ≤ fl < PAGE_SIZE →
  entry_addr (Z.lor a fl) = a ∧ entry_present (Z.lor a fl) = Z.testbit fl 0.
Proof.
  intros Ha Hal Hfl. destruct (lor_flags a fl Ha Hal Hfl) as [He Hu]. split.
  - rewrite entry_addr_spec, He by done.
    rewrite <- (Zplus_mod_idemp_l a fl), Hal, Z.add_0_l, Z.mod_small by done. lia.
  - unfold entry_present. rewrite Z.lor_spec. replace (Z.testbit a 0) with false; [done|].
    symmetry. rewrite Z.bit0_odd, <- Z.negb_even. apply negb_false_iff.
    apply Z.even_spec. unfold PAGE_SIZE in Hal. pose proof (Z.div_mod a 4096).
    exists (2048 * (a / 4096)). lia.
Qed.

Lemma lor_flags_target a fl :
  is_u32 a → a mod PAGE_SIZE = 0 → 0 ≤ fl < PAGE_SIZE → Z.testbit fl 0 = true →
  entry_target (Z.lor a fl) = Some a.
Proof.
  intros Ha Hal Hfl Hp. destruct (lor_flags_entry a fl Ha Hal Hfl) as [H1 H2].
  unfold entry_target. by rewrite H2, H1, Hp.
Qed.

Lemma entry_target_Some e a :
  is_u32 e → entry_target e = Some a → is_u32 a ∧ a mod PAGE_SIZE = 0.
Proof.
  unfold entry_target. intros He. destruct (entry_present e); [|done]. intros [= <-].
  split; [by apply entry_addr_u32|by apply entry_addr_aligned].
Qed.

(** ** Machines that differ only in what is cached *)
#[export] Instance machine_equiv : Equiv machine := λ m m',
  pm m = pm m' ∧ cr3 m = cr3 m' ∧ paging m = paging m'.
#[export] Instance machine_equivalence : Equivalence (≡@{machine}).
Proof.
  split; unfold equiv, machine_equiv.
  - done.
  - by intros m1 m2 (-> & -> & ->).
  - by intros m1 m2 m3 (-> & -> & ->) (-> & -> & ->).
Qed.

#[export] Instance cr3_proper : Proper ((≡) ==> (=)) cr3.
Proof. by intros m m' (_ & H & _). Qed.
#[export] Instance paging_proper : Proper ((≡) ==> (=)) paging.
Proof. by intros m m' (_ & _ & H). Qed.
#[export] Instance phys_read_proper : Proper ((≡) ==> (=) ==> (=)) phys_read.
Proof. intros m m' (H & _ & _) a ? <-. unfold phys_read. by rewrite H. Qed.
#[export] Instance phys_write_proper : Proper ((≡) ==> (=) ==> (=) ==> (≡)) phys_write.
Proof. intros m m' (H & H' & H'') a ? <- v ? <-. split_and!; simpl; congruence. Qed.
#[export] Instance pde_proper : Proper ((≡) ==> (=) ==> (=)) pde.
Proof. intros m m' Hm t ? <-. unfold pde. by rewrite Hm. Qed.
#[export] Instance pte_proper : Proper ((≡) ==> (=) ==> (=) ==> (=)) pte.
Proof. intros m m' Hm t ? <- i ? <-. unfold pte. by rewrite Hm. Qed.
#[export] Instance walk_proper : Proper ((≡) ==> (=) ==> (=)) walk.
Proof.
  intros m m' Hm p ? <-. unfold walk. rewrite Hm. destruct (entry_target _); [|done].
  by rewrite Hm.
Qed.
#[export] Instance has_table_proper : Proper ((≡) ==> (=) ==> (=) ==> iff) has_table.
Proof. intros m m' Hm t ? <- a ? <-. unfold has_table. by rewrite Hm. Qed.
#[export] Instance tables_wf_proper : Proper ((≡) ==> iff) tables_wf.
Proof.
  enough (H : ∀ m m', m ≡ m' → tables_wf m → tables_wf m') by (split; apply H; done).
  intros m m' Hm [H1 H2 H3 H4 H5]. split.
  - by rewrite <- Hm.
  - by rewrite <- Hm.
  - intros a. by rewrite <- Hm.
  - intros t T. rewrite <- Hm. apply H4.
  - intros t1 t2 T. rewrite <- Hm. apply H5.
Qed.

Lemma cache_equiv m p f : cache m p f ≡ m.
Proof. done. Qed.
Lemma invlpg_equiv va m : invlpg va m ≡ m.
Proof. done. Qed.

(** ** Accesses through the translation *)

Lemma va_page va : is_u32 va → is_page (va / PAGE_SIZE).
Proof.
  unfold is_u32, is_page, PAGE_SIZE. intros H. pose proof (Z.div_pos va 4096).
  pose proof (Z.div_lt_upper_bound va 4096 (2 ^ 20)). lia.
Qed.

Section accesses.
Context (m : machine) (x : Z → Prop) (Hpaging : paging m = true) (Htlb : tlb_ok_but x m).
Context (va f : Z) (Hva : is_u32 va) (Hx : ¬ x (va / PAGE_SIZE))
  (Hwalk : walk m (va / PAGE_SIZE) = Some f).

Lemma translate_mapped :
  ∃ m', translate va m = Ret (f + va mod PAGE_SIZE, m') ∧ m' ≡ m ∧ tlb_ok_but x m'.
Proof.
  unfold translate. rewrite Hpaging.
  destruct (tlb m !! (va / PAGE_SIZE)) as [f'|] eqn:Hc.
  - destruct (Htlb _ _ Hc) as [_ [|Hw]]; [done|]. exists m.
    split_and!; [|done|done]. congruence.
  - rewrite Hwalk. exists (cache m (va / PAGE_SIZE) f). split_and!; [done|done|].
    intros p g. simpl. rewrite lookup_insert. case_decide as Hp.
    + subst p. intros [= ->]. split; [by apply va_page|]. right. by rewrite cache_equiv.
    + intros Hg. rewrite cache_equiv. by apply Htlb.
Qed.

Lemma vread_mapped :
  ∃ m', vread va m = Ret (phys_read m (f + va mod PAGE_SIZE), m') ∧
        m' ≡ m ∧ tlb_ok_but x m'.
Proof.
  destruct translate_mapped as (m' & Ht & Hm' & Htlb').
  exists m'. unfold vread. rewrite Ht, Ret_bind. split; [|done].
  do 2 f_equal. by rewrite Hm'.
Qed.

Lemma vwrite_mapped v :
  ∃ m', vwrite va v m = Ret (phys_write m' (f + va mod PAGE_SIZE) v) ∧
        m' ≡ m ∧ tlb_ok_but x m'.
Proof.
  destruct translate_mapped as (m' & Ht & Hm' & Htlb').
  exists m'. unfold vwrite. by rewrite Ht, Ret_bind.
Qed.
End accesses.

(** A write to memory changes the cache's validity only where it changes the
    translation; invalidating that page restores it. *)
Lemma tlb_ok_write m a v x :
  tlb_ok m → (∀ p, is_page p → p ≠ x → walk (phys_write m a v) p = walk m p) →
  tlb_ok_but (λ p, p = x) (phys_write m a v).
Proof.
  intros Htlb Hw p f Hp. destruct (Htlb p f Hp) as [Hpg [[]|Hf]]. split; [done|].
  destruct (decide (p = x)); [by left|]. right. by rewrite Hw.
Qed.

Lemma tlb_ok_invlpg m va :
  tlb_ok_but (λ p, p = va / PAGE_SIZE) m → tlb_ok (invlpg va m).
Proof.
  intros Htlb p f. simpl. rewrite lookup_delete. case_decide; [done|]. intros Hp.
  destruct (Htlb p f Hp) as [Hpg [->|Hf]]; [done|]. split; [done|]. right.
  by rewrite invlpg_equiv.
Qed.

(** A page that was not mapped is not cached. *)
Lemma tlb_ok_unmapped m a v x :
  tlb_ok m → walk m x = None →
  (∀ p, is_page p → p ≠ x → walk (phys_write m a v) p = walk m p) →
  tlb_ok (phys_write m a v).
Proof.
  intros Htlb Hx Hw p f Hp. destruct (Htlb p f Hp) as [Hpg [[]|Hf]]. split; [done|].
  right. rewrite Hw; [done|done|]. intros ->. congruence.
Qed.

(** ** Writes to the translation structures *)

Lemma has_table_props m t table :
  tables_wf m → has_table m t table → is_u32 table ∧ table mod PAGE_SIZE = 0 ∧ table ≠ cr3 m.
Proof.
  intros Hwf Ht. pose proof (tw_dir _ Hwf _ _ Ht). destruct Ht as [Ht He].
  apply entry_target_Some in He as [? ?]; [done|]. apply tw_words, Hwf.
Qed.

(** Slots of different pages are different. *)
Lemma slot_ne a b i j :
  a mod PAGE_SIZE = 0 → b mod PAGE_SIZE = 0 → a ≠ b →
  0 ≤ i < 1024 → 0 ≤ j < 1024 → a + 4 * i ≠ b + 4 * j.
Proof.
  unfold PAGE_SIZE. intros Ha Hb Hab Hi Hj.
  pose proof (Z.div_mod a 4096). pose proof (Z.div_mod b 4096). lia.
Qed.

Lemma page_split p : is_page p →
  0 ≤ p / 1024 < 1024 ∧ 0 ≤ p mod 1024 < 1024 ∧ p = 1024 * (p / 1024) + p mod 1024.
Proof.
  unfold is_page. intros H. pose proof (Z.div_mod p 1024). pose proof (Z.mod_pos_bound p 1024).
  lia.
Qed.

Lemma phys_write_words m a v :
  (∀ b, is_u32 (phys_read m b)) → is_u32 v → ∀ b, is_u32 (phys_read (phys_write m a v) b).
Proof.
  intros H Hv b. destruct (decide (a = b)) as [->|].
  - by rewrite phys_read_write_eq.
  - by rewrite phys_read_write_ne.
Qed.

(** If the directory entries and the entries of all tables are unchanged, so
    is the translation. *)
Lemma walk_ext m m' p :
  is_page p → pde m' (p / 1024) = pde m (p / 1024) →
  (∀ table, has_table m (p / 1024) table → pte m' table (p mod 1024) = pte m table (p mod 1024)) →
  walk m' p = walk m p.
Proof.
  intros Hp Hd Ht. unfold walk. rewrite Hd.
  destruct (entry_target (pde m (p / 1024))) as [table|] eqn:He; [|done].
  rewrite Ht; [done|]. split; [|done]. by apply page_split.
Qed.

Lemma tables_wf_same_dir m m' :
  tables_wf m → cr3 m' = cr3 m → (∀ a, is_u32 (phys_read m' a)) →
  (∀ t, 0 ≤ t < 1024 → pde m' t = pde m t) → tables_wf m'.
Proof.
  intros [H1 H2 H3 H4 H5] Hcr3 Hw Hd.
  assert (Hht : ∀ t T, has_table m' t T → has_table m t T).
  { intros t T [Ht HT]. split; [done|]. by rewrite <- Hd. }
  split; rewrite ?Hcr3; eauto.
Qed.

(** A table entry. *)
Lemma write_pte_spec m t table i v :
  tables_wf m → has_table m t table → 0 ≤ i < 1024 → is_u32 v →
  let m' := phys_write m (table + 4 * i) v in
  tables_wf m' ∧ (∀ t', 0 ≤ t' < 1024 → pde m' t' = pde m t') ∧
  walk m' (1024 * t + i) = entry_target v ∧
  (∀ p, is_page p → p ≠ 1024 * t + i → walk m' p = walk m p).
Proof.
  intros Hwf Ht Hi Hv m'. destruct (has_table_props _ _ _ Hwf Ht) as (Hu & Hal & Hne).
  assert (Hd : ∀ t', 0 ≤ t' < 1024 → pde m' t' = pde m t').
  { intros t' Ht'. unfold pde. simpl. apply phys_read_write_ne.
    apply slot_ne; [done|apply Hwf|done..]. }
  split_and!; [|done| |].
  - apply (tables_wf_same_dir m); [done|done| |done].
    apply phys_write_words; [apply Hwf|done].
  - destruct Ht as [Ht HT]. unfold walk.
    replace (1024 * t + i) with (i + t * 1024) by lia.
    rewrite Z.div_add, Z.div_small, Z.add_0_l, Z.mod_add, Z.mod_small by lia.
    rewrite Hd, HT by done. unfold pte, m'. by rewrite phys_read_write_eq.
  - intros p Hp Hpne. pose proof (page_split p Hp) as (Hp1 & Hp2 & Hp3).
    apply walk_ext; [done|by apply Hd|]. intros table' Ht'.
    unfold pte. apply phys_read_write_ne.
    destruct (decide (table' = table)) as [->|Hne'].
    + pose proof (tw_inj _ Hwf _ _ _ Ht Ht'). lia.
    + destruct (has_table_props _ _ _ Hwf Ht') as (_ & Hal' & _). apply slot_ne; done || lia.
Qed.

(** [page] is neither the directory nor a table. *)
Definition not_structure (m : machine) (page : Z) : Prop :=
  page mod PAGE_SIZE = 0 ∧ page ≠ cr3 m ∧ ∀ t, ¬ has_table m t page.

(** A word of any other page. *)
Lemma write_other_spec m page i v :
  tables_wf m → not_structure m page → 0 ≤ i < 1024 → is_u32 v →
  let m' := phys_write m (page + 4 * i) v in
  tables_wf m' ∧ (∀ t', 0 ≤ t' < 1024 → pde m' t' = pde m t') ∧
  (∀ p, is_page p → walk m' p = walk m p).
Proof.
  intros Hwf (Hal & Hne & Hnt) Hi Hv m'.
  assert (Hd : ∀ t', 0 ≤ t' < 1024 → pde m' t' = pde m t').
  { intros t' Ht'. unfold pde. simpl. apply phys_read_write_ne.
    apply slot_ne; [done|apply Hwf|done..]. }
  split_and!; [|done|].
  - apply (tables_wf_same_dir m); [done|done| |done].
    apply phys_write_words; [apply Hwf|done].
  - intros p Hp. pose proof (page_split p Hp) as (Hp1 & Hp2 & Hp3).
    apply walk_ext; [done|by apply Hd|]. intros table' Ht'.
    unfold pte. apply phys_read_write_ne.
    destruct (has_table_props _ _ _ Hwf Ht') as (_ & Hal' & _).
    apply slot_ne; [done|done| |done|done]. intros ->. by eapply Hnt.
Qed.

(** A directory entry that was empty, now pointing to an empty table. *)
Lemma write_pde_spec m t table v :
  tables_wf m → 0 ≤ t < 1024 → entry_target (pde m t) = None →
  is_u32 v → entry_target v = Some table → not_structure m table →
  (∀ i, 0 ≤ i < 1024 → entry_target (pte m table i) = None) →
  let m' := phys_write m (cr3 m + 4 * t) v in
  tables_wf m' ∧ has_table m' t table ∧
  (∀ t', 0 ≤ t' < 1024 → t' ≠ t → pde m' t' = pde m t') ∧
  (∀ p, is_page p → walk m' p = walk m p).
Proof.
  intros Hwf Ht Hnone Hv Htab (Hal & Hne & Hnt) Hempty m'.
  assert (Hd : ∀ t', 0 ≤ t' < 1024 → t' ≠ t → pde m' t' = pde m t').
  { intros t' Ht' Htt. unfold pde. apply phys_read_write_ne. simpl. lia. }
  assert (Hdt : pde m' t = v) by (unfold pde; simpl; apply phys_read_write_eq).
  assert (Hold : ∀ t' T, has_table m' t' T → (t' = t ∧ T = table) ∨ (t' ≠ t ∧ has_table m t' T)).
  { intros t' T [Ht' HT]. destruct (decide (t' = t)) as [->|Htt].
    - left. rewrite Hdt in HT. split; [done|congruence].
    - right. split; [done|]. split; [done|]. by rewrite <- Hd. }
  assert (Hpte : ∀ T i, T mod PAGE_SIZE = 0 → T ≠ cr3 m → 0 ≤ i < 1024 → pte m' T i = pte m T i).
  { intros T i HT HTne Hi. unfold pte. apply phys_read_write_ne.
    apply slot_ne; [apply Hwf|done| |done..]. done. }
  split_and!; [| |done|].
  - split; simpl; [apply Hwf|apply Hwf|apply phys_write_words; [apply Hwf|done]| |].
    + intros t' T [[-> ->]|[_ HT]]%Hold; [done|by eapply tw_dir].
    + intros t1 t2 T HT1%Hold HT2%Hold.
      destruct HT1 as [[-> ->]|[? HT1]], HT2 as [[-> HTeq]|[? HT2]]; try done.
      * exfalso. by eapply Hnt.
      * rewrite HTeq in HT1. exfalso. by eapply Hnt.
      * by eapply tw_inj.
  - split; [done|]. by rewrite Hdt.
  - intros p Hp. pose proof (page_split p Hp) as (Hp1 & Hp2 & Hp3).
    destruct (decide (p / 1024 = t)) as [He|Hne'].
    + unfold walk. rewrite He, Hdt, Hnone, Htab, Hpte by done. by apply Hempty.
    + apply walk_ext; [done|by apply Hd|]. intros T HT.
      destruct (has_table_props _ _ _ Hwf HT) as (_ & ? & ?). by apply Hpte.
Qed.
