(* ===== verification/KPaging.v ===== *)
(** The kernel paging interface: [kernel/mm/paging.c],
    [kernel/include/mm/paging.h].  An architecture installs a table of four
    functions in [kpaging_data]; the heap uses them through the entry points
    below.  [PageMapper] states what the heap relies on. *)
From stdpp Require Import base numbers.
From Stdlib Require Import ZArith Lia.
From S2P Require Import Prelude Kernel Alloc Machine.

(** * Page flags *)
Definition KPAGE_PRESENT : Z := Z.shiftl 1 0.
Definition KPAGE_RW : Z := Z.shiftl 1 1.
Definition KPAGE_USER : Z := Z.shiftl 1 2.
Definition KPAGE_WRITETHROUGH : Z := Z.shiftl 1 3.

(** * [struct kpaging_interface] and [struct kpaging_data] *)
Record kpaging_interface (S : Type) := KPagingInterface {
  kpi_allocate : option (Z → Z → S → outcome (Z * S));
  kpi_free : option (Z → S → outcome (Z * S));
  kpi_identity_map : option (Z → Z → S → outcome (Z * S));
  kpi_get_phys : option (Z → S → outcome (Z * S))
}.
Arguments KPagingInterface {S} _ _ _ _.
Arguments kpi_allocate {S} _.
Arguments kpi_free {S} _.
Arguments kpi_identity_map {S} _.
Arguments kpi_get_phys {S} _.

Record kpaging_data := KPagingData {
  kernel_start : Z;
  kernel_end : Z;
  highest_page : Z;
  page_size : Z;
  mem_total : Z
}.
Definition kpaging_data_zero : kpaging_data := KPagingData 0 0 0 0 0.

Section entry_points.
Context {S : Type} (interface : kpaging_interface S).

Definition kpage_allocate (addr flags : Z) (s : S) : outcome (Z * S) :=
  f ← installed (kpi_allocate interface);
  f addr flags s.

Definition kpage_free (addr : Z) (s : S) : outcome (Z * S) :=
  f ← installed (kpi_free interface);
  f addr s.

Definition kpage_identity_map (addr flags : Z) (s : S) : outcome (Z * S) :=
  f ← installed (kpi_identity_map interface);
  f addr flags s.

Definition kpage_get_phys (addr : Z) (s : S) : outcome (Z * S) :=
  f ← installed (kpi_get_phys interface);
  f addr s.
End entry_points.

(** * What an installed paging system promises

    [mapped s p] is the frame address of virtual page [p].  The pages a client
    may ask for are those outside the early region: [client_page]. *)
Definition client_page (p : Z) : Prop := KVIRT_RESERVED / PAGE_SIZE ≤ p < 2 ^ 20.

(** Flags that map a page: the present bit and nothing above the flag bits. *)
Definition map_flags (flags : Z) : Prop := 0 ≤ flags < PAGE_SIZE ∧ Z.testbit flags 0 = true.

Class PageMapper {S : Type} (ki : kpaging_interface S) (inv : S → Prop)
    (mapped : S → Z → option Z) := {
  mapper_allocate p flags s :
    inv s → client_page p → mapped s p = None → map_flags flags →
    wp (kpage_allocate ki (p * PAGE_SIZE) flags s) (λ '(ret, s'),
      inv s' ∧ (∀ q, client_page q → q ≠ p → mapped s' q = mapped s q) ∧
      ((ret = K_SUCCESS ∧ ∃ f, mapped s' p = Some f ∧
          ∀ q, client_page q → q ≠ p → mapped s' q ≠ Some f)
       ∨ (ret = K_OOM ∧ mapped s' p = None)));
  mapper_free p f s :
    inv s → client_page p → mapped s p = Some f →
    wp (kpage_free ki (p * PAGE_SIZE) s) (λ '(ret, s'),
      ret = K_SUCCESS ∧ inv s' ∧ mapped s' p = None ∧
      (∀ q, client_page q → q ≠ p → mapped s' q = mapped s q));
  mapper_get_phys addr s :
    inv s → is_u32 addr → client_page (addr / PAGE_SIZE) →
    wp (kpage_get_phys ki addr s) (λ '(a, s'),
      inv s' ∧ a = default 0 (mapped s (addr / PAGE_SIZE)) ∧
      (∀ q, client_page q → mapped s' q = mapped s q))
}.
