(* ===== verification/Paging.v ===== *)
(** i386 paging: [kernel/arch/i386/paging.c].

    Before [i386_paging_init] has finished, virtual and physical addresses
    coincide and page tables come from the early heap.  Afterwards page tables
    come from the frame allocator, and the code reaches any physical page by
    pointing the single window page at it. *)
From stdpp Require Import base numbers list gmap.
From Stdlib Require Import ZArith Lia.
From S2P Require Import Prelude Kernel Bitset Alloc Meminfo EarlyHeap Frames Machine KPaging.

(** * Flags *)
Definition PT_PRESENT : Z := Z.shiftl 1 0.
Definition PT_RW : Z := Z.shiftl 1 1.
Definition PD_PRESENT : Z := Z.shiftl 1 0.
Definition PD_RW : Z := Z.shiftl 1 1.

(** * State: the machine and the globals of paging.c and mem.c *)
Record paging_state := PagingState {
  ps_mach : machine;
  ps_frames : bitset;            (** [i386_mem_frame_bitset] *)
  ps_meminfo : i386_mem_info;    (** [meminfo] *)
  ps_pd : Z;                     (** [i386_kernel_mmu_data.page_directory] *)
  ps_window : Z;                 (** [WINDOW_PAGE] *)
  ps_done : bool;                (** [early_init_done] *)
  ps_kpaging : kpaging_data;     (** [kpaging_data] *)
  ps_fault_handler : bool        (** [isr_routines[14]] is the page fault handler *)
}.

Definition set_mach (s : paging_state) (m : machine) : paging_state :=
  PagingState m (ps_frames s) (ps_meminfo s) (ps_pd s) (ps_window s) (ps_done s) (ps_kpaging s)
    (ps_fault_handler s).
Definition set_frames (s : paging_state) (b : bitset) : paging_state :=
  PagingState (ps_mach s) b (ps_meminfo s) (ps_pd s) (ps_window s) (ps_done s) (ps_kpaging s)
    (ps_fault_handler s).
Definition set_meminfo (s : paging_state) (m : i386_mem_info) : paging_state :=
  PagingState (ps_mach s) (ps_frames s) m (ps_pd s) (ps_window s) (ps_done s) (ps_kpaging s)
    (ps_fault_handler s).

(** Loads and stores of the C code on virtual addresses. *)
Definition load (va : Z) (s : paging_state) : outcome (Z * paging_state) :=
  '(v, m) ← vread va (ps_mach s); Ret (v, set_mach s m).
Definition store (va v : Z) (s : paging_state) : outcome paging_state :=
  m ← vwrite va v (ps_mach s); Ret (set_mach s m).

(** The early allocator seen from here, as installed in [kalloc_data]. *)
Definition paging_kalloc : kalloc_interface paging_state :=
  KallocInterface
    (Some (λ size phys flags s,
       '(p, ph, m) ← kalloc_malloc_real early_kalloc size phys flags (ps_meminfo s);
       Ret (p, ph, set_meminfo s m)))
    (Some (λ addr s, m ← kfree early_kalloc addr (ps_meminfo s); Ret (set_meminfo s m))).

(** * The code *)

(** [TABLE_IN_DIR(table, dir)]: the entry's address bits, read through [dir]. *)
Definition TABLE_IN_DIR (table dir : Z) (s : paging_state) : outcome (Z * paging_state) :=
  '(e, s') ← load (dir + 4 * table) s;
  Ret (entry_addr e, s').

Definition i386_mmu_data_init (s : paging_state) : outcome (Z * paging_state) :=
  '(tmp, s1) ← kmalloc_a paging_kalloc (4 * 1024) KALLOC_CRITICAL s;
  if tmp =? 0 then Ret (K_OOM, s1)
  else
    let s2 := PagingState (ps_mach s1) (ps_frames s1) (ps_meminfo s1) tmp
                (ps_window s1) (ps_done s1) (ps_kpaging s1) (ps_fault_handler s1) in
    m ← memset32 tmp PD_RW 1024 (ps_mach s2);
    Ret (K_SUCCESS, set_mach s2 m).

Definition get_virt_ptr (phys_addr : Z) (s : paging_state) : outcome (Z * paging_state) :=
  _ ← assert (phys_addr mod 0x1000 =? 0);
  if negb (ps_done s) then Ret (phys_addr, s)
  else
    let page_index := ps_window s / PAGE_SIZE in
    let table_index := page_index / 1024 in
    let page_index_in_table := page_index mod 1024 in
    '(table, s1) ← TABLE_IN_DIR table_index (ps_pd s) s;
    s2 ← store (table + 4 * page_index_in_table)
           (Z.lor (Z.lor phys_addr PT_PRESENT) PT_RW) s1;
    Ret (ps_window s2, set_mach s2 (invlpg (ps_window s2) (ps_mach s2))).

(** Returns the code and the physical address of the table. *)
Definition allocate_page_table (s : paging_state) : outcome (Z * Z * paging_state) :=
  if ps_done s then
    '(frame, b) ← i386_mem_allocate_frame (ps_meminfo s) (ps_frames s);
    let s1 := set_frames s b in
    if frame =? 0 then Ret (K_OOM, 0, s1)
    else
      let phys := frame ⊗ PAGE_SIZE in
      '(virt, s2) ← get_virt_ptr phys s1;
      m ← memset32 virt PT_RW 1024 (ps_mach s2);
      Ret (K_SUCCESS, phys, set_mach s2 m)
  else
    '(virt, phys, s1) ← kmalloc_ap paging_kalloc PAGE_SIZE KALLOC_CRITICAL s;
    if virt =? 0 then Ret (K_OOM, 0, s1)
    else
      m ← memset32 virt PT_RW 1024 (ps_mach s1);
      Ret (K_SUCCESS, default 0 phys, set_mach s1 m).

(** The frame address at [address], without the offset in the page; 0 if none. *)
Definition i386_page_get_phys (pd address : Z) (s : paging_state) : outcome (Z * paging_state) :=
  let page_index := address / PAGE_SIZE in
  let table_index := page_index / 1024 in
  let page_index_in_table := page_index mod 1024 in
  '(pd_virt, s1) ← get_virt_ptr pd s;
  '(e, s2) ← load (pd_virt + 4 * table_index) s1;
  if Z.land e PD_PRESENT =? 0 then Ret (0, s2)
  else
    '(table, s3) ← TABLE_IN_DIR table_index pd s2;
    '(pt_virt, s4) ← get_virt_ptr table s3;
    '(page, s5) ← load (pt_virt + 4 * page_index_in_table) s4;
    if Z.land page PT_PRESENT =? 0 then Ret (0, s5)
    else Ret (Z.land page 0xFFFFF000, s5).

(** The two ways a table is found, shared by the functions below: read the
    directory entry through [pd_virt], allocate the table when it is missing.
    On success: the directory pointer, which every call in between has
    invalidated and which is obtained again. *)
Definition ensure_table (pd pd_flags table_index : Z) (s : paging_state)
    : outcome (Z * Z * paging_state) :=
  '(pd_virt, s1) ← get_virt_ptr pd s;
  '(e, s2) ← load (pd_virt + 4 * table_index) s1;
  if Z.land e PD_PRESENT =? 0 then
    '(ret, pt_phys, s3) ← allocate_page_table s2;
    if K_FAILED ret then Ret (ret, pd_virt, s3)
    else
      '(pd_virt, s4) ← get_virt_ptr pd s3;
      s5 ← store (pd_virt + 4 * table_index) (Z.lor pt_phys pd_flags) s4;
      Ret (K_SUCCESS, pd_virt, s5)
  else Ret (K_SUCCESS, pd_virt, s2).

(** Returns the code and what [*out] receives. *)
Definition i386_allocate_page (pd address pt_flags pd_flags : Z) (s : paging_state)
    : outcome (Z * option Z * paging_state) :=
  _ ← assert (address mod PAGE_SIZE =? 0);
  let page_index := address / PAGE_SIZE in
  let table_index := page_index / 1024 in
  let page_index_in_table := page_index mod 1024 in
  '(frame, b) ← i386_mem_allocate_frame (ps_meminfo s) (ps_frames s);
  let s0 := set_frames s b in
  if frame =? 0 then Ret (K_OOM, None, s0)
  else
    '(ret, pd_virt, s1) ← ensure_table pd pd_flags table_index s0;
    if K_FAILED ret then
      b' ← i386_mem_free_frame frame (ps_frames s1);
      Ret (ret, None, set_frames s1 b')
    else
      '(table, s2) ← TABLE_IN_DIR table_index pd_virt s1;
      '(pt_virt, s3) ← get_virt_ptr table s2;
      let page := Z.lor (frame ⊗ PAGE_SIZE) pt_flags in
      s4 ← store (pt_virt + 4 * page_index_in_table) page s3;
      Ret (K_SUCCESS, Some (Z.land page 0xFFFFF000), s4).

Definition i386_free_page (pd address : Z) (s : paging_state) : outcome (Z * paging_state) :=
  _ ← assert (address mod PAGE_SIZE =? 0);
  let page_index := address / PAGE_SIZE in
  let table_index := page_index / 1024 in
  let page_index_in_table := page_index mod 1024 in
  '(pd_virt, s1) ← get_virt_ptr pd s;
  '(e, s2) ← load (pd_virt + 4 * table_index) s1;
  if Z.land e PD_PRESENT =? 0 then Ret (K_INVALOP, s2)
  else
    '(table, s3) ← TABLE_IN_DIR table_index pd_virt s2;
    '(pt_virt, s4) ← get_virt_ptr table s3;
    '(page, s5) ← load (pt_virt + 4 * page_index_in_table) s4;
    let phys_addr_index := page / PAGE_SIZE in
    s6 ← store (pt_virt + 4 * page_index_in_table) PT_RW s5;
    b ← bitset_clear_bit (ps_frames s6) phys_addr_index;
    let s7 := set_frames s6 b in
    Ret (K_SUCCESS, set_mach s7 (invlpg address (ps_mach s7))).

(** Returns the page table entry, or the error code of the table allocation. *)
Definition i386_identity_map_page (pd address pt_flags pd_flags : Z) (s : paging_state)
    : outcome (Z * paging_state) :=
  _ ← assert (address mod PAGE_SIZE =? 0);
  let page_index := address / PAGE_SIZE in
  let table_index := page_index / 1024 in
  let page_index_in_table := page_index mod 1024 in
  '(ret, pd_virt, s1) ← ensure_table pd pd_flags table_index s;
  if K_FAILED ret then Ret (ret, s1)
  else
    '(table, s2) ← TABLE_IN_DIR table_index pd_virt s1;
    '(pt_virt, s3) ← get_virt_ptr table s2;
    let page := Z.lor (page_index ⊗ PAGE_SIZE) pt_flags in
    s4 ← store (pt_virt + 4 * page_index_in_table) page s3;
    b ← bitset_set_bit (ps_frames s4) page_index;
    Ret (page, set_frames s4 b).

(** ** The kernel paging interface *)
Definition i386_kpage_allocate (addr flags : Z) (s : paging_state) : outcome (Z * paging_state) :=
  '(ret, _, s') ← i386_allocate_page (ps_pd s) addr flags flags s;
  Ret (ret, s').

Definition i386_kpage_free (addr : Z) (s : paging_state) : outcome (Z * paging_state) :=
  i386_free_page (ps_pd s) addr s.

Definition i386_kpage_identity_map (addr flags : Z) (s : paging_state)
    : outcome (Z * paging_state) :=
  '(tmp, s') ← i386_identity_map_page (ps_pd s) addr flags flags s;
  Ret (if truthy tmp then K_SUCCESS else K_OOM, s').

Definition i386_kpage_get_phys (addr : Z) (s : paging_state) : outcome (Z * paging_state) :=
  i386_page_get_phys (ps_pd s) addr s.

Definition i386_paging_interface : kpaging_interface paging_state :=
  KPagingInterface (Some i386_kpage_allocate) (Some i386_kpage_free)
    (Some i386_kpage_identity_map) (Some i386_kpage_get_phys).

(** ** Initialisation *)

(** Identity mapping from 0 to the end of the early region. *)
Definition identity_map_early (s : paging_state) : outcome paging_state :=
  for_range 0 (KVIRT_RESERVED / 0x1000) (λ k s,
    '(_, s') ← i386_identity_map_page (ps_pd s) (k * 0x1000)
       (Z.lor PT_PRESENT PT_RW) (Z.lor PD_PRESENT PD_RW) s;
    if KVIRT_RESERVED <? k * 0x1000 then Abort else Ret s') s.

Definition i386_paging_init (s : paging_state) : outcome paging_state :=
  '(ret, s1) ← i386_mmu_data_init s;
  if K_FAILED ret then Abort
  else
    s2 ← identity_map_early s1;
    let m := enable_paging (load_page_dir (ps_pd s2) (ps_mach s2)) in
    let mi := ps_meminfo s2 in
    let highest := kernel_heap_start mi ⊕ EARLY_HEAP_MAXSIZE in
    _ ← assert (highest ⊕ PAGE_SIZE <=? KVIRT_RESERVED);
    Ret (PagingState m (ps_frames s2) mi (ps_pd s2) (highest ⊕ PAGE_SIZE) true
           (KPagingData (kernel_reserved_start mi) (kernel_heap_curpos mi) highest
              PAGE_SIZE (mem_lower mi ⊕ mem_upper mi)) true).
