(* ===== verification/Window.v ===== *)
(** The invariant of the running paging system, and the window page.

    [paging_core] relates the page tables in memory to the frame bitset; it
    does not mention the window's own mapping nor the translation cache, so
    moving the window preserves it. *)
From stdpp Require Import base numbers list gmap.
From Stdlib Require Import ZArith Lia.
From S2P Require Import Prelude Kernel Bitset Alloc Meminfo EarlyHeap Frames Machine KPaging Asa.
From S2P Require Import Paging.

(** * The invariant *)

(** The page frame at address [a] is marked in the bitset. *)
Definition frame_used (b : bitset) (a : Z) : Prop :=
  a mod PAGE_SIZE = 0 ∧ 0 ≤ a / PAGE_SIZE < bs_length b ∧ bit b (a / PAGE_SIZE) = true.

(** [a] is the directory or a table. *)
Definition structure (m : machine) (a : Z) : Prop := a = cr3 m ∨ ∃ t, has_table m t a.

(** An identity-mapped page of the early region other than the window [w]. *)
Definition early_page (w p : Z) : Prop := 0 ≤ p < reserved_pages ∧ p ≠ w.

Record paging_core (mi : i386_mem_info) (pd w : Z) (m : machine) (b : bitset) : Prop := PagingCore {
  pc_paging : paging m = true;
  pc_cr3 : cr3 m = pd;
  pc_frames : frames_inv mi b;
  pc_tables : tables_wf m;
  pc_window : 0 < w < reserved_pages;
  pc_dir : early_page w (pd / PAGE_SIZE);
  pc_table0 : ∃ T0, has_table m 0 T0 ∧ early_page w (T0 / PAGE_SIZE);
  pc_identity : ∀ p, early_page w p → walk m p = Some (p * PAGE_SIZE);
  pc_structure : ∀ a, structure m a → frame_used b a;
  pc_mapped : ∀ p f, is_page p → p ≠ w → walk m p = Some f → frame_used b f;
  pc_inj : ∀ p q f, is_page p → is_page q → p ≠ w → q ≠ w →
    walk m p = Some f → walk m q = Some f → p = q;
  pc_client : ∀ p f, client_page p → walk m p = Some f → not_structure m f
}.

(** The running system: initialised, and nothing stale is cached. *)
Record paging_inv (s : paging_state) : Prop := PagingInv {
  pi_done : ps_done s = true;
  pi_window : ps_window s mod PAGE_SIZE = 0;
  pi_core : paging_core (ps_meminfo s) (ps_pd s) (ps_window s / PAGE_SIZE) (ps_mach s) (ps_frames s);
  pi_tlb : tlb_ok (ps_mach s)
}.

(** What a step that only moves the window, or writes the pages [x] that hold
    no translation structure, leaves alone. *)
Record kept (w : Z) (x : Z → Prop) (m m' : machine) : Prop := Kept {
  k_paging : paging m' = paging m;
  k_cr3 : cr3 m' = cr3 m;
  k_pde : ∀ t, 0 ≤ t < 1024 → pde m' t = pde m t;
  k_walk : ∀ p, is_page p → p ≠ w → walk m' p = walk m p;
  k_content : ∀ page i, not_structure m page → ¬ x page → 0 ≤ i < 1024 →
    pte m' page i = pte m page i;
  k_entry : ∀ t T i, has_table m t T → 0 ≤ i < 1024 → 1024 * t + i ≠ w →
    pte m' T i = pte m T i
}.

(** The pages of the clients, apart from the pages [x], are mapped as before
    and hold what they held. *)
Definition client_kept (x : Z → Prop) (m m' : machine) : Prop :=
  ∀ q f, client_page q → ¬ x q → walk m q = Some f →
    walk m' q = Some f ∧ ∀ i, 0 ≤ i < 1024 → pte m' f i = pte m f i.

(** The frame [a] is neither a structure nor mapped. *)
Definition fresh_frame (w : Z) (m : machine) (a : Z) : Prop :=
  not_structure m a ∧ ∀ p, is_page p → p ≠ w → walk m p ≠ Some a.

(** * Lemmas *)

Lemma not_structure_iff m a : a mod PAGE_SIZE = 0 → not_structure m a ↔ ¬ structure m a.
Proof.
  intros Ha. unfold not_structure, structure. split.
  - intros (_ & H1 & H2) [?|[t Ht]]; [done|by eapply H2].
  - intros H. split_and!; [done|by intros ->; apply H; left|].
    intros t Ht. apply H. right. by exists t.
Qed.

Lemma client_is_page p : client_page p → is_page p.
Proof. unfold client_page, is_page. change (KVIRT_RESERVED / PAGE_SIZE) with 380. lia. Qed.

Lemma reserved_is_page p : 0 ≤ p < reserved_pages → is_page p.
Proof. unfold is_page. change reserved_pages with 380. lia. Qed.

Lemma client_not_window w p : 0 ≤ w < reserved_pages → client_page p → p ≠ w.
Proof. unfold client_page, reserved_pages. lia. Qed.

(** ** [kept] *)

Section kept.
Context {w : Z} {x : Z → Prop} {m m' : machine} (Hk : kept w x m m').

Lemma kept_has_table t T : has_table m' t T ↔ has_table m t T.
Proof.
  unfold has_table. split; intros [Ht He]; (split; [done|]).
  - by rewrite <- (k_pde _ _ _ _ Hk).
  - by rewrite (k_pde _ _ _ _ Hk).
Qed.

Lemma kept_structure a : structure m' a ↔ structure m a.
Proof.
  unfold structure. rewrite (k_cr3 _ _ _ _ Hk). by setoid_rewrite kept_has_table.
Qed.

Lemma kept_not_structure a : not_structure m' a ↔ not_structure m a.
Proof.
  unfold not_structure. rewrite (k_cr3 _ _ _ _ Hk). by setoid_rewrite kept_has_table.
Qed.

Lemma kept_fresh a : fresh_frame w m' a ↔ fresh_frame w m a.
Proof.
  unfold fresh_frame. rewrite kept_not_structure.
  split; intros [H1 H2]; (split; [done|]); intros p Hp Hpw.
  - rewrite <- (k_walk _ _ _ _ Hk) by done. by apply H2.
  - rewrite (k_walk _ _ _ _ Hk) by done. by apply H2.
Qed.

Lemma kept_core mi pd b :
  tables_wf m' → paging_core mi pd w m b → paging_core mi pd w m' b.
Proof.
  intros Hwf [H1 H2 H3 H4 H5 H6 (T0 & H7 & H8) H9 H10 H11 H12 H13].
  pose proof (k_walk _ _ _ _ Hk) as Hw. split; try done.
  - by rewrite (k_paging _ _ _ _ Hk).
  - by rewrite (k_cr3 _ _ _ _ Hk).
  - exists T0. by rewrite kept_has_table.
  - intros p Hp. rewrite Hw; [by apply H9|by apply reserved_is_page, Hp|apply Hp].
  - intros a. rewrite kept_structure. apply H10.
  - intros p f Hp Hpw. rewrite Hw by done. by apply H11.
  - intros p q f Hp Hq Hpw Hqw. rewrite !Hw by done. by apply H12.
  - intros p f Hp. rewrite kept_not_structure, Hw; [by apply H13|by apply client_is_page|].
    eapply client_not_window; [|done]; lia.
Qed.
End kept.

Lemma kept_refl w x m : kept w x m m.
Proof. done. Qed.

Lemma kept_equiv w x m m' : m' ≡ m → kept w x m m'.
Proof.
  intros Hm. split.
  - by rewrite Hm.
  - by rewrite Hm.
  - intros. by rewrite Hm.
  - intros. by rewrite Hm.
  - intros. by rewrite Hm.
  - intros. by rewrite Hm.
Qed.

Lemma kept_trans w x m1 m2 m3 : kept w x m1 m2 → kept w x m2 m3 → kept w x m1 m3.
Proof.
  intros H12 H23. pose proof H12 as [A1 A2 A3 A4 A5 A6]. pose proof H23 as [B1 B2 B3 B4 B5 B6].
  split.
  - congruence.
  - congruence.
  - intros. rewrite B3, A3; done.
  - intros. rewrite B4, A4; done.
  - intros page i Hp Hx Hi. rewrite B5, A5; [done..| |done|done].
    by apply (kept_not_structure H12).
  - intros t T i Ht Hi Hw. rewrite (B6 t), (A6 t); [done..| |done|done].
    by apply (kept_has_table H12).
Qed.

Lemma kept_weaken w (x y : Z → Prop) m m' : (∀ a, x a → y a) → kept w x m m' → kept w y m m'.
Proof. intros H [A1 A2 A3 A4 A5 A6]. split; auto. Qed.

#[export] Hint Resolve kept_refl kept_equiv kept_trans : u32db.

(** ** [client_kept] *)

Lemma client_kept_trans x m1 m2 m3 : client_kept x m1 m2 → client_kept x m2 m3 → client_kept x m1 m3.
Proof.
  intros H1 H2 q f Hq Hx Hf. destruct (H1 q f Hq Hx Hf) as [Hf2 Hc1]. destruct (H2 q f Hq Hx Hf2) as [Hf3 Hc2].
  split; [done|]. intros i Hi. rewrite Hc2, Hc1; done.
Qed.

Lemma client_kept_weaken (x y : Z → Prop) m m' :
  client_kept x m m' → (∀ q, x q → y q ∨ walk m q = None) → client_kept y m m'.
Proof. intros H Hxy q f Hq Hy Hf. apply H; [done| |done]. intros [?|?]%Hxy; congruence. Qed.

Lemma kept_client mi pd w m b x y m' :
  paging_core mi pd w m b → kept w x m m' → (∀ a, x a → ∀ q, client_page q → walk m q ≠ Some a) →
  client_kept y m m'.
Proof.
  intros Hc Hk Hx q f Hq _ Hf. pose proof (client_is_page q Hq) as Hpg. split.
  - rewrite (k_walk _ _ _ _ Hk); [done|done|]. eapply client_not_window; [|exact Hq].
    pose proof (pc_window _ _ _ _ _ Hc). lia.
  - intros i Hi. apply (k_content _ _ _ _ Hk); [by eapply pc_client| |done]. intros Hxf. by eapply Hx.
Qed.

Lemma kept_client_none mi pd w m b y m' :
  paging_core mi pd w m b → kept w (λ _, False) m m' → client_kept y m m'.
Proof. intros Hc Hk. by eapply kept_client. Qed.

(** A write into a page no client has. *)
Lemma client_kept_write x m page i v :
  page mod PAGE_SIZE = 0 → 0 ≤ i < 1024 →
  (∀ q f, client_page q → walk m q = Some f → f mod PAGE_SIZE = 0 ∧ f ≠ page) →
  (∀ q, client_page q → ¬ x q → walk (phys_write m (page + 4 * i) v) q = walk m q) →
  client_kept x m (phys_write m (page + 4 * i) v).
Proof.
  intros Hal Hi Hother Hw q f Hq Hx Hf. split; [by rewrite Hw|]. intros j Hj.
  destruct (Hother q f Hq Hf) as [Hfal Hne]. unfold pte. apply phys_read_write_ne. by apply slot_ne.
Qed.

(** ** Two ways of writing memory *)

(** An entry of the window's own table: the window moves. *)
Lemma write_window_spec mi pd w m b T0 v x :
  paging_core mi pd w m b → has_table m 0 T0 → is_u32 v →
  let m' := phys_write m (T0 + 4 * w) v in
  kept w x m m' ∧ paging_core mi pd w m' b ∧ walk m' w = entry_target v.
Proof.
  intros Hc HT Hv m'. pose proof (pc_window _ _ _ _ _ Hc) as Hw.
  assert (Hwi : 0 ≤ w < 1024) by (change reserved_pages with 380 in Hw; lia).
  destruct (write_pte_spec m 0 T0 w v (pc_tables _ _ _ _ _ Hc) HT Hwi Hv)
    as (Hwf & Hpde & Hwalk & Hother). rewrite Z.mul_0_r, Z.add_0_l in Hwalk, Hother.
  assert (Hk : kept w x m m').
  { destruct (has_table_props _ _ _ (pc_tables _ _ _ _ _ Hc) HT) as (_ & Hal' & _).
    split; [done|done|done|done| |].
    - intros page i (Hal & _ & Hns) _ Hi. unfold pte. apply phys_read_write_ne.
      apply slot_ne; [done|done| |done|done]. intros ->. by eapply Hns.
    - intros t T i Ht Hi Hne. unfold pte. apply phys_read_write_ne.
      destruct (has_table_props _ _ _ (pc_tables _ _ _ _ _ Hc) Ht) as (_ & Hal & _).
      destruct (decide (T = T0)) as [->|HTne]; [|by apply slot_ne].
      pose proof (tw_inj _ (pc_tables _ _ _ _ _ Hc) _ _ _ Ht HT). lia. }
  split_and!; [done|by eapply kept_core|done].
Qed.

(** A word of a page without structure. *)
Lemma write_page_spec mi pd w m b page i v :
  paging_core mi pd w m b → not_structure m page → 0 ≤ i < 1024 → is_u32 v →
  let m' := phys_write m (page + 4 * i) v in
  kept w (λ a, a = page) m m' ∧ paging_core mi pd w m' b ∧ walk m' w = walk m w.
Proof.
  intros Hc Hns Hi Hv m'. pose proof (pc_window _ _ _ _ _ Hc) as Hw.
  destruct (write_other_spec m page i v (pc_tables _ _ _ _ _ Hc) Hns Hi Hv)
    as (Hwf & Hpde & Hwalk).
  assert (Hk : kept w (λ a, a = page) m m').
  { split; [done|done|done|auto| |].
    - intros page' j (Hal & _) Hne Hj. unfold pte. apply phys_read_write_ne.
      apply slot_ne; [apply Hns|done|congruence|done|done].
    - intros t T j Ht Hj _. unfold pte. apply phys_read_write_ne.
      destruct (has_table_props _ _ _ (pc_tables _ _ _ _ _ Hc) Ht) as (_ & Hal & _).
      apply slot_ne; [apply Hns|done| |done|done]. intros ->. by eapply Hns. }
  split_and!; [done|by eapply kept_core|]. apply Hwalk. apply reserved_is_page. lia.
Qed.

(** ** The frame bitset changes *)

(** The invariant survives any change of the bitset that keeps the frames in
    use marked. *)
Lemma core_frames mi pd w m b b' :
  paging_core mi pd w m b → frames_inv mi b' →
  (∀ a, ¬ fresh_frame w m a → frame_used b a → frame_used b' a) → paging_core mi pd w m b'.
Proof.
  intros [H1 H2 H3 H4 H5 H6 H7 H9 H10 H11 H12 H13] Hb Hu. split; try done.
  - intros a Ha. apply Hu; [|by apply H10].
    intros [Hn _]. revert Ha. apply not_structure_iff; [apply Hn|done].
  - intros p f Hp Hpw Hf. apply Hu; [|by eapply H11]. intros [_ Hn]. by eapply Hn.
Qed.

Lemma frame_used_update b b' lo v a :
  range_update b b' lo (lo + 1) v → v = true ∨ a / PAGE_SIZE ≠ lo → frame_used b a → frame_used b' a.
Proof.
  intros (_ & Hl & Hb) Hv (H1 & H2 & H3). split_and!; [done|lia|lia|].
  rewrite Hb by lia. case_decide as Hd; [|done]. destruct Hv; [done|lia].
Qed.

Lemma core_set mi pd w m b b' f :
  paging_core mi pd w m b → range_update b b' f (f + 1) true → paging_core mi pd w m b'.
Proof.
  intros Hc Hup. eapply core_frames; [done| |].
  - eapply frames_inv_update; [by eapply pc_frames|done].
  - intros a _. eapply frame_used_update; [done|by left].
Qed.

Lemma core_clear mi pd w m b b' f :
  paging_core mi pd w m b → fresh_frame w m (f * PAGE_SIZE) →
  range_update b b' f (f + 1) false → paging_core mi pd w m b'.
Proof.
  intros Hc Hf Hup. eapply core_frames; [done| |].
  - eapply frames_inv_update; [by eapply pc_frames|done].
  - intros a Ha Hu. eapply frame_used_update; [done| |done]. right. intros <-. apply Ha.
    destruct Hu as [Hal _]. by rewrite <- (aligned_page a Hal) in Hf.
Qed.

(** A clear frame is fresh. *)
Lemma clear_fresh mi pd w m b f :
  paging_core mi pd w m b → bit b f = false → fresh_frame w m (f * PAGE_SIZE).
Proof.
  intros Hc Hb. assert (Hal : f * PAGE_SIZE mod PAGE_SIZE = 0) by (by apply Z.mod_mul).
  assert (Hn : ¬ frame_used b (f * PAGE_SIZE)).
  { intros (_ & _ & Hu). rewrite Z.div_mul in Hu by done. congruence. }
  split.
  - apply not_structure_iff; [done|]. intros Hs. by eapply Hn, pc_structure.
  - intros p Hp Hpw Hwalk. by eapply Hn, pc_mapped.
Qed.

(** ** The directory and the tables change *)

(** A new, empty table. *)
Lemma core_new_table mi pd w m b t table v :
  paging_core mi pd w m b → 0 ≤ t < 1024 → entry_target (pde m t) = None →
  is_u32 v → entry_target v = Some table → frame_used b table → fresh_frame w m table →
  (∀ i, 0 ≤ i < 1024 → entry_target (pte m table i) = None) →
  let m' := phys_write m (pd + 4 * t) v in
  paging_core mi pd w m' b ∧ has_table m' t table ∧
  (∀ p, is_page p → walk m' p = walk m p) ∧
  (∀ a, fresh_frame w m a → a ≠ table → fresh_frame w m' a).
Proof.
  intros Hc Ht Hnone Hv Htab Hu [Hns Hnm] Hempty m'.
  pose proof (pc_tables _ _ _ _ _ Hc) as Hwf. pose proof (pc_cr3 _ _ _ _ _ Hc) as Hcr3.
  pose proof (write_pde_spec m t table v Hwf Ht Hnone Hv Htab Hns Hempty) as Hspec.
  rewrite Hcr3 in Hspec. fold m' in Hspec. destruct Hspec as (Hwf' & Hht & Hpde & Hwalk).
  assert (Hback : ∀ t' T, has_table m' t' T → T = table ∨ has_table m t' T).
  { intros t' T HT. destruct (decide (t' = t)) as [->|Hne].
    - left. destruct Hht as [_ Hht], HT as [_ HT]. congruence.
    - right. destruct HT as [Ht' HT]. split; [done|]. by rewrite <- Hpde. }
  assert (Hns' : ∀ a, not_structure m a → a ≠ table → not_structure m' a).
  { intros a (H1 & H2 & H3) Ha. split_and!; [done|done|].
    intros t' [->|HT]%Hback; [done|by eapply H3]. }
  destruct Hc as [H1 H2 H3 H4 H5 H6 (T0 & H7 & H8) H9 H10 H11 H12 H13]. split_and!; [|done|done|].
  - split; try done.
    + exists T0. split; [|done]. destruct (decide (0 = t)) as [<-|Hne].
      * destruct H7 as [_ H7]. congruence.
      * destruct H7 as [H7 H7']. split; [done|]. by rewrite Hpde.
    + intros p Hp. rewrite Hwalk; [by apply H9|by apply reserved_is_page, Hp].
    + intros a [Ha|[t' [->|HT]%Hback]]; [|done|]; apply H10; [by left|right; by exists t'].
    + intros p f Hp Hpw. rewrite Hwalk by done. by apply H11.
    + intros p q f Hp Hq Hpw Hqw. rewrite !Hwalk by done. by apply H12.
    + intros p f Hp. rewrite Hwalk by (by apply client_is_page). intros Hf.
      apply Hns'; [by eapply H13|]. intros ->. eapply Hnm; [..|done].
      * by apply client_is_page.
      * eapply client_not_window; [|done]. lia.
  - intros a [Ha Ham] Hat. split; [by apply Hns'|]. intros p Hp Hpw. rewrite Hwalk by done.
    by apply Ham.
Qed.

(** A client's entry: mapped to a fresh frame that is marked, or unmapped. *)
Lemma core_client_entry mi pd w m b t table i v :
  paging_core mi pd w m b → has_table m t table → 0 ≤ i < 1024 → client_page (1024 * t + i) →
  is_u32 v → (∀ f, entry_target v = Some f → frame_used b f ∧ fresh_frame w m f) →
  let m' := phys_write m (table + 4 * i) v in
  paging_core mi pd w m' b ∧ walk m' (1024 * t + i) = entry_target v ∧
  (∀ p, is_page p → p ≠ 1024 * t + i → walk m' p = walk m p) ∧
  (∀ a, not_structure m' a ↔ not_structure m a) ∧ has_table m' t table.
Proof.
  intros Hc Ht Hi Hcl Hv Hfresh m'. pose proof (pc_tables _ _ _ _ _ Hc) as Hwf.
  destruct (write_pte_spec m t table i v Hwf Ht Hi Hv) as (Hwf' & Hpde & Hwalk & Hother).
  fold m' in Hwf', Hpde, Hwalk, Hother. set (p0 := 1024 * t + i) in *.
  assert (Hht : ∀ t' T, has_table m' t' T ↔ has_table m t' T).
  { intros t' T. unfold has_table. split; intros [Ht' HT]; (split; [done|]).
    - by rewrite <- Hpde.
    - by rewrite Hpde. }
  assert (Hns : ∀ a, not_structure m' a ↔ not_structure m a).
  { intros a. unfold not_structure. by setoid_rewrite Hht. }
  assert (Hcase : ∀ p f, is_page p → walk m' p = Some f →
            (p = p0 ∧ entry_target v = Some f) ∨ (p ≠ p0 ∧ walk m p = Some f)).
  { intros p f Hp Hf. destruct (decide (p = p0)) as [->|Hne]; [left|right]; (split; [done|]).
    - congruence.
    - by rewrite <- Hother. }
  destruct Hc as [H1 H2 H3 H4 H5 H6 (T0 & H7 & H8) H9 H10 H11 H12 H13].
  split_and!; [|done|done|done|by apply Hht].
  split; try done.
  - exists T0. by rewrite Hht.
  - intros p Hp. rewrite Hother; [by apply H9|by apply reserved_is_page, Hp|].
    destruct Hp as [Hp _]. unfold client_page in Hcl. unfold reserved_pages in Hp. lia.
  - intros a [->|[t' HT%Hht]]; apply H10; [by left|right; by exists t'].
  - intros p f Hp Hpw [[-> Hf]|[Hne Hf]]%Hcase; [by apply Hfresh|by eapply H11|done].
  - intros p q f Hp Hq Hpw Hqw Hpf Hqf.
    apply Hcase in Hpf; [|done]. apply Hcase in Hqf; [|done].
    destruct Hpf as [[-> Hf]|[Hne Hf]], Hqf as [[-> Hf']|[Hne' Hf']]; [done|..].
    + exfalso. destruct (Hfresh _ Hf) as [_ [_ Hn]]. exact (Hn q Hq Hqw Hf').
    + exfalso. destruct (Hfresh _ Hf') as [_ [_ Hn]]. exact (Hn p Hp Hpw Hf).
    + by eapply H12.
  - intros p f Hp Hf. apply Hns. apply Hcase in Hf; [|by apply client_is_page].
    destruct Hf as [[-> Hf]|[Hne Hf]]; [|by eapply H13]. apply (Hfresh _ Hf).
Qed.
