(* ===== verification/PagingSpec.v ===== *)
(** The running paging system: specifications of the operations of
    [kernel/arch/i386/paging.c] after initialisation, up to the instance of
    [PageMapper] that the kernel heap relies on. *)
From stdpp Require Import base numbers list gmap.
From Stdlib Require Import ZArith Lia.
From S2P Require Import Prelude Kernel Bitset Alloc Meminfo EarlyHeap Frames Machine KPaging Asa.
From S2P Require Import Paging Window.

(** The page number of the window. *)
Definition window_page (s : paging_state) : Z := ps_window s / PAGE_SIZE.

(** The page maps a client sees. *)
Definition mapped_frame (s : paging_state) (p : Z) : option Z := walk (ps_mach s) p.

(** * Accesses *)

#[export] Instance paging_core_proper mi pd w :
  Proper ((≡) ==> (=) ==> iff) (paging_core mi pd w).
Proof.
  enough (H : ∀ m m' b, m ≡ m' → paging_core mi pd w m b → paging_core mi pd w m' b).
  { intros m m' Hm b ? <-. split; by apply H. }
  intros m m' b Hm Hc. eapply (kept_core (x := λ _, False)); [by apply kept_equiv| |done].
  rewrite <- Hm. apply Hc.
Qed.

Lemma paging_inv_mach s m :
  paging_inv s → paging_core (ps_meminfo s) (ps_pd s) (window_page s) m (ps_frames s) → tlb_ok m →
  paging_inv (set_mach s m).
Proof. intros [] Hc Htlb. by split. Qed.

Lemma paging_inv_frames s b :
  paging_inv s →
  paging_core (ps_meminfo s) (ps_pd s) (window_page s) (ps_mach s) b → paging_inv (set_frames s b).
Proof. intros [] Hc. by split. Qed.

Lemma paging_inv_equiv s m :
  paging_inv s → m ≡ ps_mach s → tlb_ok m → paging_inv (set_mach s m).
Proof. intros Hs Hm Htlb. apply paging_inv_mach; [done| |done]. rewrite Hm. apply Hs. Qed.

Section accesses.
Context (s : paging_state) (Hs : paging_inv s).

Lemma window_page_early : 0 ≤ window_page s < reserved_pages.
Proof. pose proof (pc_window _ _ _ _ _ (pi_core _ Hs)). unfold window_page. lia. Qed.

Lemma window_addr i :
  0 ≤ i < 1024 →
  is_u32 (ps_window s + 4 * i) ∧ (ps_window s + 4 * i) / PAGE_SIZE = window_page s ∧
  (ps_window s + 4 * i) mod PAGE_SIZE = 4 * i.
Proof.
  intros Hi. pose proof window_page_early as Hw. change reserved_pages with 380 in Hw.
  pose proof (aligned_page _ (pi_window _ Hs)) as Hal. fold (window_page s) in Hal.
  unfold PAGE_SIZE in *. rewrite Hal at 1 2 3.
  rewrite Z.div_add_l, Z.div_small, Z.add_0_r by lia.
  rewrite Z.add_comm, Z.mod_add, Z.mod_small by lia. unfold is_u32. lia.
Qed.

Lemma load_mapped va f :
  is_u32 va → walk (ps_mach s) (va / PAGE_SIZE) = Some f →
  ∃ m, load va s = Ret (phys_read (ps_mach s) (f + va mod PAGE_SIZE), set_mach s m) ∧
       m ≡ ps_mach s ∧ paging_inv (set_mach s m).
Proof.
  intros Hva Hw.
  destruct (vread_mapped (ps_mach s) (λ _, False) (pc_paging _ _ _ _ _ (pi_core _ Hs))
    (pi_tlb _ Hs) va f Hva) as (m & Hr & Hm & Htlb); [tauto|done|].
  exists m. unfold load. rewrite Hr, Ret_bind. split_and!; [done|done|].
  by apply paging_inv_equiv.
Qed.

Lemma store_mapped va f v :
  is_u32 va → walk (ps_mach s) (va / PAGE_SIZE) = Some f →
  ∃ m, store va v s = Ret (set_mach s (phys_write m (f + va mod PAGE_SIZE) v)) ∧
       m ≡ ps_mach s ∧ paging_inv (set_mach s m).
Proof.
  intros Hva Hw.
  destruct (vwrite_mapped (ps_mach s) (λ _, False) (pc_paging _ _ _ _ _ (pi_core _ Hs))
    (pi_tlb _ Hs) va f Hva) with (v := v) as (m & Hr & Hm & Htlb); [tauto|done|].
  exists m. unfold store. rewrite Hr, Ret_bind. split_and!; [done|done|].
  by apply paging_inv_equiv.
Qed.

(** Through the window. *)
Lemma load_window i f :
  0 ≤ i < 1024 → walk (ps_mach s) (window_page s) = Some f →
  ∃ m, load (ps_window s + 4 * i) s = Ret (pte (ps_mach s) f i, set_mach s m) ∧
       m ≡ ps_mach s ∧ paging_inv (set_mach s m).
Proof.
  intros Hi Hw. destruct (window_addr i Hi) as (Hu & Hd & Hm).
  rewrite <- Hd in Hw. destruct (load_mapped _ _ Hu Hw) as (m & Hl & H).
  rewrite Hm in Hl. by exists m.
Qed.

Lemma store_window i f v :
  0 ≤ i < 1024 → walk (ps_mach s) (window_page s) = Some f →
  ∃ m, store (ps_window s + 4 * i) v s = Ret (set_mach s (phys_write m (f + 4 * i) v)) ∧
       m ≡ ps_mach s ∧ paging_inv (set_mach s m).
Proof.
  intros Hi Hw. destruct (window_addr i Hi) as (Hu & Hd & Hm).
  rewrite <- Hd in Hw. destruct (store_mapped _ _ v Hu Hw) as (m & Hl & H).
  rewrite Hm in Hl. by exists m.
Qed.

(** A word of an identity-mapped page. *)
Lemma early_slot a i :
  a mod PAGE_SIZE = 0 → early_page (window_page s) (a / PAGE_SIZE) → 0 ≤ i < 1024 →
  is_u32 (a + 4 * i) ∧
  walk (ps_mach s) ((a + 4 * i) / PAGE_SIZE) = Some a ∧ (a + 4 * i) mod PAGE_SIZE = 4 * i.
Proof.
  intros Hal Ha Hi. pose proof Ha as [Ha' _]. change reserved_pages with 380 in Ha'.
  pose proof (pc_identity _ _ _ _ _ (pi_core _ Hs) _ Ha) as Hw.
  pose proof (aligned_page _ Hal) as He. set (q := a / PAGE_SIZE) in *.
  rewrite He. unfold PAGE_SIZE in *.
  rewrite Z.div_add_l, Z.div_small, Z.add_0_r by lia.
  rewrite (Z.add_comm (q * 4096)), Z.mod_add, Z.mod_small by lia.
  unfold is_u32. split_and!; [lia..|done|done].
Qed.
End accesses.

(** * The window *)

(** Reading a directory entry through the directory's own address. *)
Lemma TABLE_IN_DIR_early s t :
  paging_inv s → 0 ≤ t < 1024 →
  ∃ m, TABLE_IN_DIR t (ps_pd s) s = Ret (entry_addr (pde (ps_mach s) t), set_mach s m) ∧
       m ≡ ps_mach s ∧ paging_inv (set_mach s m).
Proof.
  intros Hs Ht. pose proof (pi_core _ Hs) as Hc.
  pose proof (pc_cr3 _ _ _ _ _ Hc) as Hcr3.
  destruct (early_slot s Hs (ps_pd s) t) as (Hu & Hw & Hm); [|apply Hc|done|].
  { rewrite <- Hcr3. apply Hc. }
  destruct (load_mapped s Hs _ _ Hu Hw) as (m & Hl & Heq & Hi).
  exists m. unfold TABLE_IN_DIR. rewrite Hl, Ret_bind, Hm. split_and!; [|done|done].
  unfold pde. by rewrite Hcr3.
Qed.

Lemma kept_tlb_ok_but w m m' a v :
  tlb_ok m → m' = phys_write m a v → kept w (λ _, False) m m' → tlb_ok_but (λ p, p = w) m'.
Proof. intros Htlb -> Hk. apply tlb_ok_write; [done|]. apply Hk. Qed.

(** [get_virt_ptr]: the window shows the requested page, and nothing else has
    moved. *)
Lemma get_virt_ptr_spec s phys :
  paging_inv s → is_u32 phys → phys mod PAGE_SIZE = 0 →
  ∃ m, get_virt_ptr phys s = Ret (ps_window s, set_mach s m) ∧
       paging_inv (set_mach s m) ∧ kept (window_page s) (λ _, False) (ps_mach s) m ∧
       walk m (window_page s) = Some phys.
Proof.
  intros Hs Hu Hal. unfold get_virt_ptr.
  change 0x1000 with PAGE_SIZE. rewrite Hal, (pi_done _ Hs), Z.eqb_refl. simpl assert.
  rewrite Ret_bind. simpl negb. cbv iota.
  pose proof (window_page_early s Hs) as Hw. fold (window_page s).
  change reserved_pages with 380 in Hw.
  rewrite (Z.div_small (window_page s)), (Z.mod_small (window_page s)) by lia.
  destruct (TABLE_IN_DIR_early s 0 Hs) as (m1 & -> & Hm1 & Hs1); [lia|]. rewrite Ret_bind.
  pose proof (pi_core _ Hs) as Hc.
  destruct (pc_table0 _ _ _ _ _ Hc) as (T0 & HT0 & HT0e).
  assert (entry_addr (pde (ps_mach s) 0) = T0) as ->.
  { destruct HT0 as [_ HT0]. unfold entry_target in HT0. by case_match; simplify_eq. }
  destruct (has_table_props _ _ _ (pc_tables _ _ _ _ _ Hc) HT0) as (_ & HT0al & _).
  destruct (early_slot _ Hs1 T0 (window_page s)) as (Hu' & Hw' & Hmod); [done|done|lia|].
  destruct (store_mapped _ Hs1 _ _ (Z.lor (Z.lor phys PT_PRESENT) PT_RW) Hu' Hw')
    as (m2 & -> & Hm2 & Hs2).
  simpl in Hm2. rewrite Ret_bind, Hmod. simpl ps_window. simpl ps_mach.
  pose proof (pi_core _ Hs2) as Hc2. simpl in Hc2.
  assert (HT2 : has_table m2 0 T0) by (by rewrite Hm2, Hm1).
  rewrite <- Z.lor_assoc. change (Z.lor PT_PRESENT PT_RW) with 3.
  pose proof (lor_flags phys 3 Hu Hal ltac:(unfold PAGE_SIZE; lia)) as [_ Hvu].
  destruct (write_window_spec _ _ _ _ _ T0 _ (λ _, False) Hc2 HT2 Hvu) as (Hk & Hcore & Hwalk).
  fold (window_page s) in *. set (m' := phys_write m2 _ _) in *.
  rewrite lor_flags_target in Hwalk by (done || (unfold PAGE_SIZE; lia)).
  exists (invlpg (ps_window s) m'). split_and!.
  - done.
  - apply paging_inv_mach; [done|by rewrite invlpg_equiv|].
    apply tlb_ok_invlpg. eapply kept_tlb_ok_but; [apply (pi_tlb _ Hs2)|done|done].
  - apply (kept_trans _ _ _ m2); [apply kept_equiv; by rewrite Hm2, Hm1|].
    apply (kept_trans _ _ _ m'); [done|]. by apply kept_equiv.
  - by rewrite invlpg_equiv.
Qed.

(** Writes that change no translation. *)
Lemma tlb_ok_walks m m' :
  tlb_ok m → tlb m' = tlb m → (∀ p, is_page p → walk m' p = walk m p) → tlb_ok m'.
Proof.
  intros Htlb Ht Hw p f. rewrite Ht. intros Hp. destruct (Htlb p f Hp) as [Hpg [[]|Hf]].
  split; [done|]. right. by rewrite Hw.
Qed.

(** [memset32] through the window clears the page it shows: every word of the
    page becomes [v], the structures do not change. *)
Lemma memset32_window s page v :
  paging_inv s → walk (ps_mach s) (window_page s) = Some page →
  not_structure (ps_mach s) page → is_u32 v →
  ∃ m, memset32 (ps_window s) v 1024 (ps_mach s) = Ret m ∧
       paging_inv (set_mach s m) ∧ kept (window_page s) (λ a, a = page) (ps_mach s) m ∧
       walk m (window_page s) = Some page ∧
       ∀ i, 0 ≤ i < 1024 → pte m page i = v.
Proof.
  intros Hs Hw Hns Hv. apply wp_inv. unfold memset32.
  apply (wp_for_range (λ k m, paging_inv (set_mach s m) ∧
    kept (window_page s) (λ a, a = page) (ps_mach s) m ∧
    walk m (window_page s) = Some page ∧ ∀ i, 0 ≤ i < k → pte m page i = v)); [lia| |].
  { split_and!; [by destruct s|done|done|lia]. }
  intros k m Hk (Hsm & Hkept & Hwm & Hset).
  destruct (store_window _ Hsm k page v Hk Hwm) as (m1 & Hst & Hm1 & Hs1).
  simpl in Hm1. unfold store in Hst. simpl ps_window in Hst. simpl ps_mach in Hst.
  apply bind_Ret_inv in Hst as (m2 & -> & Heq). injection Heq as ->. apply wp_ret.
  assert (Hns1 : not_structure m1 page).
  { apply (kept_not_structure (kept_equiv (window_page s) (λ a, a = page) _ _ Hm1)).
    by apply (kept_not_structure Hkept). }
  destruct (write_page_spec _ _ _ _ _ page k v (pi_core _ Hs1) Hns1 Hk Hv) as (Hk1 & Hc1 & Hw1).
  simpl in Hk1, Hc1, Hw1. split_and!.
  - apply (paging_inv_mach (set_mach s m1)); [done|done|].
    apply (tlb_ok_walks m1); [apply (pi_tlb _ Hs1)|done|]. intros p Hp.
    destruct (decide (p = window_page s)) as [->|]; [done|by apply Hk1].
  - apply (kept_trans _ _ _ m); [done|]. apply (kept_trans _ _ _ m1); [by apply kept_equiv|done].
  - unfold window_page in *. rewrite Hw1. by rewrite Hm1.
  - intros i Hi. destruct (decide (i = k)) as [->|].
    + unfold pte. apply phys_read_write_eq.
    + unfold pte. rewrite phys_read_write_ne by lia.
      fold (pte m1 page i). rewrite Hm1. apply Hset. lia.
Qed.

(** * Page tables *)

(** The states an operation can lead to differ in the machine and the bitset. *)
Definition upd (s : paging_state) (b : bitset) (m : machine) : paging_state :=
  set_mach (set_frames s b) m.

Lemma upd_id s : upd s (ps_frames s) (ps_mach s) = s.
Proof. by destruct s. Qed.

(** The frame number [f] is taken from the allocator. *)
Definition takes (s : paging_state) (b : bitset) (f : Z) : Prop :=
  0 < f < n_frames (ps_frames s) ∧ bit (ps_frames s) f = false ∧
  range_update (ps_frames s) b f (f + 1) true.

Lemma set_frames_id s : set_frames s (ps_frames s) = s.
Proof. by destruct s. Qed.

Lemma takes_inv s b f :
  paging_inv s → takes s b f →
  paging_inv (set_frames s b) ∧ f ⊗ PAGE_SIZE = f * PAGE_SIZE ∧ is_u32 (f * PAGE_SIZE) ∧
  f * PAGE_SIZE ≠ 0 ∧ f * PAGE_SIZE mod PAGE_SIZE = 0 ∧ frame_used b (f * PAGE_SIZE) ∧
  fresh_frame (window_page s) (ps_mach s) (f * PAGE_SIZE).
Proof.
  intros Hs (Hf & Hb & Hup). pose proof (pi_core _ Hs) as Hc.
  destruct (n_frames_bounds _ _ (pc_frames _ _ _ _ _ Hc)) as [Hn Hlen].
  pose proof Hup as (_ & Hl & Hbits).
  assert (Hu : is_u32 (f * PAGE_SIZE)) by (unfold is_u32, PAGE_SIZE; lia).
  assert (Hal : f * PAGE_SIZE mod PAGE_SIZE = 0) by (by apply Z.mod_mul).
  split; [apply paging_inv_frames; [done|]; by eapply core_set|].
  split; [by apply u32_small|]. split; [done|]. split; [unfold PAGE_SIZE; lia|].
  split; [done|]. split; [|by eapply clear_fresh].
  split; [done|]. rewrite Z.div_mul by done. split; [lia|].
  rewrite Hbits by lia. case_decide; [done|lia].
Qed.

Lemma allocate_page_table_spec s :
  paging_inv s →
  wp (allocate_page_table s) (λ '(ret, phys, s'),
    (ret = K_OOM ∧ s' = s) ∨
    (ret = K_SUCCESS ∧ ∃ f b m, s' = upd s b m ∧ phys = f * PAGE_SIZE ∧ takes s b f ∧
       paging_inv s' ∧ kept (window_page s) (λ a, a = phys) (ps_mach s) m ∧
       ∀ i, 0 ≤ i < 1024 → entry_target (pte m phys i) = None)).
Proof.
  intros Hs. unfold allocate_page_table. rewrite (pi_done _ Hs).
  apply wp_bind. eapply wp_mono; [apply allocate_frame_spec, Hs|].
  intros [f b] Hres. case_bool.
  { subst f. left. split; [done|]. destruct Hres as [(?&_)|(_ & -> & _)]; [lia|].
    apply set_frames_id. }
  destruct Hres as [(Hf & Hb & _ & _ & Hup)|(? & _)]; [|done].
  assert (Htakes : takes s b f) by done.
  destruct (takes_inv s b f Hs Htakes) as (Hs1 & Hmul & Hu & _ & Hal & Hused & Hfresh).
  rewrite Hmul. destruct (get_virt_ptr_spec _ _ Hs1 Hu Hal) as (m1 & Hg & Hs2 & Hk1 & Hw1).
  rewrite Hg, Ret_bind. simpl ps_window. simpl ps_mach.
  assert (Hns : not_structure m1 (f * PAGE_SIZE)).
  { apply (kept_not_structure Hk1). apply Hfresh. }
  destruct (memset32_window _ _ PT_RW Hs2 Hw1 Hns) as (m2 & Hset & Hs3 & Hk2 & _ & Hpte).
  { change (0 ≤ 2 < 2 ^ 32). lia. }
  simpl in Hset. rewrite Hset, Ret_bind. right. split; [done|].
  exists f, b, m2. split_and!; try done.
  - apply (kept_trans _ _ _ m1); [|exact Hk2]. by eapply kept_weaken; [|exact Hk1].
  - intros i Hi. by rewrite Hpte.
Qed.

Lemma present_test e : (Z.land e PD_PRESENT =? 0) = negb (entry_present e).
Proof.
  change PD_PRESENT with (shl1 0). pose proof (truthy_land_shl1 e 0 ltac:(lia)) as Hb.
  unfold truthy in Hb. unfold entry_present. by rewrite <- Hb, negb_involutive.
Qed.

(** Reading a directory entry through the window. *)
Lemma open_dir s t :
  paging_inv s → 0 ≤ t < 1024 →
  ∃ m1 m2, get_virt_ptr (ps_pd s) s = Ret (ps_window s, set_mach s m1) ∧
    load (ps_window s + 4 * t) (set_mach s m1) = Ret (pde (ps_mach s) t, set_mach s m2) ∧
    paging_inv (set_mach s m2) ∧ kept (window_page s) (λ _, False) (ps_mach s) m2 ∧
    walk m2 (window_page s) = Some (ps_pd s).
Proof.
  intros Hs Ht. pose proof (pi_core _ Hs) as Hc. pose proof (pc_cr3 _ _ _ _ _ Hc) as Hcr3.
  destruct (get_virt_ptr_spec s (ps_pd s) Hs) as (m1 & Hg & Hs1 & Hk1 & Hw1);
    [rewrite <- Hcr3; apply Hc..|].
  destruct (load_window _ Hs1 t _ Ht Hw1) as (m2 & Hl & Hm2 & Hs2). simpl in Hl, Hm2.
  exists m1, m2. split_and!; [done| |done| |by rewrite Hm2].
  - rewrite Hl. do 2 f_equal. rewrite <- (k_pde _ _ _ _ Hk1) by done.
    unfold pte, pde. by rewrite (k_cr3 _ _ _ _ Hk1), Hcr3.
  - apply (kept_trans _ _ _ m1); [done|by apply kept_equiv].
Qed.

(** [ensure_table] on a directory entry: the table is there afterwards, no
    translation has changed, and frames that were fresh and marked still are. *)
Lemma ensure_table_spec s t fl :
  paging_inv s → 0 ≤ t < 1024 → map_flags fl →
  wp (ensure_table (ps_pd s) fl t s) (λ '(ret, pdv, s'), ∃ b m,
    s' = upd s b m ∧ paging_inv s' ∧
    (∀ p, is_page p → p ≠ window_page s → walk m p = walk (ps_mach s) p) ∧
    client_kept (λ _, False) (ps_mach s) m ∧
    ((ret = K_OOM ∧ b = ps_frames s ∧ (∀ a, not_structure m a ↔ not_structure (ps_mach s) a)) ∨
     (ret = K_SUCCESS ∧ pdv = ps_window s ∧ walk m (window_page s) = Some (ps_pd s) ∧
      (∃ T, has_table m t T) ∧
      (∀ f, 0 ≤ f → bit (ps_frames s) f = true → bit b f = true ∧
         (fresh_frame (window_page s) (ps_mach s) (f * PAGE_SIZE) →
          fresh_frame (window_page s) m (f * PAGE_SIZE)))))).
Proof.
  intros Hs Ht Hfl. pose proof (pi_core _ Hs) as Hc. pose proof (pc_cr3 _ _ _ _ _ Hc) as Hcr3.
  assert (Hpd : is_u32 (ps_pd s) ∧ ps_pd s mod PAGE_SIZE = 0) by (rewrite <- Hcr3; split; apply Hc).
  unfold ensure_table. destruct (open_dir s t Hs Ht) as (m1 & m2 & Hg0 & Hl & Hs2 & Hk2 & Hw2).
  rewrite Hg0, Ret_bind, Hl, Ret_bind, present_test.
  destruct (entry_present (pde (ps_mach s) t)) eqn:Hpres; simpl negb; cbv iota.
  { apply wp_ret. exists (ps_frames s), m2. split_and!; [done|done|apply Hk2|by eapply kept_client_none|].
    right. split_and!; [done|done|done| |].
    - exists (entry_addr (pde (ps_mach s) t)). apply (kept_has_table Hk2). split; [done|].
      unfold entry_target. by rewrite Hpres.
    - intros f _ Hf. split; [done|]. by rewrite (kept_fresh Hk2). }
  apply wp_bind. eapply wp_mono; [apply allocate_page_table_spec, Hs2|].
  intros [[ret phys] s3] [[-> ->]|[-> (f & b & m3 & -> & -> & Htakes & Hs3 & Hk3 & Hempty)]]; simpl.
  { exists (ps_frames s), m2. split_and!; [done|done|apply Hk2|by eapply kept_client_none|]. left. split_and!; [done|done|].
    apply (kept_not_structure Hk2). }
  simpl in Hk3. set (table := f * PAGE_SIZE) in *.
  destruct (takes_inv _ _ _ Hs2 Htakes) as (_ & _ & Hu & _ & Hal & Hused & Hfresh).
  fold table in Hu, Hal, Hused, Hfresh.
  destruct (get_virt_ptr_spec _ (ps_pd s) Hs3) as (m4 & Hg4 & Hs4 & Hk4 & Hw4); [apply Hpd..|].
  rewrite Hg4, Ret_bind. simpl in Hk4.
  destruct (store_window _ Hs4 t _ (Z.lor table fl) Ht Hw4) as (m5 & Hst & Hm5 & Hs5).
  simpl ps_window in *. simpl in Hm5. rewrite Hst, Ret_bind. apply wp_ret.
  assert (Hk5 : kept (window_page s) (λ a, a = table) (ps_mach s) m5).
  { apply (kept_trans _ _ _ m2); [by eapply kept_weaken; [|exact Hk2]|].
    apply (kept_trans _ _ _ m3); [done|]. apply (kept_trans _ _ _ m4).
    - by eapply kept_weaken; [|exact Hk4].
    - by apply kept_equiv. }
  destruct (lor_flags table fl Hu Hal (proj1 Hfl)) as [_ Hvu].
  pose proof (lor_flags_target table fl Hu Hal (proj1 Hfl) (proj2 Hfl)) as Htarget.
  assert (Hfresh5 : ∀ a, fresh_frame (window_page s) m5 a ↔ fresh_frame (window_page s) (ps_mach s) a)
    by apply (kept_fresh Hk5).
  destruct (core_new_table _ _ _ _ _ t table (Z.lor table fl) (pi_core _ Hs5) Ht)
    as (Hc' & Hht & Hwalk & Hfr); [|done|done|done| | |].
  { simpl. rewrite (k_pde _ _ _ _ Hk5) by done. unfold entry_target. by rewrite Hpres. }
  { apply Hfresh5. by apply (kept_fresh Hk2). }
  { intros i Hi. simpl. rewrite Hm5. rewrite <- (Hempty i Hi). f_equal.
    apply (k_content _ _ _ _ Hk4); [|tauto|done].
    apply (kept_not_structure Hk3). apply Hfresh. }
  simpl in Hc', Hht, Hwalk, Hfr. simpl. fold (window_page s) in *.
  set (m' := phys_write m5 _ _) in *.
  exists b, m'. split_and!; [done| | | |].
  - apply (paging_inv_mach (upd s b m5)); [done|done|].
    apply (tlb_ok_walks m5); [apply (pi_tlb _ Hs5)|done|done].
  - intros p Hp Hpw. rewrite Hwalk by done. by apply Hk5.
  - apply (client_kept_trans _ _ m5).
    + eapply kept_client; [exact Hc|exact Hk5|]. intros a -> q Hq.
      apply (kept_fresh Hk2) in Hfresh as [_ Hfresh]. apply Hfresh; [by apply client_is_page|].
      eapply client_not_window; [by apply window_page_early|done].
    + apply client_kept_write; [apply Hpd|done| |].
      * intros q g Hq Hg. destruct (pc_client _ _ _ _ _ (pi_core _ Hs5) q g Hq Hg) as (? & Hne & _).
        split; [done|]. pose proof (pc_cr3 _ _ _ _ _ (pi_core _ Hs5)) as Hcr5. simpl in Hne, Hcr5. congruence.
      * intros q Hq _. by apply Hwalk, client_is_page.
  - right. split_and!; [done|done| |by exists table|].
    + rewrite Hwalk; [by rewrite Hm5|]. apply reserved_is_page, window_page_early, Hs.
    + intros g Hge Hgb. destruct Htakes as (_ & Hclear & (_ & _ & Hbits)). simpl in Hclear, Hbits.
      assert (Hne : g ≠ f) by (intros ->; congruence). split.
      * rewrite Hbits by done. by case_decide.
      * intros Hgf. apply Hfr; [by apply Hfresh5|]. unfold table, PAGE_SIZE. lia.
Qed.

(** * Pages *)

(** A client page: its slot, and where its address falls. *)
Lemma client_slot p :
  client_page p →
  is_u32 (p * PAGE_SIZE) ∧ p * PAGE_SIZE / PAGE_SIZE = p ∧ p * PAGE_SIZE mod PAGE_SIZE = 0 ∧
  0 ≤ p / 1024 < 1024 ∧ 0 ≤ p mod 1024 < 1024 ∧ p = 1024 * (p / 1024) + p mod 1024.
Proof.
  intros Hp. pose proof (client_is_page p Hp) as Hpg.
  rewrite Z.div_mul, Z.mod_mul by done. split; [unfold is_page, is_u32, PAGE_SIZE in *; lia|].
  split; [done|]. split; [done|]. by apply page_split.
Qed.

(** Reaching the table of slot [t] when the window shows the directory. *)
Lemma open_table s t T :
  paging_inv s → walk (ps_mach s) (window_page s) = Some (ps_pd s) → has_table (ps_mach s) t T →
  ∃ m1 m2, TABLE_IN_DIR t (ps_window s) s = Ret (T, set_mach s m1) ∧
    get_virt_ptr T (set_mach s m1) = Ret (ps_window s, set_mach s m2) ∧
    paging_inv (set_mach s m2) ∧ kept (window_page s) (λ _, False) (ps_mach s) m2 ∧
    walk m2 (window_page s) = Some T ∧ has_table m2 t T.
Proof.
  intros Hs Hw HT. pose proof (pi_core _ Hs) as Hc. pose proof HT as [Ht HTe].
  destruct (load_window _ Hs t _ Ht Hw) as (m1 & Hl & Hm1 & Hs1).
  destruct (has_table_props _ _ _ (pc_tables _ _ _ _ _ Hc) HT) as (Hu & Hal & _).
  destruct (get_virt_ptr_spec _ T Hs1 Hu Hal) as (m2 & Hg & Hs2 & Hk2 & Hw2).
  simpl in Hk2. exists m1, m2.
  assert (Hk : kept (window_page s) (λ _, False) (ps_mach s) m2).
  { apply (kept_trans _ _ _ m1); [by apply kept_equiv|done]. }
  split_and!; [|done|done|done|done|by apply (kept_has_table Hk)].
  unfold TABLE_IN_DIR. rewrite Hl, Ret_bind. do 2 f_equal.
  unfold pde in HTe. rewrite (pc_cr3 _ _ _ _ _ Hc) in HTe.
  unfold pte. unfold entry_target in HTe. by case_match; simplify_eq.
Qed.

(** Freeing a fresh frame. *)
Lemma free_fresh_frame s f :
  paging_inv s → 0 ≤ f < bs_length (ps_frames s) →
  fresh_frame (window_page s) (ps_mach s) (f * PAGE_SIZE) →
  ∃ b, bitset_clear_bit (ps_frames s) f = Ret b ∧ range_update (ps_frames s) b f (f + 1) false ∧
       paging_inv (set_frames s b).
Proof.
  intros Hs Hf Hfresh. pose proof (pi_core _ Hs) as Hc.
  destruct (bitset_clear_bit_spec (ps_frames s) (frames_wf _ _ (pc_frames _ _ _ _ _ Hc)) f Hf)
    as (b & Hcl & Hup).
  exists b. split_and!; [done|apply Hup..|]. apply paging_inv_frames; [done|].
  by eapply core_clear.
Qed.

(** Storing a client's entry through the window. *)
Lemma store_client_entry s t T i v :
  paging_inv s → walk (ps_mach s) (window_page s) = Some T → has_table (ps_mach s) t T →
  0 ≤ i < 1024 → client_page (1024 * t + i) → is_u32 v →
  (∀ f, entry_target v = Some f →
     frame_used (ps_frames s) f ∧ fresh_frame (window_page s) (ps_mach s) f) →
  ∃ m, store (ps_window s + 4 * i) v s = Ret (set_mach s m) ∧
    paging_core (ps_meminfo s) (ps_pd s) (window_page s) m (ps_frames s) ∧
    tlb_ok_but (λ p, p = 1024 * t + i) m ∧
    (walk (ps_mach s) (1024 * t + i) = None → tlb_ok m) ∧
    walk m (1024 * t + i) = entry_target v ∧
    (∀ p, is_page p → p ≠ 1024 * t + i → walk m p = walk (ps_mach s) p) ∧
    (∀ a, not_structure m a ↔ not_structure (ps_mach s) a) ∧
    has_table m t T ∧ pte m T i = v ∧ client_kept (.= 1024 * t + i) (ps_mach s) m.
Proof.
  intros Hs Hw HT Hi Hcl Hv Hfresh.
  destruct (store_window _ Hs i T v Hi Hw) as (m1 & Hst & Hm1 & Hs1).
  pose proof (pi_core _ Hs1) as Hc1. simpl in Hc1.
  destruct (core_client_entry _ _ _ _ _ t T i v Hc1) as (Hc & Hwt & Hwo & Hns & Hht);
    [by rewrite Hm1|done|done|done| |].
  { intros f Hf. destruct (Hfresh f Hf) as [Hu Hfr]. split; [done|].
    eapply (kept_fresh (kept_equiv _ (λ _, False) _ _ Hm1)), Hfr. }
  eexists. split; [done|]. split_and!; try done.
  - by apply tlb_ok_write; [apply (pi_tlb _ Hs1)|].
  - intros Hnone. eapply tlb_ok_unmapped; [apply (pi_tlb _ Hs1)| |done].
    simpl. by rewrite Hm1.
  - intros q Hq Hqp. rewrite Hwo by done. by rewrite Hm1.
  - intros a. rewrite Hns.
    apply (kept_not_structure (kept_equiv (window_page s) (λ _, False) _ _ Hm1)).
  - unfold pte. apply phys_read_write_eq.
  - apply (client_kept_trans _ _ m1); [eapply kept_client_none; [apply (pi_core _ Hs)|by apply kept_equiv]|].
    destruct (has_table_props _ _ _ (pc_tables _ _ _ _ _ (pi_core _ Hs)) HT) as (_ & Hal & _).
    apply client_kept_write; [done|done| |].
    + intros q f Hq Hf. destruct (pc_client _ _ _ _ _ Hc1 q f Hq Hf) as (? & _ & Hne). split; [done|].
      intros ->. apply (Hne t). by rewrite Hm1.
    + intros q Hq Hne. apply Hwo; [by apply client_is_page|done].
Qed.

(** Mapping an unmapped client page to a fresh, marked frame, once its table
    exists and the window shows the directory: the tail of
    [i386_allocate_page]. *)
Lemma map_client_page s p T f fl :
  paging_inv s → client_page p → walk (ps_mach s) (window_page s) = Some (ps_pd s) →
  has_table (ps_mach s) (p / 1024) T → mapped_frame s p = None → map_flags fl →
  frame_used (ps_frames s) f → is_u32 f → fresh_frame (window_page s) (ps_mach s) f →
  ∃ m1 m2 m3, TABLE_IN_DIR (p / 1024) (ps_window s) s = Ret (T, set_mach s m1) ∧
    get_virt_ptr T (set_mach s m1) = Ret (ps_window s, set_mach s m2) ∧
    store (ps_window s + 4 * (p mod 1024)) (Z.lor f fl) (set_mach s m2) = Ret (set_mach s m3) ∧
    paging_inv (set_mach s m3) ∧ walk m3 p = Some f ∧
    (∀ q, is_page q → q ≠ p → q ≠ window_page s → walk m3 q = walk (ps_mach s) q) ∧
    client_kept (λ _, False) (ps_mach s) m3.
Proof.
  intros Hs Hp Hw HT Hun Hfl Hused Hu Hfresh.
  destruct (client_slot p Hp) as (_ & _ & _ & Ht & Hi & Hsplit).
  pose proof (client_is_page p Hp) as Hpg.
  pose proof (client_not_window _ p (window_page_early s Hs) Hp) as Hpw.
  destruct (open_table _ _ T Hs Hw HT) as (m1 & m2 & Ho & Hg & Hs2 & Hk2 & Hw2 & HT2).
  destruct (lor_flags _ _ Hu (proj1 Hused) (proj1 Hfl)) as [_ Hvu].
  pose proof (lor_flags_target _ _ Hu (proj1 Hused) (proj1 Hfl) (proj2 Hfl)) as Hvt.
  destruct (store_client_entry _ _ T _ (Z.lor f fl) Hs2 Hw2 HT2 Hi)
    as (m3 & Hst & Hc3 & _ & Htlb3 & Hw3 & Hwo3 & _ & _ & _ & Hck3); [by rewrite <- Hsplit|done| |].
  { rewrite Hvt. intros ? [= <-]. split; [done|]. by apply (kept_fresh Hk2). }
  rewrite <- Hsplit in *. simpl in Hwo3, Htlb3, Hck3.
  exists m1, m2, m3. split_and!; [done|done|done| |by rewrite Hw3| |].
  - apply paging_inv_mach; [done|done|]. apply Htlb3.
    by rewrite (k_walk _ _ _ _ Hk2).
  - intros q Hq Hqp Hqw. rewrite Hwo3 by done. by apply Hk2.
  - apply (client_kept_trans _ _ m2); [eapply kept_client_none; [apply (pi_core _ Hs)|exact Hk2]|].
    eapply client_kept_weaken; [exact Hck3|]. intros q ->. right. by rewrite (k_walk _ _ _ _ Hk2).
Qed.

Lemma upd_length s b m : paging_inv s → paging_inv (upd s b m) → bs_length b = bs_length (ps_frames s).
Proof.
  intros Hs Hs'. pose proof (pc_frames _ _ _ _ _ (pi_core _ Hs)) as [_ _ Hl].
  pose proof (pc_frames _ _ _ _ _ (pi_core _ Hs')) as [_ _ Hl']. simpl in Hl'. congruence.
Qed.

(** What [i386_allocate_page] does to an unmapped client page. *)
Lemma allocate_page_spec s p pt_flags pd_flags :
  paging_inv s → client_page p → mapped_frame s p = None →
  map_flags pt_flags → map_flags pd_flags →
  wp (i386_allocate_page (ps_pd s) (p * PAGE_SIZE) pt_flags pd_flags s) (λ '(ret, out, s'),
    (∃ b m, s' = upd s b m) ∧ paging_inv s' ∧
    (∀ q, is_page q → q ≠ p → q ≠ window_page s → mapped_frame s' q = mapped_frame s q) ∧
    client_kept (λ _, False) (ps_mach s) (ps_mach s') ∧
    ((ret = K_SUCCESS ∧ ∃ f, 0 < f < n_frames (ps_frames s) ∧ bit (ps_frames s) f = false ∧
        out = Some (f * PAGE_SIZE) ∧ mapped_frame s' p = Some (f * PAGE_SIZE))
     ∨ (ret = K_OOM ∧ out = None ∧ mapped_frame s' p = None ∧ ps_frames s' ≡ ps_frames s))).
Proof.
  intros Hs Hp Hun Hpt Hpd. destruct (client_slot p Hp) as (Hau & Hdiv & Hmod & Ht & Hi & Hsplit).
  pose proof (client_is_page p Hp) as Hpg.
  pose proof (client_not_window _ p (window_page_early s Hs) Hp) as Hpw.
  unfold i386_allocate_page. rewrite Hmod, Hdiv, Z.eqb_refl. simpl assert. rewrite Ret_bind.
  set (t := p / 1024) in *. set (i := p mod 1024) in *.
  apply wp_bind. eapply wp_mono; [apply allocate_frame_spec, Hs|]. intros [f b] Hres. case_bool.
  { subst f. destruct Hres as [(?&_)|(_ & -> & _)]; [lia|]. rewrite set_frames_id. apply wp_ret.
    split; [exists (ps_frames s), (ps_mach s); by rewrite upd_id|]. split; [done|].
    split; [done|]. split; [done|]. by right. }
  destruct Hres as [(Hf & Hb & _ & _ & Hup)|(? & _)]; [|done].
  assert (Htakes : takes s b f) by done.
  destruct (takes_inv s b f Hs Htakes) as (Hs0 & Hmul & Hu & _ & Hal & Hused & Hfresh).
  pose proof Hup as (_ & Hlen & Hbits).
  destruct (n_frames_bounds _ _ (pc_frames _ _ _ _ _ (pi_core _ Hs))) as [Hn _].
  assert (Hbf : bit b f = true) by (rewrite Hbits by lia; case_decide; [done|lia]).
  apply wp_bind. eapply wp_mono; [apply (ensure_table_spec _ t pd_flags Hs0 Ht Hpd)|].
  intros [[ret pdv] s1] (b1 & m1 & -> & Hs1 & Hw1 & Hck1 & [(-> & -> & Hns)|(-> & -> & Hpdw & (T & HT) & Hkeep)]).
  - (* no frame for the table: the page's frame is given back *)
    simpl. apply wp_bind.
    destruct (free_fresh_frame _ f Hs1) as (b2 & Hcl & Hup2 & Hs2); [simpl; lia| |].
    { split; [by apply Hns, Hfresh|]. intros q Hq Hqw. simpl. rewrite Hw1 by done. by apply Hfresh. }
    unfold i386_mem_free_frame. simpl in Hcl. rewrite Hcl. apply wp_ret. apply wp_ret.
    split; [by eexists b2, m1|]. split; [done|].
    split; [intros q Hq _ Hqw; by apply Hw1|]. split; [done|]. right. split_and!; [done|done| |].
    + unfold mapped_frame. simpl. by rewrite Hw1.
    + simpl. eapply (range_update_undo _ b b2 f (f + 1) true); [|done|done].
      intros n Hn'. by replace n with f by lia.
  - (* the table is there *)
    destruct (Hkeep f) as [Hb1 Hfresh1]; [lia|done|]. specialize (Hfresh1 Hfresh). simpl.
    destruct (lor_flags_entry _ _ Hu Hal (proj1 Hpt)) as [Hva _].
    destruct (map_client_page _ p T (f * PAGE_SIZE) pt_flags Hs1 Hp Hpdw HT)
      as (m2 & m3 & m4 & Ho & Hg & Hst & Hs4 & Hw4 & Hwo4 & Hck4); [|done| |done|done|].
    { unfold mapped_frame. simpl. by rewrite Hw1. }
    { split; [done|]. rewrite Z.div_mul by done. split; [|done].
      pose proof (upd_length _ _ _ Hs0 Hs1) as Hlen1. simpl in *. lia. }
    simpl in Ho, Hg, Hst. fold t in Ho. fold i in Hst.
    rewrite Ho, Ret_bind. simpl ps_pd. rewrite Hg, Ret_bind, Hmul, Hst, Ret_bind. apply wp_ret.
    split; [by eexists b1, m4|]. split; [done|]. split.
    + intros q Hq Hqp Hqw. unfold mapped_frame. simpl. rewrite Hwo4 by done. by apply Hw1.
    + split; [by eapply client_kept_trans|]. left. split; [done|]. exists f. split; [done|]. split; [done|]. split; [|done].
      f_equal. exact Hva.
Qed.

Lemma entry_div e f : is_u32 e → entry_target e = Some f → e / PAGE_SIZE = f / PAGE_SIZE.
Proof.
  unfold entry_target. intros He. case_match; [|done]. intros [= <-].
  rewrite entry_addr_spec by done. unfold PAGE_SIZE.
  rewrite (Z.mod_eq e 4096) at 1 by lia.
  replace (e - (e - 4096 * (e / 4096))) with (e / 4096 * 4096) by lia. by rewrite Z.div_mul.
Qed.

(** [i386_free_page] up to the frame bitset: the entry is cleared, and the
    frame number is whatever the old entry's upper bits say. *)
Lemma free_page_run s p T :
  paging_inv s → client_page p → has_table (ps_mach s) (p / 1024) T →
  ∃ m, i386_free_page (ps_pd s) (p * PAGE_SIZE) s
         = (b ← bitset_clear_bit (ps_frames s) (pte (ps_mach s) T (p mod 1024) / PAGE_SIZE);
            Ret (K_SUCCESS, upd s b m)) ∧
    paging_inv (set_mach s m) ∧ walk m p = None ∧
    (∀ q, is_page q → q ≠ p → q ≠ window_page s → walk m q = walk (ps_mach s) q) ∧
    (∀ a, not_structure m a ↔ not_structure (ps_mach s) a) ∧
    has_table m (p / 1024) T ∧ pte m T (p mod 1024) = PT_RW ∧ client_kept (.= p) (ps_mach s) m.
Proof.
  intros Hs Hp HT. destruct (client_slot p Hp) as (_ & Hdiv & Hmod & Ht & Hi & Hsplit).
  unfold i386_free_page. rewrite Hmod, Hdiv, Z.eqb_refl. simpl assert. rewrite Ret_bind.
  destruct (open_dir s _ Hs Ht) as (m1 & m2 & -> & Hl & Hs2 & Hk2 & Hw2).
  rewrite Ret_bind, Hl, Ret_bind, present_test.
  assert (entry_present (pde (ps_mach s) (p / 1024)) = true) as ->.
  { destruct HT as [_ HT]. unfold entry_target in HT. by case_match. }
  simpl negb. cbv iota. apply (kept_has_table Hk2) in HT.
  destruct (open_table _ _ T Hs2 Hw2 HT) as (m3 & m4 & Ho & Hg & Hs4 & Hk4 & Hw4 & HT4).
  simpl in Ho, Hg, Hk4. rewrite Ho, Ret_bind, Hg, Ret_bind.
  destruct (load_window _ Hs4 (p mod 1024) T Hi Hw4) as (m5 & Hl5 & Hm5 & Hs5).
  simpl in Hl5, Hm5. rewrite Hl5, Ret_bind.
  destruct (store_client_entry _ (p / 1024) T (p mod 1024) PT_RW Hs5)
    as (m6 & Hst & Hc6 & Htlb6 & _ & Hw6 & Hwo6 & Hns6 & Hht6 & Hpte6 & Hck6);
    [change (walk m5 (window_page s) = Some T); by rewrite Hm5|simpl; by rewrite Hm5|done|by rewrite <- Hsplit| |done|].
  { change (0 ≤ 2 < 2 ^ 32). lia. }
  simpl in Hst, Hwo6, Hns6. rewrite Hst, Ret_bind.
  assert (Hk : kept (window_page s) (λ _, False) (ps_mach s) m5).
  { apply (kept_trans _ _ _ m2); [done|]. apply (kept_trans _ _ _ m4); [done|].
    by apply kept_equiv. }
  pose proof (client_not_window _ p (window_page_early s Hs) Hp) as Hpw.
  rewrite <- Hsplit in Htlb6, Hw6, Hwo6. exists (invlpg (p * PAGE_SIZE) m6). split_and!.
  - simpl. assert (pte m4 T (p mod 1024) = pte (ps_mach s) T (p mod 1024)) as ->; [|done].
    rewrite (k_entry _ _ _ _ Hk4 _ _ _ HT Hi) by (rewrite <- Hsplit; done).
    apply (k_entry _ _ _ _ Hk2 (p / 1024)); [by apply (kept_has_table Hk2)|done|].
    by rewrite <- Hsplit.
  - apply paging_inv_mach; [done|by rewrite invlpg_equiv|].
    apply tlb_ok_invlpg. by rewrite Hdiv.
  - by rewrite invlpg_equiv.
  - intros q Hq Hqp Hqw. rewrite invlpg_equiv, Hwo6 by done. by apply Hk.
  - intros a. unfold not_structure. setoid_rewrite invlpg_equiv.
    rewrite <- (kept_not_structure Hk a). apply Hns6.
  - by rewrite invlpg_equiv.
  - by rewrite invlpg_equiv.
  - rewrite <- Hsplit in Hck6. apply (client_kept_trans _ _ m5).
    + eapply kept_client_none; [apply (pi_core _ Hs)|exact Hk].
    + apply (client_kept_trans _ _ m6); [exact Hck6|].
      intros q f _ _ Hf. rewrite invlpg_equiv. split; [done|]. intros i _. by rewrite invlpg_equiv.
Qed.

(** Freeing a mapped client page gives its frame back. *)
Lemma free_page_mapped s p f :
  paging_inv s → client_page p → mapped_frame s p = Some f →
  wp (i386_free_page (ps_pd s) (p * PAGE_SIZE) s) (λ '(ret, s'),
    ret = K_SUCCESS ∧ (∃ b m, s' = upd s b m) ∧ paging_inv s' ∧ mapped_frame s' p = None ∧
    (∀ q, is_page q → q ≠ p → q ≠ window_page s → mapped_frame s' q = mapped_frame s q) ∧
    range_update (ps_frames s) (ps_frames s') (f / PAGE_SIZE) (f / PAGE_SIZE + 1) false ∧
    (∃ T, has_table (ps_mach s') (p / 1024) T ∧ pte (ps_mach s') T (p mod 1024) = PT_RW) ∧
    client_kept (.= p) (ps_mach s) (ps_mach s')).
Proof.
  intros Hs Hp Hf. pose proof (client_is_page p Hp) as Hpg.
  pose proof (client_not_window _ p (window_page_early s Hs) Hp) as Hpw.
  pose proof (pi_core _ Hs) as Hc. unfold mapped_frame, walk in Hf.
  destruct (entry_target (pde (ps_mach s) (p / 1024))) as [T|] eqn:HT; [|done].
  assert (Hht : has_table (ps_mach s) (p / 1024) T) by (split; [by apply page_split|done]).
  destruct (free_page_run s p T Hs Hp Hht) as (m & -> & Hs' & Hw & Hwo & Hns & Hht' & Hpte & Hck).
  rewrite (entry_div _ f) by (done || apply (pc_tables _ _ _ _ _ Hc)).
  assert (Hwp : walk (ps_mach s) p = Some f) by (unfold walk; by rewrite HT).
  destruct (pc_mapped _ _ _ _ _ Hc p f Hpg Hpw Hwp) as (Hal & Hlen & _).
  destruct (free_fresh_frame _ (f / PAGE_SIZE) Hs') as (b & Hcl & Hup & Hsb); [done| |].
  { rewrite <- aligned_page by done. split.
    - apply Hns. by eapply pc_client.
    - intros q Hq Hqw. destruct (decide (q = p)) as [->|Hqp]; [simpl; congruence|].
      simpl. rewrite Hwo by done. intros Hqf. by apply Hqp, (pc_inj _ _ _ _ _ Hc q p f). }
  simpl in Hcl. rewrite Hcl. apply wp_ret. split; [done|]. split; [by exists b, m|].
  split; [done|]. split; [done|]. split; [done|]. split; [apply Hup|]. split; [by exists T|done].
Qed.

(** Freeing a page whose table does not exist is refused. *)
Lemma free_page_no_table s p :
  paging_inv s → client_page p → (∀ T, ¬ has_table (ps_mach s) (p / 1024) T) →
  ∃ m, i386_free_page (ps_pd s) (p * PAGE_SIZE) s = Ret (K_INVALOP, set_mach s m) ∧
       paging_inv (set_mach s m) ∧ kept (window_page s) (λ _, False) (ps_mach s) m.
Proof.
  intros Hs Hp HT. destruct (client_slot p Hp) as (_ & Hdiv & Hmod & Ht & Hi & Hsplit).
  unfold i386_free_page. rewrite Hmod, Hdiv, Z.eqb_refl. simpl assert. rewrite Ret_bind.
  destruct (open_dir s _ Hs Ht) as (m1 & m2 & -> & Hl & Hs2 & Hk2 & Hw2).
  rewrite Ret_bind, Hl, Ret_bind, present_test. destruct (entry_present _) eqn:He; [|by exists m2].
  exfalso. eapply HT. split; [done|]. unfold entry_target. by rewrite He.
Qed.

(** A page that is already free, in a table that exists: the second
    [i386_free_page] reports success and clears the bit of frame 0, after
    which the allocator finds frame 0 first and reports it as "none". *)
Lemma free_page_again s p T :
  paging_inv s → client_page p → has_table (ps_mach s) (p / 1024) T →
  pte (ps_mach s) T (p mod 1024) = PT_RW → 0 < n_frames (ps_frames s) →
  ∃ s', i386_free_page (ps_pd s) (p * PAGE_SIZE) s = Ret (K_SUCCESS, s') ∧
    bit (ps_frames s) 0 = true ∧ bit (ps_frames s') 0 = false ∧
    i386_mem_allocate_frame (ps_meminfo s') (ps_frames s') = Ret (0, ps_frames s').
Proof.
  intros Hs Hp HT Hpte Hn.
  destruct (free_page_run s p T Hs Hp HT) as (m & -> & Hs' & _). rewrite Hpte.
  change (PT_RW / PAGE_SIZE) with 0. pose proof (pc_frames _ _ _ _ _ (pi_core _ Hs)) as Hfr.
  destruct (n_frames_bounds _ _ Hfr) as [Hnb _].
  destruct (bitset_clear_bit_spec _ (frames_wf _ _ Hfr) 0) as (b & -> & Hup); [lia|].
  exists (upd s b m). split; [done|].
  assert (Hb0 : bit b 0 = false).
  { destruct Hup as (_ & _ & Hb). rewrite Hb by lia. case_decide; [done|lia]. }
  split_and!; [|done|].
  - assert (Hw0 : walk (ps_mach s) 0 = Some 0).
    { apply (pc_identity _ _ _ _ _ (pi_core _ Hs) 0).
      pose proof (pc_window _ _ _ _ _ (pi_core _ Hs)). unfold early_page. lia. }
    apply (pc_mapped _ _ _ _ _ (pi_core _ Hs)) in Hw0 as (_ & _ & H0); [done|done|].
    pose proof (pc_window _ _ _ _ _ (pi_core _ Hs)). lia.
  - apply allocate_frame_zero; [|done]. by eapply frames_inv_update.
Qed.

(** Looking up a client address. *)
Lemma page_get_phys_spec s addr :
  paging_inv s → is_u32 addr → client_page (addr / PAGE_SIZE) →
  ∃ m, i386_page_get_phys (ps_pd s) addr s
         = Ret (default 0 (mapped_frame s (addr / PAGE_SIZE)), set_mach s m) ∧
    paging_inv (set_mach s m) ∧ kept (window_page s) (λ _, False) (ps_mach s) m.
Proof.
  intros Hs Ha Hp. set (p := addr / PAGE_SIZE) in *.
  destruct (client_slot p Hp) as (_ & _ & _ & Ht & Hi & Hsplit).
  pose proof (client_not_window _ p (window_page_early s Hs) Hp) as Hpw.
  unfold i386_page_get_phys. fold p.
  destruct (open_dir s _ Hs Ht) as (m1 & m2 & -> & Hl & Hs2 & Hk2 & Hw2).
  rewrite Ret_bind, Hl, Ret_bind, present_test. unfold mapped_frame, walk, entry_target at 1.
  destruct (entry_present (pde (ps_mach s) (p / 1024))) eqn:He; simpl negb; cbv iota; [|by exists m2].
  destruct (TABLE_IN_DIR_early _ (p / 1024) Hs2 Ht) as (m3 & Ht3 & Hm3 & Hs3).
  simpl in Ht3, Hm3. rewrite Ht3, Ret_bind, (k_pde _ _ _ _ Hk2) by done.
  set (T := entry_addr (pde (ps_mach s) (p / 1024))).
  assert (HT : has_table (ps_mach s) (p / 1024) T).
  { split; [done|]. unfold entry_target. by rewrite He. }
  assert (Hk3 : kept (window_page s) (λ _, False) (ps_mach s) m3).
  { apply (kept_trans _ _ _ m2); [done|by apply kept_equiv]. }
  destruct (has_table_props _ _ _ (pc_tables _ _ _ _ _ (pi_core _ Hs)) HT) as (Hu & Hal & _).
  destruct (get_virt_ptr_spec _ T Hs3 Hu Hal) as (m4 & Hg & Hs4 & Hk4 & Hw4).
  simpl in Hg, Hk4. rewrite Hg, Ret_bind.
  destruct (load_window _ Hs4 (p mod 1024) T Hi Hw4) as (m5 & Hl5 & Hm5 & Hs5).
  simpl in Hl5, Hm5. rewrite Hl5, Ret_bind.
  assert (Hk : kept (window_page s) (λ _, False) (ps_mach s) m4).
  { by apply (kept_trans _ _ _ m3). }
  rewrite (k_entry _ _ _ _ Hk _ _ _ HT Hi) by (by rewrite <- Hsplit).
  change PT_PRESENT with PD_PRESENT. rewrite present_test. unfold entry_target.
  assert (Hk5 : kept (window_page s) (λ _, False) (ps_mach s) m5).
  { apply (kept_trans _ _ _ m4); [done|by apply kept_equiv]. }
  destruct (entry_present (pte (ps_mach s) T (p mod 1024))); simpl; by exists m5.
Qed.

(** The i386 paging code is a page mapper for the kernel heap. *)
#[export] Instance i386_page_mapper : PageMapper i386_paging_interface paging_inv mapped_frame.
Proof.
  split.
  - intros p flags s Hs Hp Hun Hfl. unfold kpage_allocate. simpl. unfold i386_kpage_allocate.
    apply wp_bind. eapply wp_mono; [by apply (allocate_page_spec s p flags flags)|].
    intros [[ret out] s'] (_ & Hs' & Hother & _ & Hres). apply wp_ret.
    assert (Hcl : ∀ q, client_page q → q ≠ p → mapped_frame s' q = mapped_frame s q).
    { intros q Hq Hqp. apply Hother; [by apply client_is_page|done|].
      eapply client_not_window; [by apply window_page_early|done]. }
    split; [done|]. split; [done|].
    destruct Hres as [(-> & f & _ & _ & _ & Hf)|(-> & _ & Hf & _)]; [left|by right].
    split; [done|]. exists (f * PAGE_SIZE). split; [done|]. intros q Hq Hqp Hqf.
    apply Hqp. eapply (pc_inj _ _ _ _ _ (pi_core _ Hs')); try done.
    + by apply client_is_page.
    + by apply client_is_page.
    + eapply client_not_window; [by apply window_page_early|done].
    + eapply client_not_window; [by apply window_page_early|done].
  - intros p f s Hs Hp Hf. unfold kpage_free. simpl. unfold i386_kpage_free.
    eapply wp_mono; [by apply (free_page_mapped s p f)|].
    intros [ret s'] (-> & _ & Hs' & Hnone & Hother & _). split_and!; try done.
    intros q Hq Hqp. apply Hother; [by apply client_is_page|done|].
    eapply client_not_window; [by apply window_page_early|done].
  - intros addr s Hs Ha Hp. unfold kpage_get_phys. simpl. unfold i386_kpage_get_phys.
    destruct (page_get_phys_spec s addr Hs Ha Hp) as (m & -> & Hs' & Hk). apply wp_ret.
    split_and!; [done|done|]. intros q Hq. unfold mapped_frame. simpl.
    apply Hk; [by apply client_is_page|]. eapply client_not_window; [by apply window_page_early|done].
Qed.
