(* ===== verification/PagingInit.v ===== *)
(** Bringing paging up: [i386_paging_init] leads from the unpaged machine to
    the invariant of the running system. *)
From stdpp Require Import base numbers list gmap.
From Stdlib Require Import ZArith Lia.
From S2P Require Import Prelude Kernel Bitset Alloc Meminfo EarlyHeap Frames Machine KPaging Asa.
From S2P Require Import Paging Window PagingSpec.

(** * Memory without paging *)

Section unpaged.
Context (s : paging_state) (Hp : paging (ps_mach s) = false).

Lemma load_unpaged va : load va s = Ret (phys_read (ps_mach s) va, s).
Proof. unfold load, vread, translate. rewrite Hp. simpl. by destruct s. Qed.

Lemma store_unpaged va v : store va v s = Ret (set_mach s (phys_write (ps_mach s) va v)).
Proof. unfold store, vwrite, translate. by rewrite Hp. Qed.

Lemma get_virt_ptr_unpaged phys :
  ps_done s = false → phys mod PAGE_SIZE = 0 → get_virt_ptr phys s = Ret (phys, s).
Proof.
  intros Hd Hal. unfold get_virt_ptr. change 0x1000 with PAGE_SIZE. by rewrite Hal, Hd.
Qed.

Lemma TABLE_IN_DIR_unpaged t dir :
  TABLE_IN_DIR t dir s = Ret (entry_addr (phys_read (ps_mach s) (dir + 4 * t)), s).
Proof. unfold TABLE_IN_DIR. by rewrite load_unpaged. Qed.
End unpaged.

(** [memset32] on an unpaged machine. *)
Lemma memset32_unpaged a v n m :
  paging m = false → 0 ≤ n →
  ∃ m', memset32 a v n m = Ret m' ∧ paging m' = false ∧ cr3 m' = cr3 m ∧
    (∀ i, 0 ≤ i < n → phys_read m' (a + 4 * i) = v) ∧
    (∀ b, (∀ i, 0 ≤ i < n → b ≠ a + 4 * i) → phys_read m' b = phys_read m b).
Proof.
  intros Hp Hn. apply wp_inv. unfold memset32.
  apply (wp_for_range (λ k m', paging m' = false ∧ cr3 m' = cr3 m ∧
    (∀ i, 0 ≤ i < k → phys_read m' (a + 4 * i) = v) ∧
    (∀ b, (∀ i, 0 ≤ i < k → b ≠ a + 4 * i) → phys_read m' b = phys_read m b))); [lia| |].
  { split_and!; [done|done|lia|done]. }
  intros k m1 Hk (Hp1 & Hc1 & Hset & Hrest). unfold vwrite, translate. rewrite Hp1. simpl.
  split_and!; [done|done| |].
  - intros i Hi. destruct (decide (i = k)) as [->|]; [apply phys_read_write_eq|].
    rewrite phys_read_write_ne by lia. apply Hset. lia.
  - intros b Hb. rewrite phys_read_write_ne; [apply Hrest; intros i Hi; apply Hb; lia|].
    intros He. apply (Hb k); [lia|done].
Qed.

(** * The invariant of the identity-mapping loop

    [D] is the page directory.  The machine is looked at as it will be once
    the directory is loaded. *)
Definition early_struct (mi : i386_mem_info) (a : Z) : Prop :=
  a mod PAGE_SIZE = 0 ∧ kernel_heap_start mi ≤ a ∧
  a + PAGE_SIZE ≤ kernel_heap_start mi + EARLY_HEAP_MAXSIZE.

Record init_inv (h D k : Z) (s : paging_state) : Prop := InitInv {
  ii_done : ps_done s = false;
  ii_paging : paging (ps_mach s) = false;
  ii_pd : ps_pd s = D;
  ii_early : early_inv (ps_meminfo s);
  ii_heap : kernel_heap_start (ps_meminfo s) = h ∧ h mod PAGE_SIZE = 0 ∧
    h + EARLY_HEAP_MAXSIZE + PAGE_SIZE < KVIRT_RESERVED;
  ii_dir : early_struct (ps_meminfo s) D ∧ D + PAGE_SIZE ≤ kernel_heap_curpos (ps_meminfo s);
  ii_frames : frames_inv (ps_meminfo s) (ps_frames s);
  ii_length : reserved_pages ≤ bs_length (ps_frames s);
  ii_bits : ∀ n, 0 ≤ n < k → bit (ps_frames s) n = true;
  ii_tables : tables_wf (load_page_dir D (ps_mach s));
  ii_only0 : ∀ t T, has_table (load_page_dir D (ps_mach s)) t T →
    t = 0 ∧ early_struct (ps_meminfo s) T;
  ii_walk : ∀ p, is_page p →
    walk (load_page_dir D (ps_mach s)) p = if decide (p < k) then Some (p * PAGE_SIZE) else None
}.

(** Room for one more page in the early heap. *)
Definition early_room (mi : i386_mem_info) (n : Z) : Prop :=
  kernel_heap_curpos mi + n * PAGE_SIZE ≤ kernel_heap_start mi + EARLY_HEAP_MAXSIZE.

(** A page-aligned critical allocation of one page. *)
Lemma kmalloc_page m phys fl :
  early_inv m → early_room m 2 →
  has_flag fl KALLOC_CRITICAL = true → has_flag fl KALLOC_PAGE_ALIGN = true →
  ∃ p, i386_mem_kmalloc_real PAGE_SIZE phys fl m
         = Ret (p, (if phys then Some p else None), with_curpos m (p + PAGE_SIZE)) ∧
    early_inv (with_curpos m (p + PAGE_SIZE)) ∧ p ≠ 0 ∧ p mod PAGE_SIZE = 0 ∧
    kernel_heap_curpos m ≤ p < kernel_heap_curpos m + PAGE_SIZE ∧
    p + PAGE_SIZE ≤ kernel_heap_start m + EARLY_HEAP_MAXSIZE.
Proof.
  intros Hinv Hroom Hcr Hal. pose proof Hinv as [Hs Hc].
  destruct (i386_mem_kmalloc_real_spec PAGE_SIZE phys fl m Hinv) as (p & ph & m' & Hcall & Hinv' & Hres);
    [unfold PAGE_SIZE; lia|]. unfold early_room in Hroom.
  destruct Hres as [(_ & _ & [?|?])|(Hp & Hpa & _ & -> & Hend & ->)]; [congruence|lia|].
  exists p. destruct (early_align_spec fl (kernel_heap_curpos m)) as [Hb Hmod].
  { unfold EARLY_HEAP_MAXSIZE in *. lia. }
  rewrite Hal in Hmod. rewrite <- Hpa in Hb, Hmod.
  split_and!; [done|done|lia|done|lia|lia|done].
Qed.

(** A fresh early page cleared by [memset32] is an empty table, apart from
    the structures that exist. *)
Lemma cleared_page D m m' a v :
  tables_wf (load_page_dir D m) → (∀ t T, has_table (load_page_dir D m) t T → T ≠ a) →
  a mod PAGE_SIZE = 0 → a ≠ D → is_u32 v → cr3 m' = cr3 m →
  (∀ i, 0 ≤ i < 1024 → phys_read m' (a + 4 * i) = v) →
  (∀ b, (∀ i, 0 ≤ i < 1024 → b ≠ a + 4 * i) → phys_read m' b = phys_read m b) →
  tables_wf (load_page_dir D m') ∧
  (∀ t, 0 ≤ t < 1024 → pde (load_page_dir D m') t = pde (load_page_dir D m) t) ∧
  (∀ p, is_page p → walk (load_page_dir D m') p = walk (load_page_dir D m) p).
Proof.
  intros Hwf Hne Hal HaD Hv Hcr3 Hset Hrest.
  assert (HD : D mod PAGE_SIZE = 0) by apply (tw_cr3_aligned _ Hwf).
  assert (Hpde : ∀ t, 0 ≤ t < 1024 → pde (load_page_dir D m') t = pde (load_page_dir D m) t).
  { intros t Ht. unfold pde. simpl. apply Hrest. intros i Hi. apply slot_ne; done. }
  split_and!; [|done|].
  - apply (tables_wf_same_dir (load_page_dir D m)); [done|done| |done].
    intros b. destruct (decide (a ≤ b < a + 4096 ∧ (b - a) mod 4 = 0)) as [[Hb Hmod]|Hb].
    + change (is_u32 (phys_read m' b)).
      replace b with (a + 4 * ((b - a) / 4)) by (pose proof (Z.div_mod (b - a) 4); lia).
      rewrite Hset; [done|]. pose proof (Z.div_mod (b - a) 4). lia.
    + change (is_u32 (phys_read m' b)). rewrite Hrest; [apply (tw_words _ Hwf)|].
      intros i Hi ->. apply Hb. split; [lia|]. replace (a + 4 * i - a) with (i * 4) by lia.
      by apply Z.mod_mul.
  - intros p Hp. pose proof (page_split p Hp) as (Hp1 & Hp2 & _).
    apply walk_ext; [done|by apply Hpde|]. intros T HT. unfold pte. apply Hrest. intros i Hi.
    destruct (has_table_props _ _ _ Hwf HT) as (_ & HTal & _).
    apply slot_ne; [done..| |done|done]. by eapply Hne.
Qed.

Lemma init_dir_u32 h D k s : init_inv h D k s → is_u32 D ∧ D mod PAGE_SIZE = 0.
Proof. intros Hi. pose proof (ii_tables _ _ _ _ Hi) as Hwf. split; apply Hwf. Qed.

(** The first table [T], cleared into machine [m], goes into slot 0. *)
Lemma install_first_table h D s T m :
  init_inv h D 0 s → entry_target (pde (load_page_dir D (ps_mach s)) 0) = None →
  is_u32 T → T mod PAGE_SIZE = 0 → kernel_heap_curpos (ps_meminfo s) ≤ T →
  T + PAGE_SIZE ≤ kernel_heap_start (ps_meminfo s) + EARLY_HEAP_MAXSIZE →
  paging m = false → cr3 m = cr3 (ps_mach s) →
  (∀ i, 0 ≤ i < 1024 → phys_read m (T + 4 * i) = PT_RW) →
  (∀ b, (∀ i, 0 ≤ i < 1024 → b ≠ T + 4 * i) → phys_read m b = phys_read (ps_mach s) b) →
  let s' := set_mach (set_meminfo s (with_curpos (ps_meminfo s) (T + PAGE_SIZE)))
              (phys_write m (D + 4 * 0) (Z.lor T 3)) in
  init_inv h D 0 s' ∧ has_table (load_page_dir D (ps_mach s')) 0 T.
Proof.
  intros Hi Hnone HTu HTal HTpos HTend Hm1 Hm2 Hset Hrest s'.
  pose proof Hi as [H1 H2 H3 H4 H5 [H6 H6'] H7 H8 H9 H10 H11 H12].
  assert (HTD : T ≠ D) by (unfold PAGE_SIZE in *; lia).
  assert (Hnotab : ∀ t T', ¬ has_table (load_page_dir D (ps_mach s)) t T').
  { intros t T' HT'. pose proof HT' as Hz. apply H11 in Hz as [-> _]. destruct HT' as [_ HT'].
    congruence. }
  destruct (cleared_page D (ps_mach s) m T PT_RW H10) as (Hwf & Hpde & Hwalk); try done.
  { intros t T' HT'. by eapply Hnotab in HT'. }
  assert (Hnotab' : ∀ t T', ¬ has_table (load_page_dir D m) t T').
  { intros t T' [Ht HT']. rewrite Hpde in HT' by done. by eapply Hnotab. }
  destruct (lor_flags T 3 HTu HTal ltac:(unfold PAGE_SIZE; lia)) as [_ Hvu].
  pose proof (lor_flags_target T 3 HTu HTal ltac:(unfold PAGE_SIZE; lia) eq_refl) as Hvt.
  destruct (write_pde_spec (load_page_dir D m) 0 T (Z.lor T 3)) as (Hwf' & Hht & Hpde' & Hwalk');
    [done|lia| |done|done| | |].
  { by rewrite Hpde by lia. }
  { split_and!; [done|done|]. intros t HT'. by eapply Hnotab'. }
  { intros i Hi'. unfold pte. change (phys_read (load_page_dir D m) (T + 4 * i)) with (phys_read m (T + 4 * i)).
    by rewrite Hset. }
  split; [|done]. split; try done.
  - destruct H4. split; simpl; unfold PAGE_SIZE in *; lia.
  - split; [done|]. simpl. unfold PAGE_SIZE in *. lia.
  - destruct H7. by split.
  - intros t T' HT'. destruct (decide (t = 0)) as [->|Ht0].
    + destruct HT' as [_ HT'], Hht as [_ Hht]. split; [done|].
      assert (T' = T) as -> by (cut (Some T' = Some T); [by intros [=]|]; rewrite <- HT'; exact Hht).
      destruct H4; split_and!; simpl; [done|lia|lia].
    + exfalso. destruct HT' as [Ht HT']. eapply (Hnotab' t). split; [done|].
      by rewrite <- Hpde'.
  - intros p Hp. simpl. rewrite Hwalk', Hwalk by done. by apply H12.
Qed.

(** The table of slot 0 is there, or is created. *)
Lemma ensure_table_init h D k s :
  init_inv h D k s → 0 ≤ k < reserved_pages →
  (0 < k ∨ early_room (ps_meminfo s) 2) →
  ∃ s', ensure_table D 3 0 s = Ret (K_SUCCESS, D, s') ∧ init_inv h D k s' ∧
    ∃ T, has_table (load_page_dir D (ps_mach s')) 0 T.
Proof.
  intros Hi Hk Hroom. destruct (init_dir_u32 _ _ _ _ Hi) as [HDu HDal].
  unfold ensure_table. rewrite get_virt_ptr_unpaged, Ret_bind by (done || apply Hi).
  rewrite load_unpaged, Ret_bind, present_test by apply Hi.
  change (phys_read (ps_mach s) (D + 4 * 0)) with (pde (load_page_dir D (ps_mach s)) 0).
  destruct (entry_present _) eqn:Hpres; simpl negb; cbv iota.
  { exists s. split; [done|]. split; [done|]. eexists. split; [lia|]. unfold entry_target.
    by rewrite Hpres. }
  assert (Hk0 : k = 0).
  { destruct (decide (k = 0)); [done|]. exfalso.
    pose proof (ii_walk _ _ _ _ Hi 0 ltac:(done)) as Hw. case_decide; [|lia].
    unfold walk, entry_target at 1 in Hw. change (0 / 1024) with 0 in Hw. by rewrite Hpres in Hw. }
  subst k. destruct Hroom as [?|Hroom]; [lia|].
  pose proof (ii_early _ _ _ _ Hi) as Hearly. pose proof (ii_paging _ _ _ _ Hi) as Hpg.
  destruct (kmalloc_page (ps_meminfo s) true (Z.lor KALLOC_CRITICAL KALLOC_PAGE_ALIGN) Hearly Hroom)
    as (T & Hcall & Hinv' & HT0 & HTal & HTpos & HTend); [done..|].
  unfold allocate_page_table. rewrite (ii_done _ _ _ _ Hi). unfold kmalloc_ap. simpl.
  unfold kalloc_malloc_real. simpl. change (Z.lor 1 4) with (Z.lor KALLOC_CRITICAL KALLOC_PAGE_ALIGN).
  rewrite Hcall, !Ret_bind. destruct (Z.eqb_spec T 0) as [|_]; [done|].
  change (ps_mach (set_meminfo s (with_curpos (ps_meminfo s) (T + PAGE_SIZE)))) with (ps_mach s).
  destruct (memset32_unpaged T PT_RW 1024 (ps_mach s) Hpg ltac:(lia)) as (m & -> & Hm1 & Hm2 & Hset & Hrest).
  rewrite !Ret_bind. simpl.
  rewrite get_virt_ptr_unpaged, Ret_bind by (done || simpl; apply Hi).
  rewrite store_unpaged, Ret_bind by done. simpl.
  assert (HTu : is_u32 T).
  { destruct Hearly. unfold is_u32, EARLY_HEAP_MAXSIZE, PAGE_SIZE in *. lia. }
  destruct (install_first_table h D s T m Hi) as [Hi' Hht]; try done; [|lia|].
  { unfold entry_target. by rewrite Hpres. }
  eexists. split; [done|]. split; [done|]. by exists T.
Qed.

(** One round: page [k] is mapped to itself and its frame is marked. *)
Lemma identity_map_init h D k s :
  init_inv h D k s → 0 ≤ k < reserved_pages → (0 < k ∨ early_room (ps_meminfo s) 2) →
  ∃ r s', i386_identity_map_page (ps_pd s) (k * 0x1000) 3 3 s = Ret (r, s') ∧
          init_inv h D (k + 1) s'.
Proof.
  intros Hi Hk Hroom. pose proof Hk as Hk'. change reserved_pages with 380 in Hk'.
  unfold i386_identity_map_page. change 0x1000 with PAGE_SIZE.
  rewrite Z.mod_mul, Z.div_mul, (ii_pd _ _ _ _ Hi) by done. simpl assert. rewrite Ret_bind.
  rewrite (Z.div_small k), (Z.mod_small k) by lia.
  destruct (ensure_table_init h D k s Hi Hk Hroom) as (s1 & -> & Hi1 & T & HT). rewrite Ret_bind.
  simpl K_FAILED. cbv iota.
  pose proof Hi1 as [H1 H2 H3 H4 H5 H6 H7 H8 H9 H10 H11 H12].
  rewrite TABLE_IN_DIR_unpaged, Ret_bind by done.
  assert (entry_addr (phys_read (ps_mach s1) (D + 4 * 0)) = T) as ->.
  { destruct HT as [_ HT]. unfold entry_target, pde in HT. by case_match; simplify_eq. }
  destruct (has_table_props _ _ _ H10 HT) as (HTu & HTal & HTD).
  rewrite get_virt_ptr_unpaged, Ret_bind by done. rewrite store_unpaged, Ret_bind by done.
  simpl ps_frames.
  destruct (bitset_set_bit_spec _ (frames_wf _ _ H7) k) as (b & -> & Hup); [lia|].
  rewrite Ret_bind. eexists _, _. split; [done|].
  rewrite u32_small by (unfold is_u32, PAGE_SIZE; lia).
  assert (Hku : is_u32 (k * PAGE_SIZE)) by (unfold is_u32, PAGE_SIZE; lia).
  assert (Hkal : k * PAGE_SIZE mod PAGE_SIZE = 0) by (by apply Z.mod_mul).
  destruct (lor_flags _ 3 Hku Hkal ltac:(unfold PAGE_SIZE; lia)) as [_ Hvu].
  pose proof (lor_flags_target _ 3 Hku Hkal ltac:(unfold PAGE_SIZE; lia) eq_refl) as Hvt.
  destruct (write_pte_spec _ 0 T k _ H10 HT ltac:(lia) Hvu) as (Hwf' & Hpde' & Hwk & Hwo).
  rewrite Z.mul_0_r, Z.add_0_l, Hvt in Hwk. rewrite Z.mul_0_r, Z.add_0_l in Hwo.
  pose proof Hup as (_ & Hlen & Hbits).
  split; try done.
  - eapply frames_inv_update; [exact H7|done].
  - simpl. lia.
  - intros n Hn. simpl. rewrite Hbits by lia. case_decide; [done|]. apply H9. lia.
  - intros t T' [Ht HT']. apply H11. split; [done|]. by rewrite <- Hpde'.
  - intros p Hp. simpl. destruct (decide (p = k)) as [->|Hne].
    + case_decide; [done|lia].
    + rewrite Hwo by done. rewrite H12 by done. repeat case_decide; done || lia.
Qed.

(** * The whole initialisation *)

(** The machine and the allocators as [i386_mem_init] leaves them, with room
    in the early heap for the directory and the first table, and enough frames
    and address space for the early region. *)
Record boot_ready (s : paging_state) : Prop := BootReady {
  br_done : ps_done s = false;
  br_paging : paging (ps_mach s) = false;
  br_words : ∀ a, is_u32 (phys_read (ps_mach s) a);
  br_early : early_inv (ps_meminfo s);
  br_room : early_room (ps_meminfo s) 4;
  br_aligned : kernel_heap_start (ps_meminfo s) mod PAGE_SIZE = 0;
  br_heap : kernel_heap_start (ps_meminfo s) + EARLY_HEAP_MAXSIZE + PAGE_SIZE < KVIRT_RESERVED;
  br_frames : frames_inv (ps_meminfo s) (ps_frames s);
  br_length : reserved_pages ≤ bs_length (ps_frames s)
}.

(** The page directory is allocated and empty. *)
Lemma mmu_data_init_spec s :
  boot_ready s →
  ∃ D s', i386_mmu_data_init s = Ret (K_SUCCESS, s') ∧
    init_inv (kernel_heap_start (ps_meminfo s)) D 0 s' ∧ early_room (ps_meminfo s') 2.
Proof.
  intros [H1 H2 H3 H4 H5 H6 H7 H8 H9]. unfold i386_mmu_data_init.
  destruct (kmalloc_page (ps_meminfo s) false (Z.lor KALLOC_CRITICAL KALLOC_PAGE_ALIGN) H4)
    as (D & Hcall & Hinv' & HD0 & HDal & HDpos & HDend);
    [unfold early_room, PAGE_SIZE in *; lia|done..|].
  unfold kmalloc_a. simpl. unfold kalloc_malloc_real. simpl.
  change (Z.lor 1 4) with (Z.lor KALLOC_CRITICAL KALLOC_PAGE_ALIGN).
  change (4 * 1024) with PAGE_SIZE. rewrite Hcall, !Ret_bind. destruct (Z.eqb_spec D 0) as [|_]; [done|].
  simpl ps_mach.
  destruct (memset32_unpaged D PD_RW 1024 (ps_mach s) H2 ltac:(lia)) as (m & -> & Hm1 & Hm2 & Hset & Hrest).
  rewrite Ret_bind. exists D. eexists. split; [done|].
  assert (HDu : is_u32 D) by (destruct H4; unfold is_u32, EARLY_HEAP_MAXSIZE, PAGE_SIZE in *; lia).
  assert (Hpde : ∀ t, 0 ≤ t < 1024 → pde (load_page_dir D m) t = PD_RW) by (intros t Ht; by apply Hset).
  assert (Hno : ∀ t T, ¬ has_table (load_page_dir D m) t T).
  { intros t T [Ht HT]. by rewrite Hpde in HT. }
  split; [|unfold early_room, PAGE_SIZE in *; simpl; lia].
  split; try done.
  - split; [|simpl; lia]. destruct H4. split_and!; simpl; [done|lia|lia].
  - destruct H8. by split.
  - intros n. lia.
  - split; [done|done| | |].
    + intros b. change (is_u32 (phys_read m b)).
      destruct (decide (D ≤ b < D + 4096 ∧ (b - D) mod 4 = 0)) as [[Hb Hmod]|Hb].
      * replace b with (D + 4 * ((b - D) / 4)) by (pose proof (Z.div_mod (b - D) 4); lia).
        rewrite Hset; [change (0 ≤ 2 < 2 ^ 32); lia|]. pose proof (Z.div_mod (b - D) 4). lia.
      * rewrite Hrest; [done|]. intros i Hi ->. apply Hb. split; [lia|].
        replace (D + 4 * i - D) with (i * 4) by lia. by apply Z.mod_mul.
    + intros t T HT. by apply Hno in HT.
    + intros t1 t2 T HT. by apply Hno in HT.
  - intros t T HT. by apply Hno in HT.
  - intros p Hp. destruct (page_split p Hp) as (Ht & _ & _).
    unfold walk. simpl ps_mach. rewrite Hpde by done.
    unfold is_page in Hp. case_decide; [lia|done].
Qed.

(** The loop keeps the invariant of its rounds. *)
Lemma identity_map_early_spec h D s :
  init_inv h D 0 s → early_room (ps_meminfo s) 2 →
  ∃ s', identity_map_early s = Ret s' ∧ init_inv h D reserved_pages s'.
Proof.
  intros Hi Hroom. apply wp_inv. unfold identity_map_early.
  change (KVIRT_RESERVED / 0x1000) with reserved_pages.
  eapply wp_mono.
  1: apply (wp_for_range (λ k s', init_inv h D k s' ∧ (0 < k ∨ early_room (ps_meminfo s') 2)));
    [by vm_compute|by auto|].
  2: by intros s' [H _].
  intros k s' Hk [Hi' Hr]. change (Z.lor PT_PRESENT PT_RW) with 3.
  change (Z.lor PD_PRESENT PD_RW) with 3.
  destruct (identity_map_init h D k s' Hi' Hk Hr) as (r & s'' & -> & Hi'').
  rewrite Ret_bind. change reserved_pages with 380 in Hk. unfold KVIRT_RESERVED.
  case_bool; [lia|]. apply wp_ret. split; [done|]. left. lia.
Qed.

(** Loading the directory and switching paging on turns the invariant of the
    loop into the invariant of the running system. *)
Lemma enter_paging h D s :
  init_inv h D reserved_pages s →
  let w := (h + EARLY_HEAP_MAXSIZE + PAGE_SIZE) / PAGE_SIZE in
  let m := enable_paging (load_page_dir D (ps_mach s)) in
  paging_core (ps_meminfo s) D w m (ps_frames s) ∧ tlb_ok m ∧
  ∀ p, client_page p → walk m p = None.
Proof.
  intros Hi w m. pose proof Hi as [H1 H2 H3 H4 (Hh & Hal & H5) [H6 H6'] H7 H8 H9 H10 H11 H12].
  assert (Hw : 0 < w < 380).
  { pose proof (early_start _ H4) as Hs. rewrite Hh in Hs.
    subst w. clear - Hs H5. unfold EARLY_HEAP_MAXSIZE, PAGE_SIZE, KVIRT_RESERVED in *. div_lia. }
  assert (Hearly : ∀ a, early_struct (ps_meminfo s) a → early_page w (a / PAGE_SIZE) ∧
            frame_used (ps_frames s) a).
  { intros a (Ha1 & Ha2 & Ha3).
    assert (Hr : 0 ≤ a / PAGE_SIZE < 380 ∧ a / PAGE_SIZE ≠ w).
    { pose proof (early_start _ H4) as Hs. rewrite Hh in Hs, Ha2, Ha3.
      subst w. clear - Hs H5 Ha1 Ha2 Ha3 Hal.
      unfold EARLY_HEAP_MAXSIZE, PAGE_SIZE, KVIRT_RESERVED in *. div_lia. }
    change reserved_pages with 380 in H8, H9. split; [exact Hr|].
    split_and!; [done|lia|lia|]. apply H9. lia. }
  assert (Hwalk : ∀ p, is_page p → walk m p = if decide (p < reserved_pages) then Some (p * PAGE_SIZE) else None)
    by exact H12.
  destruct (entry_target (pde m 0)) as [T0|] eqn:HT0.
  2:{ specialize (Hwalk 0 ltac:(done)). unfold walk in Hwalk. change (0 / 1024) with 0 in Hwalk.
      rewrite HT0 in Hwalk. done. }
  assert (Hcl : ∀ p, client_page p → walk m p = None).
  { intros p Hp. rewrite Hwalk by (by apply client_is_page).
    unfold client_page in Hp. unfold reserved_pages. case_decide; [lia|done]. }
  assert (Hsome : ∀ p f, is_page p → walk m p = Some f → p < reserved_pages ∧ f = p * PAGE_SIZE).
  { intros p f Hp. rewrite Hwalk by done. case_decide; [by intros [= <-]|done]. }
  split_and!; [|by intros p f|done]. split; try done.
  - destruct H10. by split.
  - by apply Hearly.
  - exists T0. assert (HT : has_table m 0 T0) by (split; [lia|done]).
    split; [done|]. apply Hearly. by apply (H11 0).
  - intros p [Hp _]. rewrite Hwalk by (by apply reserved_is_page). case_decide; [done|lia].
  - intros a [->|[t HT]]; apply Hearly; [done|]. by apply (H11 t).
  - intros p f Hp Hpw Hf. apply Hsome in Hf as [Hlt ->]; [|done].
    split_and!; [by apply Z.mod_mul|..]; rewrite Z.div_mul by done; unfold is_page in Hp; [lia..|].
    apply H9. lia.
  - intros p q f Hp Hq _ _ Hf Hg. apply Hsome in Hf as [_ ->]; [|done].
    apply Hsome in Hg as [_ Hg]; [|done]. unfold PAGE_SIZE in Hg. lia.
  - intros p f Hp. by rewrite Hcl.
Qed.

Lemma paging_init_run s :
  boot_ready s →
  ∃ s', i386_paging_init s = Ret s' ∧ paging_inv s' ∧ ps_fault_handler s' = true ∧
    ps_window s' = kernel_heap_start (ps_meminfo s) + EARLY_HEAP_MAXSIZE + PAGE_SIZE ∧
    page_size (ps_kpaging s') = PAGE_SIZE ∧
    (∀ p, early_page (window_page s') p → mapped_frame s' p = Some (p * PAGE_SIZE)) ∧
    (∀ p, client_page p → mapped_frame s' p = None).
Proof.
  intros Hb. unfold i386_paging_init.
  destruct (mmu_data_init_spec s Hb) as (D & s1 & -> & Hi & Hroom). rewrite Ret_bind.
  simpl K_FAILED. cbv iota. set (h := kernel_heap_start (ps_meminfo s)) in *.
  destruct (identity_map_early_spec h D s1 Hi Hroom) as (s2 & Hrun & Hi2). rewrite Hrun, Ret_bind.
  destruct (enter_paging _ _ _ Hi2) as (Hcore & Htlb & Hcl).
  destruct (ii_heap _ _ _ _ Hi2) as (Hh & Hal & Hk). rewrite Hh.
  destruct (early_start _ (ii_early _ _ _ _ Hi2)) as [Hh0 _]. rewrite Hh in Hh0.
  assert (Hu : h ⊕ EARLY_HEAP_MAXSIZE = h + EARLY_HEAP_MAXSIZE ∧
               h + EARLY_HEAP_MAXSIZE ⊕ PAGE_SIZE = h + EARLY_HEAP_MAXSIZE + PAGE_SIZE).
  { unfold EARLY_HEAP_MAXSIZE, PAGE_SIZE, KVIRT_RESERVED in *.
    split; apply u32_small; unfold is_u32; lia. }
  destruct Hu as [-> ->]. unfold assert. destruct (Z.leb_spec (h + EARLY_HEAP_MAXSIZE + PAGE_SIZE) KVIRT_RESERVED); [|lia].
  rewrite Ret_bind, (ii_pd _ _ _ _ Hi2). eexists. split; [done|].
  split; [|split; [done|split; [done|split; [done|split; [by apply Hcore|done]]]]].
  split; [done| |exact Hcore|exact Htlb]. simpl.
  clear - Hal. unfold EARLY_HEAP_MAXSIZE, PAGE_SIZE in *. div_lia.
Qed.
