(* ===== verification/Kheap.v ===== *)
(** The kernel heap: [kernel/mm/heap.c], [kernel/include/mm/heap.h].

    A heap is a linked list of blocks of virtual pages.  Each block is divided
    into sections; one bitset says which sections are in use, a second one
    marks the last section of every allocation.  The linked list is a Rocq
    list, the header of a block is its record; the [next] pointer is the rest
    of the list and a pointer to a block is its [start] address. *)
From stdpp Require Import base numbers list.
From Stdlib Require Import ZArith Lia.
From S2P Require Import Prelude Kernel Bitset Alloc Asa KPaging.

(** * Data *)

Definition MIN_BLOCK_SIZE_DEFAULT : Z := 0x100000.
Definition SECTION_SIZE_DEFAULT : Z := 0x10.
Definition KHEAP_AUTO_EXPAND : Z := Z.shiftl 1 0.

Record kheap_block := KheapBlock {
  block_size : Z;
  section_size : Z;
  first_free_section : Z;
  free_sections : Z;
  block_start : Z;
  used_sections : bitset;
  delimiters : bitset
}.

(** [sizeof(kheap_block_t)]: six words and two two-word bitsets. *)
Definition sizeof_kheap_block : Z := 40.

Record kheap := Kheap {
  first : list kheap_block;
  default_section_size : Z;
  min_block_size : Z;
  kheap_flags : Z;
  effective_size : Z;
  total_free_sections : Z
}.

Definition kheap_zero : kheap := Kheap [] 0 0 0 0 0.

(** The heap with the global state its operations reach: the address-space
    allocator and the paging system. *)
Record heap_state (S : Type) := HeapState {
  hs_heap : kheap;
  hs_asa : kasa_data;
  hs_sys : S
}.
Arguments HeapState {S} _ _ _.
Arguments hs_heap {S} _.
Arguments hs_asa {S} _.
Arguments hs_sys {S} _.

Definition kheap_init (heap : kheap) (section min flags : Z) : kheap :=
  Kheap [] section min flags 0 0.

(** * Allocation inside a block *)

(** [cur->block_size - sizeof(kheap_block_t) - ...]. *)
Definition max_free_space (cur : kheap_block) : Z :=
  block_size cur ⊖ sizeof_kheap_block ⊖ (bs_length (delimiters cur) / 32) ⊗ 4
    ⊖ (bs_length (used_sections cur) / 32) ⊗ 4.

(** One round of the search; the local state is
    [(first_free, continuous_pages)]. *)
Definition section_scan_step (used : bitset) (first_free_sec n_sec k : Z) (st : Z * Z)
    : outcome (flow (Z * Z) Z) :=
  let '(first_free, continuous_pages) := st in
  i ← umod (first_free_sec ⊕ k) (bs_length used);
  v ← bitset_get_bit used i;
  if v =? 0 then
    let '(first_free, continuous_pages) :=
      if i <? first_free then (first_free, 0)
      else if continuous_pages =? 0 then (i, continuous_pages)
      else (first_free, continuous_pages) in
    let continuous_pages := continuous_pages ⊕ 1 in
    if continuous_pages =? n_sec then Ret (Return first_free)
    else Ret (Continue (first_free, continuous_pages))
  else Ret (Continue (first_free, 0)).

(** [for (j=first_free; j<first_free+n_sec;)]: whole words at once where the
    range covers them. *)
Fixpoint mark_sections (fuel : nat) (j end_ : Z) (used : bitset) : outcome bitset :=
  match fuel with
  | O => NoFuel
  | S fuel' =>
      if j <? end_ then
        if (j mod 32 =? 0) && (j ⊕ 32 <? end_) then
          ws ← array_set (bs_start used) (j / 32) 0xFFFFFFFF;
          mark_sections fuel' (j ⊕ 32) end_ (Bitset (bs_length used) ws)
        else
          used' ← bitset_set_bit used j;
          mark_sections fuel' (j ⊕ 1) end_ used'
      else Ret used
  end.

(** The aligned address, when manual alignment was requested. *)
Definition align_start (manual_align : bool) (align section_start : Z) : outcome Z :=
  if manual_align then
    r ← umod section_start align;
    if 0 <? r then Ret (section_start ⊕ (align - r)) else Ret section_start
  else Ret section_start.

(** The body of the loop over the blocks: the address, the block's new
    contents and the number of sections taken, or nothing when the block is
    skipped or its search fails. *)
Definition malloc_in_block (size align : Z) (manual_align : bool) (cur : kheap_block)
    : outcome (option (Z * kheap_block * Z)) :=
  n_sec ← DIV_ROUND_UP size (section_size cur);
  if (max_free_space cur <? size) || (free_sections cur <? n_sec) then Ret None
  else
    r ← for_return 0 (bs_length (used_sections cur))
          (section_scan_step (used_sections cur) (first_free_section cur) n_sec) (0, 0);
    match r with
    | Continue _ => Ret None
    | Return first_free =>
        let section_start := block_start cur ⊕ first_free ⊗ section_size cur in
        used ← mark_sections (S (Z.to_nat n_sec)) first_free (first_free ⊕ n_sec)
                 (used_sections cur);
        delims ← bitset_set_bit (delimiters cur) (first_free ⊕ n_sec ⊖ 1);
        addr ← align_start manual_align align section_start;
        Ret (Some (addr,
          KheapBlock (block_size cur) (section_size cur) (first_free ⊕ n_sec)
            (free_sections cur ⊖ n_sec) (block_start cur) used delims, n_sec))
    end.

(** The loop over the blocks of the list. *)
Fixpoint malloc_in_blocks (size align : Z) (manual_align : bool) (blocks : list kheap_block)
    : outcome (option (Z * list kheap_block * Z)) :=
  match blocks with
  | [] => Ret None
  | cur :: next =>
      r ← malloc_in_block size align manual_align cur;
      match r with
      | Some (addr, cur', n_sec) => Ret (Some (addr, cur' :: next, n_sec))
      | None =>
          r' ← malloc_in_blocks size align manual_align next;
          match r' with
          | Some (addr, next', n_sec) => Ret (Some (addr, cur :: next', n_sec))
          | None => Ret None
          end
      end
  end.

(** * New blocks *)

Definition kheap_add_block (heap : kheap) (addr size section : Z) : outcome kheap :=
  _ ← assert (addr mod 0x1000 =? 0);
  _ ← assert (4 <=? section);
  let bytes_per_int := section ⊗ 32 in
  num_int_required ← DIV_ROUND_UP size bytes_per_int;
  let bitset_size := num_int_required ⊗ 4 in
  bitset_length ← DIV_ROUND_UP size section;
  _ ← assert (sizeof_kheap_block ⊕ bitset_size ⊗ 2 <? size);
  used ← bitset_init bitset_length;
  delims ← bitset_init bitset_length;
  reserved ← DIV_ROUND_UP (sizeof_kheap_block ⊕ bitset_size ⊗ 2) section;
  used' ← set_range used 0 reserved;
  let block := KheapBlock size section reserved (bitset_length ⊖ reserved) addr used' delims in
  Ret (Kheap (block :: first heap) (default_section_size heap) (min_block_size heap)
         (kheap_flags heap)
         (effective_size heap ⊕ (size ⊖ sizeof_kheap_block ⊕ bitset_size ⊗ 2))
         (total_free_sections heap ⊕ (bitset_length ⊖ reserved))).

Section heap.
Context {S : Type} (pages : kpaging_interface S) (page_size : Z).

(** The loop that looks for a number of pages with room for the metadata. *)
Fixpoint expand_pages (fuel : nat) (size pages_required bitset_size : Z) : outcome Z :=
  match fuel with
  | O => NoFuel
  | Datatypes.S fuel' =>
      if pages_required ⊗ page_size ⊖ sizeof_kheap_block ⊖ bitset_size ⊗ 2 <? size then
        num_int_required ← DIV_ROUND_UP (pages_required ⊗ page_size) (SECTION_SIZE_DEFAULT ⊗ 32);
        expand_pages fuel' size (pages_required ⊕ 1) (num_int_required ⊗ 4)
      else Ret pages_required
  end.

(** [while (i-- > 0) kpage_free(...)]. *)
Fixpoint unmap_pages (i : nat) (location : Z) (s : S) : outcome S :=
  match i with
  | O => Ret s
  | Datatypes.S i' =>
      '(_, s') ← kpage_free pages (location ⊕ Z.of_nat i' ⊗ page_size) s;
      unmap_pages i' location s'
  end.

(** The mapping loop; [Return i]: the page number [i] could not be mapped. *)
Definition map_pages (location pages_required : Z) (s : S) : outcome (flow S (Z * S)) :=
  for_return 0 pages_required (λ i s,
    '(ret, s') ← kpage_allocate pages (location ⊕ i ⊗ page_size)
                   (Z.lor KPAGE_PRESENT KPAGE_RW) s;
    if K_FAILED ret then Ret (Return (i, s')) else Ret (Continue s')) s.

(** The number of pages [kheap_expand] asks for: its statements up to the
    end of the loop. *)
Definition pages_for (size : Z) : outcome Z :=
  pages0 ← DIV_ROUND_UP size page_size;
  num_int_required ← DIV_ROUND_UP (pages0 ⊗ page_size) (SECTION_SIZE_DEFAULT ⊗ 32);
  expand_pages (Datatypes.S (Datatypes.S (Z.to_nat pages0))) size pages0 (num_int_required ⊗ 4).

Definition kheap_expand (size : Z) (st : heap_state S) : outcome (Z * heap_state S) :=
  pages_required ← pages_for size;
  '(location, asa) ← asa_alloc pages_required (hs_asa st);
  if location =? 0 then Ret (K_OOM, HeapState (hs_heap st) asa (hs_sys st))
  else
    r ← map_pages location pages_required (hs_sys st);
    match r with
    | Return (i, s) =>
        '(_, asa') ← asa_free location pages_required asa;
        s' ← unmap_pages (Z.to_nat i) location s;
        Ret (K_OOM, HeapState (hs_heap st) asa' s')
    | Continue s =>
        heap ← kheap_add_block (hs_heap st) location (pages_required ⊗ page_size)
                 (default_section_size (hs_heap st));
        Ret (K_SUCCESS, HeapState heap asa s)
    end.

(** * [kheap_malloc] *)

(** The outer loop: search all blocks, expand at the end of the list and
    start again at the new first block.  The result is the code and what
    [*out] receives. *)
Fixpoint malloc_loop (fuel : nat) (size align : Z) (manual_align : bool) (st : heap_state S)
    : outcome (Z * Z * heap_state S) :=
  match fuel with
  | O => NoFuel
  | Datatypes.S fuel' =>
      let heap := hs_heap st in
      r ← malloc_in_blocks size align manual_align (first heap);
      match r with
      | Some (addr, blocks, n_sec) =>
          Ret (K_SUCCESS, addr,
            HeapState (Kheap blocks (default_section_size heap) (min_block_size heap)
                         (kheap_flags heap) (effective_size heap)
                         (total_free_sections heap ⊖ n_sec))
              (hs_asa st) (hs_sys st))
      | None =>
          '(ret, st') ← kheap_expand (MAX (min_block_size heap) size) st;
          if K_FAILED ret then Ret (ret, 0, st')
          else malloc_loop fuel' size align manual_align st'
      end
  end.

(** Every expansion takes at least one page of address space: the number of
    pages bounds the number of rounds. *)
Definition malloc_fuel (st : heap_state S) : nat :=
  Datatypes.S (Z.to_nat (bs_length (kasa_pages (hs_asa st)))).

Definition kheap_malloc (size align : Z) (st : heap_state S) : outcome (Z * Z * heap_state S) :=
  let manual_align := (0 <? align) && negb (default_section_size (hs_heap st) =? align) in
  let size := if manual_align then size ⊕ align else size in
  if match first (hs_heap st) with [] => true | _ => false end then
    '(ret, st') ← kheap_expand (MAX (min_block_size (hs_heap st)) size) st;
    if K_FAILED ret then Ret (ret, 0, st')
    else malloc_loop (malloc_fuel st') size align manual_align st'
  else malloc_loop (malloc_fuel st) size align manual_align st.

(** * [kheap_free] *)

(** The part of [kheap_free] inside the block that holds the address: the
    block's new contents and the number of sections given back. *)
Definition free_in_block (addr : Z) (cur : kheap_block) : outcome (kheap_block * Z) :=
  sect_num ← udiv (addr ⊖ block_start cur) (section_size cur);
  v ← bitset_get_bit (used_sections cur) sect_num;
  _ ← assert (truthy v);
  r ← for_return sect_num (bs_length (delimiters cur)) (λ i _,
        v ← bitset_get_bit (delimiters cur) i;
        if truthy v then
          delims ← bitset_clear_bit (delimiters cur) i;
          Ret (Return (i, delims))
        else Ret (Continue ())) ();
  let '(last_section, delims) :=
    match r with Return p => p | Continue _ => (0, delimiters cur) end in
  _ ← assert (truthy last_section);
  used ← clear_range (used_sections cur) sect_num (last_section + 1);
  Ret (KheapBlock (block_size cur) (section_size cur) sect_num
         (free_sections cur ⊕ (last_section ⊖ sect_num ⊕ 1)) (block_start cur) used delims,
       last_section ⊖ sect_num ⊕ 1).

Fixpoint free_in_blocks (addr : Z) (blocks : list kheap_block)
    : outcome (option (list kheap_block * Z)) :=
  match blocks with
  | [] => Ret None
  | cur :: next =>
      if (block_start cur <? addr) && (addr <? block_start cur ⊕ block_size cur) then
        '(cur', n) ← free_in_block addr cur;
        Ret (Some (cur' :: next, n))
      else
        r ← free_in_blocks addr next;
        match r with
        | Some (next', n) => Ret (Some (cur :: next', n))
        | None => Ret None
        end
  end.

Definition kheap_free (addr : Z) (heap : kheap) : outcome (bool * kheap) :=
  r ← free_in_blocks addr (first heap);
  match r with
  | Some (blocks, n) =>
      Ret (true, Kheap blocks (default_section_size heap) (min_block_size heap)
                   (kheap_flags heap) (effective_size heap) (total_free_sections heap ⊕ n))
  | None => Ret (false, heap)
  end.

(** * The kernel allocation interface *)

Definition kheap_kalloc_malloc_real (size : Z) (phys : bool) (flags : Z) (st : heap_state S)
    : outcome (Z * option Z * heap_state S) :=
  '(ret, res, st') ← kheap_malloc size
     (if has_flag flags KALLOC_PAGE_ALIGN then page_size else 0) st;
  if K_FAILED ret then Abort
  else if phys then
    '(p, s) ← kpage_get_phys pages res (hs_sys st');
    Ret (res, Some p, HeapState (hs_heap st') (hs_asa st') s)
  else Ret (res, None, st').

Definition kheap_kalloc_free (addr : Z) (st : heap_state S) : outcome (heap_state S) :=
  '(_, heap) ← kheap_free addr (hs_heap st);
  Ret (HeapState heap (hs_asa st) (hs_sys st)).

(** What [kheap_kalloc_install] leaves in [kheap_default] and
    [kalloc_data]. *)
Definition kheap_kalloc_install (st : heap_state S)
    : heap_state S * kalloc_interface (heap_state S) :=
  (HeapState (kheap_init (hs_heap st) SECTION_SIZE_DEFAULT MIN_BLOCK_SIZE_DEFAULT
                KHEAP_AUTO_EXPAND) (hs_asa st) (hs_sys st),
   KallocInterface (Some kheap_kalloc_malloc_real) (Some kheap_kalloc_free)).
End heap.
