(* ===== verification/KheapBlock.v ===== *)
(** A block of the kernel heap: its well-formedness, the search for free
    sections, and what taking and giving back sections does to it. *)
From stdpp Require Import base numbers list.
From Stdlib Require Import ZArith Lia.
From S2P Require Import Prelude Kernel Bitset Alloc Asa KPaging Kheap.

(** * Well-formed blocks *)

Definition n_sections (b : kheap_block) : Z := bs_length (used_sections b).

(** The sections that hold the header and the two bitsets. *)
Definition meta_sections (b : kheap_block) : Z := block_size b / 1024 + 3.

Definition block_end (b : kheap_block) : Z := block_start b + block_size b.

Record block_ok (b : kheap_block) : Prop := BlockOk {
  bo_start : reserved_pages * PAGE_SIZE ≤ block_start b ∧ block_start b mod PAGE_SIZE = 0;
  bo_size : 0 < block_size b ∧ block_size b mod PAGE_SIZE = 0;
  bo_end : block_end b ≤ n_kernel_pages * PAGE_SIZE;
  bo_section : section_size b = 16;
  bo_used : bs_wf (used_sections b) ∧ bs_length (used_sections b) = block_size b / 16;
  bo_delims : bs_wf (delimiters b) ∧ bs_length (delimiters b) = block_size b / 16;
  bo_meta : ∀ n, 0 ≤ n < meta_sections b →
    bit (used_sections b) n = true ∧ bit (delimiters b) n = false;
  bo_free : free_sections b = count_clear (used_sections b);
  bo_first : 0 ≤ first_free_section b ≤ n_sections b;
  bo_sub : ∀ n, 0 ≤ n → bit (delimiters b) n = true → bit (used_sections b) n = true
}.

(** ** The abstract view: allocations *)

(** Sections [lo, hi) are an allocation: in use, with the delimiter at the last
    section and nowhere before it. *)
Definition live (b : kheap_block) (lo hi : Z) : Prop :=
  0 ≤ lo < hi ∧ hi ≤ n_sections b ∧
  (∀ n, lo ≤ n < hi → bit (used_sections b) n = true) ∧
  (∀ n, lo ≤ n < hi - 1 → bit (delimiters b) n = false) ∧
  bit (delimiters b) (hi - 1) = true.

(** Blocks are the same up to the state of their sections. *)
Definition same_frame (b b' : kheap_block) : Prop :=
  block_start b' = block_start b ∧ block_size b' = block_size b.

(** [b'] is [b] with the [n] sections from [f] on taken as one allocation. *)
Record takes_sections (b b' : kheap_block) (f n : Z) : Prop := TakesSections {
  ts_frame : same_frame b b';
  ts_range : meta_sections b ≤ f ∧ 1 ≤ n ∧ f + n ≤ n_sections b;
  ts_clear : ∀ j, f ≤ j < f + n → bit (used_sections b) j = false;
  ts_used : range_update (used_sections b) (used_sections b') f (f + n) true;
  ts_delims : range_update (delimiters b) (delimiters b') (f + n - 1) (f + n) true;
  ts_free : free_sections b' = free_sections b - n
}.

(** [b'] is [b] with the allocation [lo, hi) given back. *)
Record gives_sections (b b' : kheap_block) (lo hi : Z) : Prop := GivesSections {
  gs_frame : same_frame b b';
  gs_used : range_update (used_sections b) (used_sections b') lo hi false;
  gs_delims : range_update (delimiters b) (delimiters b') (hi - 1) hi false;
  gs_free : free_sections b' = free_sections b + (hi - lo)
}.

(** * Lemmas *)

Section block.
Context (b : kheap_block) (Hb : block_ok b).

Lemma block_bounds :
  n_sections b = 256 * (block_size b / 4096) ∧ block_size b = 16 * n_sections b ∧
  1 ≤ block_size b / 4096 < 2 ^ 18 ∧ 0 < block_start b ∧ block_end b < 2 ^ 30 ∧
  meta_sections b = 4 * (block_size b / 4096) + 3 ∧ meta_sections b ≤ n_sections b.
Proof.
  destruct Hb as [[H1 _] [H2 H3] H4 _ [_ H5] _ _ _ _ _]. unfold meta_sections, n_sections, block_end in *.
  change (reserved_pages * PAGE_SIZE) with 1556480 in H1.
  change (n_kernel_pages * PAGE_SIZE) with 1073737728 in H4. unfold PAGE_SIZE in *.
  rewrite H5. div_lia.
Qed.

Lemma max_free_space_spec : max_free_space b = block_size b - 40 - 64 * (block_size b / 4096).
Proof.
  destruct block_bounds as (Hn & Hs & Hp & Hs0 & He & _). unfold max_free_space, block_end in *.
  destruct Hb as [_ _ _ _ [_ Hu] [_ Hd] _ _ _ _].
  unfold n_sections in *. rewrite Hd, <- Hu, Hn.
  replace (256 * (block_size b / 4096) / 32) with (8 * (block_size b / 4096)) by div_lia.
  set (P := block_size b / 4096) in *. unfold sizeof_kheap_block.
  rewrite (u32_small (8 * P * 4)) by (unfold is_u32; lia).
  rewrite (u32_small (block_size b - 40)) by (unfold is_u32; lia).
  rewrite (u32_small (block_size b - 40 - _)) by (unfold is_u32; lia).
  rewrite u32_small by (unfold is_u32; lia). lia.
Qed.
End block.

(** ** The search *)

(** Whatever the search returns is a run of clear sections; it does not wrap
    around. *)
Lemma section_scan_spec used ffs n :
  bs_wf used → 0 < bs_length used < 2 ^ 30 → 0 ≤ ffs ≤ bs_length used → 1 ≤ n →
  wp (for_return 0 (bs_length used) (section_scan_step used ffs n) (0, 0)) (λ r,
    match r with
    | Return f => 0 ≤ f ∧ f + n ≤ bs_length used ∧ ∀ j, f ≤ j < f + n → bit used j = false
    | Continue _ => True
    end).
Proof.
  intros Hwf HL Hffs Hn. set (L := bs_length used) in *. set (s0 := ffs mod L).
  assert (Hs0 : 0 ≤ s0 < L) by (apply Z.mod_pos_bound; lia).
  set (idx := λ k, if s0 + k <? L then s0 + k else s0 + k - L).
  assert (Hidx : ∀ k, 0 ≤ k < L → (ffs ⊕ k) mod L = idx k ∧ 0 ≤ idx k < L).
  { intros k Hk. rewrite u32_small by (unfold is_u32; lia). unfold idx.
    rewrite <- Zplus_mod_idemp_l. fold s0.
    destruct (Z.ltb_spec (s0 + k) L); [rewrite Z.mod_small by lia; lia|].
    split; [|lia]. rewrite <- (Z.mod_small (s0 + k - L) L) by lia.
    by rewrite <- (Z_mod_plus_full (s0 + k - L) 1 L), Z.mul_1_l, Z.sub_add. }
  apply (wp_for_return (λ k '(ff, c),
    0 ≤ c < n ∧ c ≤ k ∧ (n = 1 → ff = 0) ∧ (ff = 0 ∨ ∃ k', 0 ≤ k' < k ∧ ff = idx k') ∧
    (c = 0 ∨
     (0 ≤ ff ∧ idx (k - 1) = ff + c - 1 ∧ ff + c ≤ L ∧ ∀ j, ff ≤ j < ff + c → bit used j = false) ∨
     (c = 1 ∧ 1 < n ∧ L ≤ s0 + (k - 1) ∧ s0 ≤ ff)))).
  - lia.
  - split_and!; [lia|lia|lia|done|by left|by left].
  - intros k [ff c] Hk (Hc & Hck & Hone & Hff & Hst). unfold section_scan_step.
    rewrite umod_pos, Ret_bind by (fold L; lia). fold L.
    destruct (Hidx k Hk) as [-> Hi].
    destruct (bitset_get_bit_spec used Hwf (idx k) Hi) as (v & -> & Hv). rewrite Ret_bind.
    unfold truthy in Hv. destruct (Z.eqb_spec v 0); simpl in Hv.
    2:{ apply wp_ret. split_and!; [lia|lia|lia|done| |by left].
        destruct Hff as [|(k' & ? & ?)]; [by left|right; exists k'; split; [lia|done]]. }
    destruct (Z.ltb_spec (idx k) ff) as [Hlt|Hge].
    + (* wrapped around, past an earlier candidate *)
      destruct Hff as [|(k' & Hk' & ->)]; [lia|].
      assert (Hw : L ≤ s0 + k ∧ s0 ≤ idx k').
      { unfold idx in *. destruct (Z.ltb_spec (s0 + k) L), (Z.ltb_spec (s0 + k') L); lia. }
      assert (1 < n) by (destruct (decide (n = 1)); [|lia]; specialize (Hone ltac:(done)); lia).
      change (0 ⊕ 1) with 1. destruct (Z.eqb_spec 1 n); [lia|]. apply wp_ret.
      split_and!; [lia|lia|lia|lia|right; exists k'; split; [lia|done]|].
      right. right. split_and!; [done|lia|lia|lia].
    + destruct (Z.eqb_spec c 0) as [->|Hc0].
      * change (0 ⊕ 1) with 1. destruct (Z.eqb_spec 1 n) as [<-|].
        { apply wp_ret. split_and!; [lia|lia|]. intros j Hj. by replace j with (idx k) by lia. }
        apply wp_ret. split_and!; [lia|lia|lia|lia|right; exists k; split; [lia|done]|].
        right. left. replace (k + 1 - 1) with k by lia.
        split_and!; [lia|lia|lia|]. intros j Hj. by replace j with (idx k) by lia.
      * rewrite u32_small by (unfold is_u32; lia).
        destruct Hst as [?|[(Hff0 & Hprev & Hend & Hclear)|(Hc1 & _ & Hwrap & Hs)]]; [done| |].
        2:{ exfalso. unfold idx in Hge. destruct (Z.ltb_spec (s0 + k) L); lia. }
        assert (Hnext : idx k = ff + c).
        { unfold idx in *. destruct (Z.ltb_spec (s0 + k) L), (Z.ltb_spec (s0 + (k - 1)) L); lia. }
        assert (Hclear' : ∀ j, ff ≤ j < ff + (c + 1) → bit used j = false).
        { intros j Hj. destruct (decide (j = idx k)) as [->|]; [done|]. apply Hclear. lia. }
        destruct (Z.eqb_spec (c + 1) n) as [<-|].
        { apply wp_ret. split_and!; [lia|lia|done]. }
        apply wp_ret. replace (k + 1 - 1) with k by lia. split_and!; [lia|lia|lia|done| |].
        { destruct Hff as [|(k' & ? & ?)]; [by left|right; exists k'; split; [lia|done]]. }
        right. left. split_and!; [lia|lia|lia|done].
  - intros [ff c] _. done.
Qed.

(** A run that starts at the hint is found at once. *)
Lemma section_scan_hit used ffs n :
  bs_wf used → 0 < bs_length used < 2 ^ 30 → 0 ≤ ffs → 1 ≤ n → ffs + n ≤ bs_length used →
  (∀ j, ffs ≤ j < ffs + n → bit used j = false) →
  for_return 0 (bs_length used) (section_scan_step used ffs n) (0, 0) = Ret (Return ffs).
Proof.
  intros Hwf HL Hffs Hn Hfit Hclear.
  assert (H : wp (for_return 0 (bs_length used) (section_scan_step used ffs n) (0, 0))
                (λ r, r = Return ffs)).
  { apply (wp_for_return (λ k '(ff, c), k < n ∧ c = k ∧ (k = 0 → ff = 0) ∧ (0 < k → ff = ffs)));
      [lia|lia| |].
    - intros k [ff c] Hk (Hkn & -> & Hz & Hp). unfold section_scan_step.
      rewrite umod_pos, Ret_bind by lia. rewrite u32_small by (unfold is_u32; lia).
      rewrite Z.mod_small by lia.
      destruct (bitset_get_bit_spec used Hwf (ffs + k)) as (v & -> & Hv); [lia|]. rewrite Ret_bind.
      rewrite Hclear in Hv by lia. apply truthy_false in Hv as ->. rewrite Z.eqb_refl.
      destruct (decide (k = 0)) as [->|Hk0].
      + rewrite Hz by done. destruct (Z.ltb_spec (ffs + 0) 0); [lia|]. rewrite Z.eqb_refl.
        change (0 ⊕ 1) with 1. rewrite Z.add_0_r. case_bool; apply wp_ret; [done|].
        split_and!; [lia|lia|lia|done].
      + rewrite Hp by lia. destruct (Z.ltb_spec (ffs + k) ffs); [lia|].
        destruct (Z.eqb_spec k 0); [done|]. rewrite u32_small by (unfold is_u32; lia).
        case_bool; apply wp_ret; [done|]. split_and!; [lia|lia|lia|done].
    - intros [ff c] (? & _). lia. }
  apply wp_inv in H as (r & -> & ->). done.
Qed.

(** ** Marking sections *)

(** Storing a full word marks its 32 entries. *)
Lemma fill_word b j :
  bs_wf b → 0 ≤ j → j mod 32 = 0 → j + 32 ≤ bs_length b →
  ∃ ws, array_set (bs_start b) (j / 32) 0xFFFFFFFF = Ret ws ∧
        range_update b (Bitset (bs_length b) ws) j (j + 32) true.
Proof.
  intros [Hl Hw Hu] Hj Hmod Hfit. assert (Hq : j = 32 * (j / 32)) by div_lia.
  rewrite array_set_in by div_lia. eexists. split; [done|]. split_and!.
  - split; simpl; [done| |].
    + by rewrite length_insert.
    + apply Forall_insert; [done|]. by vm_compute.
  - done.
  - intros n Hn. unfold bit. simpl. destruct (word_index n Hn) as (Hn1 & Hn2 & Hn3).
    destruct (decide (n / 32 = j / 32)) as [He|Hne].
    + rewrite He, list_lookup_insert_eq by div_lia. simpl. case_decide; [|lia].
      change 0xFFFFFFFF with (Z.ones 32). apply Z.ones_spec_low. lia.
    + rewrite list_lookup_insert_ne by lia. case_decide; [lia|done].
Qed.

Lemma mark_sections_spec fuel j hi b :
  bs_wf b → 0 ≤ j ≤ hi → hi ≤ bs_length b → hi < 2 ^ 31 → (Z.to_nat (hi - j) < fuel)%nat →
  wp (mark_sections fuel j hi b) (λ b', range_update b b' j hi true).
Proof.
  intros Hwf. revert j b Hwf. induction fuel as [|fuel IH]; intros j b Hwf Hj Hhi Hmax Hfuel; [lia|].
  cbn [mark_sections]. destruct (Z.ltb_spec j hi).
  2:{ apply wp_ret. replace hi with j by lia. by apply range_update_refl. }
  rewrite (u32_small (j + 32)), (u32_small (j + 1)) by (unfold is_u32; lia).
  destruct (Z.eqb_spec (j mod 32) 0); simpl; [destruct (Z.ltb_spec (j + 32) hi)|].
  - destruct (fill_word b j Hwf) as (ws & -> & Hup); [lia|done|lia|]. rewrite Ret_bind.
    pose proof Hup as (Hwf' & Hl' & _).
    eapply wp_mono; [apply IH; [done|lia|rewrite Hl'; lia|lia|lia]|]. intros b' Hb'.
    eapply range_update_trans; [|done..]. lia.
  - destruct (bitset_set_bit_spec b Hwf j) as (b' & -> & Hup); [lia|]. rewrite Ret_bind.
    pose proof Hup as (Hwf' & Hl' & _).
    eapply wp_mono; [apply IH; [done|lia|rewrite Hl'; lia|lia|lia]|]. intros b'' Hb''.
    eapply range_update_trans; [|done..]. lia.
  - destruct (bitset_set_bit_spec b Hwf j) as (b' & -> & Hup); [lia|]. rewrite Ret_bind.
    pose proof Hup as (Hwf' & Hl' & _).
    eapply wp_mono; [apply IH; [done|lia|rewrite Hl'; lia|lia|lia]|]. intros b'' Hb''.
    eapply range_update_trans; [|done..]. lia.
Qed.

Lemma align_start_spec (manual : bool) align p :
  (manual = true → 1 ≤ align) → 0 ≤ p → p + align < 2 ^ 32 → 
  ∃ a, align_start manual align p = Ret a ∧
    if manual then p ≤ a < p + align ∧ a mod align = 0 else a = p.
Proof.
  intros Hal Hp Hu. unfold align_start. destruct manual; [|by eauto].
  specialize (Hal eq_refl). rewrite umod_pos, Ret_bind by lia.
  pose proof (Z.mod_pos_bound p align ltac:(lia)). pose proof (Z.div_mod p align ltac:(lia)).
  destruct (Z.ltb_spec 0 (p mod align)); eexists; (split; [done|]).
  - rewrite u32_small by (unfold is_u32; lia). split; [lia|].
    replace (p + (align - p mod align)) with ((p / align + 1) * align) by lia.
    by apply Z.mod_mul; lia.
  - split; [lia|]. lia.
Qed.

(** ** Taking sections *)

Lemma takes_sections_ok b b' f n :
  block_ok b → takes_sections b b' f n → section_size b' = 16 →
  first_free_section b' = f + n → block_ok b'.
Proof.
  intros Hb [[Hst Hsz] (Hf & Hn & Hend) Hcl Hu Hd Hfr] Hsec Hff.
  pose proof (block_bounds b Hb) as (Hns & _ & _ & _ & _ & Hm & _).
  pose proof Hu as (Hwu & Hlu & Hbu). pose proof Hd as (Hwd & Hld & Hbd).
  destruct Hb as [H1 H2 H3 H4 [H5 H5'] [H6 H6'] H7 H8 H9 H10].
  assert (Hm' : meta_sections b' = meta_sections b) by (unfold meta_sections; by rewrite Hsz).
  split.
  - by rewrite Hst.
  - by rewrite Hsz.
  - unfold block_end in *. by rewrite Hst, Hsz.
  - done.
  - split; [done|]. rewrite Hlu, Hsz. done.
  - split; [done|]. rewrite Hld, Hsz. done.
  - rewrite Hm'. intros m Hm0. rewrite Hbu, Hbd by lia.
    case_decide; [lia|]. case_decide; [lia|]. by apply H7.
  - rewrite Hfr, H8. unfold n_sections in Hend.
    rewrite (range_update_count (used_sections b) (used_sections b') f (f + n) true); [lia|lia|lia|done|done].
  - rewrite Hff. unfold n_sections in *. rewrite Hlu. lia.
  - intros m Hm0. rewrite Hbu, Hbd by lia. case_decide; [case_decide; [done|lia]|].
    intros Hx. case_decide; [done|by apply H10].
Qed.

(** What a request is allowed to be. *)
Definition request (size align : Z) (manual_align : bool) : Prop :=
  1 ≤ size < 2 ^ 31 + 2 ^ 13 ∧ 0 ≤ align ≤ PAGE_SIZE ∧ (manual_align = true → 1 ≤ align).

(** The address returned for sections taken from [f] on. *)
Definition address_ok (b : kheap_block) (align : Z) (manual_align : bool) (f addr : Z) : Prop :=
  let base := block_start b + 16 * f in
  if manual_align then base ≤ addr < base + align ∧ addr mod align = 0 else addr = base.

Lemma ceil16 size :
  1 ≤ size < 2 ^ 31 + 2 ^ 13 → DIV_ROUND_UP size 16 = Ret (ceil_div size 16) ∧
  1 ≤ ceil_div size 16 < 2 ^ 28 /\ 16 * (ceil_div size 16 - 1) < size ≤ 16 * ceil_div size 16.
Proof.
  intros Hs. rewrite DIV_ROUND_UP_ceil by lia. pose proof (ceil_div_bounds size 16 ltac:(lia)).
  split; [done|]. lia.
Qed.

(** The tail of [malloc_in_block], after a successful search. *)
Lemma malloc_in_block_take b f n align manual :
  block_ok b → 1 ≤ n → meta_sections b ≤ f → f + n ≤ n_sections b →
  (∀ j, f ≤ j < f + n → bit (used_sections b) j = false) →
  n ≤ free_sections b → 0 ≤ align ≤ PAGE_SIZE → (manual = true → 1 ≤ align) →
  ∃ addr b',
    (used ← mark_sections (S (Z.to_nat n)) f (f ⊕ n) (used_sections b);
     delims ← bitset_set_bit (delimiters b) (f ⊕ n ⊖ 1);
     addr ← align_start manual align (block_start b ⊕ f ⊗ section_size b);
     Ret (Some (addr, KheapBlock (block_size b) (section_size b) (f ⊕ n)
                        (free_sections b ⊖ n) (block_start b) used delims, n)))
    = Ret (Some (addr, b', n)) ∧
    takes_sections b b' f n ∧ block_ok b' ∧ address_ok b align manual f addr.
Proof.
  intros Hb Hn Hf Hend Hcl Hfree Hal Hman.
  pose proof (block_bounds b Hb) as (Hns & Hbs & HP & Hst0 & Hbe & Hm & _).
  unfold block_end in Hbe. pose proof Hb as [_ _ _ Hsec [Hwu Hlu] [Hwd Hld] _ Hfr _ _].
  assert (Hcount : 0 ≤ free_sections b ≤ n_sections b).
  { rewrite Hfr. unfold count_clear, clear_in, n_sections.
    pose proof (length_filter (λ n, bit (used_sections b) n = false)
      (seqZ 0 (bs_length (used_sections b) - 0))) as Hle. rewrite length_seqZ in Hle.
    pose proof (bs_wf_length _ Hwu) as [? _]. lia. }
  rewrite Hsec. change 16384 with (2 ^ 14) in *.
  rewrite (u32_small (f + n)), (u32_small (f + n - 1)), (u32_small (f * 16)),
    (u32_small (block_start b + f * 16)), (u32_small (free_sections b - n))
    by (unfold is_u32; lia).
  unfold n_sections in *.
  pose proof (mark_sections_spec (S (Z.to_nat n)) f (f + n) (used_sections b) Hwu) as Hmark.
  apply wp_inv in Hmark as (used & -> & Hu); [|lia..]. rewrite Ret_bind.
  destruct (bitset_set_bit_spec (delimiters b) Hwd (f + n - 1)) as (delims & -> & Hd); [lia|].
  rewrite Ret_bind. replace (f + n - 1 + 1) with (f + n) in Hd by lia.
  destruct (align_start_spec manual align (block_start b + f * 16) Hman) as (a & -> & Ha);
    [lia|unfold PAGE_SIZE in Hal; lia|]. rewrite Ret_bind.
  eexists _, _. split; [done|].
  match goal with |- takes_sections _ ?x _ _ ∧ _ => set (b' := x) end.
  assert (Ht : takes_sections b b' f n) by (split; done).
  split; [done|]. split; [by eapply takes_sections_ok|].
  unfold address_ok. replace (16 * f) with (f * 16) by lia. exact Ha.
Qed.

Lemma malloc_in_block_spec size align manual b :
  block_ok b → request size align manual →
  wp (malloc_in_block size align manual b) (λ r,
    match r with
    | Some (addr, b', n) => ∃ f, n = ceil_div size 16 ∧ takes_sections b b' f n ∧ block_ok b' ∧
        address_ok b align manual f addr
    | None => True
    end).
Proof.
  intros Hb (Hs & Hal & Hman). destruct (ceil16 size Hs) as (Hdiv & Hn & _).
  pose proof (block_bounds b Hb) as (Hns & Hbs & HP & _).
  unfold malloc_in_block. rewrite (bo_section _ Hb), Hdiv, Ret_bind.
  destruct (_ || _) eqn:Hfit; [done|]. apply orb_false_iff in Hfit as [_ Hfit%Z.ltb_ge].
  pose proof Hb as [_ _ _ _ [Hwu Hlu] _ Hmeta _ Hff _]. unfold n_sections in *.
  apply wp_bind. eapply wp_mono; [apply section_scan_spec; [done|lia|done|lia]|].
  intros [?|f]; [done|]. intros (Hf & Hend & Hcl).
  assert (Hfm : meta_sections b ≤ f).
  { destruct (decide (meta_sections b ≤ f)); [done|].
    destruct (Hmeta f) as [Hbad _]; [lia|]. rewrite Hcl in Hbad by lia. done. }
  destruct (malloc_in_block_take b f (ceil_div size 16) align manual)
    as (addr & b' & Heq & Ht & Hb' & Ha); try done; [lia|].
  rewrite (bo_section _ Hb) in Heq. rewrite Heq. simpl. by exists f.
Qed.

(** A block whose sections after the metadata are all free, with the hint at
    the first of them. *)
Record fresh_block (b : kheap_block) : Prop := FreshBlock {
  fb_ok : block_ok b;
  fb_first : first_free_section b = meta_sections b;
  fb_clear : ∀ n, meta_sections b ≤ n < n_sections b → bit (used_sections b) n = false;
  fb_delims : ∀ n, 0 ≤ n → bit (delimiters b) n = false
}.

(** What fits in a fresh block. *)
Definition usable (b : kheap_block) : Z := 16 * (n_sections b - meta_sections b).

Lemma fresh_block_free b : fresh_block b → free_sections b = n_sections b - meta_sections b.
Proof.
  intros [Hb _ Hcl _]. pose proof (block_bounds b Hb) as (_ & _ & HP & _ & _ & Hm & Hle).
  rewrite (bo_free _ Hb). unfold count_clear. fold (n_sections b).
  rewrite (clear_in_split _ 0 (meta_sections b)) by lia. rewrite length_app, Nat2Z.inj_add.
  rewrite (clear_in_const _ 0 _ true), (clear_in_const _ _ _ false); [lia|lia|done|lia|].
  intros n Hn. by apply (bo_meta _ Hb).
Qed.

(** A fresh block serves any request up to its usable size, at its first
    section. *)
Lemma malloc_in_fresh_block size align manual b :
  fresh_block b → request size align manual → size ≤ usable b →
  ∃ addr b', malloc_in_block size align manual b = Ret (Some (addr, b', ceil_div size 16)) ∧
    takes_sections b b' (meta_sections b) (ceil_div size 16) ∧ block_ok b' ∧
    address_ok b align manual (meta_sections b) addr.
Proof.
  intros Hfb (Hs & Hal & Hman) Hus. pose proof (fresh_block_free b Hfb) as Hfree.
  destruct Hfb as [Hb Hff Hcl _]. destruct (ceil16 size Hs) as (Hdiv & Hn & Hc).
  pose proof (block_bounds b Hb) as (Hns & Hbs & HP & _ & _ & Hm & Hle).
  unfold usable in Hus. set (n := ceil_div size 16) in *.
  unfold malloc_in_block. rewrite (bo_section _ Hb), Hdiv, Ret_bind. fold n.
  rewrite max_free_space_spec, Hfree by done.
  destruct (Z.ltb_spec (block_size b - 40 - 64 * (block_size b / 4096)) size); [lia|].
  destruct (Z.ltb_spec (n_sections b - meta_sections b) n); [lia|]. simpl orb. cbv iota.
  rewrite Hff. unfold n_sections in *.
  rewrite section_scan_hit; [|apply Hb|lia|lia|lia|lia|intros j Hj; apply Hcl; lia].
  rewrite Ret_bind.
  destruct (malloc_in_block_take b (meta_sections b) n align manual)
    as (addr & b' & Heq & Ht & Hb' & Ha);
    [done|lia|lia|unfold n_sections; lia|intros j Hj; apply Hcl; lia|lia|done|done|].
  rewrite (bo_section _ Hb), Hfree in Heq. by exists addr, b'.
Qed.

(** ** Giving sections back *)

(** The section an address falls into. *)
Lemma section_of b addr lo :
  block_ok b → 0 ≤ lo < n_sections b → block_start b + 16 * lo ≤ addr < block_start b + 16 * lo + 16 →
  addr ⊖ block_start b = addr - block_start b ∧ (addr - block_start b) / 16 = lo.
Proof.
  intros Hb Hlo Ha. pose proof (block_bounds b Hb) as (Hns & Hbs & HP & Hst & Hbe & _).
  unfold block_end in Hbe. split; [apply u32_small; unfold is_u32; lia|]. div_lia.
Qed.

(** The first delimiter at or after the first section of an allocation is the
    allocation's own. *)
Lemma find_delimiter d lo hi :
  bs_wf d → 0 ≤ lo < hi → hi ≤ bs_length d →
  (∀ n, lo ≤ n < hi - 1 → bit d n = false) → bit d (hi - 1) = true →
  ∃ d', for_return lo (bs_length d) (λ i _,
          v ← bitset_get_bit d i;
          if truthy v then d' ← bitset_clear_bit d i; Ret (Return (i, d'))
          else Ret (Continue ())) () = Ret (Return (hi - 1, d')) ∧
        range_update d d' (hi - 1) hi false.
Proof.
  intros Hwf Hlo Hhi Hclear Hset.
  enough (H : wp (for_return lo (bs_length d) (λ i _,
          v ← bitset_get_bit d i;
          if truthy v then d' ← bitset_clear_bit d i; Ret (Return (i, d'))
          else Ret (Continue ())) ())
        (λ r, ∃ d', r = Return (hi - 1, d') ∧ range_update d d' (hi - 1) hi false)).
  { apply wp_inv in H as (r & -> & d' & -> & Hup). by exists d'. }
  apply (wp_for_return (λ i _, i ≤ hi - 1)); [lia|lia| |intros ? Hgt; exfalso; lia].
  intros i [] Hi Hle. destruct (bitset_get_bit_spec d Hwf i) as (v & -> & Hv); [lia|].
  rewrite Ret_bind, Hv. destruct (decide (i = hi - 1)) as [->|Hne].
  - rewrite Hset. destruct (bitset_clear_bit_spec d Hwf (hi - 1)) as (d' & -> & Hup); [lia|].
    rewrite Z.sub_add in Hup. simpl. by exists d'.
  - rewrite Hclear by lia. apply wp_ret. lia.
Qed.

Lemma gives_sections_ok b b' lo hi :
  block_ok b → gives_sections b b' lo hi → meta_sections b ≤ lo → live b lo hi →
  section_size b' = 16 → first_free_section b' = lo → block_ok b'.
Proof.
  intros Hb [[Hst Hsz] Hu Hd Hfr] Hf (Hlh & Hend & Hused & Hnd & Hdel) Hsec Hff.
  pose proof (block_bounds b Hb) as (Hns & _ & _ & _ & _ & Hm & _).
  pose proof Hu as (Hwu & Hlu & Hbu). pose proof Hd as (Hwd & Hld & Hbd).
  destruct Hb as [H1 H2 H3 H4 [H5 H5'] [H6 H6'] H7 H8 H9 H10].
  assert (Hm' : meta_sections b' = meta_sections b) by (unfold meta_sections; by rewrite Hsz).
  split.
  - by rewrite Hst.
  - by rewrite Hsz.
  - unfold block_end in *. by rewrite Hst, Hsz.
  - done.
  - split; [done|]. rewrite Hlu, Hsz. done.
  - split; [done|]. rewrite Hld, Hsz. done.
  - rewrite Hm'. intros m Hm0. rewrite Hbu, Hbd by lia.
    case_decide; [lia|]. case_decide; [lia|]. by apply H7.
  - rewrite Hfr, H8. unfold n_sections in Hend.
    rewrite (range_update_count (used_sections b) (used_sections b') lo hi false);
      [lia|lia|lia|done|done].
  - rewrite Hff. unfold n_sections in *. rewrite Hlu. lia.
  - intros m Hm0. rewrite Hbu, Hbd by lia. case_decide; [done|]. intros Hx.
    case_decide; [|by apply H10]. rewrite Hnd in Hx; [done|lia].
Qed.

Lemma free_in_block_spec b addr lo hi :
  block_ok b → live b lo hi → meta_sections b ≤ lo →
  block_start b + 16 * lo ≤ addr < block_start b + 16 * lo + 16 →
  ∃ b', free_in_block addr b = Ret (b', hi - lo) ∧ gives_sections b b' lo hi ∧ block_ok b' ∧
        first_free_section b' = lo.
Proof.
  intros Hb Hlive Hf Ha. pose proof Hlive as (Hlh & Hend & Hused & Hnd & Hdel).
  pose proof (block_bounds b Hb) as (Hns & Hbs & HP & _ & _ & Hm & _).
  destruct (section_of b addr lo Hb) as [Hsub Hdiv]; [lia|done|].
  pose proof Hb as [_ _ _ Hsec [Hwu Hlu] [Hwd Hld] _ Hfr _ _]. unfold n_sections in *.
  unfold free_in_block. rewrite Hsec, Hsub, udiv_pos, Ret_bind, Hdiv by lia.
  destruct (bitset_get_bit_spec _ Hwu lo) as (v & -> & Hv); [lia|].
  rewrite Ret_bind, Hv, Hused by lia. simpl assert. rewrite Ret_bind.
  destruct (find_delimiter (delimiters b) lo hi Hwd) as (d' & -> & Hd); [lia|lia|done|done|].
  rewrite Ret_bind. unfold truthy. destruct (Z.eqb_spec (hi - 1) 0); [lia|].
  simpl assert. rewrite Ret_bind, Z.sub_add.
  pose proof (clear_range_spec (used_sections b) lo hi Hwu) as Hcl.
  apply wp_inv in Hcl as (u' & -> & Hu); [|lia|lia]. rewrite Ret_bind.
  rewrite (u32_small (hi - 1 - lo)), (u32_small (hi - 1 - lo + 1)) by (unfold is_u32; lia).
  replace (hi - 1 - lo + 1) with (hi - lo) by lia.
  assert (Hcount : 0 ≤ free_sections b ≤ bs_length (used_sections b)).
  { rewrite Hfr. unfold count_clear, clear_in.
    pose proof (length_filter (λ n, bit (used_sections b) n = false)
      (seqZ 0 (bs_length (used_sections b) - 0))) as Hle. rewrite length_seqZ in Hle.
    pose proof (bs_wf_length _ Hwu) as [? _]. lia. }
  rewrite u32_small by (unfold is_u32; lia).
  eexists. split; [done|].
  match goal with |- gives_sections _ ?x _ _ ∧ _ => set (b' := x) end.
  assert (Hg : gives_sections b b' lo hi) by (split; done).
  split; [done|]. split; [|done]. eapply gives_sections_ok; try done.
Qed.

(** Sections that were taken are live, and live allocations stay so. *)
Lemma takes_live b b' f n :
  block_ok b → takes_sections b b' f n →
  live b' f (f + n) ∧ ∀ lo hi, live b lo hi → live b' lo hi.
Proof.
  intros Hb [_ (Hf & Hn & Hend) Hcl (_ & Hlu & Hbu) (_ & _ & Hbd) _].
  pose proof (block_bounds b Hb) as (_ & _ & HP & _ & _ & Hm & _).
  assert (Hnd : ∀ j, f ≤ j < f + n → bit (delimiters b) j = false).
  { intros j Hj. destruct (bit (delimiters b) j) eqn:Hd; [|done].
    apply (bo_sub _ Hb) in Hd; [|lia]. rewrite Hcl in Hd by lia. done. }
  unfold live, n_sections in *. rewrite Hlu. split.
  - split_and!; [lia|lia|lia| | |].
    + intros j Hj. rewrite Hbu by lia. by case_decide.
    + intros j Hj. rewrite Hbd by lia. case_decide; [lia|]. apply Hnd. lia.
    + rewrite Hbd by lia. case_decide; [done|lia].
  - intros lo hi (Hlh & Hhi & Hused & Hnodel & Hdel). split_and!; [lia|lia|lia| | |].
    + intros j Hj. rewrite Hbu by lia. case_decide; [done|]. apply Hused. lia.
    + intros j Hj. rewrite Hbd by lia. case_decide as Hc; [|apply Hnodel; lia].
      specialize (Hused (f + n - 1)). rewrite Hcl in Hused by lia. discriminate Hused. lia.
    + rewrite Hbd by lia. by case_decide.
Qed.

(** Giving one allocation back leaves the others alone. *)
Lemma gives_live b b' lo hi lo' hi' :
  0 ≤ lo < hi → gives_sections b b' lo hi → live b lo' hi' → hi' ≤ lo ∨ hi ≤ lo' → live b' lo' hi'.
Proof.
  intros Hlo [_ (_ & Hlu & Hbu) (_ & _ & Hbd) _] (Hlh & Hhi & Hused & Hnodel & Hdel) Hdisj.
  unfold live, n_sections in *. rewrite Hlu. split_and!; [lia|lia|lia| | |].
  - intros j Hj. rewrite Hbu by lia. case_decide; [lia|]. by apply Hused.
  - intros j Hj. rewrite Hbd by lia. case_decide; [done|]. by apply Hnodel.
  - rewrite Hbd by lia. case_decide; [lia|done].
Qed.

(** Taking and giving back the same sections restores the block's sets. *)
Lemma takes_gives b b1 b2 f n :
  block_ok b → takes_sections b b1 f n → gives_sections b1 b2 f (f + n) →
  used_sections b2 ≡ used_sections b ∧ delimiters b2 ≡ delimiters b ∧
  free_sections b2 = free_sections b ∧ same_frame b b2.
Proof.
  intros Hb Ht [[Hst2 Hsz2] Hu2 Hd2 Hf2]. pose proof Ht as [[Hst Hsz] (Hf & Hn & Hend) Hcl Hu Hd Hfr].
  pose proof (block_bounds b Hb) as (_ & _ & HP & _ & _ & Hm & _).
  split; [by eapply (range_update_undo _ _ _ f (f + n) true)|]. split.
  - eapply (range_update_undo _ _ _ (f + n - 1) (f + n) true); [|done|done].
    intros j Hj. simpl. destruct (bit (delimiters b) j) eqn:He; [|done].
    apply (bo_sub _ Hb) in He; [|lia]. rewrite Hcl in He by lia. done.
  - split; [lia|]. split; congruence.
Qed.
