(* ===== verification/KheapSpec.v ===== *)
(** The kernel heap as a whole: the invariant that ties the blocks to the
    address-space allocator and to whatever paging system maps the pages, and
    the specifications of expansion, allocation and freeing. *)
From stdpp Require Import base numbers list.
From Stdlib Require Import ZArith Lia.
From S2P Require Import Prelude Kernel Bitset Alloc Asa Machine KPaging Kheap KheapBlock.

(** * New blocks *)

Lemma add_block_spec heap f P :
  1 ≤ P → reserved_pages ≤ f → f + P ≤ n_kernel_pages →
  ∃ b, kheap_add_block heap (f * PAGE_SIZE) (P * PAGE_SIZE) SECTION_SIZE_DEFAULT
         = Ret (Kheap (b :: first heap) (default_section_size heap) (min_block_size heap)
             (kheap_flags heap)
             (effective_size heap ⊕ (P * PAGE_SIZE ⊖ sizeof_kheap_block ⊕ 64 * P))
             (total_free_sections heap ⊕ free_sections b)) ∧
    fresh_block b ∧ block_start b = f * PAGE_SIZE ∧ block_size b = P * PAGE_SIZE.
Proof.
  intros HP Hf Hend. change reserved_pages with 380 in Hf. change n_kernel_pages with 262143 in Hend.
  unfold kheap_add_block, SECTION_SIZE_DEFAULT. change 0x1000 with PAGE_SIZE.
  rewrite Z.mod_mul, Z.eqb_refl by done. simpl assert. rewrite !Ret_bind.
  change (16 ⊗ 32) with 512. unfold PAGE_SIZE in *.
  assert (Hc1 : ceil_div (P * 4096) 512 = 8 * P) by (unfold ceil_div; div_lia).
  assert (Hc2 : ceil_div (P * 4096) 16 = 256 * P) by (unfold ceil_div; div_lia).
  rewrite !DIV_ROUND_UP_ceil, Hc1, Hc2, !Ret_bind by lia.
  unfold sizeof_kheap_block.
  rewrite (u32_small (8 * P * 4)), (u32_small (8 * P * 4 * 2)), (u32_small (40 + _))
    by (unfold is_u32; lia).
  unfold assert. destruct (Z.ltb_spec (40 + 8 * P * 4 * 2) (P * 4096)); [|lia]. rewrite Ret_bind.
  destruct (bitset_init_spec (256 * P)) as (u & -> & Hwu & Hlu & Hbu); [lia|]. rewrite !Ret_bind.
  rewrite DIV_ROUND_UP_ceil by lia.
  assert (Hc3 : ceil_div (40 + 8 * P * 4 * 2) 16 = 4 * P + 3) by (unfold ceil_div; div_lia).
  rewrite Hc3, Ret_bind.
  pose proof (set_range_spec u 0 (4 * P + 3) Hwu) as Hset.
  apply wp_inv in Hset as (u' & -> & Hup); [|lia|lia]. rewrite Ret_bind.
  rewrite (u32_small (256 * P - (4 * P + 3))) by (unfold is_u32; lia).
  match goal with |- ∃ _, Ret (Kheap (?x :: _) _ _ _ _ _) = _ ∧ _ => set (b := x) end.
  exists b. pose proof Hup as (Hwu' & Hlu' & Hbu').
  assert (Hm : meta_sections b = 4 * P + 3).
  { unfold meta_sections. simpl. div_lia. }
  split; [by replace (8 * P * 4 * 2) with (64 * P) by lia|]. split; [|done].
  assert (Hcl : ∀ n, 4 * P + 3 ≤ n → bit u' n = false).
  { intros n Hn. rewrite Hbu' by lia. by case_decide; [lia|]. }
  split; [|by rewrite Hm|intros n [Hn _]; rewrite Hm in Hn; by apply Hcl|intros; apply Hbu].
  split; simpl; try done.
  - change (reserved_pages * PAGE_SIZE) with (380 * 4096). unfold PAGE_SIZE.
    split; [lia|by apply Z.mod_mul].
  - unfold PAGE_SIZE. split; [lia|by apply Z.mod_mul].
  - unfold block_end; simpl. change (n_kernel_pages * PAGE_SIZE) with (262143 * 4096). lia.
  - split; [done|]. rewrite Hlu', Hlu. div_lia.
  - split; [done|]. rewrite Hlu. div_lia.
  - rewrite Hm. intros n Hn. rewrite Hbu' by lia. case_decide; [done|lia].
  - rewrite (range_update_count u u' 0 (4 * P + 3) true); [|lia|lia|done|done].
    unfold count_clear. rewrite Hlu, (clear_in_const _ _ _ false); [lia|lia|done].
  - unfold n_sections; simpl. rewrite Hlu', Hlu. lia.
  - intros n Hn. by rewrite Hbu.
Qed.

(** The number of pages [kheap_expand] settles for.  The metadata is computed
    for one page less than the block gets, so up to 64 bytes of the request
    may be missing; from the smallest block on, it is the least number of pages
    that passes the test of the loop. *)
Lemma expand_pages_spec size :
  1 ≤ size < 2 ^ 31 + 2 ^ 14 →
  ∃ P, pages_for PAGE_SIZE size = Ret P ∧
    1 ≤ P < 2 ^ 20 - 2 ^ 10 ∧ size ≤ P * PAGE_SIZE - 40 - 64 * (P - 1) ∧
    (MIN_BLOCK_SIZE_DEFAULT ≤ size → 4032 * (P - 1) + 24 < size).
Proof.
  intros Hs. unfold pages_for.
  pose proof (ceil_div_bounds size PAGE_SIZE ltac:(done)) as Hb. unfold PAGE_SIZE in *.
  set (P0 := ceil_div size 4096) in *.
  assert (HP0 : 1 ≤ P0 ≤ 2 ^ 19 + 4) by lia.
  assert (Hd : ∀ P, 1 ≤ P < 2 ^ 20 → DIV_ROUND_UP (P ⊗ 4096) (SECTION_SIZE_DEFAULT ⊗ 32) = Ret (8 * P)).
  { intros P HP. change (SECTION_SIZE_DEFAULT ⊗ 32) with 512.
    rewrite u32_small by (unfold is_u32; lia). rewrite DIV_ROUND_UP_ceil by lia.
    f_equal. unfold ceil_div. div_lia. }
  enough (H : ∀ fuel P B, P0 ≤ P → (P = P0 ∧ B = 8 * P0 * 4) ∨ (B = 32 * (P - 1)) →
            63 * (P - P0) ≤ P0 + 63 → (Z.to_nat (2 * P0 + 2 - P) ≤ fuel)%nat →
            (MIN_BLOCK_SIZE_DEFAULT ≤ size → 4032 * (P - 1) + 24 < size) →
            ∃ P', expand_pages 4096 fuel size P B = Ret P' ∧ P ≤ P' < 2 ^ 20 - 2 ^ 10 ∧
                  size ≤ P' * 4096 - 40 - 64 * (P' - 1) ∧
                  (MIN_BLOCK_SIZE_DEFAULT ≤ size → 4032 * (P' - 1) + 24 < size)).
  { destruct (H (S (S (Z.to_nat P0))) P0 (8 * P0 ⊗ 4)) as (P & HP & HPb & Hsz).
    - lia.
    - left. split; [done|]. apply u32_small. unfold is_u32. lia.
    - lia.
    - lia.
    - unfold MIN_BLOCK_SIZE_DEFAULT. lia.
    - exists P. rewrite DIV_ROUND_UP_ceil, Ret_bind by lia. fold P0.
      rewrite Hd, Ret_bind by lia. split; [done|]. split; [lia|done]. }
  induction fuel as [|fuel IH]; intros P B HP HB Hbound Hfuel; [lia|].
  cbn [expand_pages]. unfold sizeof_kheap_block.
  assert (HBb : 0 ≤ B ≤ 32 * P ∧ 32 * (P - 1) ≤ B) by (destruct HB as [[-> ->]| ->]; lia).
  rewrite (u32_small (P * 4096)), (u32_small (P * 4096 - 40)), (u32_small (B * 2)),
    (u32_small (P * 4096 - 40 - B * 2)) by (unfold is_u32; lia).
  destruct (Z.ltb_spec (P * 4096 - 40 - B * 2) size) as [Hlt|Hge].
  - rewrite <- (u32_small (P * 4096)), Hd, Ret_bind by (unfold is_u32; lia).
    rewrite !u32_small by (unfold is_u32; lia).
    destruct (IH (P + 1) (8 * P * 4)) as (P' & HP' & HPb & Hsz); [lia|right; lia|lia|lia| |].
    { unfold MIN_BLOCK_SIZE_DEFAULT. intros Hmin. destruct HB as [[HP1 ->]| ->]; lia. }
    exists P'. split; [done|]. split; [lia|done].
  - exists P. split; [done|]. split; [lia|]. split; [lia|done].
Qed.

(** * The heap's invariant, over any page mapper *)

Definition sum_free (bs : list kheap_block) : Z := foldr (λ b a, free_sections b + a) 0 bs.

(** Page numbers of a block. *)
Definition block_page (b : kheap_block) (p : Z) : Prop :=
  block_start b / PAGE_SIZE ≤ p < block_end b / PAGE_SIZE.

Definition disjoint_blocks (b c : kheap_block) : Prop :=
  block_end b ≤ block_start c ∨ block_end c ≤ block_start b.

Section heap.
Context {S : Type} (ki : kpaging_interface S) (sinv : S → Prop) (mapped : S → Z → option Z)
  `{Hmapper : !PageMapper ki sinv mapped}.

Record heap_inv (st : heap_state S) : Prop := HeapInv {
  hi_asa : asa_inv (hs_asa st);
  hi_sys : sinv (hs_sys st);
  hi_section : default_section_size (hs_heap st) = SECTION_SIZE_DEFAULT;
  hi_min : min_block_size (hs_heap st) = MIN_BLOCK_SIZE_DEFAULT;
  hi_unmapped : ∀ p, reserved_pages ≤ p < n_kernel_pages →
    bit (kasa_pages (hs_asa st)) p = false → mapped (hs_sys st) p = None;
  hi_blocks : Forall block_ok (first (hs_heap st));
  hi_pages : ∀ b p, b ∈ first (hs_heap st) → block_page b p →
    bit (kasa_pages (hs_asa st)) p = true ∧ mapped (hs_sys st) p ≠ None;
  hi_disjoint : ForallOrdPairs disjoint_blocks (first (hs_heap st));
  hi_total : total_free_sections (hs_heap st) = u32 (sum_free (first (hs_heap st)))
}.

(** ** Mapping a run of pages *)

Lemma page_addr f i :
  0 ≤ f → 0 ≤ i → f + i < 2 ^ 20 → f * PAGE_SIZE ⊕ i ⊗ PAGE_SIZE = (f + i) * PAGE_SIZE.
Proof.
  intros Hf Hi Hs. unfold PAGE_SIZE. rewrite !u32_small; unfold is_u32; try lia.
  rewrite u32_small; unfold is_u32; lia.
Qed.

(** The pages of [f, f + P) that are mapped are those below [f + i]. *)
Definition mapped_upto (s s' : S) (f P i : Z) : Prop :=
  sinv s' ∧ (∀ p, client_page p → p < f ∨ f + P ≤ p → mapped s' p = mapped s p) ∧
  (∀ p, f ≤ p < f + i → mapped s' p ≠ None) ∧ (∀ p, f + i ≤ p < f + P → mapped s' p = None).

Lemma kernel_client p : reserved_pages ≤ p < n_kernel_pages → client_page p.
Proof. unfold client_page. fold reserved_pages. change n_kernel_pages with 262143. lia. Qed.

Lemma run_client f P p :
  reserved_pages ≤ f → f + P ≤ n_kernel_pages → f ≤ p < f + P → client_page p.
Proof.
  unfold client_page. fold reserved_pages. change n_kernel_pages with 262143. lia.
Qed.

(** One page more, and one page less. *)
Lemma map_page_step f P i s0 s :
  mapped_upto s0 s f P i → 0 ≤ i < P → reserved_pages ≤ f → f + P ≤ n_kernel_pages →
  wp (kpage_allocate ki ((f + i) * PAGE_SIZE) (Z.lor KPAGE_PRESENT KPAGE_RW) s) (λ '(ret, s'),
    (ret = K_SUCCESS ∧ mapped_upto s0 s' f P (i + 1)) ∨ (ret = K_OOM ∧ mapped_upto s0 s' f P i)).
Proof.
  intros (Hs & Hout & Hin & Hrest) Hi Hf Hend. pose proof (run_client f P) as Hcl.
  eapply wp_mono; [apply mapper_allocate; [done|apply Hcl; lia|apply Hrest; lia|by split]|].
  intros [ret s2] (Hs2 & Hother & Hres).
  assert (Hout2 : ∀ p, client_page p → p < f ∨ f + P ≤ p → mapped s2 p = mapped s0 p).
  { intros p Hp Hor. rewrite Hother; [by apply Hout|done|lia]. }
  assert (Hin2 : ∀ p, f ≤ p < f + i → mapped s2 p ≠ None).
  { intros p Hp. rewrite Hother; [by apply Hin|apply Hcl; lia|lia]. }
  assert (Hrest2 : ∀ p, f + i + 1 ≤ p < f + P → mapped s2 p = None).
  { intros p Hp. rewrite Hother; [apply Hrest; lia|apply Hcl; lia|lia]. }
  destruct Hres as [(-> & a & Ha & _)|(-> & Ha)]; [left|right]; (split; [done|]); split_and!; try done.
  - intros p Hp. destruct (decide (p = f + i)) as [->|]; [congruence|apply Hin2; lia].
  - intros p Hp. apply Hrest2. lia.
  - intros p Hp. destruct (decide (p = f + i)) as [->|]; [done|apply Hrest2; lia].
Qed.

Lemma unmap_page_step f P i s0 s :
  mapped_upto s0 s f P (i + 1) → 0 ≤ i < P → reserved_pages ≤ f → f + P ≤ n_kernel_pages →
  ∃ a, mapped s (f + i) = Some a ∧
  wp (kpage_free ki ((f + i) * PAGE_SIZE) s) (λ '(_, s'), mapped_upto s0 s' f P i).
Proof.
  intros (Hs & Hout & Hin & Hrest) Hi Hf Hend. pose proof (run_client f P) as Hcl.
  destruct (mapped s (f + i)) as [a|] eqn:Ha; [|by destruct (Hin (f + i)); [lia|]].
  exists a. split; [done|].
  eapply wp_mono; [apply (mapper_free (f + i) a); [done|apply Hcl; lia|done]|].
  intros [ret s2] (_ & Hs2 & Hnone & Hother). split_and!.
  - done.
  - intros p Hp Hor. rewrite Hother; [by apply Hout|done|lia].
  - intros p Hp. rewrite Hother; [apply Hin; lia|apply Hcl; lia|lia].
  - intros p Hp. destruct (decide (p = f + i)) as [->|]; [done|].
    rewrite Hother; [apply Hrest; lia|apply Hcl; lia|lia].
Qed.

Lemma run_pages f P : reserved_pages ≤ f → f + P ≤ n_kernel_pages → 0 ≤ f ∧ f + P < 2 ^ 20.
Proof. change n_kernel_pages with 262143. change reserved_pages with 380. lia. Qed.

Lemma mapped_none s f P :
  sinv s → (∀ p, f ≤ p < f + P → mapped s p = None) → mapped_upto s s f P 0.
Proof. intros Hs Hun. split_and!; [done|done|lia|]. intros p Hp. apply Hun. lia. Qed.

Lemma map_pages_spec f P s :
  sinv s → 1 ≤ P → reserved_pages ≤ f → f + P ≤ n_kernel_pages →
  (∀ p, f ≤ p < f + P → mapped s p = None) →
  wp (map_pages ki PAGE_SIZE (f * PAGE_SIZE) P s) (λ r,
    match r with
    | Continue s' => mapped_upto s s' f P P
    | Return (i, s') => 0 ≤ i < P ∧ mapped_upto s s' f P i
    end).
Proof.
  intros Hs HP Hf Hend Hun. unfold map_pages. pose proof (run_pages f P Hf Hend) as Hfp.
  apply (wp_for_return (λ i s', mapped_upto s s' f P i)); [lia|by apply mapped_none| |done].
  intros i s1 Hi Hm. rewrite page_addr by lia. apply wp_bind.
  eapply wp_mono; [by eapply map_page_step|]. by intros [ret s2] [(-> & Hm2)|(-> & Hm2)]; apply wp_ret.
Qed.

Lemma unmap_pages_spec s0 f P i s :
  mapped_upto s0 s f P (Z.of_nat i) → Z.of_nat i ≤ P → reserved_pages ≤ f →
  f + P ≤ n_kernel_pages →
  wp (unmap_pages ki PAGE_SIZE i (f * PAGE_SIZE) s) (λ s', mapped_upto s0 s' f P 0).
Proof.
  intros Hm Hi Hf Hend. pose proof (run_pages f P Hf Hend) as Hfp.
  revert s Hm. induction i as [|i IH]; intros s Hm; simpl; [done|].
  rewrite page_addr by lia. apply wp_bind.
  destruct (unmap_page_step f P (Z.of_nat i) s0 s) as (a & _ & Hwp); [|lia|done|done|].
  { by replace (Z.of_nat i + 1) with (Z.of_nat (Datatypes.S i)) by lia. }
  eapply wp_mono; [exact Hwp|]. intros [ret s2] Hm2. apply IH; [lia|done].
Qed.

(** ** Expansion *)

(** The address space and the mappings change; the heap does not. *)
Lemma heap_inv_same heap asa s asa' s' :
  heap_inv (HeapState heap asa s) → asa_inv asa' → sinv s' →
  (∀ p, reserved_pages ≤ p < n_kernel_pages → bit (kasa_pages asa') p = false →
     mapped s' p = None) →
  (∀ p, reserved_pages ≤ p < n_kernel_pages → bit (kasa_pages asa) p = true →
     bit (kasa_pages asa') p = true ∧ mapped s' p = mapped s p) →
  heap_inv (HeapState heap asa' s').
Proof.
  intros [H1 H2 H3 H4 H5 H6 H7 H8 H9] Ha Hs Hun Hkeep. split; try done. simpl in *.
  intros b p Hb Hp. destruct (H7 b p Hb Hp) as [Hbit Hmap].
  assert (Hr : reserved_pages ≤ p < n_kernel_pages).
  { pose proof (proj1 (Forall_forall _ _) H6 _ Hb) as Hok.
    destruct (bo_start _ Hok) as [Hst _]. pose proof (bo_end _ Hok) as Hend.
    unfold block_page in Hp. change reserved_pages with 380 in *.
    change n_kernel_pages with 262143 in *. unfold PAGE_SIZE in *. div_lia. }
  destruct (Hkeep p Hr Hbit) as [-> ->]. done.
Qed.

(** What [asa_free] really clears: from the first page up to the page number
    that equals the length of the run. *)
Lemma asa_free_spec f P k :
  asa_inv k → reserved_pages ≤ f → 1 ≤ P → f + P ≤ n_kernel_pages →
  ∃ k', asa_free (f * PAGE_SIZE) P k = Ret (K_SUCCESS, k') ∧ asa_inv k' ∧
    ∀ n, 0 ≤ n → bit (kasa_pages k') n = if decide (f ≤ n < P) then false else bit (kasa_pages k) n.
Proof.
  intros Hinv Hf HP Hend. change reserved_pages with 380 in Hf.
  destruct (decide (P ≤ f)) as [?|HPf].
  { exists k. rewrite asa_free_noop; [|apply Hinv|by rewrite Z.div_mul].
    split; [done|]. split; [done|]. intros n Hn. case_decide; [lia|done]. }
  pose proof Hinv as [Hwf Hps Hlen Hres].
  unfold asa_free. rewrite Hps, udiv_pos, Ret_bind, Z.div_mul by done.
  pose proof (clear_range_spec (kasa_pages k) f P Hwf) as Hcl.
  apply wp_inv in Hcl as (b & -> & Hup); [|lia|lia]. rewrite Ret_bind.
  eexists. split; [done|]. destruct Hup as (Hwf' & Hl' & Hbits). split; [|done].
  split; simpl; [done|done|congruence|]. intros n Hn. rewrite Hbits by lia.
  change reserved_pages with 380 in Hn. case_decide; [lia|]. by apply Hres.
Qed.

(** A new block on fresh, mapped pages joins the list. *)
Lemma heap_inv_add heap asa s b total eff :
  heap_inv (HeapState heap asa s) → fresh_block b →
  (∀ p, block_page b p → bit (kasa_pages asa) p = true ∧ mapped s p ≠ None) →
  (∀ c, c ∈ first heap → disjoint_blocks b c) →
  total = total_free_sections heap ⊕ free_sections b →
  heap_inv (HeapState (Kheap (b :: first heap) (default_section_size heap) (min_block_size heap)
                         (kheap_flags heap) eff total) asa s).
Proof.
  intros [H1 H2 H3 H4 H5 H6 H7 H8 H9] Hb Hpages Hdisj ->. split; try done; simpl in *.
  - constructor; [apply Hb|done].
  - intros c p [->|Hc]%elem_of_cons Hp; [by apply Hpages|by eapply H7].
  - constructor; [|done]. by apply Forall_forall.
  - rewrite H9. unfold u32. rewrite Zplus_mod_idemp_l. f_equal. lia.
Qed.

Lemma kheap_expand_spec size st :
  heap_inv st → 1 ≤ size < 2 ^ 31 + 2 ^ 14 →
  wp (kheap_expand ki PAGE_SIZE size st) (λ '(ret, st'), heap_inv st' ∧
    ((ret = K_OOM ∧ hs_heap st' = hs_heap st) ∨
     (ret = K_SUCCESS ∧ (∃ b, first (hs_heap st') = b :: first (hs_heap st) ∧ fresh_block b ∧
         pages_for PAGE_SIZE size = Ret (block_size b / PAGE_SIZE) ∧
         size ≤ block_size b - 40 - 64 * (block_size b / PAGE_SIZE - 1)) ∧
      (asa_free_pages (hs_asa st') < asa_free_pages (hs_asa st))))).
Proof.
  intros Hinv Hsize. unfold kheap_expand.
  destruct (expand_pages_spec size Hsize) as (P & HP & HPb & Husable & _).
  rewrite HP, Ret_bind. apply wp_bind.
  eapply wp_mono; [apply asa_alloc_spec; [apply Hinv|lia]|].
  destruct st as [heap asa0 s0]; simpl. pose proof Hinv as [H1 H2 H3 H4 H5 H6 H7 H8 H9].
  simpl in *. intros [location asa] [Hasa [(f & -> & Hf & (Hf0 & Hfn & Hclear) & _ & Hup & Hcount)|(-> & -> & _)]].
  2:{ simpl. split; [done|]. by left. }
  rewrite (asa_length _ H1) in Hfn. pose proof Hup as (_ & _ & Hbits).
  assert (Hrp : 0 ≤ reserved_pages) by done.
  assert (Hr0 : 0 < f * PAGE_SIZE).
  { change reserved_pages with 380 in Hf. unfold PAGE_SIZE. lia. }
  destruct (Z.eqb_spec (f * PAGE_SIZE) 0) as [?|_]; [lia|]. apply wp_bind.
  assert (Hunm : ∀ p, f ≤ p < f + P → mapped s0 p = None).
  { intros p Hp. apply H5; [lia|]. by apply Hclear. }
  eapply wp_mono; [apply (map_pages_spec f P s0); [done|lia|done|done|done]|]. intros [s1|[i s1]].
  - (* mapped *)
    intros (Hs1 & Hout & Hin & _). rewrite H3. rewrite u32_small by (unfold is_u32, PAGE_SIZE; lia).
    destruct (add_block_spec heap f P) as (b & -> & Hfresh & Hst & Hsz); [lia|done|done|].
    simpl. assert (Hbp : ∀ p, block_page b p ↔ f ≤ p < f + P).
    { intros p. unfold block_page, block_end. rewrite Hst, Hsz, <- Z.mul_add_distr_r.
      by rewrite !Z.div_mul. }
    assert (Hinv1 : heap_inv (HeapState heap asa s1)).
    { eapply heap_inv_same; [done|done|done|..].
      - intros p Hp. rewrite Hbits by lia. case_decide; [done|]. intros Hb0.
        rewrite Hout; [by apply H5|by apply kernel_client|lia].
      - intros p Hp Hb0. rewrite Hbits by lia. case_decide as Hd.
        + rewrite Hclear in Hb0; [done|lia].
        + split; [done|].
          apply Hout; [by apply kernel_client|lia]. }
    split.
    + eapply heap_inv_add; [done|done| | |done].
      * intros p Hp%Hbp. split; [|apply Hin; lia]. rewrite Hbits by lia. case_decide; [done|lia].
      * intros c Hc. unfold disjoint_blocks.
        pose proof (proj1 (Forall_forall _ _) H6 c Hc) as Hok.
        destruct (decide (block_end b ≤ block_start c)); [by left|].
        destruct (decide (block_end c ≤ block_start b)); [by right|]. exfalso.
        destruct (bo_start _ Hok) as [_ Hal]. destruct (bo_size _ Hok) as [Hcs Hcm].
        pose proof (H7 c (Z.max f (block_start c / PAGE_SIZE)) Hc) as Hbad.
        assert (Hin' : block_page c (Z.max f (block_start c / PAGE_SIZE)) ∧
                  f ≤ Z.max f (block_start c / PAGE_SIZE) < f + P).
        { unfold block_page, block_end in *. rewrite Hst, Hsz in *. unfold PAGE_SIZE in *. div_lia. }
        destruct Hin' as [Hin1 Hin2]. destruct (Hbad Hin1) as [Hbad' _].
        rewrite Hclear in Hbad'; [done|lia].
    + right. split; [done|]. split; [|lia]. exists b. split; [done|]. split; [done|].
      rewrite Hsz, Z.div_mul by done. split; [done|lia].
  - (* out of frames *)
    intros (Hi & Hm). destruct (asa_free_spec f P asa Hasa) as (asa' & -> & Hasa' & Hbits'); [lia..|].
    rewrite Ret_bind. apply wp_bind.
    eapply wp_mono; [apply (unmap_pages_spec s0 f P); [by rewrite Z2Nat.id by lia|lia|done|done]|].
    intros s' (Hs' & Hout & _ & Hnone). apply wp_ret. split; [|by left].
    eapply heap_inv_same; [done|done|done|..].
    + intros p Hp Hb0. destruct (decide (f ≤ p < f + P)); [apply Hnone; lia|].
      rewrite Hout; [|by apply kernel_client|lia].
      apply H5; [done|]. rewrite Hbits' in Hb0 by lia. case_decide; [lia|].
      rewrite Hbits in Hb0 by lia. case_decide; [lia|done].
    + intros p Hp Hb0. destruct (decide (f ≤ p < f + P)) as [Hd|Hd].
      { rewrite Hclear in Hb0; [done|lia]. }
      split; [|apply Hout; [by apply kernel_client|lia]].
      rewrite Hbits' by lia. case_decide; [lia|]. rewrite Hbits by lia. by case_decide.
Qed.

(** ** Allocation *)

(** One block of the list has given up sections for the request. *)
Definition allocated (size align : Z) (manual_align : bool) (bs bs' : list kheap_block)
    (addr n : Z) : Prop :=
  ∃ l1 b b' l2 f, bs = l1 ++ b :: l2 ∧ bs' = l1 ++ b' :: l2 ∧ n = ceil_div size 16 ∧
    takes_sections b b' f n ∧ block_ok b' ∧ address_ok b align manual_align f addr.

(** New blocks, still empty, in front of the list. *)
Definition grown (bs bs' : list kheap_block) : Prop :=
  ∃ new, bs' = new ++ bs ∧ Forall fresh_block new.

Lemma grown_refl bs : grown bs bs.
Proof. by exists []. Qed.

Lemma grown_cons bs bs' b : fresh_block b → grown (b :: bs) bs' → grown bs bs'.
Proof.
  intros Hb (new & -> & Hnew). exists (new ++ [b]). rewrite <- app_assoc. split; [done|].
  apply Forall_app. split; [done|]. by constructor.
Qed.

Lemma malloc_in_blocks_spec size align manual bs :
  Forall block_ok bs → request size align manual →
  wp (malloc_in_blocks size align manual bs) (λ r,
    match r with
    | Some (addr, bs', n) => allocated size align manual bs bs' addr n
    | None => True
    end).
Proof.
  intros Hbs Hreq. induction Hbs as [|b bs Hb Hbs IH]; simpl; [done|]. apply wp_bind.
  eapply wp_mono; [by apply malloc_in_block_spec|]. intros [[[addr b'] n]|] H.
  - destruct H as (f & Hn & Ht & Hok & Ha). simpl. by exists [], b, b', bs, f.
  - apply wp_bind. eapply wp_mono; [apply IH|]. intros [[[addr bs'] n]|]; [|done].
    intros (l1 & c & c' & l2 & f & -> & -> & H'). by exists (b :: l1), c, c', l2, f.
Qed.

Lemma sum_free_app l1 l2 : sum_free (l1 ++ l2) = sum_free l1 + sum_free l2.
Proof. induction l1 as [|b l1 IH]; simpl; lia. Qed.

Lemma elem_of_middle {A} (l1 l2 : list A) x : x ∈ l1 ++ x :: l2.
Proof. apply elem_of_app. right. by left. Qed.

Lemma elem_of_replace {A} (c x y : A) l1 l2 : c ∈ l1 ++ y :: l2 → c = y ∨ c ∈ l1 ++ x :: l2.
Proof. rewrite !elem_of_app, !elem_of_cons. tauto. Qed.

Lemma ForallOrdPairs_replace {A} (R : A → A → Prop) l1 x y l2 :
  (∀ z, R z x → R z y) → (∀ z, R x z → R y z) →
  ForallOrdPairs R (l1 ++ x :: l2) → ForallOrdPairs R (l1 ++ y :: l2).
Proof.
  intros Hl Hr. induction l1 as [|z l1 IH]; simpl; intros H; inversion H as [|? ? H1 H2]; subst.
  - constructor; [|done]. by eapply Forall_impl.
  - constructor; [|by apply IH]. apply Forall_app in H1 as [H1 H1'].
    inversion H1'; subst. apply Forall_app. split; [done|]. constructor; [by apply Hl|done].
Qed.

(** Only the state of one block's sections changes. *)
Lemma heap_inv_replace heap asa s l1 b b' l2 total :
  heap_inv (HeapState heap asa s) → first heap = l1 ++ b :: l2 → same_frame b b' →
  block_ok b' → total = u32 (total_free_sections heap + (free_sections b' - free_sections b)) →
  heap_inv (HeapState (Kheap (l1 ++ b' :: l2) (default_section_size heap) (min_block_size heap)
                         (kheap_flags heap) (effective_size heap) total) asa s).
Proof.
  intros [H1 H2 H3 H4 H5 H6 H7 H8 H9] Hf [Hst Hsz] Hok ->. simpl in *. rewrite Hf in *.
  assert (Hend : block_end b' = block_end b) by (unfold block_end; congruence).
  split; try done; simpl.
  - apply Forall_app in H6 as [H6 H6']. inversion H6'; subst.
    apply Forall_app. split; [done|]. by constructor.
  - intros c p Hc Hp. apply (elem_of_replace _ b) in Hc as [->|Hc]; [|by apply (H7 c)].
    apply (H7 b); [apply elem_of_middle|].
    unfold block_page in *. by rewrite <- Hst, <- Hend.
  - eapply ForallOrdPairs_replace; [..|done]; unfold disjoint_blocks; intros c;
      by rewrite Hst, Hend.
  - rewrite H9, !sum_free_app. simpl. unfold u32. rewrite Zplus_mod_idemp_l. f_equal. lia.
Qed.

Lemma MAX_request size align manual :
  request size align manual → 1 ≤ MAX MIN_BLOCK_SIZE_DEFAULT size < 2 ^ 31 + 2 ^ 14.
Proof. intros [Hs _]. rewrite MAX_max. unfold MIN_BLOCK_SIZE_DEFAULT. lia. Qed.

(** The outer loop returns: it either finds sections, after zero or more
    expansions, or an expansion fails. *)
Lemma malloc_loop_spec fuel size align manual st :
  heap_inv st → request size align manual →
  (Z.to_nat (asa_free_pages (hs_asa st)) < fuel)%nat →
  wp (malloc_loop ki PAGE_SIZE fuel size align manual st) (λ '(ret, addr, st'),
    heap_inv st' ∧
    ∃ bs, grown (first (hs_heap st)) bs ∧
      ((ret = K_SUCCESS ∧ ∃ n, allocated size align manual bs (first (hs_heap st')) addr n)
       ∨ (ret = K_OOM ∧ first (hs_heap st') = bs))).
Proof.
  intros Hinv Hreq. revert st Hinv. induction fuel as [|fuel IH]; intros st Hinv Hfuel; [lia|].
  cbn [malloc_loop]. apply wp_bind.
  eapply wp_mono; [apply malloc_in_blocks_spec; [apply Hinv|done]|].
  intros [[[addr bs'] n]|] Hres.
  - apply wp_ret. split.
    + destruct Hres as (l1 & b & b' & l2 & f & Hf & -> & -> & Ht & Hok & _).
      destruct st as [heap asa s]. eapply heap_inv_replace; [done|done|apply Ht|done|].
      simpl. rewrite (ts_free _ _ _ _ Ht). f_equal. lia.
    + exists (first (hs_heap st)). split; [apply grown_refl|]. left. split; [done|]. by exists n.
  - rewrite (hi_min _ Hinv). apply wp_bind. eapply wp_mono.
    { apply kheap_expand_spec; [done|by eapply MAX_request]. }
    intros [ret st'] (Hinv' & [(-> & Hsame)|(-> & (b & Hb & Hfresh & _) & Hless)]); simpl.
    + split; [done|]. exists (first (hs_heap st)). split; [apply grown_refl|]. right. by rewrite Hsame.
    + pose proof (count_clear_nonneg (kasa_pages (hs_asa st'))) as Hnn.
      unfold asa_free_pages in *.
      eapply wp_mono; [apply IH; [done|lia]|].
      intros [[ret addr] st''] (Hinv'' & bs & Hg & Hres'). split; [done|]. exists bs.
      rewrite Hb in Hg. split; [by eapply grown_cons|done].
Qed.

(** A request that fits a fresh block succeeds right after an expansion. *)
Lemma malloc_loop_fresh fuel size align manual st b bs :
  first (hs_heap st) = b :: bs → fresh_block b → request size align manual → size ≤ usable b →
  ∃ addr st', malloc_loop ki PAGE_SIZE (Datatypes.S fuel) size align manual st = Ret (K_SUCCESS, addr, st').
Proof.
  intros Hf Hb Hreq Hfit. cbn [malloc_loop]. rewrite Hf. cbn [malloc_in_blocks].
  destruct (malloc_in_fresh_block size align manual b Hb Hreq Hfit) as (addr & b' & -> & _).
  rewrite Ret_bind. eauto.
Qed.
End heap.
