(* ===== verification/KheapProps.v ===== *)
(** The kernel heap: its main theorems. *)
From stdpp Require Import base numbers list.
From Stdlib Require Import ZArith Lia.
From S2P Require Import Prelude Kernel Bitset Alloc Asa Machine KPaging Kheap KheapBlock.
From S2P Require Import KheapSpec.

(** Byte [a] lies in a section that is in use. *)
Definition byte_used (heap : kheap) (a : Z) : Prop :=
  ∃ b, b ∈ first heap ∧ block_start b ≤ a < block_end b ∧
       bit (used_sections b) ((a - block_start b) / 16) = true.

(** An allocation of the heap: sections [lo, hi) of a block, past its metadata. *)
Definition heap_live (heap : kheap) (b : kheap_block) (lo hi : Z) : Prop :=
  b ∈ first heap ∧ live b lo hi ∧ meta_sections b ≤ lo.

(** Blocks with the same sections in the same state; the search hint may
    differ. *)
Definition block_equiv (b c : kheap_block) : Prop :=
  same_frame b c ∧ used_sections c ≡ used_sections b ∧ delimiters c ≡ delimiters b ∧
  free_sections c = free_sections b.

Lemma block_equiv_refl b : block_equiv b b.
Proof. done. Qed.

Section heap.
Context {S : Type} (ki : kpaging_interface S) (sinv : S → Prop) (mapped : S → Z → option Z)
  `{Hmapper : !PageMapper ki sinv mapped}.

(** ** [kheap_malloc] *)

(** The alignment decision: the request that reaches the search. *)
Definition manual (align : Z) : bool := (0 <? align) && negb (SECTION_SIZE_DEFAULT =? align).
Definition padded (size align : Z) : Z := if manual align then size + align else size.

Lemma padded_request size align :
  1 ≤ size < 2 ^ 31 → 0 ≤ align ≤ PAGE_SIZE → request (padded size align) align (manual align).
Proof.
  intros Hs Ha. unfold request, padded, PAGE_SIZE in *. split_and!; try done.
  - destruct (manual align); lia.
  - destruct (manual align); lia.
  - lia.
  - lia.
  - unfold manual. intros [H%Z.ltb_lt _]%andb_true_iff. lia.
Qed.

Lemma malloc_fuel_enough (st : heap_state S) :
  (Z.to_nat (asa_free_pages (hs_asa st)) < malloc_fuel st)%nat.
Proof.
  unfold malloc_fuel, asa_free_pages.
  destruct (decide (0 ≤ bs_length (kasa_pages (hs_asa st)))) as [Hl|Hl].
  - pose proof (count_clear_le _ Hl). lia.
  - unfold count_clear, clear_in, seqZ.
    replace (Z.to_nat (bs_length (kasa_pages (hs_asa st)) - 0)) with O by lia. simpl. lia.
Qed.

Lemma malloc_fuel_pos (st : heap_state S) : (0 < malloc_fuel st)%nat.
Proof. unfold malloc_fuel. lia. Qed.

Lemma kheap_malloc_run size align st :
  heap_inv sinv mapped st → 1 ≤ size < 2 ^ 31 → 0 ≤ align ≤ PAGE_SIZE →
  wp (kheap_malloc ki PAGE_SIZE size align st) (λ '(ret, addr, st'),
    heap_inv sinv mapped st' ∧ ∃ bs, grown (first (hs_heap st)) bs ∧
      ((ret = K_SUCCESS ∧ ∃ n, allocated (padded size align) align (manual align) bs
                                 (first (hs_heap st')) addr n)
       ∨ (ret = K_OOM ∧ first (hs_heap st') = bs))).
Proof.
  intros Hinv Hs Ha. pose proof (padded_request size align Hs Ha) as Hreq.
  unfold kheap_malloc. rewrite (hi_section _ _ _ Hinv), (hi_min _ _ _ Hinv).
  fold (manual align).
  replace (if manual align then size ⊕ align else size) with (padded size align).
  2:{ unfold padded, PAGE_SIZE in *. destruct (manual align); [|done].
      rewrite u32_small; [done|unfold is_u32; lia]. }
  destruct (first (hs_heap st)) as [|b bs] eqn:Hf.
  - apply wp_bind. eapply wp_mono; [by eapply kheap_expand_spec; [| |eapply MAX_request]|].
    intros [ret st'] (Hinv' & [(-> & Hsame)|(-> & (b & Hb & Hfresh & _) & _)]).
    + simpl. split; [done|]. exists []. split; [apply grown_refl|]. right. split; [done|]. congruence.
    + change (K_FAILED K_SUCCESS) with false. cbv iota.
      eapply wp_mono; [apply (malloc_loop_spec ki sinv mapped); [done|exact Hreq|apply malloc_fuel_enough]|].
      intros [[ret addr] st''] (Hinv'' & bs & Hg & Hres). split; [done|]. exists bs.
      rewrite Hb, Hf in Hg. split; [by eapply grown_cons|done].
  - rewrite <- Hf. apply (malloc_loop_spec ki sinv mapped); [done|exact Hreq|apply malloc_fuel_enough].
Qed.

(** Where the address of a request lies in its sections. *)
Lemma address_bounds b f size align addr :
  1 ≤ size < 2 ^ 31 → 0 ≤ align ≤ PAGE_SIZE → block_start b mod PAGE_SIZE = 0 →
  address_ok b align (manual align) f addr →
  block_start b + 16 * f ≤ addr ∧ addr + size ≤ block_start b + 16 * (f + ceil_div (padded size align) 16) ∧
  (0 < align → addr mod align = 0).
Proof.
  intros Hs Hal Hal0 Ha. destruct (ceil16 (padded size align)) as (_ & _ & Hc).
  { unfold padded, PAGE_SIZE in *. destruct (manual align); lia. }
  unfold address_ok, padded, PAGE_SIZE in *. destruct (manual align) eqn:Hman.
  - destruct Ha as [Ha Hmod]. split_and!; [lia|lia|done].
  - subst addr. split_and!; [lia|lia|]. intros Hpos. unfold manual in Hman.
    apply andb_false_iff in Hman as [H%Z.ltb_ge|H]; [lia|].
    apply negb_false_iff, Z.eqb_eq in H. unfold SECTION_SIZE_DEFAULT in H. subst align. div_lia.
Qed.

(** The bytes an allocation may hand out. *)
Lemma allocated_bytes bs bs' size align addr n :
  Forall block_ok bs → 1 ≤ size < 2 ^ 31 → 0 ≤ align ≤ PAGE_SIZE →
  allocated (padded size align) align (manual align) bs bs' addr n →
  (0 < align → addr mod align = 0) ∧ 0 < addr ∧ addr + size ≤ 2 ^ 30 ∧
  ∃ l1 b b' l2 f, bs = l1 ++ b :: l2 ∧ bs' = l1 ++ b' :: l2 ∧ block_ok b ∧
    takes_sections b b' f n ∧
    (∀ a, addr ≤ a < addr + size →
       block_start b ≤ a < block_end b ∧ f ≤ (a - block_start b) / 16 < f + n).
Proof.
  intros Hbs Hs Hal (l1 & b & b' & l2 & f & -> & -> & -> & Ht & Hok & Ha).
  apply Forall_app in Hbs as [_ Hbs]. inversion Hbs as [|? ? Hb _]; subst.
  pose proof (block_bounds b Hb) as (Hns & Hbsz & HP & Hst & Hend & Hm & _).
  pose proof (ts_range _ _ _ _ Ht) as (Hf & Hn1 & Hfn).
  pose proof (address_bounds b f size align addr Hs Hal (proj2 (bo_start _ Hb)) Ha) as Hbounds.
  set (n := ceil_div (padded size align) 16) in *.
  unfold block_end in *. split; [apply Hbounds|]. split; [lia|]. split; [lia|].
  exists l1, b, b', l2, f. split_and!; [done|done|done|done|].
  intros a Hin. split; [lia|]. clear - Hin Hbounds. div_lia.
Qed.

(** Changes of the list of blocks that only mark more sections. *)
Lemma byte_used_grown h h' a :
  grown (first h) (first h') → byte_used h a → byte_used h' a.
Proof.
  intros (new & Hn & _) (b & Hb & Ha). exists b. rewrite Hn. split; [|done].
  apply elem_of_app. by right.
Qed.

(** Blocks that overlap are the same block. *)
Lemma overlap_same bs b c a :
  ForallOrdPairs disjoint_blocks bs → b ∈ bs → c ∈ bs →
  block_start b ≤ a < block_end b → block_start c ≤ a < block_end c → b = c.
Proof.
  induction 1 as [|x l Hx Hl IH]; [by intros ?%elem_of_nil|].
  intros [->|Hb]%elem_of_cons [->|Hc]%elem_of_cons Ha Ha'; [done|..].
  - pose proof (proj1 (Forall_forall _ _) Hx c Hc) as [|]; lia.
  - pose proof (proj1 (Forall_forall _ _) Hx b Hb) as [|]; lia.
  - by apply IH.
Qed.

(** The states a successful call leads to, in terms of bytes. *)
Lemma kheap_malloc_bytes size align st addr st' bs n :
  heap_inv sinv mapped st → heap_inv sinv mapped st' → grown (first (hs_heap st)) bs →
  Forall block_ok bs → 1 ≤ size < 2 ^ 31 → 0 ≤ align ≤ PAGE_SIZE →
  allocated (padded size align) align (manual align) bs (first (hs_heap st')) addr n →
  (0 < align → addr mod align = 0) ∧ 0 < addr ∧ addr + size ≤ 2 ^ 30 ∧
  (∀ a, byte_used (hs_heap st) a → byte_used (hs_heap st') a) ∧
  (∀ a, addr ≤ a < addr + size → ¬ byte_used (hs_heap st) a ∧ byte_used (hs_heap st') a ∧
     client_page (a / PAGE_SIZE) ∧ mapped (hs_sys st') (a / PAGE_SIZE) ≠ None).
Proof.
  intros Hinv Hinv' (new & -> & Hnew) Hbs Hs Hal Halloc.
  destruct (allocated_bytes _ _ _ _ _ _ Hbs Hs Hal Halloc)
    as (H1 & H2 & H3 & l1 & b & b' & l2 & f & Hl & Hl' & Hb & Ht & Hin).
  pose proof (ts_used _ _ _ _ Ht) as (_ & _ & Hbits).
  pose proof (ts_frame _ _ _ _ Ht) as [Hst Hsz].
  assert (Hend : block_end b' = block_end b) by (unfold block_end; congruence).
  pose proof (ts_range _ _ _ _ Ht) as (Hf & _ & _).
  pose proof (block_bounds b Hb) as (_ & _ & HP & _ & _ & Hm & _).
  assert (Hdis : ForallOrdPairs disjoint_blocks (l1 ++ b :: l2)).
  { pose proof (hi_disjoint _ _ _ Hinv') as Hd. rewrite Hl' in Hd.
    eapply ForallOrdPairs_replace; [..|exact Hd]; unfold disjoint_blocks; intros c;
      by rewrite Hst, Hend. }
  split; [done|]. split; [done|]. split; [done|]. split.
  - intros a (c & Hc & Hca & Hcb). assert (Hc' : c ∈ l1 ++ b :: l2).
    { rewrite <- Hl. apply elem_of_app. by right. }
    unfold byte_used. rewrite Hl'. apply (elem_of_replace _ b') in Hc' as [->|Hc'].
    + exists b'. split; [apply elem_of_middle|]. rewrite Hst, Hend. split; [done|].
      rewrite Hbits by div_lia. by case_decide.
    + by exists c.
  - intros a Ha. destruct (Hin a Ha) as [Hab Hsec]. split; [|split; [|split]].
    + intros (c & Hc & Hca & Hcb).
      assert (Hc' : c ∈ l1 ++ b :: l2).
      { rewrite <- Hl. apply elem_of_app. by right. }
      assert (c = b) as ->.
      { apply (overlap_same _ _ _ a Hdis); [done|apply elem_of_middle|done|done]. }
      rewrite (ts_clear _ _ _ _ Ht) in Hcb; [done|lia].
    + exists b'. rewrite Hl'. split; [apply elem_of_middle|]. rewrite Hst, Hend. split; [done|].
      rewrite Hbits by lia. case_decide; [done|lia].
    + apply kernel_client. clear - Hab Hb.
      destruct (bo_start _ Hb) as [Hlow _]. pose proof (bo_end _ Hb) as Hhigh.
      change reserved_pages with 380 in *. change n_kernel_pages with 262143 in *.
      unfold PAGE_SIZE in *. div_lia.
    + eapply (hi_pages _ _ _ Hinv' b'); [rewrite Hl'; apply elem_of_middle|].
      unfold block_page. rewrite Hst, Hend. clear - Hab Hb.
      destruct (bo_start _ Hb) as [_ Hal]. destruct (bo_size _ Hb) as [_ Hsz].
      unfold block_end in *. unfold PAGE_SIZE in *. div_lia.
Qed.

Lemma grown_ok bs bs' : Forall block_ok bs → grown bs bs' → Forall block_ok bs'.
Proof.
  intros Hbs (new & -> & Hnew). apply Forall_app. split; [|done].
  eapply Forall_impl; [exact Hnew|]. by intros b [].
Qed.

(** What a call that returns an address or an error has done. *)
Lemma kheap_malloc_outcome size align st :
  heap_inv sinv mapped st → 1 ≤ size < 2 ^ 31 → 0 ≤ align ≤ PAGE_SIZE →
  wp (kheap_malloc ki PAGE_SIZE size align st) (λ '(ret, addr, st'),
    heap_inv sinv mapped st' ∧
    (∀ a, byte_used (hs_heap st) a → byte_used (hs_heap st') a) ∧
    ((ret = K_SUCCESS ∧ (0 < align → addr mod align = 0) ∧ 0 < addr ∧ addr + size ≤ 2 ^ 30 ∧
      ∀ a, addr ≤ a < addr + size → ¬ byte_used (hs_heap st) a ∧ byte_used (hs_heap st') a ∧
        client_page (a / PAGE_SIZE) ∧ mapped (hs_sys st') (a / PAGE_SIZE) ≠ None)
     ∨ (ret = K_OOM ∧ grown (first (hs_heap st)) (first (hs_heap st'))))).
Proof.
  intros Hinv Hs Hal. eapply wp_mono; [by apply kheap_malloc_run|].
  intros [[ret addr] st'] (Hinv' & bs & Hg & [(-> & n & Ha)|(-> & <-)]); (split; [done|]).
  - destruct (kheap_malloc_bytes _ _ _ _ _ _ _ Hinv Hinv' Hg
      (grown_ok _ _ (hi_blocks _ _ _ Hinv) Hg) Hs Hal Ha) as (H1 & H2 & H3 & H4 & H5).
    split; [done|]. left. by split_and!.
  - split; [|by right]. intros a. by apply byte_used_grown.
Qed.

(** The sizes for which [kheap_expand] makes blocks without room for them: it
    stops at the least number [P] of pages with [size <= 4032 * P + 24], but the
    sections behind the metadata of such a block hold [4032 * P - 48] bytes. *)
Definition never_fits (size : Z) : bool :=
  (MIN_BLOCK_SIZE_DEFAULT <=? size) && ((size + 47) mod 4032 <? 72).

(** Whether a new block has room for the request it was made for. *)
Lemma new_block_room size b :
  1 ≤ size < 2 ^ 31 + 2 ^ 13 → fresh_block b →
  pages_for PAGE_SIZE (MAX MIN_BLOCK_SIZE_DEFAULT size) = Ret (block_size b / PAGE_SIZE) →
  if never_fits size then usable b < size else size ≤ usable b.
Proof.
  intros Hs Hfresh HP. pose proof (block_bounds b (fb_ok _ Hfresh)) as (Hn & Hsz & HPb & _ & _ & Hm & _).
  rewrite MAX_max in HP.
  destruct (expand_pages_spec (Z.max MIN_BLOCK_SIZE_DEFAULT size)) as (P & HP' & _ & Hup & Hlow);
    [unfold MIN_BLOCK_SIZE_DEFAULT; lia|].
  rewrite HP in HP'. injection HP' as HP'. unfold never_fits, usable, PAGE_SIZE in *.
  assert (Hu : 16 * (n_sections b - meta_sections b) = 4032 * P - 48) by lia. rewrite Hu.
  clear - Hup Hlow. unfold MIN_BLOCK_SIZE_DEFAULT in *.
  specialize (Hlow ltac:(lia)). destruct (Z.leb_spec 0x100000 size); simpl; [|lia].
  destruct (Z.ltb_spec ((size + 47) mod 4032) 72); div_lia.
Qed.

Lemma kheap_malloc_padded size align st :
  heap_inv sinv mapped st → 1 ≤ size < 2 ^ 31 → 0 ≤ align ≤ PAGE_SIZE →
  kheap_malloc ki PAGE_SIZE size align st =
    match first (hs_heap st) with
    | [] =>
        '(ret, st') ← kheap_expand ki PAGE_SIZE (MAX (min_block_size (hs_heap st)) (padded size align)) st;
        if K_FAILED ret then Ret (ret, 0, st')
        else malloc_loop ki PAGE_SIZE (malloc_fuel st') (padded size align) align (manual align) st'
    | _ :: _ => malloc_loop ki PAGE_SIZE (malloc_fuel st) (padded size align) align (manual align) st
    end.
Proof.
  intros Hinv Hs Hal. unfold kheap_malloc. rewrite (hi_section _ _ _ Hinv). fold (manual align).
  replace (if manual align then size ⊕ align else size) with (padded size align);
    [by destruct (first (hs_heap st))|].
  unfold padded, PAGE_SIZE in *. destruct (manual align); [|done]. rewrite u32_small; [done|unfold is_u32; lia].
Qed.

(** A request whose expansion has room for it fails only if the expansion
    fails, and then nothing has been added. *)
Lemma kheap_malloc_fitting size align st :
  heap_inv sinv mapped st → 1 ≤ size < 2 ^ 31 → 0 ≤ align ≤ PAGE_SIZE →
  never_fits (padded size align) = false →
  wp (kheap_malloc ki PAGE_SIZE size align st) (λ '(ret, addr, st'),
    ret = K_SUCCESS ∨ (ret = K_OOM ∧ hs_heap st' = hs_heap st)).
Proof.
  intros Hinv Hs Hal Hfit. pose proof (padded_request size align Hs Hal) as Hreq.
  assert (Hexp : wp (kheap_expand ki PAGE_SIZE (MAX MIN_BLOCK_SIZE_DEFAULT (padded size align)) st)
    (λ '(ret, st'), (ret = K_OOM ∧ hs_heap st' = hs_heap st) ∨
      (ret = K_SUCCESS ∧ asa_free_pages (hs_asa st') < asa_free_pages (hs_asa st) ∧
       ∀ fuel, (0 < fuel)%nat → ∃ addr st'', malloc_loop ki PAGE_SIZE fuel (padded size align)
         align (manual align) st' = Ret (K_SUCCESS, addr, st'')))).
  { eapply wp_mono; [by eapply kheap_expand_spec; [| |eapply MAX_request]|].
    intros [ret st'] (_ & [H|(-> & (b & Hb & Hfresh & HP & _) & Hless)]); [by left|].
    right. split; [done|]. split; [done|]. intros [|fuel] Hfuel; [lia|].
    eapply malloc_loop_fresh; [done|done|done|].
    pose proof (new_block_room _ b (proj1 Hreq) Hfresh HP) as Hroom. by rewrite Hfit in Hroom. }
  rewrite kheap_malloc_padded, (hi_min _ _ _ Hinv) by done.
  destruct (first (hs_heap st)) as [|b bs] eqn:Hf.
  - apply wp_bind. eapply wp_mono; [exact Hexp|].
    intros [ret st'] [(-> & Hsame)|(-> & _ & Hok)]; [by right|].
    change (K_FAILED K_SUCCESS) with false. cbv iota.
    destruct (Hok (malloc_fuel st')) as (addr & st'' & ->); [apply malloc_fuel_pos|by left].
  - unfold malloc_fuel. cbn [malloc_loop]. apply wp_bind. rewrite Hf.
    eapply wp_mono; [apply malloc_in_blocks_spec; [rewrite <- Hf; apply Hinv|done]|].
    intros [[[addr bs'] n]|] _; [by left|]. rewrite (hi_min _ _ _ Hinv).
    apply wp_bind. eapply wp_mono; [exact Hexp|].
    intros [ret st'] [(-> & Hsame)|(-> & Hless & Hok)]; [by right|].
    change (K_FAILED K_SUCCESS) with false. cbv iota.
    destruct (Hok (Z.to_nat (bs_length (kasa_pages (hs_asa st))))) as (addr & st'' & ->); [|by left].
    rewrite (asa_length _ (hi_asa _ _ _ Hinv)). change n_kernel_pages with 262143. lia.
Qed.

(** ** [kheap_free] *)

(** The walk over the list stops at the block that holds the address. *)
Lemma free_in_blocks_spec bs b addr lo hi :
  ForallOrdPairs disjoint_blocks bs → Forall block_ok bs → b ∈ bs → live b lo hi →
  meta_sections b ≤ lo → block_start b + 16 * lo ≤ addr < block_start b + 16 * lo + 16 →
  ∃ l1 l2 b', bs = l1 ++ b :: l2 ∧
    free_in_blocks addr bs = Ret (Some (l1 ++ b' :: l2, hi - lo)) ∧
    gives_sections b b' lo hi ∧ block_ok b' ∧ first_free_section b' = lo.
Proof.
  intros Hdis Hok Hin Hlive Hm Ha. induction Hdis as [|c bs Hc Hdis IH]; [by apply elem_of_nil in Hin|].
  inversion Hok as [|? ? Hcok Hbsok]; subst.
  pose proof (proj1 (Forall_forall _ _) Hok b Hin) as Hb.
  pose proof (block_bounds b Hb) as (Hns & Hsz & HP & Hst & Hend & Hmm & _).
  pose proof Hlive as (Hlh & Hhi & _). unfold n_sections in *.
  pose proof (block_bounds c Hcok) as (_ & _ & HPc & Hstc & Hendc & _).
  pose proof (bo_size _ Hcok) as [Hc0 _].
  cbn [free_in_blocks]. rewrite (u32_small (block_start c + block_size c))
    by (unfold is_u32, block_end in *; lia).
  apply elem_of_cons in Hin as [->|Hin].
  - unfold block_end in *. destruct (Z.ltb_spec (block_start c) addr); [|lia].
    destruct (Z.ltb_spec addr (block_start c + block_size c)); [|lia]. simpl.
    destruct (free_in_block_spec c addr lo hi Hcok Hlive Hm Ha) as (b' & -> & Hg & Hok' & Hff).
    exists [], bs, b'. rewrite Ret_bind. done.
  - assert (Hskip : (block_start c <? addr) && (addr <? block_start c + block_size c) = false).
    { pose proof (proj1 (Forall_forall _ _) Hc b Hin) as Hd. unfold disjoint_blocks, block_end in *.
      apply andb_false_iff. rewrite !Z.ltb_ge. lia. }
    rewrite Hskip. destruct (IH Hbsok Hin) as (l1 & l2 & b' & -> & Heq & Hrest).
    exists (c :: l1), l2, b'. rewrite Heq, Ret_bind. done.
Qed.

Lemma kheap_free_spec heap asa s b addr lo hi :
  heap_inv sinv mapped (HeapState heap asa s) → heap_live heap b lo hi →
  block_start b + 16 * lo ≤ addr < block_start b + 16 * lo + 16 →
  ∃ heap' l1 l2 b', kheap_free addr heap = Ret (true, heap') ∧
    heap_inv sinv mapped (HeapState heap' asa s) ∧
    first heap = l1 ++ b :: l2 ∧ first heap' = l1 ++ b' :: l2 ∧ gives_sections b b' lo hi.
Proof.
  intros Hinv (Hb & Hlive & Hm) Ha.
  destruct (free_in_blocks_spec (first heap) b addr lo hi) as (l1 & l2 & b' & Hl & Heq & Hg & Hok & _);
    [apply Hinv|apply Hinv|done..|].
  unfold kheap_free. rewrite Heq, Ret_bind. eexists _, l1, l2, b'. split; [done|].
  split; [|done]. eapply heap_inv_replace; [done|done|apply Hg|done|].
  rewrite (gs_free _ _ _ _ Hg). f_equal. lia.
Qed.

(** ** Allocation and freeing undo each other *)

Lemma split_unique {A} (R : A → A → Prop) (x : A) l1 l2 r1 r2 :
  ForallOrdPairs R (l1 ++ x :: l2) → ¬ R x x → l1 ++ x :: l2 = r1 ++ x :: r2 → l1 = r1 ∧ l2 = r2.
Proof.
  revert r1. induction l1 as [|y l1 IH]; intros [|z r1]; simpl; intros HR Hx Heq;
    inversion HR as [|? ? Hy HR']; subst; simplify_eq; [done|..].
  - exfalso. apply Hx. apply (proj1 (Forall_forall _ _) Hy). apply elem_of_middle.
  - exfalso. apply Hx. apply (proj1 (Forall_forall _ _) Hy). apply elem_of_middle.
  - destruct (IH r1) as [-> ->]; [|done..]. congruence.
Qed.

Lemma kheap_roundtrip_lemma size st addr st1 :
  heap_inv sinv mapped st → 1 ≤ size < 2 ^ 31 →
  kheap_malloc ki PAGE_SIZE size 0 st = Ret (K_SUCCESS, addr, st1) →
  ∃ heap2 new, kheap_free addr (hs_heap st1) = Ret (true, heap2) ∧ Forall fresh_block new ∧
    Forall2 block_equiv (new ++ first (hs_heap st)) (first heap2) ∧
    heap_inv sinv mapped (HeapState heap2 (hs_asa st1) (hs_sys st1)).
Proof.
  intros Hinv Hs Hrun.
  pose proof (kheap_malloc_run size 0 st Hinv Hs ltac:(unfold PAGE_SIZE; lia)) as Hwp.
  rewrite Hrun in Hwp. destruct Hwp as (Hinv1 & bs & (new & -> & Hnew) & [(_ & n & Ha)|(? & _)]); [|done].
  destruct Ha as (l1 & b & b1 & l2 & f & Hl & Hl1 & _ & Ht & Hok1 & Ha). unfold address_ok in Ha. simpl in Ha.
  assert (Hb : block_ok b).
  { assert (Hall : Forall block_ok (new ++ first (hs_heap st))).
    { eapply grown_ok; [apply Hinv|]. by exists new. }
    rewrite Hl in Hall. apply (proj1 (Forall_forall _ _) Hall), elem_of_middle. }
  destruct (takes_live b b1 f n Hb Ht) as [Hlive _].
  pose proof (ts_range _ _ _ _ Ht) as (Hf & Hn & _). destruct (ts_frame _ _ _ _ Ht) as [Hst Hsz].
  destruct st1 as [heap1 asa1 s1]. simpl in *.
  destruct (kheap_free_spec heap1 asa1 s1 b1 addr f (f + n) Hinv1)
    as (heap2 & r1 & r2 & b2 & Hfree & Hinv2 & Hr & Hr2 & Hg).
  { split; [rewrite Hl1; apply elem_of_middle|]. split; [done|]. unfold meta_sections. by rewrite Hsz. }
  { rewrite Hst. lia. }
  assert (l1 = r1 ∧ l2 = r2) as [<- <-].
  { apply (split_unique disjoint_blocks b1); [| |by rewrite <- Hl1, Hr].
    - rewrite <- Hl1. apply Hinv1.
    - unfold disjoint_blocks, block_end. destruct (bo_size _ Hok1). lia. }
  exists heap2, new. split; [done|]. split; [done|]. split; [|done].
  rewrite Hl, Hr2. apply Forall2_app; [apply Forall2_same_length_lookup_2; try done|].
  - intros i x y Hx Hy. rewrite Hx in Hy. by injection Hy as ->.
  - constructor.
    + destruct (takes_gives b b1 b2 f n Hb Ht Hg) as (H1 & H2 & H3 & H4).
      by split_and!; try apply H4.
    + apply Forall2_same_length_lookup_2; [done|].
      intros i x y Hx Hy. rewrite Hx in Hy. by injection Hy as ->.
Qed.

(** ** Requests that never fit *)

(** A new block that is too small refuses the request. *)
Lemma malloc_in_blocks_refused size align manual b bs :
  fresh_block b → request size align manual → usable b < size →
  malloc_in_blocks size align manual bs = Ret None →
  malloc_in_blocks size align manual (b :: bs) = Ret None.
Proof.
  intros Hfresh (Hs & _) Hsmall Hbs. pose proof (fb_ok _ Hfresh) as Hok. cbn [malloc_in_blocks].
  unfold malloc_in_block. destruct (ceil16 size Hs) as (Hdiv & Hn & Hc).
  rewrite (bo_section _ Hok), Hdiv, Ret_bind, (fresh_block_free b Hfresh).
  unfold usable in Hsmall. destruct (Z.ltb_spec (n_sections b - meta_sections b) (ceil_div size 16)); [|lia].
  by rewrite orb_true_r, Ret_bind, Hbs.
Qed.

Lemma malloc_loop_never fuel size align manual st :
  heap_inv sinv mapped st → request size align manual → never_fits size = true →
  malloc_in_blocks size align manual (first (hs_heap st)) = Ret None →
  (Z.to_nat (asa_free_pages (hs_asa st)) < fuel)%nat →
  wp (malloc_loop ki PAGE_SIZE fuel size align manual st) (λ '(ret, _, _), ret = K_OOM).
Proof.
  intros Hinv Hreq Hgap. revert st Hinv.
  induction fuel as [|fuel IH]; intros st Hinv Hnone Hfuel; [lia|].
  cbn [malloc_loop]. rewrite Hnone, Ret_bind. rewrite (hi_min _ _ _ Hinv). apply wp_bind.
  eapply wp_mono; [by eapply kheap_expand_spec; [| |eapply MAX_request]|].
  intros [ret st'] (Hinv' & [(-> & _)|(-> & (b & Hb & Hfresh & HPb & _) & Hless)]); [done|].
  change (K_FAILED K_SUCCESS) with false. cbv iota.
  pose proof (count_clear_nonneg (kasa_pages (hs_asa st'))) as Hnn. unfold asa_free_pages in *.
  apply IH; [done| |lia]. rewrite Hb. apply malloc_in_blocks_refused; [done|done| |done].
  pose proof (new_block_room size b (proj1 Hreq) Hfresh HPb) as Hroom. by rewrite Hgap in Hroom.
Qed.

Lemma kheap_malloc_never_lemma size align st :
  heap_inv sinv mapped st → 1 ≤ size < 2 ^ 31 → 0 ≤ align ≤ PAGE_SIZE →
  never_fits (padded size align) = true →
  malloc_in_blocks (padded size align) align (manual align) (first (hs_heap st)) = Ret None →
  wp (kheap_malloc ki PAGE_SIZE size align st) (λ '(ret, _, _), ret = K_OOM).
Proof.
  intros Hinv Hs Hal Hgap Hnone. pose proof (padded_request size align Hs Hal) as Hreq.
  rewrite kheap_malloc_padded by done. destruct (first (hs_heap st)) as [|b0 bs0] eqn:Hempty.
  - rewrite (hi_min _ _ _ Hinv). apply wp_bind.
    eapply wp_mono; [by eapply kheap_expand_spec; [| |eapply MAX_request]|].
    intros [ret st'] (Hinv' & [(-> & _)|(-> & (b & Hb & Hfresh & HPb & _) & Hless)]); [done|].
    change (K_FAILED K_SUCCESS) with false. cbv iota.
    apply malloc_loop_never; try done; [|apply malloc_fuel_enough].
    rewrite Hb, Hempty. apply malloc_in_blocks_refused; [done|done| |done].
    pose proof (new_block_room _ b (proj1 Hreq) Hfresh HPb) as Hroom. by rewrite Hgap in Hroom.
  - apply malloc_loop_never; try done; [by rewrite Hempty|apply malloc_fuel_enough].
Qed.

(** ** The heap behind [kmalloc] *)

Lemma heap_inv_sys heap asa s s' :
  heap_inv sinv mapped (HeapState heap asa s) → sinv s' →
  (∀ p, client_page p → mapped s' p = mapped s p) → heap_inv sinv mapped (HeapState heap asa s').
Proof.
  intros Hinv Hs Hm. eapply heap_inv_same; [exact Hinv|apply Hinv|done|..].
  - intros p Hp Hb. rewrite Hm by (by apply kernel_client). by apply (hi_unmapped _ _ _ Hinv).
  - intros p Hp Hb. split; [done|]. apply Hm. by apply kernel_client.
Qed.

Lemma kalloc_malloc_spec size phys flags st p ph st' :
  heap_inv sinv mapped st → 1 ≤ size < 2 ^ 31 →
  kheap_kalloc_malloc_real ki PAGE_SIZE size phys flags st = Ret (p, ph, st') →
  heap_inv sinv mapped st' ∧ (∀ a, byte_used (hs_heap st) a → byte_used (hs_heap st') a) ∧
  (has_flag flags KALLOC_PAGE_ALIGN = true → p mod PAGE_SIZE = 0) ∧
  0 < p ∧ p + size ≤ 2 ^ 30 ∧
  (∀ a, p ≤ a < p + size → ¬ byte_used (hs_heap st) a ∧ byte_used (hs_heap st') a) ∧
  ph = (if phys then mapped (hs_sys st') (p / PAGE_SIZE) else None).
Proof.
  intros Hinv Hs Hrun. unfold kheap_kalloc_malloc_real in Hrun.
  set (align := if has_flag flags KALLOC_PAGE_ALIGN then PAGE_SIZE else 0) in *.
  assert (Hal : 0 ≤ align ≤ PAGE_SIZE) by (unfold align, PAGE_SIZE; destruct (has_flag flags KALLOC_PAGE_ALIGN); lia).
  pose proof (kheap_malloc_outcome size align st Hinv Hs Hal) as Hwp.
  apply wp_inv in Hwp as ([[ret addr] st1] & Heq & Hinv1 & Hmono & Hres). rewrite Heq, Ret_bind in Hrun.
  destruct Hres as [(-> & Hmod & Hpos & Hend & Hin)|(-> & _)]; [|done].
  change (K_FAILED K_SUCCESS) with false in Hrun. cbv iota in Hrun.
  destruct (Hin addr) as (_ & _ & Hclient & Hmap); [lia|].
  assert (Hmod' : has_flag flags KALLOC_PAGE_ALIGN = true → addr mod PAGE_SIZE = 0).
  { intros Hf. unfold align in Hmod. rewrite Hf in Hmod. by apply Hmod. }
  assert (Hin' : ∀ a, addr ≤ a < addr + size → ¬ byte_used (hs_heap st) a ∧ byte_used (hs_heap st1) a).
  { intros a Ha. destruct (Hin a Ha) as (? & ? & _). done. }
  destruct phys.
  - assert (Hu : is_u32 addr) by (unfold is_u32; lia).
    pose proof (mapper_get_phys addr _ (hi_sys _ _ _ Hinv1) Hu Hclient) as Hg.
    apply wp_inv in Hg as ([a s'] & Hg & Hs' & -> & Hsame). rewrite Hg, Ret_bind in Hrun.
    injection Hrun as <- <- <-. destruct st1 as [heap1 asa1 s1]. simpl in *.
    split; [by eapply heap_inv_sys|]. split_and!; try done.
    rewrite Hsame by done. by destruct (mapped s1 (addr / PAGE_SIZE)).
  - injection Hrun as <- <- <-. by split_and!.
Qed.

(** The kernel heap keeps the promise of the allocation interface, like the
    early heap before it. *)
#[export] Instance kheap_provider :
  Provider (KallocInterface (Some (kheap_kalloc_malloc_real ki PAGE_SIZE)) (Some kheap_kalloc_free))
    (heap_inv sinv mapped) (λ st, byte_used (hs_heap st)).
Proof.
  split. exists (kheap_kalloc_malloc_real ki PAGE_SIZE). split; [done|].
  intros size phys flags st Hinv Hs _ p ph st' Hrun.
  destruct (kalloc_malloc_spec _ _ _ _ _ _ _ Hinv Hs Hrun) as (H1 & H2 & H3 & H4 & H5 & H6 & _).
  split; [done|]. split; [done|]. intros _. split; [lia|]. done.
Qed.

(** [kheap_kalloc_install] on top of an initialised address space. *)
Lemma install_inv asa s h :
  asa_inv asa → sinv s →
  (∀ p, reserved_pages ≤ p < n_kernel_pages → bit (kasa_pages asa) p = false → mapped s p = None) →
  heap_inv sinv mapped (fst (kheap_kalloc_install ki PAGE_SIZE (HeapState h asa s))).
Proof.
  intros Ha Hs Hun. split; try done.
  - intros b p Hb. simpl in Hb. by apply elem_of_nil in Hb.
  - simpl. apply FOP_nil.
Qed.
End heap.

(** * Theorems *)

Section theorems.
Context {S : Type} (ki : kpaging_interface S) (sinv : S → Prop) (mapped : S → Z → option Z)
  `{Hmapper : !PageMapper ki sinv mapped}.

(** Allocation is sound and total: over any page mapper, [kheap_malloc]
    returns; on success the address is aligned as requested and the range
    it names was free, is marked used, and lies on mapped client pages; bytes
    in use stay in use; on failure the list of blocks only gained empty
    blocks. *)
Theorem kheap_malloc_sound size align st :
  heap_inv sinv mapped st → 1 ≤ size < 2 ^ 31 → 0 ≤ align ≤ PAGE_SIZE →
  ∃ ret addr st', kheap_malloc ki PAGE_SIZE size align st = Ret (ret, addr, st') ∧
    heap_inv sinv mapped st' ∧
    (∀ a, byte_used (hs_heap st) a → byte_used (hs_heap st') a) ∧
    ((ret = K_SUCCESS ∧ (0 < align → addr mod align = 0) ∧ 0 < addr ∧ addr + size ≤ 2 ^ 30 ∧
      ∀ a, addr ≤ a < addr + size → ¬ byte_used (hs_heap st) a ∧ byte_used (hs_heap st') a ∧
        client_page (a / PAGE_SIZE) ∧ mapped (hs_sys st') (a / PAGE_SIZE) ≠ None)
     ∨ (ret = K_OOM ∧ grown (first (hs_heap st)) (first (hs_heap st')))).
Proof.
  intros Hinv Hs Hal. pose proof (kheap_malloc_outcome ki sinv mapped size align st Hinv Hs Hal) as H.
  apply wp_inv in H as ([[ret addr] st'] & Heq & H). by exists ret, addr, st'.
Qed.

(** Freeing a live allocation, by any address in its first section: it is
    found, exactly its sections become free, and every other allocation of
    the block stays live. *)
Theorem kheap_free_correct heap asa s b addr lo hi :
  heap_inv sinv mapped (HeapState heap asa s) → heap_live heap b lo hi →
  block_start b + 16 * lo ≤ addr < block_start b + 16 * lo + 16 →
  ∃ heap' l1 l2 b', kheap_free addr heap = Ret (true, heap') ∧
    heap_inv sinv mapped (HeapState heap' asa s) ∧
    first heap = l1 ++ b :: l2 ∧ first heap' = l1 ++ b' :: l2 ∧ gives_sections b b' lo hi ∧
    ∀ lo' hi', live b lo' hi' → hi' ≤ lo ∨ hi ≤ lo' → live b' lo' hi'.
Proof.
  intros Hinv Hlive Ha.
  destruct (kheap_free_spec sinv mapped heap asa s b addr lo hi Hinv Hlive Ha)
    as (heap' & l1 & l2 & b' & Hrun & Hinv' & Hl & Hl' & Hg).
  exists heap', l1, l2, b'. split_and!; try done. intros lo' hi'.
  eapply gives_live; [|exact Hg]. apply Hlive.
Qed.

(** C7. Round trip: an unaligned allocation followed by [kheap_free] of the
    address restores every block up to the search hint; blocks the
    allocation added stay, empty. *)
Theorem kheap_roundtrip size st addr st1 :
  heap_inv sinv mapped st → 1 ≤ size < 2 ^ 31 →
  kheap_malloc ki PAGE_SIZE size 0 st = Ret (K_SUCCESS, addr, st1) →
  ∃ heap2 new, kheap_free addr (hs_heap st1) = Ret (true, heap2) ∧ Forall fresh_block new ∧
    Forall2 block_equiv (new ++ first (hs_heap st)) (first heap2) ∧
    heap_inv sinv mapped (HeapState heap2 (hs_asa st1) (hs_sys st1)).
Proof. apply kheap_roundtrip_lemma. done. Qed.

End theorems.

(** Freeing an allocation by an address that alignment moved past its first
    section leaks the sections before it: they stay marked and belong to no
    allocation. *)
Theorem aligned_free_leaks b b1 f n addr sect :
  block_ok b → block_ok b1 → takes_sections b b1 f n → f < sect < f + n →
  block_start b + 16 * sect ≤ addr < block_start b + 16 * sect + 16 →
  ∃ b2, free_in_block addr b1 = Ret (b2, f + n - sect) ∧
    free_sections b2 = free_sections b - (sect - f) ∧
    ∀ j, f ≤ j < sect → bit (used_sections b2) j = true ∧ bit (delimiters b2) j = false.
Proof.
  intros Hb Hb1 Ht Hsect Ha. destruct (takes_live b b1 f n Hb Ht) as [(Hl1 & Hl2 & Hl3 & Hl4 & Hl5) _].
  pose proof (block_bounds b Hb) as (_ & _ & HP & _ & _ & Hmm & _).
  destruct (ts_frame _ _ _ _ Ht) as [Hst Hsz]. pose proof (ts_range _ _ _ _ Ht) as (Hf & _ & _).
  destruct (free_in_block_spec b1 addr sect (f + n) Hb1) as (b2 & Hrun & Hg & _ & _).
  - split_and!; [lia|lia|lia| | |done].
    + intros j Hj. apply Hl3. lia.
    + intros j Hj. apply Hl4. lia.
  - unfold meta_sections in *. rewrite Hsz. lia.
  - by rewrite Hst.
  - exists b2. split; [done|]. destruct Hg as [_ (_ & _ & Hu) (_ & _ & Hd) Hfr]. split.
    + rewrite Hfr, (ts_free _ _ _ _ Ht). lia.
    + intros j Hj. rewrite Hu, Hd by lia. case_decide; [lia|]. case_decide; [lia|].
      split; [apply Hl3; lia|apply Hl4; lia].
Qed.
