(* ===== verification/Boot.v ===== *)
(** Bringing the memory system up: the calls of [kernel_early] in
    [kernel/kernel/kernel.c] from [i386_mem_init] to [kheap_kalloc_install],
    and the end-to-end invariant they establish. *)
From stdpp Require Import base numbers list gmap.
From Stdlib Require Import ZArith Lia.
From S2P Require Import Prelude Kernel Bitset Alloc Meminfo EarlyHeap Frames Machine KPaging Asa.
From S2P Require Import Paging Window PagingSpec PagingInit Kheap KheapBlock KheapSpec KheapProps.

(** The globals of paging.c before initialisation, with what [i386_mem_init]
    left in those of mem.c. *)
Definition early_state (m : machine) (ms : mem_state) : paging_state :=
  PagingState m (ms_bitset ms) (ms_meminfo ms) 0 0 false kpaging_data_zero false.

(** The memory part of [kernel_early]; the result is the state and the
    allocator that [kmalloc] reaches afterwards. *)
Definition kernel_early_memory (mem : boot_mem) (mboot : Z) (m : machine)
    : outcome (heap_state paging_state * kalloc_interface (heap_state paging_state)) :=
  ms ← i386_mem_init mem mboot;
  '(ret, asa, s1) ← asa_init paging_kalloc PAGE_SIZE kasa_data_zero (early_state m ms);
  _ ← assert (ret =? K_SUCCESS);
  s2 ← i386_paging_init s1;
  Ret (kheap_kalloc_install i386_paging_interface (page_size (ps_kpaging s2))
         (HeapState kheap_zero asa s2)).

(** What the loader must provide. *)
Record boot_ok (mem : boot_mem) (mboot : Z) (m : machine) : Prop := BootOk {
  bk_mmap_flag : Z.testbit (mbi_flags (read_multiboot_info mem mboot)) 6 = true;
  bk_elf_flag : Z.testbit (mbi_flags (read_multiboot_info mem mboot)) 5 = true;
  bk_mmap : mmap_ok mem (meminfo_of_header mem mboot);
  bk_high : KVIRT_RESERVED ≤ highest_free_address (meminfo_of_header mem mboot) ≤ 2 ^ 32 - PAGE_SIZE;
  bk_heap : 0 < kernel_heap_start (meminfo_of_header mem mboot);
  bk_room : kernel_heap_start (meminfo_of_header mem mboot) + EARLY_HEAP_MAXSIZE + PAGE_SIZE
              < KVIRT_RESERVED;
  bk_paging : paging m = false;
  bk_words : ∀ a, is_u32 (phys_read m a)
}.

(** The address-space bitset comes out of the early heap. *)
Lemma asa_kmalloc s :
  early_inv (ps_meminfo s) → early_room (ps_meminfo s) 10 →
  ∃ p mi, kmalloc paging_kalloc 0x8000 KALLOC_CRITICAL s = Ret (p, set_meminfo s mi) ∧ p ≠ 0 ∧
    early_inv mi ∧ mi = with_curpos (ps_meminfo s) (kernel_heap_curpos mi) ∧
    kernel_heap_curpos mi ≤ kernel_heap_curpos (ps_meminfo s) + 9 * PAGE_SIZE.
Proof.
  intros Hinv Hroom. pose proof Hinv as [Hs Hc]. unfold early_room, PAGE_SIZE in Hroom.
  destruct (i386_mem_kmalloc_real_spec 0x8000 false KALLOC_CRITICAL (ps_meminfo s) Hinv)
    as (p & ph & mi & Hcall & Hinv' & Hres); [lia|].
  exists p, mi. unfold kmalloc, kalloc_malloc_real. simpl. unfold kalloc_malloc_real. simpl.
  change 1 with KALLOC_CRITICAL. rewrite Hcall. simpl.
  destruct Hres as [(_ & _ & [?|?])|(Hp & Hpa & Hend & Hmi & _)]; [done|unfold PAGE_SIZE in *; lia|].
  destruct (early_align_spec KALLOC_CRITICAL (kernel_heap_curpos (ps_meminfo s))) as [Hb _].
  { unfold EARLY_HEAP_MAXSIZE in *. lia. }
  split; [done|]. split; [lia|]. split; [done|]. split; [congruence|]. unfold PAGE_SIZE in *. lia.
Qed.

Lemma kernel_early_memory_run mem mboot m :
  boot_ok mem mboot m →
  ∃ st ki, kernel_early_memory mem mboot m = Ret (st, ki) ∧
    heap_inv paging_inv mapped_frame st ∧ first (hs_heap st) = [] ∧
    (∀ p, client_page p → mapped_frame (hs_sys st) p = None) ∧
    ki = KallocInterface (Some (kheap_kalloc_malloc_real i386_paging_interface PAGE_SIZE))
           (Some kheap_kalloc_free).
Proof.
  intros [H1 H2 H3 H4 H5 H6 H7 H8]. unfold kernel_early_memory.
  set (mi := meminfo_of_header mem mboot) in *.
  assert (Hheap : 0 < kernel_heap_start mi < 2 ^ 30).
  { unfold KVIRT_RESERVED, EARLY_HEAP_MAXSIZE, PAGE_SIZE in *. lia. }
  assert (Hhigh : PAGE_SIZE ≤ highest_free_address mi ≤ 2 ^ 32 - PAGE_SIZE).
  { unfold KVIRT_RESERVED, PAGE_SIZE in *. lia. }
  destruct (mem_init_run mem mboot H1 H2 H3 Hhigh Hheap)
    as (ms & -> & Hearly & Hframes & _ & Hms & _). fold mi in Hms. rewrite Ret_bind.
  assert (Hlen : 1 ≤ ceil_div (highest_free_address mi / PAGE_SIZE) 32 ≤ 2 ^ 15).
  { unfold ceil_div, PAGE_SIZE in *. div_lia. }
  set (s0 := early_state m ms).
  assert (Hstart : kernel_heap_start (ms_meminfo ms) = kernel_heap_start mi) by (by rewrite Hms).
  assert (Hpos : kernel_heap_curpos (ms_meminfo ms)
            = kernel_heap_start mi + 4 * ceil_div (highest_free_address mi / PAGE_SIZE) 32)
    by (by rewrite Hms).
  destruct (asa_kmalloc s0) as (p & mi' & Hk & Hp & Hearly' & Hmi' & Hpos'); [done| |].
  { unfold early_room. simpl. unfold EARLY_HEAP_MAXSIZE, PAGE_SIZE in *. lia. }
  simpl in Hmi', Hpos'.
  destruct (asa_init_spec paging_kalloc kasa_data_zero s0 p _ Hk Hp) as (asa & -> & Hasa & Hbits).
  rewrite Ret_bind. simpl assert. rewrite Ret_bind.
  assert (Hstart' : kernel_heap_start mi' = kernel_heap_start mi) by (by rewrite Hmi', <- Hstart).
  assert (Hhi' : highest_free_address mi' = highest_free_address (ms_meminfo ms)) by (by rewrite Hmi').
  destruct (paging_init_run (set_meminfo s0 mi')) as (s2 & -> & Hs2 & _ & _ & Hps & _ & Hcl).
  { split; simpl; try done.
    - unfold early_room. rewrite Hstart'. unfold EARLY_HEAP_MAXSIZE, PAGE_SIZE in *. lia.
    - rewrite Hstart'. apply heap_start_aligned.
    - by rewrite Hstart'.
    - destruct Hframes as [F1 F2 F3]. split; [done|congruence|congruence].
    - destruct Hframes as [_ _ ->]. rewrite Hms. simpl. clear - H4.
      unfold reserved_pages. apply Z.div_le_mono; [done|apply H4]. }
  rewrite Ret_bind, Hps. eexists _, _. split; [reflexivity|]. split; [|done].
  apply (install_inv i386_paging_interface paging_inv mapped_frame); [done|done|]. intros q Hq _. apply Hcl. by apply kernel_client.
Qed.

(** * A concrete machine

    A small boot image: the multiboot header at [0x9000], a memory map of one
    entry (3 MiB from 1 MiB on), three ELF section headers. *)
Definition demo_words : list (Z * Z) :=
  [ (0x9000, 0x60); (0x9004, 640); (0x9008, 4096); (0x901c, 3); (0x9020, 40); (0x9024, 0x8000);
    (0x902c, 24); (0x9030, 0x9100);
    (0x9100, 20); (0x9104, 0x100000); (0x9108, 0); (0x910c, 0x300000); (0x9110, 0); (0x9114, 1);
    (0x8034, 0x100000); (0x805c, 0x108000) ].

Fixpoint word_at (l : list (Z * Z)) (a : Z) : Z :=
  match l with
  | [] => 0
  | (b, w) :: l' => if a =? b then w else word_at l' a
  end.

Definition demo_mem : boot_mem := λ a,
  Z.shiftr (word_at demo_words (a - a mod 4)) (8 * (a mod 4)).
Definition demo_machine : machine := Machine ∅ 0 false ∅.

Lemma demo_mmap : mmap_ok demo_mem (meminfo_of_header demo_mem 0x9000).
Proof.
  split; [by vm_compute|]. split; [by vm_compute|].
  exists [read_mmap_entry demo_mem 0x9100].
  change (mmap (meminfo_of_header demo_mem 0x9000)) with 0x9100.
  change (mmap_length (meminfo_of_header demo_mem 0x9000)) with 24.
  eapply mmap_at_cons; [done|done|by vm_compute|by vm_compute|].
  replace (0x9100 + (me_size (read_mmap_entry demo_mem 0x9100) + 4)) with (0x9100 + 24) by (by vm_compute).
  apply mmap_at_nil.
Qed.

Lemma demo_boot_ok : boot_ok demo_mem 0x9000 demo_machine.
Proof.
  split; [by vm_compute|by vm_compute|apply demo_mmap|by vm_compute|by vm_compute|by vm_compute|done|].
  intros a. unfold phys_read. simpl. by rewrite lookup_empty.
Qed.


(** The state of the demonstration machine after [kernel_early]. *)
Definition result_state {A B} (d : A) (r : outcome (A * B)) : A :=
  match r with Ret (a, _) => a | _ => d end.

Definition last_state {A B} (d : B) (r : outcome (A * B)) : B :=
  match r with Ret (_, b) => b | _ => d end.

Lemma last_state_wp {A B} (d : B) (r : outcome (A * B)) (Q : A * B → Prop) (P : B → Prop) :
  wp r Q → (∀ a b, Q (a, b) → P b) → P (last_state d r).
Proof. destruct r as [[a b]| | |]; simpl; [|done..]. intros HQ H. by apply (H a b). Qed.

Definition demo_dummy : heap_state paging_state :=
  HeapState kheap_zero kasa_data_zero
    (early_state demo_machine
       (MemState (MemInfo 0 0 0 0 0 0 0 0 0 0 0 0 0 0) (Bitset 0 []) 0 early_kalloc)).

Definition demo_state : heap_state paging_state :=
  result_state demo_dummy (kernel_early_memory demo_mem 0x9000 demo_machine).
Definition demo_sys : paging_state := hs_sys demo_state.

Lemma demo_state_ok :
  heap_inv paging_inv mapped_frame demo_state ∧ first (hs_heap demo_state) = [] ∧
  (∀ p, client_page p → mapped_frame (hs_sys demo_state) p = None).
Proof.
  destruct (kernel_early_memory_run _ _ _ demo_boot_ok) as (st & ki & Hrun & H1 & H2 & H3 & _).
  unfold demo_state. rewrite Hrun. exact (conj H1 (conj H2 H3)).
Qed.

Lemma demo_state_run : ∃ ki, kernel_early_memory demo_mem 0x9000 demo_machine = Ret (demo_state, ki).
Proof.
  destruct (kernel_early_memory_run _ _ _ demo_boot_ok) as (st & ki & Hrun & _).
  exists ki. unfold demo_state. by rewrite Hrun.
Qed.

Lemma demo_sys_inv : paging_inv demo_sys.
Proof. exact (hi_sys _ _ _ (proj1 demo_state_ok)). Qed.

Lemma demo_sys_unmapped p : client_page p → mapped_frame demo_sys p = None.
Proof. exact (proj2 (proj2 demo_state_ok) p). Qed.

#[global] Opaque demo_state demo_sys.

(** C1: the whole memory system comes up.  Given a loader that provides the two
    sections the kernel insists on, a memory map, enough memory and a kernel
    image that leaves room for the early heap, [kernel_early] gets from the
    unpaged machine to a state in which paging is on and satisfies its
    invariant, the heap over it satisfies its own, no client page is mapped,
    and [kmalloc] reaches the kernel heap. *)
Theorem kernel_early_memory_correct mem mboot m :
  boot_ok mem mboot m →
  ∃ st ki, kernel_early_memory mem mboot m = Ret (st, ki) ∧
    heap_inv paging_inv mapped_frame st ∧ first (hs_heap st) = [] ∧
    (∀ p, client_page p → mapped_frame (hs_sys st) p = None) ∧
    ki = KallocInterface (Some (kheap_kalloc_malloc_real i386_paging_interface PAGE_SIZE))
           (Some kheap_kalloc_free).
Proof. apply kernel_early_memory_run. Qed.

Lemma kernel_early_memory_correct_witness :
  ∃ st ki, kernel_early_memory demo_mem 0x9000 demo_machine = Ret (st, ki) ∧
    heap_inv paging_inv mapped_frame st ∧ first (hs_heap st) = [] ∧
    (∀ p, client_page p → mapped_frame (hs_sys st) p = None) ∧
    ki = KallocInterface (Some (kheap_kalloc_malloc_real i386_paging_interface PAGE_SIZE))
           (Some kheap_kalloc_free).
Proof. apply (kernel_early_memory_correct demo_mem 0x9000 demo_machine), demo_boot_ok. Defined.
