(* ===== verification/PagingProps.v ===== *)
(** The running paging system: its main theorems, with concrete instances on
    the demonstration machine of Boot.v. *)
From stdpp Require Import base numbers list gmap.
From Stdlib Require Import ZArith Lia.
From S2P Require Import Prelude Kernel Bitset Alloc Meminfo EarlyHeap Frames Machine KPaging Asa.
From S2P Require Import Paging Window PagingSpec PagingInit Kheap KheapBlock KheapSpec KheapProps.
From S2P Require Import Boot.

(** C2: allocating an unmapped client page.  Either the page is mapped to a
    frame that was free and is reported through [out], or the call fails with
    [K_OOM], the page stays unmapped and the frame set is as before.  The
    invariant (tables, cache, window, frame accounting, no frame mapped twice)
    is preserved, no other page's mapping changes, and the pages of the clients
    keep their contents. *)
Theorem i386_allocate_page_correct s p pt_flags pd_flags :
  paging_inv s → client_page p → mapped_frame s p = None →
  map_flags pt_flags → map_flags pd_flags →
  ∃ ret out s', i386_allocate_page (ps_pd s) (p * PAGE_SIZE) pt_flags pd_flags s = Ret (ret, out, s') ∧
    paging_inv s' ∧
    (∀ q, is_page q → q ≠ p → q ≠ window_page s → mapped_frame s' q = mapped_frame s q) ∧
    client_kept (λ _, False) (ps_mach s) (ps_mach s') ∧
    ((ret = K_SUCCESS ∧ ∃ f, 0 < f < n_frames (ps_frames s) ∧ bit (ps_frames s) f = false ∧
        out = Some (f * PAGE_SIZE) ∧ mapped_frame s' p = Some (f * PAGE_SIZE))
     ∨ (ret = K_OOM ∧ out = None ∧ mapped_frame s' p = None ∧ ps_frames s' ≡ ps_frames s)).
Proof.
  intros Hs Hp Hun Hpt Hpd.
  pose proof (allocate_page_spec s p pt_flags pd_flags Hs Hp Hun Hpt Hpd) as H.
  apply wp_inv in H as ([[ret out] s'] & Heq & _ & H). by exists ret, out, s'.
Qed.

Lemma demo_page : client_page 400.
Proof. by vm_compute. Qed.
Lemma demo_flags : map_flags 3.
Proof. by vm_compute. Qed.

Lemma i386_allocate_page_correct_witness :
  ∃ ret out s', i386_allocate_page (ps_pd demo_sys) (400 * PAGE_SIZE) 3 3 demo_sys = Ret (ret, out, s') ∧
    paging_inv s'.
Proof.
  destruct (i386_allocate_page_correct demo_sys 400 3 3 demo_sys_inv demo_page
    (demo_sys_unmapped 400 demo_page) demo_flags demo_flags) as (ret & out & s' & H & Hs & _).
  exact (ex_intro _ ret (ex_intro _ out (ex_intro _ s' (conj H Hs)))).
Defined.

(** The demonstration system with page 400 mapped. *)
Definition demo_mapped : paging_state :=
  last_state demo_sys (i386_allocate_page (ps_pd demo_sys) (400 * PAGE_SIZE) 3 3 demo_sys).

Lemma demo_mapped_inv : paging_inv demo_mapped.
Proof.
  refine (last_state_wp demo_sys _ _ paging_inv
    (allocate_page_spec demo_sys 400 3 3 demo_sys_inv demo_page
      (demo_sys_unmapped 400 demo_page) demo_flags demo_flags) _).
  intros [ret out] s' (_ & H & _). exact H.
Qed.

Lemma demo_mapped_checked :
  (mapped_frame demo_mapped 400, 0 <? n_frames (ps_frames demo_mapped)) = (Some 0x17c000, true).
Proof. vm_compute. reflexivity. Qed.

Lemma demo_mapped_frame : mapped_frame demo_mapped 400 = Some 0x17c000.
Proof. exact (f_equal fst demo_mapped_checked). Qed.

Lemma demo_mapped_frames : 0 < n_frames (ps_frames demo_mapped).
Proof. apply Z.ltb_lt. exact (f_equal snd demo_mapped_checked). Qed.

#[global] Opaque demo_mapped.

(** C3: freeing a mapped client page.  The page is unmapped, exactly its frame
    becomes free, no other mapping and no other client page's contents change
    and the invariant is preserved: in particular nothing stale stays in the
    translation cache. *)
Theorem i386_free_page_correct s p f :
  paging_inv s → client_page p → mapped_frame s p = Some f →
  ∃ s', i386_free_page (ps_pd s) (p * PAGE_SIZE) s = Ret (K_SUCCESS, s') ∧
    paging_inv s' ∧ mapped_frame s' p = None ∧
    (∀ q, is_page q → q ≠ p → q ≠ window_page s → mapped_frame s' q = mapped_frame s q) ∧
    client_kept (.= p) (ps_mach s) (ps_mach s') ∧
    range_update (ps_frames s) (ps_frames s') (f / PAGE_SIZE) (f / PAGE_SIZE + 1) false.
Proof.
  intros Hs Hp Hf. pose proof (free_page_mapped s p f Hs Hp Hf) as H.
  apply wp_inv in H as ([ret s'] & Heq & -> & _ & H1 & H2 & H3 & H4 & _ & H5). by exists s'.
Qed.

Lemma i386_free_page_correct_witness :
  ∃ s', i386_free_page (ps_pd demo_mapped) (400 * PAGE_SIZE) demo_mapped = Ret (K_SUCCESS, s') ∧
    paging_inv s' ∧ mapped_frame s' 400 = None.
Proof.
  destruct (i386_free_page_correct demo_mapped 400 0x17c000 demo_mapped_inv demo_page
    demo_mapped_frame) as (s' & H1 & H2 & H3 & _).
  exact (ex_intro _ s' (conj H1 (conj H2 H3))).
Defined.

(** Refinement: the i386 functions behind [kpaging_data.interface]
    implement the abstract page mapper that the heap is verified against. *)
Theorem i386_paging_refines_page_mapper :
  PageMapper i386_paging_interface paging_inv mapped_frame.
Proof. exact i386_page_mapper. Qed.

(** C9: the window.  [get_virt_ptr] returns the window's address, the window
    page then translates to the requested page frame, and no other
    translation, table entry or page content has changed. *)
Theorem get_virt_ptr_correct s phys :
  paging_inv s → is_u32 phys → phys mod PAGE_SIZE = 0 →
  ∃ m, get_virt_ptr phys s = Ret (ps_window s, set_mach s m) ∧
    paging_inv (set_mach s m) ∧ kept (window_page s) (λ _, False) (ps_mach s) m ∧
    walk m (window_page s) = Some phys.
Proof. apply get_virt_ptr_spec. Qed.

Lemma get_virt_ptr_correct_witness :
  ∃ m, get_virt_ptr 0x200000 demo_sys = Ret (ps_window demo_sys, set_mach demo_sys m) ∧
    walk m (window_page demo_sys) = Some 0x200000.
Proof.
  destruct (get_virt_ptr_correct demo_sys 0x200000 demo_sys_inv) as (m & H1 & _ & _ & H2);
    [split; [discriminate|reflexivity]|reflexivity|].
  exact (ex_intro _ m (conj H1 H2)).
Defined.

(** C10: [i386_paging_init] turns the unpaged machine into the running system:
    the invariant holds, the early region is mapped to itself, everything above
    it is unmapped, and the window lies one page past the early heap. *)
Theorem i386_paging_init_correct s :
  boot_ready s →
  ∃ s', i386_paging_init s = Ret s' ∧ paging_inv s' ∧ ps_fault_handler s' = true ∧
    ps_window s' = kernel_heap_start (ps_meminfo s) + EARLY_HEAP_MAXSIZE + PAGE_SIZE ∧
    page_size (ps_kpaging s') = PAGE_SIZE ∧
    (∀ p, early_page (window_page s') p → mapped_frame s' p = Some (p * PAGE_SIZE)) ∧
    (∀ p, client_page p → mapped_frame s' p = None).
Proof. apply paging_init_run. Qed.

(** 4 MiB of memory, nothing allocated. *)
Definition demo_meminfo : i386_mem_info :=
  MemInfo 0 0 0 0 0 0x100000 0x10f000 0 0 0x110000 0x110080 640 3072 0x400000.
Definition demo_unpaged : paging_state :=
  PagingState demo_machine (Bitset 1024 (replicate 32 0)) demo_meminfo 0 0 false kpaging_data_zero
    false.

Lemma demo_unpaged_ready : boot_ready demo_unpaged.
Proof.
  split; try (by vm_compute).
  - split; [split; [by vm_compute|by vm_compute|]|by vm_compute|by vm_compute].
    apply Forall_replicate. by vm_compute.
Qed.

Lemma i386_paging_init_correct_witness :
  ∃ s', i386_paging_init demo_unpaged = Ret s' ∧ paging_inv s'.
Proof.
  destruct (i386_paging_init_correct demo_unpaged demo_unpaged_ready) as (s' & H1 & H2 & _).
  exact (ex_intro _ s' (conj H1 H2)).
Defined.

(** ** Where the code falls short *)

(** C17: freeing a page twice.  The second call also reports success, although
    the page is already free, and clears the bit of frame 0; from then on
    [i386_mem_allocate_frame] finds frame 0 and returns the value that means
    "out of memory", however many frames are free. *)
Theorem i386_double_free_starves s p f :
  paging_inv s → client_page p → mapped_frame s p = Some f → 0 < n_frames (ps_frames s) →
  ∃ s1 s2, i386_free_page (ps_pd s) (p * PAGE_SIZE) s = Ret (K_SUCCESS, s1) ∧
    i386_free_page (ps_pd s1) (p * PAGE_SIZE) s1 = Ret (K_SUCCESS, s2) ∧
    bit (ps_frames s1) 0 = true ∧ bit (ps_frames s2) 0 = false ∧
    i386_mem_allocate_frame (ps_meminfo s2) (ps_frames s2) = Ret (0, ps_frames s2).
Proof.
  intros Hs Hp Hf Hn. pose proof (free_page_mapped s p f Hs Hp Hf) as H.
  apply wp_inv in H as ([ret s1] & Heq & -> & _ & Hs1 & _ & _ & Hup & (T & HT & Hpte) & _).
  assert (Hn1 : 0 < n_frames (ps_frames s1)).
  { destruct Hup as (_ & Hl & _). unfold n_frames in *. by rewrite Hl. }
  destruct (free_page_again s1 p T Hs1 Hp HT Hpte Hn1) as (s2 & H1 & H2 & H3 & H4).
  by exists s1, s2.
Qed.

Lemma i386_double_free_starves_witness :
  ∃ s1 s2, i386_free_page (ps_pd demo_mapped) (400 * PAGE_SIZE) demo_mapped = Ret (K_SUCCESS, s1) ∧
    i386_free_page (ps_pd s1) (400 * PAGE_SIZE) s1 = Ret (K_SUCCESS, s2).
Proof.
  destruct (i386_double_free_starves demo_mapped 400 0x17c000 demo_mapped_inv demo_page
    demo_mapped_frame demo_mapped_frames) as (s1 & s2 & H1 & H2 & _).
  exact (ex_intro _ s1 (ex_intro _ s2 (conj H1 H2))).
Defined.

(** Identity mapping without memory.  When the page table is missing and
    no frame is left for it, [i386_identity_map_page] returns the code [K_OOM],
    which its caller takes for a table entry: [kpage_identity_map] reports
    success and the page is not mapped. *)
Theorem identity_map_oom_success s p fl :
  paging_inv s → client_page p → (∀ T, ¬ has_table (ps_mach s) (p / 1024) T) →
  i386_mem_allocate_frame (ps_meminfo s) (ps_frames s) = Ret (0, ps_frames s) →
  ∃ s', kpage_identity_map i386_paging_interface (p * PAGE_SIZE) fl s = Ret (K_SUCCESS, s') ∧
    mapped_frame s' p = None.
Proof.
  intros Hs Hp HT Hoom. destruct (client_slot p Hp) as (_ & Hdiv & Hmod & Ht & Hi & Hsplit).
  unfold kpage_identity_map. change (kpi_identity_map i386_paging_interface)
    with (Some i386_kpage_identity_map). unfold installed. rewrite Ret_bind.
  unfold i386_kpage_identity_map, i386_identity_map_page.
  rewrite Hmod, Hdiv, Z.eqb_refl. simpl assert. rewrite Ret_bind. unfold ensure_table.
  destruct (open_dir s _ Hs Ht) as (m1 & m2 & -> & Hl & Hs2 & Hk2 & Hw2).
  rewrite Ret_bind, Hl, Ret_bind, present_test.
  assert (Hpres : entry_present (pde (ps_mach s) (p / 1024)) = false).
  { destruct (entry_present _) eqn:He; [|done]. exfalso. eapply HT. split; [done|].
    unfold entry_target. by rewrite He. }
  rewrite Hpres. simpl negb. cbv iota.
  unfold allocate_page_table. rewrite (pi_done _ Hs2).
  change (ps_meminfo (set_mach s m2)) with (ps_meminfo s).
  change (ps_frames (set_mach s m2)) with (ps_frames s).
  rewrite Hoom. simpl. eexists. split; [done|]. unfold mapped_frame, walk. simpl.
  rewrite (k_pde _ _ _ _ Hk2) by done. unfold entry_target at 1. by rewrite Hpres.
Qed.

(** The demonstration system with every frame taken. *)
Definition demo_full : paging_state :=
  set_frames demo_sys (Bitset 1024 (replicate 32 (2 ^ 32 - 1))).

Lemma bit_full len (k : nat) n :
  0 ≤ n < 32 * Z.of_nat k → bit (Bitset len (replicate k (2 ^ 32 - 1))) n = true.
Proof.
  intros Hn. unfold bit. cbn [bs_start]. rewrite lookup_replicate_2 by div_lia.
  change (Z.testbit (Z.ones 32) (n mod 32) = true). apply Z.ones_spec_low.
  apply Z.mod_pos_bound. lia.
Qed.

Lemma demo_full_checked :
  (highest_free_address (ps_meminfo demo_full),
   entry_target (pde (ps_mach demo_full) 2),
   i386_mem_allocate_frame (ps_meminfo demo_full) (ps_frames demo_full))
  = (0x400000, None, Ret (0, ps_frames demo_full)).
Proof. vm_compute. reflexivity. Qed.

Lemma demo_sys_high : highest_free_address (ps_meminfo demo_sys) = 0x400000.
Proof. exact (f_equal (λ x, fst (fst x)) demo_full_checked). Qed.

Lemma demo_full_inv : paging_inv demo_full.
Proof.
  apply paging_inv_frames; [exact demo_sys_inv|].
  pose proof (pi_core _ demo_sys_inv) as Hc.
  pose proof (frames_length _ _ (pc_frames _ _ _ _ _ Hc)) as Hlen. rewrite demo_sys_high in Hlen.
  refine (core_frames _ _ _ _ _ _ Hc _ _).
  - split; [split|rewrite demo_sys_high; vm_compute; split; [discriminate|reflexivity]|].
    + vm_compute. split; [discriminate|reflexivity].
    + vm_compute. discriminate.
    + apply Forall_replicate. vm_compute. split; [discriminate|reflexivity].
    + rewrite demo_sys_high. reflexivity.
  - intros a _ (H1 & H2 & _). rewrite Hlen in H2. change (0x400000 / PAGE_SIZE) with 1024 in H2.
    split; [exact H1|]. split; [exact H2|]. apply bit_full. clear - H2. lia.
Qed.

Lemma demo_full_no_table T : ¬ has_table (ps_mach demo_full) 2 T.
Proof.
  pose proof (f_equal (λ x, snd (fst x)) demo_full_checked
    : entry_target (pde (ps_mach demo_full) 2) = None) as H.
  intros [_ HT]. rewrite H in HT. discriminate HT.
Qed.

Lemma demo_full_exhausted :
  i386_mem_allocate_frame (ps_meminfo demo_full) (ps_frames demo_full) = Ret (0, ps_frames demo_full).
Proof. exact (f_equal snd demo_full_checked). Qed.

Lemma identity_map_oom_success_witness :
  ∃ s', kpage_identity_map i386_paging_interface (2048 * PAGE_SIZE) 3 demo_full = Ret (K_SUCCESS, s') ∧
    mapped_frame s' 2048 = None.
Proof.
  apply (identity_map_oom_success demo_full 2048 3).
  - apply demo_full_inv.
  - vm_compute. split; [discriminate|reflexivity].
  - exact demo_full_no_table.
  - exact demo_full_exhausted.
Defined.
