(* ===== verification/KheapDemo.v ===== *)
(** The kernel heap on the demonstration machine of Boot.v: concrete instances
    of the heap's theorems over the i386 paging system. *)
From stdpp Require Import base numbers list gmap.
From Stdlib Require Import ZArith Lia.
From S2P Require Import Prelude Kernel Bitset Alloc Meminfo EarlyHeap Frames Machine KPaging Asa.
From S2P Require Import Paging Window PagingSpec PagingInit Kheap KheapBlock KheapSpec KheapProps.
From S2P Require Import Boot.

(** [live], decided. *)
Definition live_check (b : kheap_block) (lo hi : Z) : bool :=
  (0 <=? lo) && (lo <? hi) && (hi <=? n_sections b) &&
  forallb (λ n, bit (used_sections b) n) (seqZ lo (hi - lo)) &&
  forallb (λ n, negb (bit (delimiters b) n)) (seqZ lo (hi - 1 - lo)) &&
  bit (delimiters b) (hi - 1).

Lemma live_check_live b lo hi : live_check b lo hi = true → live b lo hi.
Proof.
  unfold live_check. rewrite !andb_true_iff, Z.leb_le, Z.ltb_lt, Z.leb_le, !forallb_forall.
  intros (((((H1 & H2) & H3) & H4) & H5) & H6). split_and!; try done.
  - intros n Hn. apply H4, list_elem_of_In, elem_of_seqZ. lia.
  - intros n Hn. apply negb_true_iff, H5, list_elem_of_In, elem_of_seqZ. lia.
Qed.

(** One allocation of 100 bytes, then 50 bytes at a page boundary through
    [kmalloc].  One evaluation answers everything the examples below ask. *)
Definition demo_kalloc : kalloc_interface (heap_state paging_state) :=
  KallocInterface (Some (kheap_kalloc_malloc_real i386_paging_interface PAGE_SIZE))
    (Some kheap_kalloc_free).
Definition demo_call : outcome (Z * Z * heap_state paging_state) :=
  kheap_malloc i386_paging_interface PAGE_SIZE 100 0 demo_state.
Definition demo_heap1 : heap_state paging_state := last_state demo_state demo_call.
Definition demo_kmalloc2 (st : heap_state paging_state) : outcome (Z * heap_state paging_state) :=
  kmalloc demo_kalloc 50 (Z.lor KALLOC_GENERAL KALLOC_PAGE_ALIGN) st.

(** The block [b] holds the 100 bytes in its sections 1047 to 1053. *)
Definition demo_block_check (b : kheap_block) : bool :=
  (block_start b =? 1556480) && (meta_sections b <=? 1047) && live_check b 1047 1054.

Definition demo_check (r : outcome (Z * Z * heap_state paging_state)) : bool :=
  match r with
  | Ret (ret, addr, st) =>
      (ret =? K_SUCCESS) && (addr =? 1573232) && from_option demo_block_check false (head (first (hs_heap st))) &&
      match demo_kmalloc2 st with Ret (p, _) => p =? 1576960 | _ => false end
  | _ => false
  end.

Lemma demo_check_sound r :
  demo_check r = true →
  let st := last_state demo_state r in
  r = Ret (K_SUCCESS, 1573232, st) ∧
  (∃ b, b ∈ first (hs_heap st) ∧ block_start b = 1556480 ∧ meta_sections b ≤ 1047 ∧ live b 1047 1054) ∧
  demo_kmalloc2 st = Ret (1576960, last_state st (demo_kmalloc2 st)).
Proof.
  destruct r as [[[ret addr] st]| | |]; cbn [demo_check last_state]; [|done..].
  rewrite !andb_true_iff, !Z.eqb_eq. intros [[[-> ->] Hb] Hk]. split; [done|]. split.
  - destruct (first (hs_heap st)) as [|b l]; simpl in Hb; [done|]. unfold demo_block_check in Hb.
    rewrite !andb_true_iff, Z.eqb_eq, Z.leb_le in Hb. destruct Hb as [[H1 H2] H3].
    exists b. split; [left|]. split; [done|]. split; [done|]. by apply live_check_live.
  - destruct (demo_kmalloc2 st) as [[p st2]| | |]; [|done..]. apply Z.eqb_eq in Hk. by rewrite Hk.
Qed.

Lemma demo_call_checked : demo_check demo_call = true.
Proof. vm_compute. reflexivity. Qed.

Lemma demo_call_eq :
  kheap_malloc i386_paging_interface PAGE_SIZE 100 0 demo_state = Ret (K_SUCCESS, 1573232, demo_heap1).
Proof. exact (proj1 (demo_check_sound demo_call demo_call_checked)). Qed.

Lemma demo_block1 :
  ∃ b, b ∈ first (hs_heap demo_heap1) ∧ block_start b = 1556480 ∧ meta_sections b ≤ 1047 ∧ live b 1047 1054.
Proof. exact (proj1 (proj2 (demo_check_sound demo_call demo_call_checked))). Qed.

Lemma demo_heap1_inv : heap_inv paging_inv mapped_frame demo_heap1.
Proof.
  refine (last_state_wp demo_state demo_call _ (heap_inv paging_inv mapped_frame)
    (kheap_malloc_outcome i386_paging_interface paging_inv mapped_frame 100 0 demo_state
      (proj1 demo_state_ok) _ _) _).
  - clear. lia.
  - clear. unfold PAGE_SIZE. lia.
  - intros [ret addr] st' [H _]. exact H.
Qed.

#[global] Opaque demo_heap1.

(** Allocation at work. *)
Lemma kheap_malloc_sound_witness :
  ∃ ret addr st', kheap_malloc i386_paging_interface PAGE_SIZE 100 4096 demo_state
    = Ret (ret, addr, st') ∧ heap_inv paging_inv mapped_frame st'.
Proof.
  destruct (kheap_malloc_sound i386_paging_interface paging_inv mapped_frame 100 4096 demo_state
    (proj1 demo_state_ok)) as (ret & addr & st' & H1 & H2 & _);
    [split; [discriminate|reflexivity]|split; [discriminate|discriminate]|].
  exact (ex_intro _ ret (ex_intro _ addr (ex_intro _ st' (conj H1 H2)))).
Defined.

(** Freeing at work: the allocation of 100 bytes is freed. *)
Lemma kheap_free_correct_witness :
  ∃ heap', kheap_free 1573232 (hs_heap demo_heap1) = Ret (true, heap').
Proof.
  assert (Hinv : heap_inv paging_inv mapped_frame
            (HeapState (hs_heap demo_heap1) (hs_asa demo_heap1) (hs_sys demo_heap1))).
  { pose proof demo_heap1_inv as H. destruct demo_heap1. exact H. }
  destruct demo_block1 as (b & Hb & Hst & Hm & Hlive).
  destruct (kheap_free_correct paging_inv mapped_frame (hs_heap demo_heap1) (hs_asa demo_heap1)
    (hs_sys demo_heap1) b 1573232 1047 1054 Hinv (conj Hb (conj Hlive Hm))) as (heap' & _ & _ & _ & H & _).
  { rewrite Hst. split; [discriminate|reflexivity]. }
  exact (ex_intro _ heap' H).
Defined.

(** C7 at work. *)
Lemma kheap_roundtrip_witness :
  ∃ heap2 new, kheap_free 1573232 (hs_heap demo_heap1) = Ret (true, heap2) ∧
    Forall2 block_equiv (new ++ first (hs_heap demo_state)) (first heap2).
Proof.
  destruct (kheap_roundtrip i386_paging_interface paging_inv mapped_frame 100 demo_state 1573232
    demo_heap1 (proj1 demo_state_ok)) as (heap2 & new & H1 & _ & H2 & _);
    [split; [discriminate|reflexivity]|exact demo_call_eq|].
  exact (ex_intro _ heap2 (ex_intro _ new (conj H1 H2))).
Defined.


(** The leak of an aligned allocation at work: a block of one page, an
    allocation of 20 sections freed from its sixth section on. *)
Lemma small_block_add :
  ∃ b, block_ok b ∧ (∃ addr b1, malloc_in_block 320 0 false b = Ret (Some (addr, b1, 20)) ∧
    takes_sections b b1 7 20 ∧ block_ok b1) ∧ block_start b = 1556480.
Proof.
  destruct (add_block_spec kheap_zero 380 1) as (b & _ & Hf & Hst & Hsz); [lia|by vm_compute|by vm_compute|].
  exists b. split; [apply Hf|]. split; [|by rewrite Hst].
  assert (Hm : meta_sections b = 7) by (unfold meta_sections; by rewrite Hsz).
  destruct (malloc_in_fresh_block 320 0 false b Hf) as (addr & b1 & H1 & H2 & H3 & _).
  - split; [lia|]. split; [unfold PAGE_SIZE; lia|done].
  - destruct (block_bounds b (fb_ok _ Hf)) as (Hn & _). unfold usable. rewrite Hm, Hn, Hsz. by vm_compute.
  - rewrite Hm in H2. exists addr, b1. split; [exact H1|]. split; [exact H2|exact H3].
Qed.

Lemma aligned_free_leaks_witness :
  ∃ b b1 b2, takes_sections b b1 7 20 ∧ free_in_block (1556480 + 16 * 12) b1 = Ret (b2, 15) ∧
    free_sections b2 = free_sections b - 5.
Proof.
  destruct small_block_add as (b & Hb & (addr & b1 & _ & Ht & Hb1) & Hst).
  destruct (aligned_free_leaks b b1 7 20 (1556480 + 16 * 12) 12 Hb Hb1 Ht) as (b2 & H1 & H2 & _).
  - split; reflexivity.
  - rewrite Hst. split; [discriminate|reflexivity].
  - exact (ex_intro _ b (ex_intro _ b1 (ex_intro _ b2 (conj Ht (conj H1 H2))))).
Defined.

(** Memory handed out by two calls of [kmalloc] in a row, whatever their
    flags, never overlaps, and the heap's invariant holds afterwards. *)
Theorem kernel_kmalloc_disjoint size1 size2 fl1 fl2 st p1 p2 st1 st2 :
  let ki := KallocInterface (Some (kheap_kalloc_malloc_real i386_paging_interface PAGE_SIZE))
              (Some kheap_kalloc_free) in
  heap_inv paging_inv mapped_frame st →
  1 ≤ size1 < 2 ^ 31 → 1 ≤ size2 < 2 ^ 31 → is_u32 fl1 → is_u32 fl2 →
  kmalloc ki size1 fl1 st = Ret (p1, st1) → kmalloc ki size2 fl2 st1 = Ret (p2, st2) →
  p1 ≠ 0 → p2 ≠ 0 → ∀ a, ¬ (p1 ≤ a < p1 + size1 ∧ p2 ≤ a < p2 + size2).
Proof. intros ki. apply (kmalloc_disjoint ki). Qed.

(** Two calls at work: 100 bytes, then 50 bytes at a page boundary. *)
Lemma demo_kmalloc_general size st addr st' :
  kheap_malloc i386_paging_interface PAGE_SIZE size 0 st = Ret (K_SUCCESS, addr, st') →
  kmalloc demo_kalloc size KALLOC_GENERAL st = Ret (addr, st').
Proof.
  intros H. unfold kmalloc, demo_kalloc, installed. cbn [ki_malloc_real]. rewrite Ret_bind.
  unfold kheap_kalloc_malloc_real. change (has_flag KALLOC_GENERAL KALLOC_PAGE_ALIGN) with false. cbv iota.
  rewrite H. reflexivity.
Qed.

Lemma demo_kmalloc1_eq : kmalloc demo_kalloc 100 KALLOC_GENERAL demo_state = Ret (1573232, demo_heap1).
Proof. exact (demo_kmalloc_general 100 demo_state 1573232 demo_heap1 demo_call_eq). Qed.

Definition demo_heap2 : heap_state paging_state := last_state demo_heap1 (demo_kmalloc2 demo_heap1).

Lemma demo_kmalloc2_eq :
  kmalloc demo_kalloc 50 (Z.lor KALLOC_GENERAL KALLOC_PAGE_ALIGN) demo_heap1 = Ret (1576960, demo_heap2).
Proof. exact (proj2 (proj2 (demo_check_sound demo_call demo_call_checked))). Qed.

#[global] Opaque demo_heap2 demo_kalloc.

Lemma kernel_kmalloc_disjoint_witness :
  ∃ p1 p2 st1 st2, kmalloc demo_kalloc 100 KALLOC_GENERAL demo_state = Ret (p1, st1) ∧
    kmalloc demo_kalloc 50 (Z.lor KALLOC_GENERAL KALLOC_PAGE_ALIGN) st1 = Ret (p2, st2) ∧
    ∀ a, ¬ (p1 ≤ a < p1 + 100 ∧ p2 ≤ a < p2 + 50).
Proof.
  exists 1573232, 1576960, demo_heap1, demo_heap2.
  refine (conj demo_kmalloc1_eq (conj demo_kmalloc2_eq _)).
  refine (kernel_kmalloc_disjoint 100 50 KALLOC_GENERAL (Z.lor KALLOC_GENERAL KALLOC_PAGE_ALIGN)
    demo_state 1573232 1576960 demo_heap1 demo_heap2
    (proj1 demo_state_ok) _ _ _ _ demo_kmalloc1_eq demo_kmalloc2_eq _ _).
  - split; [discriminate|reflexivity].
  - split; [discriminate|reflexivity].
  - split; [discriminate|reflexivity].
  - split; [discriminate|reflexivity].
  - discriminate.
  - discriminate.
Defined.
