(* ===== verification/MemProps.v ===== *)
(** Main theorems on the allocators below the heap: bitsets, frames, address
    space, the memory map; with concrete instances. *)
From stdpp Require Import base numbers list gmap.
From Stdlib Require Import ZArith Lia.
From S2P Require Import Prelude Kernel Bitset Alloc Meminfo EarlyHeap Frames Machine KPaging Asa.
From S2P Require Import Paging Kheap KheapBlock Boot.

(** ** Bitsets *)

(** C16: a bitset is a set of indices.  Inside the bounds, reading an entry
    returns nonzero exactly when it is in the set, setting and clearing change
    that entry only; outside, each operation stops at its assertion. *)
Theorem bitset_refines_set b n :
  bs_wf b → 0 ≤ n →
  (n < bs_length b →
     (∃ v, bitset_get_bit b n = Ret v ∧ truthy v = bit b n) ∧
     (∃ b', bitset_set_bit b n = Ret b' ∧ range_update b b' n (n + 1) true) ∧
     (∃ b', bitset_clear_bit b n = Ret b' ∧ range_update b b' n (n + 1) false)) ∧
  (bs_length b ≤ n →
     bitset_get_bit b n = Abort ∧ bitset_set_bit b n = Abort ∧ bitset_clear_bit b n = Abort).
Proof.
  intros Hwf Hn. split; intros Hin.
  - split; [by apply bitset_get_bit_spec|]. split.
    + by apply bitset_set_bit_spec.
    + by apply bitset_clear_bit_spec.
  - unfold bitset_get_bit, bitset_set_bit, bitset_clear_bit, assert.
    destruct (Z.ltb_spec n (bs_length b)); [lia|done].
Qed.

Definition demo_bitset : bitset := Bitset 40 [5; 128].
Lemma demo_bitset_wf : bs_wf demo_bitset.
Proof. split; [by vm_compute|by vm_compute|]. repeat constructor; by vm_compute. Qed.

Lemma bitset_refines_set_witness :
  (∃ v, bitset_get_bit demo_bitset 39 = Ret v ∧ truthy v = true) ∧ bitset_set_bit demo_bitset 40 = Abort.
Proof.
  split.
  - apply (bitset_refines_set demo_bitset 39 demo_bitset_wf); [lia|reflexivity].
  - apply (bitset_refines_set demo_bitset 40 demo_bitset_wf); [lia|discriminate].
Defined.

(** ** Page frames *)

(** C14: the frame allocator.  A nonzero result is the lowest free frame, and
    exactly that frame becomes used.  Zero changes nothing and is returned when
    no frame is free in the words the search covers, or when frame 0 itself is
    free. *)
Theorem i386_mem_allocate_frame_lowest meminfo b :
  frames_inv meminfo b →
  ∃ f b', i386_mem_allocate_frame meminfo b = Ret (f, b') ∧
    ((0 < f < n_frames b ∧ bit b f = false ∧ (∀ n, 0 ≤ n < f → bit b n = true) ∧
      frames_inv meminfo b' ∧ range_update b b' f (f + 1) true)
     ∨ (f = 0 ∧ b' = b ∧ ((∀ n, 0 ≤ n < n_frames b → bit b n = true) ∨ bit b 0 = false))).
Proof.
  intros Hinv. pose proof (allocate_frame_spec meminfo b Hinv) as H.
  apply wp_inv in H as ([f b'] & Heq & H). by exists f, b'.
Qed.

Definition demo_frames : bitset := Bitset 64 [0xFFFFFFFF; 7].
Definition demo_frames_info : i386_mem_info := MemInfo 0 0 0 0 0 0 0 0 0 0 0 0 0 0x40000.
Lemma demo_frames_inv : frames_inv demo_frames_info demo_frames.
Proof.
  split; [split; [by vm_compute|by vm_compute|repeat constructor; by vm_compute]|by vm_compute|done].
Qed.

Lemma i386_mem_allocate_frame_lowest_witness :
  ∃ f b', i386_mem_allocate_frame demo_frames_info demo_frames = Ret (f, b').
Proof.
  destruct (i386_mem_allocate_frame_lowest demo_frames_info demo_frames demo_frames_inv)
    as (f & b' & H & _).
  exact (ex_intro _ f (ex_intro _ b' H)).
Defined.

(** ** The memory map *)

Lemma i386_mem_init_spec_witness :
  ∃ st, i386_mem_init demo_mem 0x9000 = Ret st ∧ frames_inv (ms_meminfo st) (ms_bitset st).
Proof.
  destruct (i386_mem_init_spec demo_mem 0x9000) as (st & H1 & _ & H2 & _).
  - exact (bk_mmap_flag _ _ _ demo_boot_ok).
  - exact (bk_elf_flag _ _ _ demo_boot_ok).
  - exact (bk_mmap _ _ _ demo_boot_ok).
  - vm_compute. split; discriminate.
  - vm_compute. split; reflexivity.
  - exact (ex_intro _ st (conj H1 H2)).
Defined.

Lemma demo_mmap_at :
  mmap_at demo_mem 0x9100 [read_mmap_entry demo_mem 0x9100] (0x9100 + 24).
Proof.
  eapply mmap_at_cons; [reflexivity|discriminate|vm_compute; discriminate|vm_compute; reflexivity|].
  replace (0x9100 + (me_size (read_mmap_entry demo_mem 0x9100) + 4)) with (0x9100 + 24)
    by (vm_compute; reflexivity).
  apply mmap_at_nil.
Qed.

(** Free pages of the demonstration machine: one far from the kernel, one
    right behind the page in which its last section starts. *)
Lemma i386_mem_check_reserved_exact_witness :
  page_clear 0x200000 0x100000 0x108000 ∧ free_in_map [read_mmap_entry demo_mem 0x9100] 0x109000.
Proof.
  split.
  - destruct (i386_mem_check_reserved_exact demo_mem (meminfo_of_header demo_mem 0x9000)
      [read_mmap_entry demo_mem 0x9100] 0x200000) as [[H _] _];
      [exact demo_mmap_at|vm_compute; discriminate|vm_compute; reflexivity|discriminate|reflexivity|reflexivity
      |vm_compute; reflexivity|vm_compute; discriminate|].
    apply H. vm_compute. reflexivity.
  - destruct (i386_mem_check_reserved_exact demo_mem (meminfo_of_header demo_mem 0x9000)
      [read_mmap_entry demo_mem 0x9100] 0x109000) as [[H _] _];
      [exact demo_mmap_at|vm_compute; discriminate|vm_compute; reflexivity|discriminate|reflexivity|reflexivity
      |vm_compute; reflexivity|vm_compute; discriminate|].
    apply H. vm_compute. reflexivity.
Defined.

(** ** The address-space allocator *)

(** C11: [asa_alloc] is first fit.  It returns the lowest run of [n] free pages
    above the reserved region and marks exactly that run, or null with nothing
    changed when no run is long enough. *)
Theorem asa_alloc_first_fit n k :
  asa_inv k → 1 ≤ n →
  ∃ p k', asa_alloc n k = Ret (p, k') ∧ asa_inv k' ∧
    ((∃ f, p = f * PAGE_SIZE ∧ reserved_pages ≤ f ∧ free_run k f n ∧
           (∀ f', f' < f → ¬ free_run k f' n) ∧
           range_update (kasa_pages k) (kasa_pages k') f (f + n) true ∧
           asa_free_pages k' = asa_free_pages k - n)
     ∨ (p = 0 ∧ k' = k ∧ ∀ f, ¬ free_run k f n)).
Proof.
  intros Hinv Hn. pose proof (asa_alloc_spec n k Hinv Hn) as H.
  apply wp_inv in H as ([p k'] & Heq & H). by exists p, k'.
Qed.

Lemma asa_alloc_first_fit_witness :
  ∃ p k', asa_alloc 3 (hs_asa demo_state) = Ret (p, k') ∧ asa_inv k'.
Proof.
  destruct (asa_alloc_first_fit 3 (hs_asa demo_state)) as (p & k' & H1 & H2 & _).
  - exact (KheapSpec.hi_asa _ _ _ (proj1 demo_state_ok)).
  - discriminate.
  - exact (ex_intro _ p (ex_intro _ k' (conj H1 H2))).
Defined.

(** [asa_free] gives nothing back when the run starts at or above its own
    length in pages, which every run of fewer than 380 pages does: the address
    space leaks. *)
Theorem asa_free_leaks n f k :
  asa_inv k → reserved_pages ≤ f → 1 ≤ n ≤ reserved_pages →
  asa_free (f * PAGE_SIZE) n k = Ret (K_SUCCESS, k).
Proof.
  intros Hinv Hf Hn. apply asa_free_noop; [apply Hinv|]. rewrite Z.div_mul by done. lia.
Qed.

Lemma asa_free_leaks_witness :
  asa_free (400 * PAGE_SIZE) 2 (hs_asa demo_state) = Ret (K_SUCCESS, hs_asa demo_state).
Proof.
  apply (asa_free_leaks 2 400).
  - exact (KheapSpec.hi_asa _ _ _ (proj1 demo_state_ok)).
  - vm_compute. discriminate.
  - vm_compute. split; discriminate.
Defined.

(** ** Arithmetic *)

(** [DIV_ROUND_UP] is the exact ceiling on nonzero 32-bit operands; at zero
    the subtraction wraps and the result is the largest quotient plus one. *)
Theorem DIV_ROUND_UP_correct a b :
  2 ≤ b →
  (1 ≤ a < 2 ^ 32 → DIV_ROUND_UP a b = Ret (ceil_div a b)) ∧
  DIV_ROUND_UP 0 b = Ret ((2 ^ 32 - 1) / b + 1).
Proof.
  intros Hb. split.
  - intros Ha. apply DIV_ROUND_UP_ceil; lia.
  - by apply DIV_ROUND_UP_zero.
Qed.

Lemma DIV_ROUND_UP_correct_witness : DIV_ROUND_UP 33 32 = Ret 2 ∧ DIV_ROUND_UP 0 32 = Ret 134217728.
Proof.
  split.
  - apply (proj1 (DIV_ROUND_UP_correct 33 32 ltac:(lia))). lia.
  - exact (proj2 (DIV_ROUND_UP_correct 0 32 ltac:(lia))).
Defined.

(** ** The search for sections *)

(** After the search of [kheap_malloc] has wrapped around, a run of two or
    more free sections is never found if a free section was seen before: here
    the hint is the last section and that section is free. *)
Theorem section_scan_misses used n :
  bs_wf used → 1 < bs_length used < 2 ^ 30 → 2 ≤ n → bit used (bs_length used - 1) = false →
  ∃ st, for_return 0 (bs_length used) (section_scan_step used (bs_length used - 1) n) (0, 0)
        = Ret (Continue st).
Proof.
  intros Hwf HL Hn Hlast. set (L := bs_length used) in *.
  enough (H : wp (for_return 0 L (section_scan_step used (L - 1) n) (0, 0))
            (λ r, ∃ st, r = Continue st)).
  { apply wp_inv in H as (r & -> & st & ->). by exists st. }
  apply (wp_for_return (λ k '(ff, c), (k = 0 → ff = 0 ∧ c = 0) ∧ (0 < k → ff = L - 1 ∧ 0 ≤ c ≤ 1)));
    [lia|lia| |by eauto].
  intros k [ff c] Hk [Hz Hp]. unfold section_scan_step. fold L.
  rewrite umod_pos, Ret_bind by lia. rewrite u32_small by u32_lia.
  destruct (decide (k = 0)) as [->|Hk0].
  - destruct (Hz eq_refl) as [-> ->]. rewrite Z.mod_small by lia.
    destruct (bitset_get_bit_spec used Hwf (L - 1 + 0)) as (v & -> & Hv); [fold L; lia|].
    rewrite Ret_bind. rewrite Z.add_0_r, Hlast in Hv. apply truthy_false in Hv as ->.
    rewrite Z.eqb_refl. destruct (Z.ltb_spec (L - 1 + 0) 0); [lia|].
    change (0 ⊕ 1) with 1. destruct (Z.eqb_spec 1 n); [lia|]. apply wp_ret. split; [lia|]. lia.
  - destruct Hp as [-> Hc]; [lia|].
    assert (Hi : (L - 1 + k) mod L = k - 1).
    { replace (L - 1 + k) with (k - 1 + 1 * L) by lia. rewrite Z_mod_plus_full, Z.mod_small; lia. }
    rewrite Hi. destruct (bitset_get_bit_spec used Hwf (k - 1)) as (v & -> & _); [fold L; lia|].
    rewrite Ret_bind. destruct (Z.eqb_spec v 0); [|apply wp_ret; split; lia].
    destruct (Z.ltb_spec (k - 1) (L - 1)); [|lia]. change (0 ⊕ 1) with 1.
    destruct (Z.eqb_spec 1 n); [lia|]. apply wp_ret. split; lia.
Qed.

(** Sections 4 to 6 in use, hint 7, two sections wanted: the free run at 0 is
    missed. *)
Lemma section_scan_misses_witness :
  ∃ st, for_return 0 8 (section_scan_step (Bitset 8 [0x70]) 7 2) (0, 0) = Ret (Continue st).
Proof.
  apply (section_scan_misses (Bitset 8 [0x70]) 2).
  - split; [split; [discriminate|reflexivity]|discriminate|].
    repeat constructor; discriminate.
  - split; reflexivity.
  - discriminate.
  - reflexivity.
Defined.
