(* ===== verification/Digits.v ===== *)
(** Positional notation: the digits of a number, the text made of them and the
    number a text stands for.  [itoa] and [vprintf] are verified against it. *)
From stdpp Require Import base numbers list.
From Stdlib Require Import ZArith Lia.
From S2P Require Import Prelude.

(** * Definitions *)

(** Least significant digit first; at least one digit. *)
Fixpoint digits_fuel (fuel : nat) (base n : Z) : list Z :=
  match fuel with
  | O => []
  | S fuel' => n mod base :: (if 0 <? n / base then digits_fuel fuel' base (n / base) else [])
  end.

(** A number has at most as many digits as bits. *)
Definition digits (base n : Z) : list Z := digits_fuel (S (Z.to_nat (Z.log2 n))) base n.
#[global] Arguments digits : simpl never.

(** The character of a digit, and back. *)
Definition digit_char (d : Z) : Z := if d <? 10 then d + 48 else d + 87.
Definition char_digit (c : Z) : Z := if c <? 87 then c - 48 else c - 87.

(** The text of a number, most significant digit first. *)
Definition numeral (base n : Z) : list Z := map digit_char (rev (digits base n)).

(** The number a text stands for. *)
Definition read_numeral (base : Z) (text : list Z) : Z :=
  fold_left (λ acc c, acc * base + char_digit c) text 0.

(** * Lemmas *)

Section digits.
Context (base : Z) (Hbase : 2 ≤ base).

Lemma div_base n : 0 < n → 0 ≤ n / base < n.
Proof. intros Hn. split; [apply Z.div_pos; lia|]. apply Z.div_lt; lia. Qed.

Lemma digits_fuel_more n f1 f2 :
  0 ≤ n → (Z.to_nat (Z.log2 n) < f1)%nat → (Z.to_nat (Z.log2 n) < f2)%nat →
  digits_fuel f1 base n = digits_fuel f2 base n.
Proof.
  revert n f2. induction f1 as [|f1 IH]; intros n f2 Hn H1 H2; [lia|].
  destruct f2 as [|f2]; [lia|]. simpl. f_equal. destruct (Z.ltb_spec 0 (n / base)); [|done].
  assert (Hlog : Z.log2 (n / base) < Z.log2 n).
  { assert (Hle : Z.log2 (n / base) ≤ Z.log2 (n / 2)).
    { apply Z.log2_le_mono. apply Z.div_le_compat_l; lia. }
    assert (2 ≤ n). { destruct (decide (2 ≤ n)); [done|]. rewrite Z.div_small in H by lia. lia. }
    rewrite <- Z.div2_div in Hle. rewrite Z.div2_spec, Z.log2_shiftr in Hle by lia.
    pose proof (Z.log2_pos n). lia. }
  pose proof (Z.log2_nonneg (n / base)). apply IH; lia.
Qed.

(** The defining equation. *)
Lemma digits_step n :
  0 ≤ n → digits base n = n mod base :: (if 0 <? n / base then digits base (n / base) else []).
Proof.
  intros Hn. unfold digits at 1. simpl. f_equal. destruct (Z.ltb_spec 0 (n / base)) as [Hd|]; [|done].
  assert (Hn2 : 2 ≤ n). { destruct (decide (2 ≤ n)); [done|]. rewrite Z.div_small in Hd by lia. lia. }
  apply digits_fuel_more; [lia| |lia].
  assert (Hle : Z.log2 (n / base) ≤ Z.log2 (n / 2)).
  { apply Z.log2_le_mono. apply Z.div_le_compat_l; lia. }
  rewrite <- Z.div2_div in Hle. rewrite Z.div2_spec, Z.log2_shiftr in Hle by lia.
  pose proof (Z.log2_pos n). pose proof (Z.log2_nonneg (n / base)). lia.
Qed.

(** Induction along the digits. *)
Lemma digits_ind (P : Z → Prop) :
  (∀ n, 0 ≤ n → n / base = 0 → P n) → (∀ n, 0 ≤ n → 0 < n / base → P (n / base) → P n) →
  ∀ n, 0 ≤ n → P n.
Proof.
  intros H0 Hs. refine (Zlt_0_ind _ _). intros n IH Hn.
  destruct (decide (n / base = 0)); [by apply H0|].
  assert (0 < n). { destruct (decide (n = 0)) as [->|]; [by rewrite Z.div_0_l in n0 by lia|lia]. }
  pose proof (div_base n ltac:(done)). apply Hs; [done|lia|]. apply IH. lia.
Qed.

Lemma digits_range n : 0 ≤ n → Forall (λ d, 0 ≤ d < base) (digits base n).
Proof.
  revert n. apply digits_ind; intros n Hn Hd.
  - rewrite digits_step, Hd by done. repeat constructor; apply Z.mod_pos_bound; lia.
  - intros IH. rewrite digits_step by done. destruct (Z.ltb_spec 0 (n / base)); [|lia].
    constructor; [apply Z.mod_pos_bound; lia|done].
Qed.

Lemma digits_length_pos n : (0 < length (digits base n))%nat.
Proof. unfold digits. simpl. lia. Qed.

(** A number below [base ^ k] has at most [k] digits. *)
Lemma digits_length k n : 0 ≤ n < base ^ Z.of_nat k → (0 < k)%nat → (length (digits base n) ≤ k)%nat.
Proof.
  revert n. induction k as [|k IH]; intros n Hn Hk; [lia|]. rewrite digits_step by lia. cbn [length].
  destruct (Z.ltb_spec 0 (n / base)) as [Hd|]; [|cbn [length]; lia].
  enough (length (digits base (n / base)) ≤ k)%nat by lia.
  rewrite Nat2Z.inj_succ, Z.pow_succ_r in Hn by lia.
  assert (n / base < base ^ Z.of_nat k) by (apply Z.div_lt_upper_bound; [lia|apply Hn]).
  apply IH; [lia|]. destruct k; [|lia]. change (base ^ Z.of_nat 0) with 1 in *. lia.
Qed.

(** The most significant digit is nonzero, zero's own apart. *)
Lemma digits_last n : 0 < n → ∃ l d, digits base n = l ++ [d] ∧ 0 < d.
Proof.
  intros Hn. assert (Hn' : 0 ≤ n) by lia. revert n Hn' Hn.
  refine (digits_ind _ _ _); intros n Hn0 Hd.
  - intros Hn. exists [], (n mod base). rewrite digits_step, Hd by done. split; [done|].
    pose proof (Z.div_mod n base). lia.
  - intros IH _. destruct (IH Hd) as (l & d & Hl & Hd'). exists (n mod base :: l), d.
    rewrite digits_step by done. destruct (Z.ltb_spec 0 (n / base)); [|lia]. by rewrite Hl.
Qed.

Lemma numeral_step n :
  0 ≤ n → numeral base n =
    (if 0 <? n / base then numeral base (n / base) else []) ++ [digit_char (n mod base)].
Proof.
  intros Hn. unfold numeral. rewrite digits_step by done. simpl rev. rewrite map_app. simpl.
  by destruct (0 <? n / base).
Qed.

Lemma numeral_length n : length (numeral base n) = length (digits base n).
Proof. unfold numeral. by rewrite length_map, length_rev. Qed.

(** Reading back what was written. *)
Lemma read_numeral_numeral n : base ≤ 36 → 0 ≤ n → read_numeral base (numeral base n) = n.
Proof.
  intros Hb. revert n. refine (digits_ind _ _ _); intros n Hn Hd.
  2: intros IH. all: rewrite numeral_step by done.
  all: assert (Hc : char_digit (digit_char (n mod base)) = n mod base)
    by (pose proof (Z.mod_pos_bound n base); unfold digit_char, char_digit; repeat case_bool; lia).
  all: unfold read_numeral; rewrite fold_left_app; simpl fold_left; rewrite Hc.
  - rewrite Hd. simpl. pose proof (Z.div_mod n base). lia.
  - destruct (Z.ltb_spec 0 (n / base)); [|lia]. unfold read_numeral in IH. rewrite IH.
    pose proof (Z.div_mod n base). lia.
Qed.

(** No leading zero. *)
Lemma numeral_head n : base ≤ 36 → 0 < n → ∃ c l, numeral base n = c :: l ∧ c ≠ 48.
Proof.
  intros Hb Hn. destruct (digits_last n Hn) as (l & d & Hl & Hd).
  pose proof (digits_range n ltac:(lia)) as Hr. rewrite Hl in Hr. apply Forall_app in Hr as [_ Hr].
  inversion Hr; subst. unfold numeral. rewrite Hl, rev_app_distr. simpl.
  eexists _, _. split; [done|]. unfold digit_char. case_bool; lia.
Qed.

(** The characters are printable. *)
Lemma numeral_chars n : base ≤ 16 → 0 ≤ n → Forall (λ c, 48 ≤ c < 103) (numeral base n).
Proof.
  intros Hb Hn. unfold numeral. apply Forall_map. apply Forall_rev.
  eapply Forall_impl; [by apply digits_range|]. intros d Hd. simpl in *. unfold digit_char. case_bool; lia.
Qed.
End digits.
