(* ===== verification/Strings.v ===== *)
(** Byte memory and the string functions of the C library:
    [libsc/string/*.c], [libsc/stdlib/itoa.c].

    A memory maps the addresses that may be accessed to their bytes; reading or
    writing any other address is a fault.  Loops that end at a null byte take
    the number of mapped bytes as fuel: they visit each address once. *)
From stdpp Require Import base numbers list gmap.
From Stdlib Require Import ZArith Lia.
From S2P Require Import Prelude Digits.

Abbreviation memory := (gmap Z Z).

Definition load8 (a : Z) (m : memory) : outcome Z :=
  match m !! a with Some v => Ret v | None => Fault end.
Definition store8 (a v : Z) (m : memory) : outcome memory :=
  match m !! a with Some _ => Ret (<[a := v]> m) | None => Fault end.

(** Rounds enough for any loop that walks over mapped bytes. *)
Definition scan_fuel (m : memory) : nat := S (size m).

(** * Blocks of memory *)

Definition memcpy (dst src size : Z) (m : memory) : outcome (Z * memory) :=
  m' ← for_range 0 size (λ i m, v ← load8 (src + i) m; store8 (dst + i) v m) m;
  Ret (dst, m').

Definition memmove (dst src size : Z) (m : memory) : outcome (Z * memory) :=
  if dst <? src then
    m' ← for_range 0 size (λ i m, v ← load8 (src + i) m; store8 (dst + i) v m) m;
    Ret (dst, m')
  else
    (* [for (i = size; i != 0; i--)] *)
    m' ← for_range 0 size (λ k m,
           let i := size - k in
           v ← load8 (src + (i - 1)) m; store8 (dst + (i - 1)) v m) m;
    Ret (dst, m').

Definition memset (buf value size : Z) (m : memory) : outcome (Z * memory) :=
  m' ← for_range 0 size (λ i m, store8 (buf + i) (u8 value) m) m;
  Ret (buf, m').

Definition memcmp (a b size : Z) (m : memory) : outcome Z :=
  r ← for_return 0 size (λ i _,
        va ← load8 (a + i) m;
        vb ← load8 (b + i) m;
        if va <? vb then Ret (Return (-1))
        else if vb <? va then Ret (Return 1)
        else Ret (Continue ())) ();
  match r with Return v => Ret v | Continue _ => Ret 0 end.

(** * Strings *)

Definition strlen (a : Z) (m : memory) : outcome Z :=
  while_fuel (scan_fuel m) (λ result,
    v ← load8 (a + result) m;
    if truthy v then Ret (Continue (result ⊕ 1)) else Ret (Return result)) 0.

(** [char] is signed: the bytes are compared and subtracted as such. *)
Definition strcmp (a b : Z) (m : memory) : outcome Z :=
  while_fuel (scan_fuel m) (λ i,
    va ← load8 (a + i) m;
    vb ← load8 (b + i) m;
    if truthy va && (va =? vb) then Ret (Continue (i + 1))
    else Ret (Return (s8 va - s8 vb))) 0.

Definition strcpy (dest src : Z) (m : memory) : outcome (Z * memory) :=
  m' ← while_fuel (scan_fuel m) (λ '(i, m),
         v ← load8 (src + i) m;
         m' ← store8 (dest + i) v m;
         if truthy v then Ret (Continue (i + 1, m')) else Ret (Return m')) (0, m);
  Ret (dest, m').

Definition strncpy (dest src n : Z) (m : memory) : outcome (Z * memory) :=
  m' ← for_range 0 n (λ i m, v ← load8 (src + i) m; store8 (dest + i) v m) m;
  Ret (dest, m').

Definition strcat (dest src : Z) (m : memory) : outcome (Z * memory) :=
  i ← while_fuel (scan_fuel m) (λ i,
        v ← load8 (dest + i) m;
        if truthy v then Ret (Continue (i ⊕ 1)) else Ret (Return i)) 0;
  '(j, m1) ← while_fuel (scan_fuel m) (λ '(j, m),
        v ← load8 (src + j) m;
        if truthy v then
          m' ← store8 (dest + (i ⊕ j)) v m;
          Ret (Continue (j ⊕ 1, m'))
        else Ret (Return (j, m))) (0, m);
  m2 ← store8 (dest + (i ⊕ j)) 0 m1;
  Ret (dest, m2).

(** * Numbers *)

Definition reverse (s : Z) (m : memory) : outcome memory :=
  len ← strlen s m;
  while_fuel (scan_fuel m) (λ '(i, j, m),
    if i <? j then
      c ← load8 (s + i) m;
      v ← load8 (s + j) m;
      m1 ← store8 (s + i) v m;
      m2 ← store8 (s + j) c m1;
      Ret (Continue (i + 1, j - 1, m2))
    else Ret (Return m)) (0, s32 (len ⊖ 1), m).

(** An [int] has at most ten digits. *)
Definition itoa (n s : Z) (m : memory) : outcome memory :=
  let sign := n in
  let n := if sign <? 0 then s32 (- n) else n in
  '(i, m1) ← while_fuel 10 (λ '(i, n, m),
        m' ← store8 (s + i) (u8 (Z.rem n 10 + 48)) m;
        let n' := Z.quot n 10 in
        if 0 <? n' then Ret (Continue (i + 1, n', m')) else Ret (Return (i + 1, m')))
      (0, n, m);
  '(i, m2) ← (if sign <? 0 then
                m' ← store8 (s + i) 45 m1; Ret (i + 1, m')
              else Ret (i, m1));
  m3 ← store8 (s + i) 0 m2;
  reverse s m3.
