(* ===== verification/StringProps.v ===== *)
(** What the string functions do: byte memory as lists of bytes, copies with
    overlap, comparisons, and the text [itoa] writes. *)
From stdpp Require Import base numbers list gmap.
From Stdlib Require Import ZArith Lia.
From S2P Require Import Prelude Digits Strings.

(** * Contents of memory *)

(** The bytes [l] lie at [a]. *)
Definition bytes_at (m : memory) (a : Z) (l : list Z) : Prop :=
  ∀ i v, l !! i = Some v → m !! (a + Z.of_nat i) = Some v.

(** A null-terminated string. *)
Definition cstring (m : memory) (a : Z) (s : list Z) : Prop :=
  bytes_at m a (s ++ [0]) ∧ Forall (λ v, 0 < v < 256) s.

(** Bytes that may be accessed. *)
Definition mapped (m : memory) (a n : Z) : Prop := ∀ i, 0 ≤ i < n → is_Some (m !! (a + i)).

(** [m'] is [m] with [n] bytes from [src], as they were in [m], at [dst]. *)
Definition copied (m m' : memory) (dst src n : Z) : Prop :=
  ∀ a, m' !! a = if decide (dst ≤ a < dst + n) then m !! (src + (a - dst)) else m !! a.

(** Only bytes of the range may differ. *)
Definition same_outside (m m' : memory) (a n : Z) : Prop :=
  ∀ x, ¬ (a ≤ x < a + n) → m' !! x = m !! x.

(** Lexicographic order of lists. *)
Fixpoint lex_compare (l l' : list Z) : comparison :=
  match l, l' with
  | [], [] => Eq
  | [], _ :: _ => Lt
  | _ :: _, [] => Gt
  | x :: k, y :: k' => match x ?= y with Eq => lex_compare k k' | c => c end
  end.

(** * Lemmas *)

Lemma load8_Ret m a v : m !! a = Some v → load8 a m = Ret v.
Proof. unfold load8. by intros ->. Qed.

Lemma store8_Ret m a v : is_Some (m !! a) → store8 a v m = Ret (<[a := v]> m).
Proof. unfold store8. by intros [x ->]. Qed.

Lemma bytes_at_nil m a : bytes_at m a [].
Proof. by intros i v Hv. Qed.

Lemma bytes_at_cons m a x l : bytes_at m a (x :: l) ↔ m !! a = Some x ∧ bytes_at m (a + 1) l.
Proof.
  split.
  - intros H. split; [specialize (H O x eq_refl); by rewrite Z.add_0_r in H|].
    intros i v Hv. rewrite <- (H (S i) v Hv). f_equal. lia.
  - intros [H0 H] [|i] v Hv; [injection Hv as ->; by rewrite Z.add_0_r|].
    rewrite <- (H i v Hv). f_equal. lia.
Qed.

Lemma bytes_at_app m a l k :
  bytes_at m a (l ++ k) ↔ bytes_at m a l ∧ bytes_at m (a + Z.of_nat (length l)) k.
Proof.
  revert a. induction l as [|x l IH]; intros a; simpl.
  - rewrite Z.add_0_r. split; [by split; [apply bytes_at_nil|]|by intros []].
  - rewrite !bytes_at_cons, IH. replace (a + 1 + Z.of_nat (length l)) with (a + Z.of_nat (S (length l))) by lia.
    tauto.
Qed.

Lemma bytes_at_get m a l i :
  bytes_at m a l → 0 ≤ i < Z.of_nat (length l) →
  ∃ v, l !! Z.to_nat i = Some v ∧ m !! (a + i) = Some v.
Proof.
  intros H Hi. destruct (lookup_lt_is_Some_2 l (Z.to_nat i)) as [v Hv]; [lia|].
  exists v. split; [done|]. rewrite <- (H _ _ Hv). f_equal. lia.
Qed.

Lemma bytes_at_mapped m a l : bytes_at m a l → mapped m a (Z.of_nat (length l)).
Proof. intros H i Hi. destruct (bytes_at_get m a l i H Hi) as (v & _ & Hv). by exists v. Qed.

(** A memory holds at least as many bytes as lie in one block of it. *)
Lemma bytes_at_size m a l : bytes_at m a l → (length l ≤ size m)%nat.
Proof.
  revert m a. induction l as [|x l IH]; intros m a; simpl; [lia|].
  rewrite bytes_at_cons. intros [Hx Hl].
  assert (Hl' : bytes_at (delete a m) (a + 1) l).
  { intros i v Hv. rewrite lookup_delete_ne by lia. by apply Hl. }
  apply IH in Hl'. rewrite map_size_delete, Hx in Hl'.
  assert (size m ≠ 0)%nat by (apply map_size_non_empty_iff; intros ->; by rewrite lookup_empty in Hx).
  lia.
Qed.

Lemma bytes_at_same m m' a l x n :
  bytes_at m a l → same_outside m m' x n →
  (∀ i, 0 ≤ i < Z.of_nat (length l) → ¬ (x ≤ a + i < x + n)) → bytes_at m' a l.
Proof.
  intros H Hs Hd i v Hv. rewrite Hs; [by apply H|].
  apply Hd. apply lookup_lt_Some in Hv. lia.
Qed.

Lemma bytes_at_insert m a l x v :
  bytes_at m a l → ¬ (a ≤ x < a + Z.of_nat (length l)) → bytes_at (<[x := v]> m) a l.
Proof.
  intros H Hx i w Hw. pose proof (lookup_lt_Some _ _ _ Hw).
  rewrite lookup_insert_ne by lia. by apply H.
Qed.

Lemma mapped_insert m a n x v : mapped m a n → mapped (<[x := v]> m) a n.
Proof.
  intros H i Hi. destruct (decide (x = a + i)) as [->|].
  - rewrite lookup_insert_eq. by eexists.
  - rewrite lookup_insert_ne by done. by apply H.
Qed.

Lemma mapped_load m a n i : mapped m a n → 0 ≤ i < n → ∃ v, load8 (a + i) m = Ret v ∧ m !! (a + i) = Some v.
Proof. intros H Hi. destruct (H i Hi) as [v Hv]. exists v. split; [by apply load8_Ret|done]. Qed.

Lemma same_outside_refl m a n : same_outside m m a n.
Proof. done. Qed.

Lemma same_outside_insert m m' a n x v :
  same_outside m m' a n → a ≤ x < a + n → same_outside m (<[x := v]> m') a n.
Proof. intros H Hx y Hy. rewrite lookup_insert_ne by lia. by apply H. Qed.

Lemma same_outside_trans m m1 m2 a n :
  same_outside m m1 a n → same_outside m1 m2 a n → same_outside m m2 a n.
Proof. intros H1 H2 x Hx. rewrite H2 by done. by apply H1. Qed.

(** ** Copies *)

(** The forward loop copies unless the destination starts inside the source. *)
Lemma copy_forward dst src n m :
  0 ≤ n → mapped m src n → mapped m dst n → ¬ (src < dst < src + n) →
  wp (for_range 0 n (λ i m, v ← load8 (src + i) m; store8 (dst + i) v m) m)
    (λ m', copied m m' dst src n).
Proof.
  intros Hn Hsrc Hdst Hno.
  eapply wp_mono; [apply (wp_for_range (λ i m', copied m m' dst src i))|done].
  - done.
  - intros a. case_decide; [lia|done].
  - intros i m' Hi Hcopy. destruct (Hsrc i Hi) as [v Hv].
    rewrite (load8_Ret m' (src + i) v), Ret_bind.
    2:{ rewrite Hcopy. case_decide; [|done]. lia. }
    rewrite store8_Ret.
    2:{ rewrite Hcopy. case_decide; [lia|]. by apply Hdst. }
    apply wp_ret. intros a. destruct (decide (a = dst + i)) as [->|].
    + rewrite lookup_insert_eq. case_decide; [|lia]. rewrite <- Hv. f_equal. lia.
    + rewrite lookup_insert_ne by done. rewrite Hcopy. repeat case_decide; try lia; done.
Qed.

(** The backward loop copies unless the source starts inside the destination. *)
Lemma copy_backward dst src n m :
  0 ≤ n → mapped m src n → mapped m dst n → src ≤ dst →
  wp (for_range 0 n (λ k m,
        let i := n - k in v ← load8 (src + (i - 1)) m; store8 (dst + (i - 1)) v m) m)
    (λ m', copied m m' dst src n).
Proof.
  intros Hn Hsrc Hdst Hle.
  eapply wp_mono; [apply (wp_for_range (λ k m', ∀ a, m' !! a =
     if decide (dst + (n - k) ≤ a < dst + n) then m !! (src + (a - dst)) else m !! a))|].
  - done.
  - intros a. case_decide; [lia|done].
  - intros k m' Hk Hcopy. destruct (Hsrc (n - k - 1)) as [v Hv]; [lia|].
    cbv zeta. rewrite (load8_Ret m' (src + (n - k - 1)) v), Ret_bind.
    2:{ rewrite Hcopy. case_decide; [lia|done]. }
    rewrite store8_Ret.
    2:{ rewrite Hcopy. case_decide; [lia|]. apply Hdst. lia. }
    apply wp_ret. intros a. destruct (decide (a = dst + (n - k - 1))) as [->|].
    + rewrite lookup_insert_eq. case_decide; [|lia]. rewrite <- Hv. f_equal. lia.
    + rewrite lookup_insert_ne by done. rewrite Hcopy. repeat case_decide; try lia; done.
  - intros m' Hcopy a. rewrite Hcopy. repeat case_decide; try lia; done.
Qed.

(** What arrives is what was at the source. *)
Lemma copied_bytes m m' dst src l :
  copied m m' dst src (Z.of_nat (length l)) → bytes_at m src l → bytes_at m' dst l.
Proof.
  intros Hc Hl i v Hv. pose proof (lookup_lt_Some _ _ _ Hv). rewrite Hc.
  case_decide; [|lia]. rewrite <- (Hl i v Hv). f_equal. lia.
Qed.

(** ** Scanning for the end of a string *)

Lemma cstring_char m a s i :
  cstring m a s → 0 ≤ i ≤ Z.of_nat (length s) →
  ∃ v, m !! (a + i) = Some v ∧ (s ++ [0]) !! Z.to_nat i = Some v ∧
    truthy v = bool_decide (i < Z.of_nat (length s)) ∧ 0 ≤ v < 256.
Proof.
  intros [Hb Hc] Hi. destruct (bytes_at_get m a (s ++ [0]) i Hb) as (v & Hv & Hm).
  { rewrite length_app. simpl. lia. }
  exists v. split; [done|]. split; [done|]. destruct (decide (i < Z.of_nat (length s))).
  - rewrite lookup_app_l in Hv by lia. rewrite Forall_lookup in Hc. apply Hc in Hv.
    rewrite bool_decide_true by done. unfold truthy. destruct (Z.eqb_spec v 0); simpl; split; lia || done.
  - rewrite lookup_app_r in Hv by lia. rewrite bool_decide_false by done.
    replace (Z.to_nat i - length s)%nat with O in Hv by lia. injection Hv as <-. split; [done|lia].
Qed.

Lemma cstring_fuel m a s : cstring m a s → (length s < scan_fuel m)%nat.
Proof.
  intros [Hb _]. apply bytes_at_size in Hb. rewrite length_app in Hb. simpl in Hb.
  unfold scan_fuel. lia.
Qed.

(** The scan of [strlen] and [strcat]. *)
Lemma scan_string m a s :
  cstring m a s → Z.of_nat (length s) < 2 ^ 32 →
  while_fuel (scan_fuel m) (λ i,
    v ← load8 (a + i) m;
    if truthy v then Ret (Continue (i ⊕ 1)) else Ret (Return i)) 0 = Ret (Z.of_nat (length s)).
Proof.
  intros Hs Hlen.
  enough (H : wp (while_fuel (scan_fuel m) (λ i,
    v ← load8 (a + i) m;
    if truthy v then Ret (Continue (i ⊕ 1)) else Ret (Return i)) 0) (λ r, r = Z.of_nat (length s))).
  { apply wp_inv in H as (r & -> & ->). done. }
  apply (wp_while (λ i, 0 ≤ i ≤ Z.of_nat (length s)) (λ i, Z.to_nat (Z.of_nat (length s) - i))).
  - lia.
  - pose proof (cstring_fuel m a s Hs). lia.
  - intros i Hi. destruct (cstring_char m a s i Hs Hi) as (v & Hv & _ & Ht & _).
    rewrite (load8_Ret m _ v Hv), Ret_bind, Ht. case_bool_decide; [|simpl; lia].
    rewrite u32_small by u32_lia. simpl. split; lia.
Qed.

Lemma strlen_spec m a s :
  cstring m a s → Z.of_nat (length s) < 2 ^ 32 → strlen a m = Ret (Z.of_nat (length s)).
Proof. apply scan_string. Qed.

(** Appending a byte to what was written so far. *)
Lemma bytes_at_snoc m a l v :
  bytes_at m a l → bytes_at (<[a + Z.of_nat (length l) := v]> m) a (l ++ [v]).
Proof.
  intros H. apply bytes_at_app. split; [apply bytes_at_insert; [done|lia]|].
  apply bytes_at_cons. rewrite lookup_insert_eq. split; [done|apply bytes_at_nil].
Qed.

Lemma take_snoc (s : list Z) i v :
  0 ≤ i → s !! Z.to_nat i = Some v → take (Z.to_nat (i + 1)) s = take (Z.to_nat i) s ++ [v].
Proof. intros Hi Hv. replace (Z.to_nat (i + 1)) with (S (Z.to_nat i)) by lia. by apply take_S_r. Qed.

Lemma length_take_Z (s : list Z) i : 0 ≤ i ≤ Z.of_nat (length s) → Z.of_nat (length (take (Z.to_nat i) s)) = i.
Proof. intros Hi. rewrite length_take. lia. Qed.

Lemma take_all_Z (s : list Z) i : i = Z.of_nat (length s) → take (Z.to_nat i) s = s.
Proof. intros ->. apply take_ge. lia. Qed.

(** The copying loop of [strcat]: at [a], up to the null byte, which it does
    not write. *)
Lemma append_string m src s a base i0 :
  cstring m src s → Z.of_nat (length s) + i0 < 2 ^ 32 → 0 ≤ i0 → a = base + i0 →
  mapped m a (Z.of_nat (length s)) →
  (∀ x, src ≤ x ≤ src + Z.of_nat (length s) → ¬ (a ≤ x < a + Z.of_nat (length s))) →
  wp (while_fuel (scan_fuel m) (λ '(j, m),
        v ← load8 (src + j) m;
        if truthy v then
          m' ← store8 (base + (i0 ⊕ j)) v m;
          Ret (Continue (j ⊕ 1, m'))
        else Ret (Return (j, m))) (0, m))
    (λ '(j, m'), j = Z.of_nat (length s) ∧ bytes_at m' a s ∧ same_outside m m' a (Z.of_nat (length s))).
Proof.
  intros Hs Hlen Hi0 Ha Hmap Hdis. set (n := Z.of_nat (length s)) in *.
  apply (wp_while (λ '(j, m'), 0 ≤ j ≤ n ∧ mapped m' a n ∧ bytes_at m' a (take (Z.to_nat j) s) ∧
                     same_outside m m' a n)
           (λ '(j, _), Z.to_nat (n - j))).
  - split; [lia|]. split; [done|]. split; [apply bytes_at_nil|apply same_outside_refl].
  - pose proof (cstring_fuel m src s Hs). lia.
  - intros [j m'] (Hj & Hmap' & Hb & Hsame).
    destruct (cstring_char m src s j Hs) as (v & Hv & Hl & Ht & _); [lia|].
    rewrite (load8_Ret m' _ v), Ret_bind, Ht.
    2:{ rewrite Hsame; [done|]. apply Hdis. lia. }
    clear Ht. fold n. case_bool_decide.
    + rewrite lookup_app_l in Hl by lia.
      rewrite (u32_small (i0 + j)) by u32_lia. rewrite (u32_small (j + 1)) by u32_lia.
      replace (base + (i0 + j)) with (a + j) by lia.
      rewrite store8_Ret, Ret_bind by (apply Hmap'; lia). simpl.
      assert (Hlt : Z.of_nat (length (take (Z.to_nat j) s)) = j) by (apply length_take_Z; lia).
      split; [|lia]. split; [lia|]. split; [by apply mapped_insert|]. split.
      * rewrite (take_snoc s j v) by (done || lia). rewrite <- Hlt at 1. by apply bytes_at_snoc.
      * apply same_outside_insert; [done|lia].
    + simpl. replace j with n in * by lia. rewrite take_all_Z in Hb by done. done.
Qed.

Lemma strcat_spec m dest d src s :
  cstring m dest d → cstring m src s →
  Z.of_nat (length d) + Z.of_nat (length s) < 2 ^ 32 →
  mapped m dest (Z.of_nat (length d + length s + 1)) →
  (∀ x, src ≤ x ≤ src + Z.of_nat (length s) →
        ¬ (dest ≤ x ≤ dest + Z.of_nat (length d + length s))) →
  ∃ m', strcat dest src m = Ret (dest, m') ∧ cstring m' dest (d ++ s) ∧
    same_outside m m' dest (Z.of_nat (length d + length s + 1)).
Proof.
  intros Hd Hs Hlen Hmap Hdis. unfold strcat. rewrite (scan_string m dest d) by (done || lia).
  rewrite Ret_bind. set (n := Z.of_nat (length d)) in *.
  pose proof (append_string m src s (dest + n) dest n Hs) as H.
  apply wp_inv in H as ([j m1] & -> & -> & Hb & Hsame); [|lia|lia|done| |].
  2:{ intros i Hi. replace (dest + n + i) with (dest + (n + i)) by lia. apply Hmap. lia. }
  2:{ intros x Hx. specialize (Hdis x Hx). lia. }
  rewrite Ret_bind, u32_small by u32_lia. rewrite store8_Ret, Ret_bind.
  2:{ rewrite Hsame by lia. replace (dest + (n + Z.of_nat (length s)))
        with (dest + Z.of_nat (length d + length s)) by lia. apply Hmap. lia. }
  eexists. split; [done|]. split; [split|].
  - rewrite <- app_assoc. apply bytes_at_app. fold n. split.
    + apply bytes_at_insert; [|lia]. destruct Hd as [Hd _]. apply bytes_at_app in Hd as [Hd _].
      eapply bytes_at_same; [exact Hd|exact Hsame|]. lia.
    + replace (dest + (n + Z.of_nat (length s))) with (dest + n + Z.of_nat (length s)) by lia.
      by apply bytes_at_snoc.
  - apply Forall_app. split; [apply Hd|apply Hs].
  - intros x Hx. rewrite lookup_insert_ne by lia. apply Hsame. lia.
Qed.

Lemma strcpy_spec m dest src s :
  cstring m src s → mapped m dest (Z.of_nat (length s + 1)) →
  (∀ x, src ≤ x ≤ src + Z.of_nat (length s) → ¬ (dest ≤ x ≤ dest + Z.of_nat (length s))) →
  ∃ m', strcpy dest src m = Ret (dest, m') ∧ cstring m' dest s ∧
    same_outside m m' dest (Z.of_nat (length s + 1)).
Proof.
  intros Hs Hmap Hdis. unfold strcpy. set (n := Z.of_nat (length s)) in *.
  assert (Hl : Z.of_nat (length (s ++ [0])) = n + 1) by (rewrite length_app; simpl; lia).
  match goal with |- context [while_fuel ?f ?b ?s0] =>
    assert (H : wp (while_fuel f b s0) (λ m', bytes_at m' dest (s ++ [0]) ∧
                                             same_outside m m' dest (n + 1))) end.
  - apply (wp_while (λ '(j, m'), 0 ≤ j ≤ n ∧ mapped m' dest (n + 1) ∧
             bytes_at m' dest (take (Z.to_nat j) (s ++ [0])) ∧ same_outside m m' dest (n + 1))
             (λ '(j, _), Z.to_nat (n - j))).
    + split; [lia|]. split; [|split; [apply bytes_at_nil|apply same_outside_refl]].
      by replace (n + 1) with (Z.of_nat (length s + 1)) by lia.
    + pose proof (cstring_fuel m src s Hs). lia.
    + intros [j m'] (Hj & Hmap' & Hb & Hsame).
      destruct (cstring_char m src s j Hs) as (v & Hv & Hv' & Ht & _); [lia|].
      rewrite (load8_Ret m' _ v), Ret_bind.
      2:{ rewrite Hsame; [done|]. specialize (Hdis (src + j)). lia. }
      rewrite store8_Ret, Ret_bind by (apply Hmap'; lia). rewrite Ht.
      assert (Hlt : Z.of_nat (length (take (Z.to_nat j) (s ++ [0]))) = j) by (apply length_take_Z; lia).
      assert (Hb' : bytes_at (<[dest + j := v]> m') dest (take (Z.to_nat (j + 1)) (s ++ [0]))).
      { rewrite (take_snoc _ j v) by (done || lia). rewrite <- Hlt at 1. by apply bytes_at_snoc. }
      assert (Hsame' : same_outside m (<[dest + j := v]> m') dest (n + 1)).
      { apply same_outside_insert; [done|lia]. }
      clear Ht. fold n. case_bool_decide; simpl.
      * split; [|lia]. split; [lia|]. split; [by apply mapped_insert|done].
      * rewrite take_all_Z in Hb' by lia. done.
  - apply wp_inv in H as (m' & -> & Hb & Hsame). rewrite Ret_bind. eexists. split; [done|].
    split; [split; [done|apply Hs]|]. by replace (Z.of_nat (length s + 1)) with (n + 1) by lia.
Qed.

(** ** Comparisons *)

Lemma lex_compare_refl l : lex_compare l l = Eq.
Proof. induction l as [|x l IH]; simpl; [done|]. by rewrite Z.compare_refl. Qed.

(** The first position that differs decides. *)
Lemma lex_compare_first i l l' x y :
  take i l = take i l' → l !! i = Some x → l' !! i = Some y → x ≠ y →
  lex_compare l l' = (x ?= y).
Proof.
  revert l l'. induction i as [|i IH]; intros [|a l] [|b l'] Ht Hx Hy Hne; simplify_eq/=.
  - destruct (Z.compare_spec x y); done.
  - rewrite Z.compare_refl. by apply IH.
Qed.

Lemma take_step (l l' : list Z) i x :
  take i l = take i l' → l !! i = Some x → l' !! i = Some x → take (S i) l = take (S i) l'.
Proof. intros Ht Hx Hy. rewrite (take_S_r _ _ x), (take_S_r l' i x) by done. by rewrite Ht. Qed.

Lemma take_map {A B} (f : A → B) i l : take i (map f l) = map f (take i l).
Proof. revert l. induction i as [|i IH]; intros [|x l]; simpl; [done..|]. by rewrite IH. Qed.

Lemma lookup_map {A B} (f : A → B) l i : map f l !! i = f <$> (l !! i).
Proof. revert i. induction l as [|x l IH]; intros [|i]; simpl; [done..|]. by rewrite IH. Qed.

Lemma s8_inj x y : 0 ≤ x < 256 → 0 ≤ y < 256 → s8 x = s8 y → x = y.
Proof. intros Hx Hy. rewrite !s8_byte by done. repeat case_bool; lia. Qed.

Lemma memcmp_spec m a b l l' :
  bytes_at m a l → bytes_at m b l' → length l = length l' →
  memcmp a b (Z.of_nat (length l)) m =
    Ret (match lex_compare l l' with Lt => -1 | Eq => 0 | Gt => 1 end).
Proof.
  intros Hl Hl' Hlen. unfold memcmp.
  match goal with |- context [for_return ?x ?y ?f ?s0] =>
    assert (H : wp (for_return x y f s0) (λ r,
      match r with
      | Return v => v = match lex_compare l l' with Lt => -1 | Eq => 0 | Gt => 1 end
      | Continue _ => l = l'
      end)) end.
  - apply (wp_for_return (λ i _, take (Z.to_nat i) l = take (Z.to_nat i) l')); [lia|done| |].
    + intros i _ Hi Ht. destruct (bytes_at_get m a l i Hl Hi) as (x & Hx & Hmx).
      destruct (bytes_at_get m b l' i Hl') as (y & Hy & Hmy); [lia|].
      rewrite (load8_Ret _ _ _ Hmx), (load8_Ret _ _ _ Hmy), !Ret_bind.
      repeat case_bool; simpl.
      * by rewrite (lex_compare_first _ _ _ _ _ Ht Hx Hy), (proj2 (Z.compare_lt_iff x y)) by lia.
      * by rewrite (lex_compare_first _ _ _ _ _ Ht Hx Hy), (proj2 (Z.compare_gt_iff x y)) by lia.
      * replace (Z.to_nat (i + 1)) with (S (Z.to_nat i)) by lia.
        apply (take_step _ _ _ x); [done|done|]. rewrite Hy. f_equal. lia.
    + intros _ Ht. rewrite !take_ge in Ht by lia. done.
  - apply wp_inv in H as ([[]|v] & -> & Hv); rewrite Ret_bind; [|by rewrite Hv].
    by rewrite Hv, lex_compare_refl.
Qed.

Lemma strcmp_spec m a b s t :
  cstring m a s → cstring m b t →
  ∃ r, strcmp a b m = Ret r ∧ (r = 0 ↔ s = t) ∧
    (r ?= 0) = lex_compare (map s8 (s ++ [0])) (map s8 (t ++ [0])).
Proof.
  intros Hs Ht. apply wp_inv. unfold strcmp.
  apply (wp_while (λ i, 0 ≤ i ≤ Z.of_nat (length s) ∧ i ≤ Z.of_nat (length t) ∧
                     take (Z.to_nat i) (s ++ [0]) = take (Z.to_nat i) (t ++ [0]))
           (λ i, Z.to_nat (Z.of_nat (length s) - i))).
  - split; [lia|]. split; [lia|done].
  - pose proof (cstring_fuel m a s Hs). lia.
  - intros i (Hi & Hi' & Heq).
    destruct (cstring_char m a s i Hs Hi) as (x & Hmx & Hx & Htx & Hbx).
    destruct (cstring_char m b t i Ht) as (y & Hmy & Hy & Hty & Hby); [lia|].
    rewrite (load8_Ret _ _ _ Hmx), (load8_Ret _ _ _ Hmy), !Ret_bind.
    destruct (Z.eqb_spec x y) as [->|Hne].
    + rewrite andb_true_r. rewrite Htx in Hty. rewrite Htx.
      assert (Hiff : i < Z.of_nat (length s) ↔ i < Z.of_nat (length t)).
      { do 2 case_bool_decide; done. }
      clear Hty. case_bool_decide; simpl.
      * split; [|lia]. split; [lia|]. split; [lia|].
        replace (Z.to_nat (i + 1)) with (S (Z.to_nat i)) by lia. by apply (take_step _ _ _ y).
      * assert (Hst : s = t).
        { assert (i = Z.of_nat (length s)) by lia. assert (i = Z.of_nat (length t)) by lia.
          rewrite !take_app_le, !take_ge in Heq by lia. done. }
        rewrite Z.sub_diag, Hst, lex_compare_refl. done.
    + rewrite andb_false_r. simpl. split.
      * split; [intros H; exfalso; apply Hne, s8_inj; [done|done|lia]|].
        intros ->. rewrite Hx in Hy. injection Hy as ->. done.
      * rewrite <- Z.compare_sub. symmetry. apply (lex_compare_first (Z.to_nat i)).
        -- by rewrite !take_map, Heq.
        -- by rewrite lookup_map, Hx.
        -- by rewrite lookup_map, Hy.
        -- intros H. by apply Hne, s8_inj.
Qed.

(** ** Numbers *)

Lemma lookup_rev (l : list Z) i :
  (i < length l)%nat → rev l !! i = l !! (length l - S i)%nat.
Proof. intros Hi. rewrite rev_alt. by apply (reverse_lookup l). Qed.

(** [reverse] is list reversal. *)
Lemma reverse_spec m s t :
  cstring m s t → Z.of_nat (length t) < 2 ^ 31 →
  ∃ m', Strings.reverse s m = Ret m' ∧ cstring m' s (rev t) ∧
    same_outside m m' s (Z.of_nat (length t)).
Proof.
  intros Ht Hlen. unfold Strings.reverse. rewrite (strlen_spec m s t), Ret_bind by (done || lia).
  set (n := Z.of_nat (length t)) in *.
  assert (Hj : s32 (n ⊖ 1) = n - 1).
  { destruct (decide (n = 0)) as [->|]; [done|].
    rewrite u32_small by u32_lia. apply s32_small. lia. }
  rewrite Hj. pose proof Ht as [Hb _]. apply bytes_at_app in Hb as [Hb H0]. fold n in H0.
  match goal with |- context [while_fuel ?f ?b ?s0] =>
    assert (H : wp (while_fuel f b s0) (λ m', ∀ a, m' !! a =
      if decide (s ≤ a < s + n) then m !! (s + (n - 1 - (a - s))) else m !! a)) end.
  - apply (wp_while (λ '(i, j, m'), (0 ≤ i ∧ 2 * i ≤ n + 1) ∧ j = n - 1 - i ∧ ∀ a, m' !! a =
             if decide (s ≤ a < s + i ∨ s + j < a < s + n)
             then m !! (s + (n - 1 - (a - s))) else m !! a)
             (λ '(i, j, _), Z.to_nat (n - i))).
    + split; [lia|]. split; [lia|]. intros a. case_decide; [lia|done].
    + pose proof (cstring_fuel m s t Ht). lia.
    + intros [[i j] m'] (Hi & -> & Hm'). destruct (Z.ltb_spec i (n - 1 - i)) as [Hij|Hij].
      * destruct (bytes_at_get m s t i Hb) as (x & _ & Hx); [lia|].
        destruct (bytes_at_get m s t (n - 1 - i) Hb) as (y & _ & Hy); [lia|].
        rewrite (load8_Ret m' (s + i) x), Ret_bind by (rewrite Hm'; case_decide; [lia|done]).
        rewrite (load8_Ret m' (s + (n - 1 - i)) y), Ret_bind by (rewrite Hm'; case_decide; [lia|done]).
        rewrite store8_Ret, Ret_bind by (rewrite Hm'; case_decide; [lia|by eexists]).
        rewrite store8_Ret, Ret_bind.
        2:{ rewrite lookup_insert_ne by lia. rewrite Hm'. case_decide; [lia|by eexists]. }
        simpl. split; [|lia]. split; [lia|]. split; [lia|]. intros a.
        destruct (decide (a = s + (n - 1 - i))) as [->|Ha1].
        { rewrite lookup_insert_eq. case_decide; [|lia]. rewrite <- Hx. f_equal. lia. }
        rewrite lookup_insert_ne by done. destruct (decide (a = s + i)) as [->|Ha2].
        { rewrite lookup_insert_eq. case_decide; [|lia]. rewrite <- Hy. f_equal. lia. }
        rewrite lookup_insert_ne, Hm' by done. repeat case_decide; try done; lia.
      * simpl. intros a. rewrite Hm'. repeat case_decide; try done; try lia.
        all: f_equal; lia.
  - apply wp_inv in H as (m' & -> & Hm'). eexists. split; [done|]. split; [split|].
    + apply bytes_at_app. rewrite length_rev. fold n. split.
      * intros i v Hv. pose proof (lookup_lt_Some _ _ _ Hv) as Hi. rewrite length_rev in Hi.
        rewrite lookup_rev in Hv by done. rewrite Hm'. case_decide; [|lia].
        rewrite <- (Hb _ _ Hv). f_equal. lia.
      * apply bytes_at_cons. split; [|apply bytes_at_nil]. rewrite Hm'. case_decide; [lia|].
        by apply bytes_at_cons in H0 as [H0 _].
    + apply Forall_rev, Ht.
    + intros x Hx. rewrite Hm'. case_decide; [done|done].
Qed.

(** The text of an [int]. *)
Definition int_text (n : Z) : list Z :=
  if n <? 0 then 45 :: numeral 10 (- n) else numeral 10 n.

(** The digit loop of [itoa]. *)
Lemma itoa_digits m s n :
  0 ≤ n < 2 ^ 31 → mapped m s (Z.of_nat (length (digits 10 n))) →
  wp (while_fuel 10 (λ '(i, n, m),
        m' ← store8 (s + i) (u8 (Z.rem n 10 + 48)) m;
        let n' := Z.quot n 10 in
        if 0 <? n' then Ret (Continue (i + 1, n', m')) else Ret (Return (i + 1, m')))
      (0, n, m))
    (λ '(i, m'), i = Z.of_nat (length (digits 10 n)) ∧
       bytes_at m' s (map digit_char (digits 10 n)) ∧ same_outside m m' s i).
Proof.
  intros Hn Hmap. set (L := Z.of_nat (length (digits 10 n))) in *.
  apply (wp_while (λ '(i, k, m'), ∃ pre, i = Z.of_nat (length pre) ∧ 0 ≤ k ∧
             digits 10 n = pre ++ digits 10 k ∧ bytes_at m' s (map digit_char pre) ∧
             mapped m' s L ∧ same_outside m m' s L)
           (λ '(i, k, _), (length (digits 10 k) - 1)%nat)).
  - exists []. split; [done|]. split; [lia|]. split; [done|].
    split; [apply bytes_at_nil|]. split; [done|apply same_outside_refl].
  - pose proof (digits_length 10 ltac:(lia) 10 n ltac:(lia) ltac:(lia)).
    pose proof (digits_length_pos 10 n). lia.
  - intros [[i k] m'] (pre & -> & Hk & Hpre & Hb & Hmap' & Hsame).
    rewrite Z.rem_mod_nonneg, Z.quot_div_nonneg by lia.
    assert (HL : L = Z.of_nat (length pre) + Z.of_nat (length (digits 10 k))).
    { unfold L. rewrite Hpre, length_app. lia. }
    pose proof (digits_length_pos 10 k) as Hpos.
    rewrite store8_Ret, Ret_bind by (apply Hmap'; lia). cbv zeta.
    assert (Hc : u8 (k mod 10 + 48) = digit_char (k mod 10)).
    { pose proof (Z.mod_pos_bound k 10). rewrite u8_small by lia. unfold digit_char. case_bool; lia. }
    rewrite Hc.
    assert (Hb' : bytes_at (<[s + Z.of_nat (length pre):=digit_char (k mod 10)]> m') s
                    (map digit_char (pre ++ [k mod 10]))).
    { rewrite map_app. replace (length pre) with (length (map digit_char pre)) by apply length_map.
      by apply bytes_at_snoc. }
    assert (Hsame' : same_outside m (<[s + Z.of_nat (length pre):=digit_char (k mod 10)]> m') s L).
    { apply same_outside_insert; [done|lia]. }
    rewrite (digits_step 10 ltac:(lia) k) in Hpre, HL |- * by done.
    destruct (Z.ltb_spec 0 (k / 10)) as [Hk'|Hk'].
    + simpl. split.
      * exists (pre ++ [k mod 10]). split; [rewrite length_app; simpl; lia|].
        split; [lia|]. split; [by rewrite Hpre, <- app_assoc|]. split; [done|].
        split; [by apply mapped_insert|done].
      * pose proof (digits_length_pos 10 (k / 10)). lia.
    + apply wp_ret. cbn [length] in HL. rewrite Hpre.
      replace (Z.of_nat (length pre) + 1) with L by lia. done.
Qed.

Lemma cstring_text text : Forall (λ c, 48 ≤ c < 103) text → Forall (λ v, 0 < v < 256) text.
Proof. intros H. eapply Forall_impl; [exact H|]. intros c Hc. simpl in *. lia. Qed.

(** What [itoa] has written before it reverses the string. *)
Definition itoa_backwards (n : Z) : list Z :=
  map digit_char (digits 10 (Z.abs n)) ++ (if n <? 0 then [45] else []).

Lemma itoa_backwards_rev n : rev (itoa_backwards n) = int_text n.
Proof.
  unfold itoa_backwards, int_text, numeral. rewrite rev_app_distr, !map_rev.
  case_bool; [by replace (Z.abs n) with (- n) by lia|by replace (Z.abs n) with n by lia].
Qed.

Lemma itoa_backwards_length n : length (itoa_backwards n) = length (int_text n).
Proof. by rewrite <- itoa_backwards_rev, length_rev. Qed.

Lemma itoa_backwards_chars n : Forall (λ v, 0 < v < 256) (itoa_backwards n).
Proof.
  apply Forall_app. split; [|case_bool; repeat constructor; lia]. apply cstring_text.
  pose proof (numeral_chars 10 ltac:(lia) (Z.abs n) ltac:(lia) ltac:(lia)) as Hc.
  unfold numeral in Hc. rewrite map_rev in Hc. apply Forall_rev in Hc. by rewrite rev_involutive in Hc.
Qed.

Lemma int_text_short n : - 2 ^ 31 < n < 2 ^ 31 → (length (int_text n) ≤ 11)%nat.
Proof.
  intros Hn. rewrite <- itoa_backwards_length. unfold itoa_backwards. rewrite length_app, length_map.
  pose proof (digits_length 10 ltac:(lia) 10 (Z.abs n) ltac:(lia) ltac:(lia)).
  case_bool; cbn [length]; lia.
Qed.

(** The sign is appended after the digits. *)
Lemma itoa_sign m m1 s n :
  let i := Z.of_nat (length (digits 10 (Z.abs n))) in
  let N := Z.of_nat (length (int_text n) + 1) in
  mapped m s N → bytes_at m1 s (map digit_char (digits 10 (Z.abs n))) → same_outside m m1 s i →
  ∃ m2, (if n <? 0 then m' ← store8 (s + i) 45 m1; Ret (i + 1, m') else Ret (i, m1))
        = Ret (Z.of_nat (length (int_text n)), m2) ∧
    bytes_at m2 s (itoa_backwards n) ∧ same_outside m m2 s (Z.of_nat (length (int_text n))).
Proof.
  intros i N Hmap Hb Hs. subst N. revert Hmap. rewrite <- itoa_backwards_length.
  unfold itoa_backwards. rewrite length_app, length_map. intros Hmap. fold i in Hs.
  destruct (Z.ltb_spec n 0); cbn [length] in *.
  - rewrite store8_Ret, Ret_bind by (rewrite Hs by lia; apply Hmap; lia).
    eexists. split; [do 2 f_equal; lia|]. split.
    + unfold i. rewrite <- (length_map digit_char). by apply bytes_at_snoc.
    + apply same_outside_insert; [|lia]. intros x Hx. apply Hs. lia.
  - exists m1. split; [do 2 f_equal; lia|]. rewrite app_nil_r. split; [done|].
    intros x Hx. apply Hs. lia.
Qed.

Lemma itoa_spec m s n :
  - 2 ^ 31 < n < 2 ^ 31 → mapped m s (Z.of_nat (length (int_text n) + 1)) →
  ∃ m', itoa n s m = Ret m' ∧ cstring m' s (int_text n) ∧
    same_outside m m' s (Z.of_nat (length (int_text n) + 1)).
Proof.
  intros Hn Hmap. unfold itoa. cbv zeta.
  assert (Hk : (if n <? 0 then s32 (- n) else n) = Z.abs n).
  { case_bool; [rewrite s32_small by lia|]; lia. }
  rewrite Hk. pose proof (itoa_digits m s (Z.abs n) ltac:(lia)) as H. cbv zeta in H.
  apply wp_inv in H as ([i m1] & -> & -> & Hb1 & Hs1).
  2:{ intros i Hi. apply Hmap. rewrite <- itoa_backwards_length. unfold itoa_backwards.
      rewrite length_app, length_map. lia. }
  rewrite Ret_bind. destruct (itoa_sign m m1 s n Hmap Hb1 Hs1) as (m2 & -> & Hb2 & Hs2).
  rewrite Ret_bind, store8_Ret, Ret_bind by (rewrite Hs2 by lia; apply Hmap; lia).
  pose proof (int_text_short n Hn). pose proof (itoa_backwards_length n) as Hl.
  destruct (reverse_spec (<[s + Z.of_nat (length (int_text n)) := 0]> m2) s (itoa_backwards n))
    as (m' & H1 & H2 & H3); [split; [rewrite <- Hl; by apply bytes_at_snoc|apply itoa_backwards_chars]|lia|].
  rewrite itoa_backwards_rev in H2. exists m'. split; [done|]. split; [done|].
  intros x Hx. rewrite H3, lookup_insert_ne, Hs2 by lia. done.
Qed.

(** * Theorems *)

(** C24: [memmove] copies correctly whatever the overlap.  If both ranges may
    be accessed, it returns, every destination byte is the source byte as it
    was before the call, and nothing else changes; [memcpy] does the same
    unless the destination starts inside the source. *)
Theorem memmove_correct dst src n m :
  0 ≤ n → mapped m src n → mapped m dst n →
  (∃ m', memmove dst src n m = Ret (dst, m') ∧ copied m m' dst src n) ∧
  (¬ (src < dst < src + n) → ∃ m', memcpy dst src n m = Ret (dst, m') ∧ copied m m' dst src n).
Proof.
  intros Hn Hsrc Hdst. split.
  - unfold memmove. case_bool.
    + pose proof (copy_forward dst src n m Hn Hsrc Hdst ltac:(lia)) as H.
      apply wp_inv in H as (m' & -> & H). by exists m'.
    + pose proof (copy_backward dst src n m Hn Hsrc Hdst ltac:(lia)) as H. cbv zeta in H |- *.
      apply wp_inv in H as (m' & -> & H). by exists m'.
  - intros Hno. unfold memcpy. pose proof (copy_forward dst src n m Hn Hsrc Hdst Hno) as H.
    apply wp_inv in H as (m' & -> & H). by exists m'.
Qed.

(** [strcmp] and [memcmp] order bytes lexicographically.  [strcmp] returns
    zero exactly for equal strings, and its sign is the order of the bytes as
    {e signed} characters up to and including the terminator; [memcmp] returns
    -1, 0 or 1 after the order of the bytes as unsigned numbers. *)
Theorem strcmp_correct m a b s t :
  cstring m a s → cstring m b t →
  (∃ r, strcmp a b m = Ret r ∧ (r = 0 ↔ s = t) ∧
     (r ?= 0) = lex_compare (map s8 (s ++ [0])) (map s8 (t ++ [0]))) ∧
  (length s = length t →
     memcmp a b (Z.of_nat (length s)) m =
       Ret (match lex_compare s t with Lt => -1 | Eq => 0 | Gt => 1 end)).
Proof.
  intros Hs Ht. split; [by apply strcmp_spec|]. intros Hlen. apply memcmp_spec; [| |done].
  - destruct Hs as [Hs _]. by apply bytes_at_app in Hs as [Hs _].
  - destruct Ht as [Ht _]. by apply bytes_at_app in Ht as [Ht _].
Qed.

(** [strcat] appends.  With room for both strings and a source that the
    result does not overlap, the destination holds the concatenation, and
    nothing outside it changes. *)
Theorem strcat_correct m dest d src s :
  cstring m dest d → cstring m src s →
  Z.of_nat (length d) + Z.of_nat (length s) < 2 ^ 32 →
  mapped m dest (Z.of_nat (length d + length s + 1)) →
  (∀ x, src ≤ x ≤ src + Z.of_nat (length s) →
        ¬ (dest ≤ x ≤ dest + Z.of_nat (length d + length s))) →
  ∃ m', strcat dest src m = Ret (dest, m') ∧ cstring m' dest (d ++ s) ∧
    same_outside m m' dest (Z.of_nat (length d + length s + 1)).
Proof. apply strcat_spec. Qed.

(** C27: [itoa] round trip.  For every [int] but the smallest, the buffer
    receives, null-terminated, a sign for negative numbers and the decimal
    digits of the magnitude; read back, they give the magnitude again. *)
Theorem itoa_correct m s n :
  - 2 ^ 31 < n < 2 ^ 31 → mapped m s (Z.of_nat (length (int_text n) + 1)) →
  (∃ m', itoa n s m = Ret m' ∧ cstring m' s (int_text n) ∧
     same_outside m m' s (Z.of_nat (length (int_text n) + 1))) ∧
  read_numeral 10 (if n <? 0 then tail (int_text n) else int_text n) = Z.abs n.
Proof.
  intros Hn Hmap. split; [by apply itoa_spec|]. unfold int_text. case_bool; simpl.
  - rewrite read_numeral_numeral by lia. lia.
  - rewrite read_numeral_numeral by lia. lia.
Qed.

(** ** Concrete instances *)

(** The bytes of a list as a memory. *)
Fixpoint memory_of (a : Z) (l : list Z) : memory :=
  match l with
  | [] => ∅
  | v :: l' => <[a := v]> (memory_of (a + 1) l')
  end.

(** ["ab"], room for six more bytes, ["cd"]. *)
Definition demo_bytes : memory :=
  memory_of 100 [97; 98; 0; 0; 0; 0; 0; 0] ∪ memory_of 200 [99; 100; 0].

Definition mapped_check (m : memory) (a n : Z) : bool :=
  forallb (λ i, bool_decide (is_Some (m !! (a + i)))) (seqZ 0 n).

Lemma mapped_check_mapped m a n : mapped_check m a n = true → mapped m a n.
Proof.
  unfold mapped_check. rewrite forallb_forall. intros H i Hi.
  apply (bool_decide_eq_true_1 _), H, list_elem_of_In, elem_of_seqZ. lia.
Qed.

Fixpoint bytes_check (m : memory) (a : Z) (l : list Z) : bool :=
  match l with
  | [] => true
  | v :: l' => bool_decide (m !! a = Some v) && bytes_check m (a + 1) l'
  end.

Lemma bytes_check_at m a l : bytes_check m a l = true → bytes_at m a l.
Proof.
  revert a. induction l as [|v l IH]; intros a; simpl; [intros; apply bytes_at_nil|].
  intros [H1 H2]%andb_true_iff. apply bytes_at_cons. apply bool_decide_eq_true in H1.
  split; [done|]. by apply IH.
Qed.

Lemma demo_ab : cstring demo_bytes 100 [97; 98].
Proof. split; [by apply bytes_check_at; vm_compute|repeat constructor]. Qed.

Lemma demo_cd : cstring demo_bytes 200 [99; 100].
Proof. split; [by apply bytes_check_at; vm_compute|repeat constructor]. Qed.

(** The range is moved up by one onto itself. *)
Lemma memmove_correct_witness :
  ∃ m', memmove 101 100 3 demo_bytes = Ret (101, m') ∧ copied demo_bytes m' 101 100 3.
Proof.
  refine (proj1 (memmove_correct 101 100 3 demo_bytes _ _ _)).
  - discriminate.
  - apply mapped_check_mapped. vm_compute. reflexivity.
  - apply mapped_check_mapped. vm_compute. reflexivity.
Defined.

Lemma strcmp_correct_witness : ∃ r, strcmp 100 200 demo_bytes = Ret r ∧ (r ?= 0) = Lt.
Proof.
  destruct (strcmp_correct demo_bytes 100 200 [97; 98] [99; 100] demo_ab demo_cd)
    as [(r & H1 & _ & H2) _].
  exists r. split; [exact H1|]. rewrite H2. reflexivity.
Defined.

Lemma strcat_correct_witness :
  ∃ m', strcat 100 200 demo_bytes = Ret (100, m') ∧ cstring m' 100 [97; 98; 99; 100].
Proof.
  destruct (strcat_correct demo_bytes 100 [97; 98] 200 [99; 100] demo_ab demo_cd) as (m' & H1 & H2 & _).
  - reflexivity.
  - apply mapped_check_mapped. vm_compute. reflexivity.
  - simpl length. intros x Hx. lia.
  - exists m'. split; [exact H1|exact H2].
Defined.

Lemma itoa_correct_witness : ∃ m', itoa (-305) 100 demo_bytes = Ret m' ∧ cstring m' 100 [45; 51; 48; 53].
Proof.
  destruct (itoa_correct demo_bytes 100 (-305)) as [(m' & H1 & H2 & _) _].
  - split; reflexivity.
  - apply mapped_check_mapped. vm_compute. reflexivity.
  - exists m'. split; [exact H1|]. exact H2.
Defined.
