(* ===== verification/Printf.v ===== *)
(** Formatted output: [libsc/stdio/printf.c].

    The characters go to [putchar], a parameter with a state of its own.  A
    format is the list of its characters before the terminator, and a pointer
    into it a suffix of the list.  The variable arguments are the 32-bit words
    the caller pushed; a [uint64_t] takes two, the low one first.  [slack] is
    the number of bytes the compiler leaves between the end of a buffer of
    variable length and whatever must not be overwritten. *)
From stdpp Require Import base numbers list gmap.
From Stdlib Require Import ZArith Lia.
From S2P Require Import Prelude Digits Strings StringProps.

(** * The code *)

(** [*p] for a pointer into a format. *)
Definition deref (p : list Z) : Z := List.hd 0 p.

Definition va_arg (args : list Z) : outcome (Z * list Z) :=
  match args with w :: rest => Ret (w, rest) | [] => Fault end.

(** [while (p[amount] && p[amount] != '%') amount++]. *)
Fixpoint literal_length (p : list Z) : Z :=
  match p with
  | [] => 0
  | c :: rest => if truthy c && negb (c =? 37) then 1 + literal_length rest else 0
  end.

(** [while (temp) { ++size; temp /= base; }]; 64 binary digits at most. *)
Definition count_digits (base d : Z) : outcome Z :=
  while_fuel 65 (λ '(size, temp),
    if truthy temp then Ret (Continue (size + 1, Z.quot temp base)) else Ret (Return size)) (0, d).

Section vprintf.
Context {S : Type} (putchar : Z → S → outcome S) (mem : memory) (slack : nat).

Definition print (data : list Z) (data_length : Z) (s : S) : outcome S :=
  for_range 0 data_length (λ i s, c ← array_get data i; putchar (u8 c) s) s.

(** [print] of bytes in memory. *)
Definition print_mem (data data_length : Z) (s : S) : outcome S :=
  for_range 0 data_length (λ i s, c ← load8 (data + i) mem; putchar (u8 c) s) s.

(** [%d] *)
Definition print_int (d : Z) (s : S) : outcome S :=
  s1 ← (if d =? 0 then print [48] 1 s else Ret s);
  size ← count_digits 10 d;
  buffer ← while_fuel 65 (λ '(i, d, buffer),
    if truthy d then
      buffer' ← array_set buffer (size - i - 1) (s8 (Z.rem d 10 + 48));
      Ret (Continue (i + 1, Z.quot d 10, buffer'))
    else Ret (Return buffer)) (0, d, replicate (Z.to_nat size) 0);
  print buffer size s1.

(** [%u] *)
Definition print_unsigned (d : Z) (s : S) : outcome S :=
  s1 ← (if d =? 0 then print [48] 1 s else Ret s);
  size ← count_digits 10 d;
  buffer ← while_fuel 65 (λ '(i, d, buffer),
    if truthy d then
      buffer' ← array_set buffer (size ⊖ i ⊖ 1) (s8 (d mod 10 + 48));
      Ret (Continue (i ⊕ 1, d / 10, buffer'))
    else Ret (Return buffer)) (0, d, replicate (Z.to_nat size) 0);
  print buffer size s1.

(** The reversal in [%x]: [start] and [end] are of type [char]. *)
Definition reverse_buffer (size : Z) (buffer : list Z) : outcome (list Z) :=
  while_fuel 65 (λ '(start, end_, buffer),
    if start <? end_ then
      tmp ← array_get buffer start;
      v ← array_get buffer end_;
      buffer1 ← array_set buffer start v;
      buffer2 ← array_set buffer1 end_ tmp;
      Ret (Continue (s8 (start + 1), s8 (end_ - 1), buffer2))
    else Ret (Return buffer)) (0, s8 (size - 1), buffer).

(** [%x] and [%lx], which differ in the type of [d] only. *)
Definition print_hex (d : Z) (s : S) : outcome S :=
  s1 ← (if d =? 0 then print [48] 1 s else Ret s);
  size ← count_digits 16 d;
  '(loop, buffer) ← while_fuel 65 (λ '(loop, d, buffer),
    let remainder := d mod 16 in
    buffer' ← array_set buffer loop
      (s8 (if remainder <? 10 then remainder + 48 else remainder + 97 - 10));
    if truthy (d / 16) then Ret (Continue (loop + 1, d / 16, buffer'))
    else Ret (Return (loop + 1, buffer')))
    (0, d, replicate (Z.to_nat size + slack) 0);
  buffer1 ← array_set buffer loop 0;
  buffer2 ← reverse_buffer size buffer1;
  print buffer2 size s1.

(** At the label [print_c]: the characters up to the next ['%']; the rest of
    the format and the number of characters. *)
Definition print_c (format : list Z) (s : S) : outcome (list Z * Z * S) :=
  let amount := 1 + literal_length (tail format) in
  s' ← print format amount s;
  Ret (drop (Z.to_nat amount) format, amount, s').

(** The conversion whose specifier [format] points at: the rest of the format
    and of the arguments, or nothing when the specifier is not understood. *)
Definition conversion (format args : list Z) (s : S) : outcome (option (list Z * list Z * S)) :=
  let c := deref format in
  if c =? 99 then
    '(w, args') ← va_arg args;
    s' ← print [s8 w] 1 s;
    Ret (Some (tail format, args', s'))
  else if c =? 100 then
    '(w, args') ← va_arg args;
    s' ← print_int (s32 w) s;
    Ret (Some (tail format, args', s'))
  else if c =? 117 then
    '(w, args') ← va_arg args;
    s' ← print_unsigned w s;
    Ret (Some (tail format, args', s'))
  else if c =? 120 then
    '(w, args') ← va_arg args;
    s' ← print_hex w s;
    Ret (Some (tail format, args', s'))
  else if (c =? 108) && (deref (tail format) =? 120) then
    '(lo, args1) ← va_arg args;
    '(hi, args') ← va_arg args1;
    s' ← print_hex (lo + 2 ^ 32 * hi) s;
    Ret (Some (tail (tail format), args', s'))
  else if c =? 115 then
    '(w, args') ← va_arg args;
    n ← strlen w mem;
    s' ← print_mem w n s;
    Ret (Some (tail format, args', s'))
  else Ret None.

(** One round of the main loop; the state is the format, the arguments, the
    flag for a bad specifier, the count and the output. *)
Definition vprintf_step (st : list Z * list Z * bool * Z * S)
    : outcome (flow (list Z * list Z * bool * Z * S) (Z * S)) :=
  let '(format, args, rejected_bad_specifier, written, s) := st in
  let literal from rejected :=
    '(format', amount, s') ← print_c from s;
    Ret (Continue (format', args, rejected, s32 (written + amount), s')) in
  if deref format =? 0 then Ret (Return (written, s))
  else if negb (deref format =? 37) then literal format rejected_bad_specifier
  else
    let format_begun_at := format in
    let format := tail format in
    if deref format =? 37 then literal format rejected_bad_specifier
    else if rejected_bad_specifier then literal format_begun_at true
    else
      r ← conversion format args s;
      match r with
      | Some (format', args', s') => Ret (Continue (format', args', false, written, s'))
      | None => literal format_begun_at true
      end.

(** Every round moves on in the format. *)
Definition vprintf (format args : list Z) (s : S) : outcome (Z * S) :=
  while_fuel (Datatypes.S (length format)) vprintf_step (format, args, false, 0, s).

(** [printf] collects the arguments and has no return statement: the value it
    returns is unspecified, so only its output is modelled. *)
Definition printf (format args : list Z) (s : S) : outcome S :=
  '(_, s') ← vprintf format args s;
  Ret s'.

Definition puts (string : Z) (s : S) : outcome S := printf [37; 115; 10] [string] s.
End vprintf.
