(* ===== verification/PrintfProps.v ===== *)
(** What [vprintf] prints: a relation between formats, arguments and text, and
    the proof that the code produces that text. *)
From stdpp Require Import base numbers list gmap.
From Stdlib Require Import ZArith Lia.
From S2P Require Import Prelude Digits Strings StringProps Printf.

(** * Specification *)

(** The formats that come out as they are meant.
    [renders mem format args text n]: with these arguments the format stands
    for [text], of which [n] characters come from the format itself. *)
Inductive renders (mem : memory) : list Z → list Z → list Z → Z → Prop :=
| renders_end args : renders mem [] args [] 0
| renders_char c f args text n :
    0 < c < 256 → c ≠ 37 → renders mem f args text n → renders mem (c :: f) args (c :: text) (1 + n)
| renders_percent f args text n :
    renders mem f args text n → renders mem (37 :: 37 :: f) args (37 :: text) (1 + n)
| renders_c f w args text n :
    renders mem f args text n → renders mem (37 :: 99 :: f) (w :: args) (u8 w :: text) n
| renders_d f w args text n :
    0 ≤ w < 2 ^ 31 → renders mem f args text n →
    renders mem (37 :: 100 :: f) (w :: args) (numeral 10 w ++ text) n
| renders_u f w args text n :
    is_u32 w → renders mem f args text n →
    renders mem (37 :: 117 :: f) (w :: args) (numeral 10 w ++ text) n
| renders_x f w args text n :
    is_u32 w → renders mem f args text n →
    renders mem (37 :: 120 :: f) (w :: args) (numeral 16 w ++ text) n
| renders_lx f lo hi args text n :
    is_u32 lo → is_u32 hi → renders mem f args text n →
    renders mem (37 :: 108 :: 120 :: f) (lo :: hi :: args) (numeral 16 (lo + 2 ^ 32 * hi) ++ text) n
| renders_s f p t args text n :
    cstring mem p t → Z.of_nat (length t) < 2 ^ 32 → renders mem f args text n →
    renders mem (37 :: 115 :: f) (p :: args) (t ++ text) n.

(** The characters [%d] prints for the number [sg * n], [n] nonnegative. *)
Definition int_char (sg x : Z) : Z := sg * x + 48.

(** How far [%x] and [%lx] write past the end of their buffer. *)
Definition hex_overrun (d : Z) : nat := if d =? 0 then 2 else 1.

(** The specifiers that [vprintf] knows. *)
Definition understood (f : list Z) : bool :=
  let c := deref f in
  (c =? 99) || (c =? 100) || (c =? 117) || (c =? 120) || (c =? 115) || ((c =? 108) && (deref (tail f) =? 120)).

(** [converts mem f args t f' args' k]: the conversion at [f] prints [t],
    leaves the format [f'] and the arguments [args'], and writes [k] bytes past
    the end of its buffer.  [%d] of a negative number prints no sign, and each
    digit is subtracted from ['0']. *)
Inductive converts (mem : memory) : list Z → list Z → list Z → list Z → list Z → nat → Prop :=
| converts_c f w args : converts mem (99 :: f) (w :: args) [u8 w] f args 0
| converts_d f w args :
    0 ≤ w < 2 ^ 31 → converts mem (100 :: f) (w :: args) (numeral 10 w) f args 0
| converts_d_negative f m args :
    0 < m ≤ 2 ^ 31 →
    converts mem (100 :: f) (2 ^ 32 - m :: args) (map (int_char (-1)) (rev (digits 10 m))) f args 0
| converts_u f w args :
    is_u32 w → converts mem (117 :: f) (w :: args) (numeral 10 w) f args 0
| converts_x f w args :
    is_u32 w → converts mem (120 :: f) (w :: args) (numeral 16 w) f args (hex_overrun w)
| converts_lx f lo hi args :
    is_u32 lo → is_u32 hi →
    converts mem (108 :: 120 :: f) (lo :: hi :: args) (numeral 16 (lo + 2 ^ 32 * hi)) f args
      (hex_overrun (lo + 2 ^ 32 * hi))
| converts_s f p t args :
    cstring mem p t → Z.of_nat (length t) < 2 ^ 32 → converts mem (115 :: f) (p :: args) t f args 0.

(** All formats.  [outputs mem rejected f args text n k]: [text] is printed, of
    which [n] characters come from the format itself, and some buffer is
    overrun by [k] bytes.  After a specifier that is not understood
    ([rejected]) the rest of the format is printed as it stands, except that
    ["%%"] is still one character. *)
Inductive outputs (mem : memory) : bool → list Z → list Z → list Z → Z → nat → Prop :=
| outputs_end rejected args : outputs mem rejected [] args [] 0 0
| outputs_char rejected c f args text n k :
    0 < c < 256 → c ≠ 37 → outputs mem rejected f args text n k →
    outputs mem rejected (c :: f) args (c :: text) (1 + n) k
| outputs_percent rejected f args text n k :
    outputs mem rejected f args text n k →
    outputs mem rejected (37 :: 37 :: f) args (37 :: text) (1 + n) k
| outputs_conversion f args t f' args' k1 text n k :
    converts mem f args t f' args' k1 → outputs mem false f' args' text n k →
    outputs mem false (37 :: f) args (t ++ text) n (Nat.max k1 k)
| outputs_bad rejected f args text n k :
    deref f ≠ 37 → (rejected = false → understood f = false) → outputs mem true f args text n k →
    outputs mem rejected (37 :: f) args (37 :: text) (1 + n) k.

Lemma renders_outputs mem f args text n :
  renders mem f args text n → ∃ k, (k ≤ 2)%nat ∧ outputs mem false f args text n k.
Proof.
  assert (Hconv : ∀ g args t g' args' k1 text n, (k1 ≤ 2)%nat → converts mem g args t g' args' k1 →
    (∃ k, (k ≤ 2)%nat ∧ outputs mem false g' args' text n k) →
    ∃ k, (k ≤ 2)%nat ∧ outputs mem false (37 :: g) args (t ++ text) n k).
  { intros g a t g' a' k1 x m Hk1 Hc (k & Hk & Ho). exists (Nat.max k1 k). split; [lia|by econstructor]. }
  assert (Hhex : ∀ d, (hex_overrun d ≤ 2)%nat) by (intros d; unfold hex_overrun; case_bool; lia).
  induction 1; try (by (eapply Hconv; [|by constructor|done]; lia || apply Hhex)).
  - exists 0%nat. split; [lia|constructor].
  - destruct IHrenders as (k & Hk & Ho). exists k. split; [done|by constructor].
  - destruct IHrenders as (k & Hk & Ho). exists k. split; [done|by constructor].
  - eapply (Hconv _ _ [u8 w] _ _ 0%nat); [lia|by constructor|done].
Qed.

(** Every format of bytes prints something, given two words of arguments for
    each of its characters, each word that a [%s] may take being a string. *)
Lemma outputs_total mem rejected f args :
  Forall (λ c, 0 < c < 256) f → Forall is_u32 args → (2 * length f ≤ length args)%nat →
  (115 ∈ f → ∀ p, p ∈ args → ∃ t, cstring mem p t ∧ Z.of_nat (length t) < 2 ^ 32) →
  ∃ text n k, outputs mem rejected f args text n k.
Proof.
  remember (length f) as m eqn:Hm. assert (Hle : (length f ≤ m)%nat) by lia. clear Hm.
  revert rejected f args Hle.
  enough (H : ∀ rejected f args, (length f ≤ m)%nat → Forall (λ c, 0 < c < 256) f → Forall is_u32 args →
    (2 * length f ≤ length args)%nat →
    (115 ∈ f → ∀ p, p ∈ args → ∃ t, cstring mem p t ∧ Z.of_nat (length t) < 2 ^ 32) →
    ∃ text n k, outputs mem rejected f args text n k).
  { intros rejected f args Hle Hf Ha Hl Hs. apply H; try done. lia. }
  induction m as [|m IH]; intros rejected f args Hle Hf Ha Hl Hs.
  { destruct f; [|simpl in Hle; lia]. eexists _, _, _. constructor. }
  destruct f as [|c f]; [eexists _, _, _; constructor|].
  apply Forall_cons in Hf as [Hc Hf]. cbn [length] in Hle, Hl.
  assert (Hs' : 115 ∈ f → ∀ p, p ∈ args → ∃ t, cstring mem p t ∧ Z.of_nat (length t) < 2 ^ 32)
    by (intros Hin; apply Hs; by right).
  destruct (decide (c = 37)) as [->|Hne].
  2:{ destruct (IH rejected f args) as (text & n & k & Ho); [lia|done..|lia|done|].
      eexists _, _, _. by constructor. }
  destruct (decide (deref f = 37)) as [Hd|Hd].
  { destruct f as [|d f]; [done|]. simpl in Hd. subst d. cbn [length] in *. apply Forall_cons in Hf as [_ Hf].
    destruct (IH rejected f args) as (text & n & k & Ho); [lia|done..|lia|intros Hin; apply Hs'; by right|].
    eexists _, _, _. by constructor. }
  destruct (negb rejected && understood f) eqn:Hu.
  2:{ destruct (IH true f args) as (text & n & k & Ho); [lia|done..|lia|done|].
      eexists _, _, _. constructor; [done| |done]. intros ->. by destruct (understood f). }
  apply andb_true_iff in Hu as [Hr Hu]. destruct rejected; [done|]. destruct f as [|d f]; [done|].
  destruct args as [|w [|w2 args]]; simpl in Hl; try lia.
  apply Forall_cons in Ha as [Hw [Hw2 Ha]%Forall_cons]. apply Forall_cons in Hf as [_ Hf]. cbn [length] in *.
  assert (Hnext : ∀ g a, (length g ≤ length f)%nat → Forall (λ c, 0 < c < 256) g →
            (a = w2 :: args ∨ a = args) → (115 ∈ g → 115 ∈ f) → ∃ text n k, outputs mem false g a text n k).
  { intros g a Hg Hg' Hargs Hin. apply IH; [lia|done|destruct Hargs as [-> | ->]; [by constructor|done]
      |destruct Hargs as [-> | ->]; cbn [length] in *; lia|].
    intros Hs1 p Hp. apply Hs'; [right; by apply Hin|]. destruct Hargs as [-> | ->]; right; [done|by right]. }
  unfold understood in Hu. cbn [deref List.hd tail] in Hu. rewrite !orb_true_iff, andb_true_iff, !Z.eqb_eq in Hu.
  destruct Hu as [[[[[-> | ->]| ->]| ->]| ->]|[-> Hd2]].
  - destruct (Hnext f (w2 :: args)) as (text & n & k & Ho); auto. eexists _, _, _.
    eapply outputs_conversion; [constructor|done].
  - destruct (Hnext f (w2 :: args)) as (text & n & k & Ho); auto. unfold is_u32 in Hw.
    destruct (Z.lt_ge_cases w (2 ^ 31)).
    + eexists _, _, _. eapply outputs_conversion; [constructor; lia|done].
    + replace w with (2 ^ 32 - (2 ^ 32 - w)) by lia. eexists _, _, _.
      eapply outputs_conversion; [apply (converts_d_negative mem f (2 ^ 32 - w)); lia|done].
  - destruct (Hnext f (w2 :: args)) as (text & n & k & Ho); auto. eexists _, _, _.
    eapply outputs_conversion; [by constructor|done].
  - destruct (Hnext f (w2 :: args)) as (text & n & k & Ho); auto. eexists _, _, _.
    eapply outputs_conversion; [by constructor|done].
  - destruct (Hnext f (w2 :: args)) as (text & n & k & Ho); auto.
    destruct (Hs' ltac:(by left) w ltac:(by left)) as (t & Ht & Hlt). eexists _, _, _.
    eapply outputs_conversion; [by constructor|done].
  - destruct f as [|d f]; [done|]. simpl in Hd2. subst d. apply Forall_cons in Hf as [_ Hf].
    destruct (Hnext f args) as (text & n & k & Ho); [cbn [length]; lia|done|by right|intros ?; by right|].
    eexists _, _, _. eapply outputs_conversion; [by constructor|done].
Qed.

(** The text, character by character. *)
Fixpoint emit {S} (putchar : Z → S → outcome S) (text : list Z) (s : S) : outcome S :=
  match text with
  | [] => Ret s
  | c :: text' => s' ← putchar (u8 c) s; emit putchar text' s'
  end.

(** * Lemmas on buffers of digits *)

(** The number of digits, zero having none. *)
Definition size_of (base d : Z) : Z := if d =? 0 then 0 else Z.of_nat (length (digits base d)).

Lemma size_of_step base d : 2 ≤ base → 0 < d → size_of base d = 1 + size_of base (d / base).
Proof.
  intros Hb Hd. unfold size_of. destruct (Z.eqb_spec d 0); [lia|].
  rewrite (digits_step base Hb d) by lia. pose proof (div_base base Hb d Hd).
  destruct (Z.eqb_spec (d / base) 0) as [->|]; [done|].
  destruct (Z.ltb_spec 0 (d / base)); [|lia]. cbn [length]. lia.
Qed.

Lemma size_of_bounds base d : 2 ≤ base → 0 ≤ d < 2 ^ 64 → 0 ≤ size_of base d ≤ 64.
Proof.
  intros Hb Hd. unfold size_of. case_bool; [lia|].
  enough (length (digits base d) ≤ 64)%nat by lia. apply digits_length; [done| |lia].
  split; [lia|]. apply Z.lt_le_trans with (2 ^ 64); [lia|]. by apply Z.pow_le_mono_l.
Qed.

Lemma quot_base base d : 2 ≤ base → 0 ≤ d → Z.quot d base = d / base.
Proof. intros Hb Hd. apply Z.quot_div_nonneg; lia. Qed.

Lemma count_digits_spec base d :
  2 ≤ base → 0 ≤ d < 2 ^ 64 → count_digits base d = Ret (size_of base d).
Proof.
  intros Hb Hd. enough (H : wp (count_digits base d) (λ r, r = size_of base d))
    by (apply wp_inv in H as (r & -> & ->); done).
  apply (wp_while (λ '(size, temp), 0 ≤ temp < 2 ^ 64 ∧ size + size_of base temp = size_of base d)
           (λ '(_, temp), Z.to_nat (size_of base temp))).
  - split; [done|lia].
  - pose proof (size_of_bounds base d Hb Hd). lia.
  - intros [size temp] [Ht Hs]. unfold truthy. destruct (Z.eqb_spec temp 0) as [->|Hne]; simpl.
    + unfold size_of in Hs at 1. simpl in Hs. lia.
    + rewrite quot_base by lia. pose proof (div_base base Hb temp ltac:(lia)).
      rewrite (size_of_step base temp) in Hs |- * by lia. split; [lia|].
      pose proof (size_of_bounds base (temp / base) Hb ltac:(lia)). lia.
Qed.

(** The digits of [d], zero having none. *)
Definition proper_digits (base d : Z) : list Z := if d =? 0 then [] else digits base d.

Lemma proper_digits_length base d : Z.of_nat (length (proper_digits base d)) = size_of base d.
Proof. unfold proper_digits, size_of. by case_bool. Qed.

Lemma proper_digits_step base d :
  2 ≤ base → 0 < d → proper_digits base d = d mod base :: proper_digits base (d / base).
Proof.
  intros Hb Hd. unfold proper_digits. destruct (Z.eqb_spec d 0); [lia|].
  rewrite (digits_step base Hb d) by lia. pose proof (div_base base Hb d Hd).
  destruct (Z.eqb_spec (d / base) 0) as [->|]; [done|].
  by destruct (Z.ltb_spec 0 (d / base)); [|lia].
Qed.

Lemma digit_char_small d : 0 ≤ d < 10 → digit_char d = d + 48.
Proof. intros H. unfold digit_char. case_bool; lia. Qed.

Lemma s8_digit_char d : 0 ≤ d < 16 → s8 (digit_char d) = digit_char d.
Proof. intros H. apply s8_small. unfold digit_char. case_bool; lia. Qed.

(** Writing before what was written so far. *)
Lemma array_set_before (junk done : list Z) x c i :
  i = Z.of_nat (length junk) → array_set (junk ++ x :: done) i c = Ret (junk ++ c :: done).
Proof.
  intros ->. rewrite array_set_in by (rewrite length_app; simpl; lia).
  by rewrite Nat2Z.id, insert_app_r_alt, Nat.sub_diag by lia.
Qed.

Lemma array_set_after (done junk : list Z) x c i :
  i = Z.of_nat (length done) → array_set (done ++ x :: junk) i c = Ret ((done ++ [c]) ++ junk).
Proof. intros ->. by rewrite array_set_before, <- app_assoc. Qed.

Lemma list_last {A} (l : list A) : (0 < length l)%nat → ∃ l' x, l = l' ++ [x].
Proof. destruct l as [|y l'] using rev_ind; simpl; [lia|]. by exists l', y. Qed.

(** ** Output *)

Section output.
Context {S : Type} (putchar : Z → S → outcome S) (mem : memory).

Lemma emit_app t1 t2 s : emit putchar (t1 ++ t2) s = emit putchar t1 s ≫= emit putchar t2.
Proof.
  revert s. induction t1 as [|c t1 IH]; intros s; [done|]. simpl.
  destruct (putchar (u8 c) s) as [s'| | |]; simpl; [apply IH|done..].
Qed.

(** A loop over an array is a loop over the list. *)
Lemma rounds_emit (get : Z → outcome Z) text i s :
  (∀ k c, text !! k = Some c → get (i + Z.of_nat k) = Ret c) →
  rounds_all (length text) i (λ i s, c ← get i; putchar (u8 c) s) s = emit putchar text s.
Proof.
  revert i s. induction text as [|c text IH]; intros i s Hget; [done|]. simpl.
  pose proof (Hget O c eq_refl) as H0. rewrite Z.add_0_r in H0. rewrite H0, Ret_bind.
  destruct (putchar (u8 c) s) as [s'| | |]; simpl; [|done..]. apply IH.
  intros k x Hk. rewrite <- (Hget (Datatypes.S k) x Hk). f_equal. lia.
Qed.

Lemma print_emit data rest s :
  print putchar (data ++ rest) (Z.of_nat (length data)) s = emit putchar data s.
Proof.
  unfold print, for_range. rewrite Z.sub_0_r, Nat2Z.id. apply rounds_emit.
  intros k c Hk. apply array_get_Ret. split; [lia|].
  rewrite Z.add_0_l, Nat2Z.id, lookup_app_l; [done|]. by eapply lookup_lt_Some.
Qed.

Lemma print_all data s : print putchar data (Z.of_nat (length data)) s = emit putchar data s.
Proof. rewrite <- (app_nil_r data) at 1. apply print_emit. Qed.

Lemma print_none data s : print putchar data 0 s = Ret s.
Proof. by unfold print; rewrite for_range_empty. Qed.

Lemma print_mem_emit a t s :
  cstring mem a t → print_mem putchar mem a (Z.of_nat (length t)) s = emit putchar t s.
Proof.
  intros [Ht _]. apply bytes_at_app in Ht as [Ht _].
  unfold print_mem, for_range. rewrite Z.sub_0_r, Nat2Z.id. apply rounds_emit.
  intros k c Hk. apply load8_Ret. by apply Ht.
Qed.

(** ** Numbers *)

(** The digit loop of [%u] and [%d].  The loop works on a representation
    [rep k] of the number [k] that is left. *)
Lemma fill_spec (idx inc chr next rep char : Z → Z) d :
  0 ≤ d < 2 ^ 32 →
  (∀ i, 0 ≤ i < size_of 10 d → idx i = size_of 10 d - i - 1 ∧ inc i = i + 1) →
  (∀ k, 0 ≤ k → truthy (rep k) = truthy k) →
  (∀ k, 0 < k → chr (rep k) = char (k mod 10) ∧ next (rep k) = rep (k / 10)) →
  while_fuel 65 (λ '(i, d', buffer),
    if truthy d' then
      buffer' ← array_set buffer (idx i) (chr d');
      Ret (Continue (inc i, next d', buffer'))
    else Ret (Return buffer)) (0, rep d, replicate (Z.to_nat (size_of 10 d)) 0)
  = Ret (map char (rev (proper_digits 10 d))).
Proof.
  intros Hd Hidx Hrep Hchr. pose proof (size_of_bounds 10 d ltac:(lia) ltac:(lia)) as Hsz.
  match goal with |- while_fuel 65 ?b ?s0 = _ =>
    enough (H : wp (while_fuel 65 b s0) (λ r, r = map char (rev (proper_digits 10 d))))
      by (apply wp_inv in H as (r & -> & ->); done) end.
  apply (wp_while (λ '(i, d', buf), ∃ k pre junk, d' = rep k ∧ i = Z.of_nat (length pre) ∧ 0 ≤ k ∧
           proper_digits 10 d = pre ++ proper_digits 10 k ∧ buf = junk ++ map char (rev pre) ∧
           Z.of_nat (length junk) = size_of 10 k)
           (λ '(i, _, _), Z.to_nat (size_of 10 d - i))).
  - exists d, [], (replicate (Z.to_nat (size_of 10 d)) 0). split; [done|]. split; [done|].
    split; [lia|]. split; [done|]. split; [by rewrite app_nil_r|]. rewrite length_replicate. lia.
  - lia.
  - intros [[i d'] buf] (k & pre & junk & -> & -> & Hk & Hpre & -> & Hj). rewrite Hrep by done.
    unfold truthy. destruct (Z.eqb_spec k 0) as [->|Hne]; simpl.
    + assert (junk = []) as -> by (apply nil_length_inv; unfold size_of in Hj; simpl in Hj; lia).
      unfold proper_digits in Hpre at 2. simpl in Hpre. rewrite app_nil_r in Hpre. by rewrite Hpre.
    + assert (Hsize : size_of 10 d = Z.of_nat (length pre) + size_of 10 k).
      { rewrite <- !proper_digits_length, Hpre, length_app. lia. }
      pose proof (size_of_step 10 k ltac:(lia) ltac:(lia)) as Hstep.
      rewrite (proper_digits_step 10 k) in Hpre by lia.
      assert (0 ≤ size_of 10 (k / 10)) by (unfold size_of; case_bool; lia).
      destruct (list_last junk) as (junk' & x & ->); [lia|]. rewrite length_app in Hj. simpl in Hj.
      destruct (Hidx (Z.of_nat (length pre))) as [-> ->]; [lia|].
      destruct (Hchr k) as [-> ->]; [lia|].
      rewrite <- app_assoc. simpl. rewrite array_set_before, Ret_bind by lia.
      simpl. pose proof (div_base 10 ltac:(lia) k ltac:(lia)).
      split; [|lia]. exists (k / 10), (pre ++ [k mod 10]), junk'. split; [done|].
      split; [rewrite length_app; simpl; lia|]. split; [lia|].
      split; [by rewrite <- app_assoc|]. split; [by rewrite rev_app_distr|]. lia.
Qed.

Lemma fill_unsigned d :
  0 ≤ d < 2 ^ 32 →
  while_fuel 65 (λ '(i, d', buffer),
    if truthy d' then
      buffer' ← array_set buffer (size_of 10 d ⊖ i ⊖ 1) (s8 (d' mod 10 + 48));
      Ret (Continue (i ⊕ 1, d' / 10, buffer'))
    else Ret (Return buffer)) (0, d, replicate (Z.to_nat (size_of 10 d)) 0)
  = Ret (map digit_char (rev (proper_digits 10 d))).
Proof.
  intros Hd. pose proof (size_of_bounds 10 d ltac:(lia) ltac:(lia)).
  apply (fill_spec (λ i, size_of 10 d ⊖ i ⊖ 1) (λ i, i ⊕ 1) (λ d, s8 (d mod 10 + 48))
           (λ d, d / 10) id); [done| |done|].
  - intros i Hi. rewrite !u32_small; rewrite ?u32_small; u32_lia.
  - intros k Hk. pose proof (Z.mod_pos_bound k 10 ltac:(lia)). split; [|done].
    unfold id. cbv beta. by rewrite <- digit_char_small, s8_digit_char by lia.
Qed.

(** Signed division by ten truncates towards zero. *)
Lemma divide_signed sg k :
  sg = 1 ∨ sg = -1 → 0 ≤ k → Z.rem (sg * k) 10 = sg * (k mod 10) ∧ Z.quot (sg * k) 10 = sg * (k / 10).
Proof.
  intros [-> | ->] Hk.
  - rewrite !Z.mul_1_l. split; [apply Z.rem_mod_nonneg; lia|apply Z.quot_div_nonneg; lia].
  - replace (-1 * k) with (- k) by lia. rewrite Z.rem_opp_l, Z.quot_opp_l by lia.
    rewrite Z.rem_mod_nonneg, Z.quot_div_nonneg by lia. lia.
Qed.

Lemma fill_int sg n :
  sg = 1 ∨ sg = -1 → 0 ≤ n < 2 ^ 32 →
  while_fuel 65 (λ '(i, d', buffer),
    if truthy d' then
      buffer' ← array_set buffer (size_of 10 n - i - 1) (s8 (Z.rem d' 10 + 48));
      Ret (Continue (i + 1, Z.quot d' 10, buffer'))
    else Ret (Return buffer)) (0, sg * n, replicate (Z.to_nat (size_of 10 n)) 0)
  = Ret (map (int_char sg) (rev (proper_digits 10 n))).
Proof.
  intros Hsg Hn.
  apply (fill_spec (λ i, size_of 10 n - i - 1) (λ i, i + 1) (λ d, s8 (Z.rem d 10 + 48))
           (λ d, Z.quot d 10) (λ k, sg * k)); [done|done| |].
  - intros k Hk. unfold truthy.
    destruct Hsg as [-> | ->], (Z.eqb_spec k 0); case_bool; lia || done.
  - intros k Hk. pose proof (Z.mod_pos_bound k 10 ltac:(lia)).
    destruct (divide_signed sg k Hsg) as [-> ->]; [lia|]. split; [|done].
    unfold int_char. set (x := k mod 10) in *. clearbody x.
    apply s8_small. change (2 ^ 7) with 128. destruct Hsg as [-> | ->]; lia.
Qed.

Lemma count_digits_int sg n :
  sg = 1 ∨ sg = -1 → 0 ≤ n < 2 ^ 32 → count_digits 10 (sg * n) = Ret (size_of 10 n).
Proof.
  intros Hsg Hn. enough (H : wp (count_digits 10 (sg * n)) (λ r, r = size_of 10 n))
    by (apply wp_inv in H as (r & -> & ->); done).
  apply (wp_while (λ '(size, d), ∃ k, d = sg * k ∧ 0 ≤ k < 2 ^ 32 ∧
                     size + size_of 10 k = size_of 10 n)
           (λ '(size, _), Z.to_nat (size_of 10 n - size))).
  - exists n. done.
  - pose proof (size_of_bounds 10 n). lia.
  - intros [size d] (k & -> & Hk & Hs). unfold truthy. destruct (Z.eqb_spec (sg * k) 0); simpl.
    + assert (k = 0) as -> by (destruct Hsg as [-> | ->]; lia). unfold size_of in Hs at 1. simpl in Hs. lia.
    + pose proof (div_base 10 ltac:(lia) k ltac:(lia)).
      rewrite (size_of_step 10 k) in Hs by lia.
      assert (0 ≤ size_of 10 (k / 10)) by (unfold size_of; case_bool; lia).
      split; [|lia]. exists (k / 10). split; [|split; [lia|lia]].
      by apply divide_signed; [done|lia].
Qed.

(** Zero is printed apart, and then an empty buffer. *)
Lemma print_number base d s (rest : S → outcome S) :
  2 ≤ base → 0 ≤ d →
  (∀ s, rest s = emit putchar (map digit_char (rev (proper_digits base d))) s) →
  (s1 ← (if d =? 0 then print putchar [48] 1 s else Ret s); rest s1)
  = emit putchar (numeral base d) s.
Proof.
  intros Hb Hd Hrest. unfold proper_digits in Hrest. destruct (Z.eqb_spec d 0) as [->|Hne].
  - assert (Hz : numeral base 0 = [48]).
    { rewrite numeral_step by lia. rewrite Z.div_0_l, Z.mod_0_l by lia. done. }
    rewrite Hz. change 1 with (Z.of_nat (length [48])). rewrite print_all.
    destruct (emit putchar [48] s) as [s'| | |]; [|done..]. rewrite Ret_bind, Hrest. done.
  - rewrite Ret_bind, Hrest. done.
Qed.

Lemma print_unsigned_emit d s :
  0 ≤ d < 2 ^ 32 → print_unsigned putchar d s = emit putchar (numeral 10 d) s.
Proof.
  intros Hd. unfold print_unsigned. apply (print_number 10); [lia|lia|]. intros s1.
  rewrite count_digits_spec, Ret_bind by lia. rewrite fill_unsigned, Ret_bind by done.
  rewrite <- proper_digits_length.
  replace (length (proper_digits 10 d)) with (length (map digit_char (rev (proper_digits 10 d))))
    by (by rewrite length_map, length_rev).
  apply print_all.
Qed.

(** [%d]: there is no sign, and the digits of a negative number are taken off
    ['0'] instead of being added to it. *)
Lemma print_int_emit sg n s :
  sg = 1 ∨ sg = -1 → 0 < n < 2 ^ 32 →
  print_int putchar (sg * n) s = emit putchar (map (int_char sg) (rev (digits 10 n))) s.
Proof.
  intros Hsg Hn. unfold print_int. destruct (Z.eqb_spec (sg * n) 0);
    [destruct Hsg as [-> | ->]; lia|]. rewrite Ret_bind.
  rewrite count_digits_int, Ret_bind by (done || lia). rewrite fill_int, Ret_bind by (done || lia).
  rewrite <- proper_digits_length. unfold proper_digits. destruct (Z.eqb_spec n 0); [lia|].
  replace (length (digits 10 n)) with (length (map (int_char sg) (rev (digits 10 n))))
    by (by rewrite length_map, length_rev).
  apply print_all.
Qed.

Lemma print_int_nonneg d s :
  0 ≤ d < 2 ^ 31 → print_int putchar d s = emit putchar (numeral 10 d) s.
Proof.
  intros Hd. destruct (decide (d = 0)) as [->|Hne].
  - unfold print_int. apply (print_number 10); [lia|lia|]. intros s1.
    change (count_digits 10 0) with (Ret (A:=Z) 0). rewrite Ret_bind. simpl. apply print_none.
  - replace d with (1 * d) at 1 by lia. rewrite print_int_emit by lia. f_equal.
    unfold numeral. apply map_ext_in. intros x Hx%in_rev%list_elem_of_In.
    pose proof (digits_range 10 ltac:(lia) d ltac:(lia)) as Hr. rewrite Forall_forall in Hr.
    apply Hr in Hx. unfold int_char. rewrite digit_char_small by lia. lia.
Qed.
(** ** Hexadecimal *)

Lemma hex_char d : 0 ≤ d < 16 → s8 (if d <? 10 then d + 48 else d + 97 - 10) = digit_char d.
Proof. intros H. rewrite s8_small; unfold digit_char; case_bool; lia. Qed.

(** The digit loop of [%x] writes the digits, least significant first. *)
Lemma hex_fill d buffer :
  0 ≤ d < 2 ^ 64 → (length (digits 16 d) ≤ length buffer)%nat →
  wp (while_fuel 65 (λ '(loop, d', buffer),
        let remainder := d' mod 16 in
        buffer' ← array_set buffer loop
          (s8 (if remainder <? 10 then remainder + 48 else remainder + 97 - 10));
        if truthy (d' / 16) then Ret (Continue (loop + 1, d' / 16, buffer'))
        else Ret (Return (loop + 1, buffer'))) (0, d, buffer))
    (λ '(loop, buffer'), loop = Z.of_nat (length (digits 16 d)) ∧
       ∃ junk, buffer' = map digit_char (digits 16 d) ++ junk ∧ length buffer' = length buffer).
Proof.
  intros Hd Hlen.
  apply (wp_while (λ '(i, k, buf), ∃ pre junk, i = Z.of_nat (length pre) ∧ 0 ≤ k < 2 ^ 64 ∧
           digits 16 d = pre ++ digits 16 k ∧ buf = map digit_char pre ++ junk ∧
           length buf = length buffer)
           (λ '(_, k, _), length (digits 16 k))).
  - exists [], buffer. done.
  - pose proof (digits_length 16 ltac:(lia) 16 d ltac:(lia) ltac:(lia)). lia.
  - intros [[i k] buf] (pre & junk & -> & Hk & Hpre & Hbuf & Hl).
    pose proof (digits_length_pos 16 k) as Hpos.
    assert (Hlp : length (digits 16 d) = (length pre + length (digits 16 k))%nat)
      by (by rewrite Hpre, length_app).
    rewrite Hbuf, length_app, length_map in Hl. destruct junk as [|x junk]; [simpl in Hl; lia|].
    cbv zeta. rewrite hex_char by (apply Z.mod_pos_bound; lia).
    rewrite Hbuf, array_set_after, Ret_bind by (by rewrite length_map).
    change [digit_char (k mod 16)] with (map digit_char [k mod 16]). rewrite <- map_app.
    assert (Hlen' : length (map digit_char (pre ++ [k mod 16]) ++ junk) = length buffer).
    { rewrite length_app, length_map, length_app. cbn [length] in *. lia. }
    clear Hlp. rewrite (digits_step 16 ltac:(lia) k) in Hpre |- * by lia.
    pose proof (Z.div_pos k 16 ltac:(lia) ltac:(lia)). pose proof (Z.div_le_upper_bound k 16 (2 ^ 60)).
    unfold truthy. destruct (Z.eqb_spec (k / 16) 0) as [Hz|Hz].
    + rewrite Hz in Hpre. simpl in Hpre. apply wp_ret. rewrite Hpre.
      split; [rewrite length_app; cbn [length]; lia|]. by exists junk.
    + destruct (Z.ltb_spec 0 (k / 16)); [|lia]. apply wp_ret. split; [|cbn [length]; lia].
      exists (pre ++ [k mod 16]), junk. split; [rewrite length_app; cbn [length]; lia|].
      split; [lia|]. split; [by rewrite <- app_assoc|]. done.
Qed.

(** The reversal with indices of type [char]. *)
Lemma reverse_buffer_spec l rest :
  (length l ≤ 64)%nat → reverse_buffer (Z.of_nat (length l)) (l ++ rest) = Ret (rev l ++ rest).
Proof.
  intros Hlen. set (n := Z.of_nat (length l)).
  enough (H : wp (reverse_buffer n (l ++ rest)) (λ b, b = rev l ++ rest))
    by (apply wp_inv in H as (b & -> & ->); done).
  unfold reverse_buffer. rewrite s8_small by lia. set (B := l ++ rest).
  assert (HB : length B = (length l + length rest)%nat) by apply length_app.
  apply (wp_while (λ '(i, j, b), (0 ≤ i ∧ 2 * i ≤ n + 1) ∧ j = n - 1 - i ∧ length b = length B ∧
           ∀ k, b !! k = if decide (Z.of_nat k < i ∨ n - 1 - i < Z.of_nat k < n)
                         then B !! (Z.to_nat (n - 1 - Z.of_nat k)) else B !! k)
           (λ '(i, _, _), Z.to_nat (n - i))).
  - split; [lia|]. split; [lia|]. split; [done|]. intros k. case_decide; [lia|done].
  - lia.
  - intros [[i j] b] (Hi & -> & Hl & Hb). destruct (Z.ltb_spec i (n - 1 - i)) as [Hij|Hij].
    + destruct (array_get_in b i) as (x & Hx & ->); [lia|]. rewrite Ret_bind.
      destruct (array_get_in b (n - 1 - i)) as (y & Hy & ->); [lia|]. rewrite Ret_bind.
      rewrite array_set_in, Ret_bind by lia.
      rewrite array_set_in, Ret_bind by (rewrite length_insert; lia).
      rewrite !s8_small by lia. simpl. split; [|lia]. split; [lia|]. split; [lia|].
      split; [by rewrite !length_insert|]. intros k.
      rewrite Hb in Hx, Hy. case_decide; [lia|]. case_decide; [lia|].
      destruct (decide (Z.of_nat k = n - 1 - i)) as [Hk1|Hk1].
      { replace (Z.to_nat (n - 1 - i)) with k by lia. rewrite list_lookup_insert_eq
          by (rewrite length_insert; lia). case_decide; [|lia]. rewrite <- Hx. f_equal. lia. }
      rewrite list_lookup_insert_ne by lia. destruct (decide (Z.of_nat k = i)) as [Hk2|Hk2].
      { replace (Z.to_nat i) with k by lia. rewrite list_lookup_insert_eq by lia.
        case_decide; [|lia]. rewrite <- Hy. f_equal. lia. }
      rewrite list_lookup_insert_ne by lia. rewrite Hb. repeat case_decide; try done; lia.
    + simpl. apply list_eq. intros k. rewrite Hb. destruct (decide (k < length l)%nat).
      * rewrite lookup_app_l, lookup_rev by (rewrite ?length_rev; lia). unfold B.
        case_decide; (rewrite lookup_app_l by lia); f_equal; lia.
      * rewrite lookup_app_r by (rewrite length_rev; lia). rewrite length_rev. unfold B.
        case_decide; [lia|]. by rewrite lookup_app_r by lia.
Qed.

Lemma print_hex_emit slack d s :
  0 ≤ d < 2 ^ 64 → (hex_overrun d ≤ slack)%nat → print_hex putchar slack d s = emit putchar (numeral 16 d) s.
Proof.
  intros Hd Hslack. unfold print_hex. apply (print_number 16); [lia|lia|]. intros s1.
  rewrite count_digits_spec, Ret_bind by lia.
  pose proof (size_of_bounds 16 d ltac:(lia) ltac:(lia)) as Hsz.
  assert (Hroom : (length (digits 16 d) < Z.to_nat (size_of 16 d) + slack)%nat).
  { unfold hex_overrun in Hslack. unfold size_of. case_bool; [subst; simpl; lia|lia]. }
  pose proof (hex_fill d (replicate (Z.to_nat (size_of 16 d) + slack) 0) Hd) as H.
  cbv zeta in H |- *.
  apply wp_inv in H as ([loop buf] & -> & -> & junk & Hbuf & Hl); [|rewrite length_replicate; lia].
  rewrite Hbuf, length_app, length_map, length_replicate in Hl.
  destruct junk as [|x junk]; [cbn [length] in Hl; lia|].
  rewrite Ret_bind, Hbuf, array_set_after, Ret_bind, <- app_assoc by (by rewrite length_map). clear Hslack.
  unfold proper_digits, size_of. unfold size_of in Hsz. destruct (Z.eqb_spec d 0) as [->|Hne].
  - change (map digit_char (digits 16 0) ++ [0] ++ junk) with (48 :: 0 :: junk).
    assert (Hr : reverse_buffer 0 (48 :: 0 :: junk) = Ret (48 :: 0 :: junk))
      by (apply (reverse_buffer_spec []); simpl; lia).
    rewrite Hr, Ret_bind.
    apply print_none.
  - replace (length (digits 16 d)) with (length (map digit_char (digits 16 d))) by apply length_map.
    rewrite reverse_buffer_spec, Ret_bind by (rewrite length_map; lia).
    rewrite <- (length_rev (map _ _)), <- map_rev. apply print_emit.
Qed.

(** Without room behind the buffer the terminator is written past its end. *)
Lemma print_hex_overflow slack d s :
  0 ≤ d < 2 ^ 64 → (slack < hex_overrun d)%nat → (∀ c s, ∃ s', putchar c s = Ret s') →
  print_hex putchar slack d s = Fault.
Proof.
  intros Hd Hslack Hput. unfold print_hex, hex_overrun in *.
  assert (Hzero : ∃ s1, (if d =? 0 then print putchar [48] 1 s else Ret s) = Ret s1).
  { destruct (d =? 0); [|by exists s]. change 1 with (Z.of_nat (length [48])). rewrite print_all. simpl.
    destruct (Hput (u8 48) s) as [s1 ->]. by exists s1. }
  destruct Hzero as [s1 ->]. rewrite Ret_bind, count_digits_spec, Ret_bind by lia.
  destruct (Z.eqb_spec d 0) as [->|Hne].
  { destruct slack as [|[|slack]]; [done|done|lia]. }
  assert (slack = 0%nat) as -> by lia.
  pose proof (hex_fill d (replicate (Z.to_nat (size_of 16 d) + 0) 0) ltac:(lia)) as H.
  cbv zeta in H |- *.
  apply wp_inv in H as ([loop buf] & -> & -> & junk & Hbuf & Hl).
  2:{ rewrite length_replicate. unfold size_of. case_bool; lia. }
  rewrite length_replicate in Hl. rewrite Ret_bind, array_set_out; [done|].
  rewrite Hl. unfold size_of. case_bool; lia.
Qed.
End output.

(** * The main loop *)

Section vprintf.
Context {S : Type} (putchar : Z → S → outcome S) (mem : memory) (slack : nat).

Lemma literal_length_bounds f : 0 ≤ literal_length f ≤ Z.of_nat (length f).
Proof. induction f as [|c f IH]; simpl; [lia|]. destruct (truthy c && negb (c =? 37)); lia. Qed.

(** A run of plain characters stands for itself. *)
Lemma outputs_run rejected f args text n k :
  outputs mem rejected f args text n k →
  ∃ text' n', text = take (Z.to_nat (literal_length f)) f ++ text' ∧ n = literal_length f + n' ∧
    outputs mem rejected (drop (Z.to_nat (literal_length f)) f) args text' n' k.
Proof.
  induction 1 as [|rejected c f args text n k Hc Hne Ho IH| | |].
  2:{ destruct IH as (text' & n' & -> & -> & Hr'). pose proof (literal_length_bounds f).
      exists text', n'. simpl. unfold truthy. destruct (Z.eqb_spec c 0), (Z.eqb_spec c 37); try lia. simpl.
      replace (Z.to_nat (1 + literal_length f)) with (Datatypes.S (Z.to_nat (literal_length f))) by lia.
      split; [done|]. split; [lia|done]. }
  all: eexists _, _; split; [reflexivity|]; split; [symmetry; apply Z.add_0_l|]; by econstructor.
Qed.

Lemma print_c_emit c f s :
  print_c putchar (c :: f) s =
    s' ← emit putchar (c :: take (Z.to_nat (literal_length f)) f) s;
    Ret (drop (Z.to_nat (literal_length f)) f, 1 + literal_length f, s').
Proof.
  unfold print_c. cbn [tail]. pose proof (literal_length_bounds f).
  set (k := Z.to_nat (literal_length f)).
  assert (Hk : 1 + literal_length f = Z.of_nat (length (c :: take k f))).
  { cbn [length]. rewrite length_take. lia. }
  assert (Hf : c :: f = (c :: take k f) ++ drop k f) by (simpl; by rewrite take_drop).
  assert (Hp : print putchar (c :: f) (1 + literal_length f) s = emit putchar (c :: take k f) s)
    by (rewrite Hk, Hf; apply print_emit).
  rewrite Hp. replace (Z.to_nat (1 + literal_length f)) with (Datatypes.S k) by lia. done.
Qed.

(** What a conversion prints, when there is room for its terminator; if not,
    it faults. *)
Lemma conversion_emit f args t f' args' k s :
  converts mem f args t f' args' k → (k ≤ slack)%nat →
  conversion putchar mem slack f args s = s' ← emit putchar t s; Ret (Some (f', args', s')).
Proof.
  intros Hc Hk. destruct Hc; unfold conversion; cbn [deref List.hd tail va_arg Z.eqb Pos.eqb andb];
    rewrite Ret_bind.
  - change 1 with (Z.of_nat (length [s8 w])). rewrite print_all. simpl.
    by replace (u8 (s8 w)) with (u8 (u8 w)) by (unfold u8, s8; rewrite Z.mod_mod, Zminus_mod_idemp_l by lia; f_equal; lia).
  - rewrite s32_small, print_int_nonneg by lia. done.
  - replace (s32 (2 ^ 32 - m)) with (-1 * m).
    2:{ unfold s32. replace (2 ^ 32 - m + 2 ^ 31) with (2 ^ 31 - m + 1 * 2 ^ 32) by lia.
        rewrite Z_mod_plus_full, Z.mod_small by lia. lia. }
    rewrite print_int_emit by lia. done.
  - rewrite print_unsigned_emit by done. done.
  - rewrite print_hex_emit by (unfold is_u32 in *; lia || done). done.
  - cbn [va_arg]. rewrite Ret_bind, print_hex_emit by (unfold is_u32 in *; lia || done). done.
  - rewrite (strlen_spec mem p t), Ret_bind, print_mem_emit by done. done.
Qed.

Lemma conversion_overflow f args t f' args' k s :
  converts mem f args t f' args' k → (slack < k)%nat → (∀ c s, ∃ s', putchar c s = Ret s') →
  conversion putchar mem slack f args s = Fault.
Proof.
  intros Hc Hk Hput. destruct Hc; try lia; unfold conversion; cbn [deref List.hd tail va_arg Z.eqb Pos.eqb andb];
    rewrite Ret_bind.
  - rewrite print_hex_overflow by (done || unfold is_u32 in *; lia). done.
  - cbn [va_arg]. rewrite Ret_bind, print_hex_overflow by (done || unfold is_u32 in *; lia). done.
Qed.

Lemma conversion_bad f args s : understood f = false → conversion putchar mem slack f args s = Ret None.
Proof.
  unfold understood, conversion. rewrite !orb_false_iff. intros [[[[[-> ->] ->] ->] ->] ->]. done.
Qed.

Lemma converts_shorter f args t f' args' k :
  converts mem f args t f' args' k → (length f' < length f)%nat ∧ deref f ≠ 37.
Proof. by destruct 1; simpl; (split; [lia|]). Qed.

(** One round at a conversion. *)
Lemma step_conversion f f' args args' t written s :
  deref f ≠ 37 →
  conversion putchar mem slack f args s = (s' ← emit putchar t s; Ret (Some (f', args', s'))) →
  vprintf_step putchar mem slack (37 :: f, args, false, written, s) =
    s' ← emit putchar t s; Ret (Continue (f', args', false, written, s')).
Proof.
  intros Hne Hconv. unfold vprintf_step. cbn [deref List.hd Z.eqb Pos.eqb negb tail].
  destruct (Z.eqb_spec (deref f) 37); [done|]. rewrite Hconv. by destruct (emit putchar t s).
Qed.

(** One round that prints characters of the format. *)
Lemma step_literal rejected rejected' f c g args written s :
  (f = c :: g ∧ c ≠ 37 ∧ c ≠ 0 ∧ rejected' = rejected) ∨ (f = 37 :: c :: g ∧ c = 37 ∧ rejected' = rejected) ∨
  (f = c :: g ∧ c = 37 ∧ deref g ≠ 37 ∧ (rejected = false → understood g = false) ∧ rejected' = true) →
  vprintf_step putchar mem slack (f, args, rejected, written, s) =
    s' ← emit putchar (c :: take (Z.to_nat (literal_length g)) g) s;
    Ret (Continue (drop (Z.to_nat (literal_length g)) g, args, rejected',
                   s32 (written + (1 + literal_length g)), s')).
Proof.
  intros [(-> & Hc & Hc0 & ->)|[(-> & -> & ->)|(-> & -> & Hg & Hu & ->)]]; unfold vprintf_step;
    cbn [deref List.hd tail].
  - destruct (Z.eqb_spec c 0), (Z.eqb_spec c 37); try done. cbn [negb].
    rewrite print_c_emit. by destruct (emit putchar (c :: _) s).
  - cbn [Z.eqb Pos.eqb negb]. rewrite print_c_emit. by destruct (emit putchar (37 :: _) s).
  - cbn [Z.eqb Pos.eqb negb]. fold (deref g). destruct (Z.eqb_spec (deref g) 37); [done|].
    assert (Hlit : ('(format', amount, s') ← print_c putchar (37 :: g) s;
              Ret (Continue (R := Z * S) (format', args, true, s32 (written + amount), s'))) =
            s' ← emit putchar (37 :: take (Z.to_nat (literal_length g)) g) s;
            Ret (Continue (drop (Z.to_nat (literal_length g)) g, args, true, s32 (written + (1 + literal_length g)), s'))).
    { rewrite print_c_emit. by destruct (emit putchar (37 :: _) s). }
    destruct rejected; [exact Hlit|]. rewrite conversion_bad, Ret_bind by auto. exact Hlit.
Qed.

(** What the loop does with a text: all of it when there is room for the
    terminators, and otherwise it faults. *)
Definition loop_result (k : nat) (text : list Z) (n : Z) (s : S) (r : outcome (Z * S)) : Prop :=
  ((k ≤ slack)%nat → r = s' ← emit putchar text s; Ret (n, s')) ∧
  ((slack < k)%nat → (∀ c s, ∃ s', putchar c s = Ret s') → r = Fault).

Lemma emit_total text s : (∀ c s, ∃ s', putchar c s = Ret s') → ∃ s', emit putchar text s = Ret s'.
Proof.
  intros Hput. revert s. induction text as [|c text IH]; intros s; [by exists s|]. simpl.
  destruct (Hput (u8 c) s) as [s1 ->]. apply IH.
Qed.

Lemma loop_result_app k t text n s (rest : S → outcome (Z * S)) :
  (∀ s', loop_result k text n s' (rest s')) → loop_result k (t ++ text) n s (s' ← emit putchar t s; rest s').
Proof.
  intros H. split.
  - intros Hk. rewrite emit_app. destruct (emit putchar t s) as [s'| | |]; [|done..].
    rewrite !Ret_bind. by apply H.
  - intros Hk Hput. destruct (emit_total t s Hput) as [s' ->]. rewrite Ret_bind. by apply H.
Qed.

Lemma vprintf_loop fuel rejected f args text n k written s :
  outputs mem rejected f args text n k → (length f < fuel)%nat →
  0 ≤ written → written + Z.of_nat (length f) < 2 ^ 31 →
  loop_result k text (written + n) s
    (while_fuel fuel (vprintf_step putchar mem slack) (f, args, rejected, written, s)).
Proof.
  revert rejected f args text n k written s.
  induction fuel as [|fuel IH]; intros rejected f args text n k written s Hr Hfuel Hw Hlen; [lia|].
  assert (Hlit : ∀ rejected' c g, (f = c :: g ∧ c ≠ 37 ∧ c ≠ 0 ∧ rejected' = rejected) ∨
              (f = 37 :: c :: g ∧ c = 37 ∧ rejected' = rejected) ∨
              (f = c :: g ∧ c = 37 ∧ deref g ≠ 37 ∧ (rejected = false → understood g = false) ∧ rejected' = true) →
            ∀ text' n' k', outputs mem rejected' g args text' n' k' →
            loop_result k' (c :: text') (written + (1 + n')) s
              (while_fuel (Datatypes.S fuel) (vprintf_step putchar mem slack) (f, args, rejected, written, s))).
  { intros rejected' c g Hcg text' n' k' Hg. cbn [while_fuel]. rewrite (step_literal rejected rejected' f c g) by done.
    destruct (outputs_run rejected' g args text' n' k' Hg) as (t2 & n2 & -> & -> & Hr2).
    pose proof (literal_length_bounds g). rewrite app_comm_cons.
    assert (length g < length f)%nat by (destruct Hcg as [[-> _]|[[-> _]|[-> _]]]; simpl; lia).
    rewrite bind_assoc. apply loop_result_app. intros s'. rewrite Ret_bind, s32_small by lia.
    replace (written + (1 + (literal_length g + n2))) with (written + (1 + literal_length g) + n2) by lia.
    apply IH; [done|rewrite ?length_drop; lia..]. }
  inversion Hr; subst.
  - simpl. rewrite Z.add_0_r. by split; [|lia].
  - apply (Hlit rejected c f0); [left; split_and!; done || lia|done].
  - apply (Hlit rejected 37 f0); [by right; left|done].
  - destruct (converts_shorter _ _ _ _ _ _ H) as [Hshort Hne]. cbn [while_fuel length] in *. split.
    + intros Hk. rewrite (step_conversion f0 f' args args' t) by (done || (eapply conversion_emit; [done|lia])).
      rewrite bind_assoc, emit_app. destruct (emit putchar t s) as [s'| | |]; [|done..]. rewrite !Ret_bind.
      apply (IH false f' args' text0 n k0); [done|lia..].
    + intros Hk Hput. destruct (decide (k1 ≤ slack)%nat).
      * rewrite (step_conversion f0 f' args args' t) by (done || (eapply conversion_emit; [done|lia])).
        destruct (emit_total t s Hput) as [s' ->]. rewrite !Ret_bind.
        apply (IH false f' args' text0 n k0); [done|lia..|done].
      * assert (Hstep : vprintf_step putchar mem slack (37 :: f0, args, false, written, s) = Fault).
        { unfold vprintf_step. cbn [deref List.hd Z.eqb Pos.eqb negb tail].
          destruct (Z.eqb_spec (deref f0) 37); [done|].
          by rewrite (conversion_overflow f0 args t f' args' k1) by (done || lia). }
        by rewrite Hstep.
  - apply (Hlit true 37 f0); [right; right; split_and!; done|done].
Qed.

Lemma vprintf_all f args text n k s :
  outputs mem false f args text n k → Z.of_nat (length f) < 2 ^ 31 →
  loop_result k text n s (vprintf putchar mem slack f args s).
Proof.
  intros Ho Hlen. unfold vprintf. apply (vprintf_loop _ false f args text n k 0 s); [done|lia..].
Qed.

Lemma vprintf_run f args text n s :
  renders mem f args text n → (2 ≤ slack)%nat → Z.of_nat (length f) < 2 ^ 31 →
  vprintf putchar mem slack f args s = s' ← emit putchar text s; Ret (n, s').
Proof.
  intros (k & Hk & Ho)%renders_outputs Hslack Hlen. apply (vprintf_all f args text n k s Ho Hlen). lia.
Qed.
End vprintf.

(** * Theorems *)

(** C28: [vprintf] prints what its format stands for, whatever format it is and
    whatever device [putchar] drives.  The relation [outputs] says what that
    is: every specifier that the code knows, with [%d] of a negative number
    printing no sign and each digit subtracted from ['0'], and, from the first
    specifier that it does not know, the rest of the format as it stands.  If
    [slack] bytes may be overwritten behind the buffers of [%x] and [%lx], and
    the format needs no more (one byte for each such conversion, two if its
    argument is zero), the call is the output of that text, character by
    character, and returns the number of characters that came from the format
    itself.  If it needs more, the call writes beyond what may be overwritten
    and faults.  And every format of bytes has such a text, given enough
    arguments, which for [%s] must be strings. *)
Theorem vprintf_renders {S} (putchar : Z → S → outcome S) mem slack format args :
  Z.of_nat (length format) < 2 ^ 31 →
  (∀ text n k, outputs mem false format args text n k →
     ((k ≤ slack)%nat → ∀ s, vprintf putchar mem slack format args s = s' ← emit putchar text s; Ret (n, s')) ∧
     ((slack < k)%nat → (∀ c s, ∃ s', putchar c s = Ret s') →
        ∀ s, vprintf putchar mem slack format args s = Fault)) ∧
  (Forall (λ c, 0 < c < 256) format → Forall is_u32 args → (2 * length format ≤ length args)%nat →
   (115 ∈ format → ∀ p, p ∈ args → ∃ t, cstring mem p t ∧ Z.of_nat (length t) < 2 ^ 32) →
   ∃ text n k, outputs mem false format args text n k).
Proof.
  intros Hlen. split; [|by apply outputs_total]. intros text n k Ho. split.
  - intros Hk s. by apply (vprintf_all putchar mem slack format args text n k s).
  - intros Hk Hput s. by apply (vprintf_all putchar mem slack format args text n k s).
Qed.

(** A device that keeps the characters. *)
Definition keep (c : Z) (out : list Z) : outcome (list Z) := Ret (out ++ [c]).

(** ["%d%% of %x"]: a specifier after a percent sign, minus fifteen for once,
    with two spare bytes and with none. *)
Definition demo_format : list Z := [37; 100; 37; 37; 32; 111; 102; 32; 37; 120].

Lemma demo_outputs :
  outputs ∅ false demo_format [2 ^ 32 - 15; 0xBEEF]
    ([47; 43] ++ 37 :: 32 :: 111 :: 102 :: 32 :: numeral 16 0xBEEF ++ []) (1 + (1 + (1 + (1 + (1 + 0))))) 1.
Proof.
  refine (outputs_conversion ∅ (drop 1 demo_format) [2 ^ 32 - 15; 0xBEEF] [47; 43] (drop 2 demo_format) [0xBEEF]
    0 _ _ 1 (converts_d_negative ∅ _ 15 _ _) _); [lia|].
  apply outputs_percent. do 4 (apply outputs_char; [lia|done|]).
  refine (outputs_conversion ∅ [120] [0xBEEF] (numeral 16 0xBEEF) [] [] 1 [] 0 0 (converts_x ∅ _ _ _ _) _);
    [u32_lia|constructor].
Qed.

Lemma vprintf_renders_witness :
  (∃ n, vprintf keep ∅ 2 demo_format [2 ^ 32 - 15; 0xBEEF] []
       = Ret (n, [47; 43; 37; 32; 111; 102; 32; 98; 101; 101; 102])) ∧
  vprintf keep ∅ 0 demo_format [2 ^ 32 - 15; 0xBEEF] [] = Fault.
Proof.
  split.
  - destruct (vprintf_renders keep ∅ 2 demo_format [2 ^ 32 - 15; 0xBEEF] eq_refl) as [H _].
    destruct (H _ _ _ demo_outputs) as [Hrun _]. exists 5. refine (Hrun _ []). repeat constructor.
  - destruct (vprintf_renders keep ∅ 0 demo_format [2 ^ 32 - 15; 0xBEEF] eq_refl) as [H _].
    destruct (H _ _ _ demo_outputs) as [_ Hfault]. refine (Hfault _ _ []).
    + apply le_n.
    + intros c s. exists (s ++ [c]). reflexivity.
Defined.

(** Numbers can be read back.  The text of [%u], [%x] and [%lx], read in
    base 10 or 16, is the argument. *)
Theorem vprintf_numbers_roundtrip {S} (putchar : Z → S → outcome S) mem slack lo hi :
  is_u32 lo → is_u32 hi → (2 ≤ slack)%nat →
  (∃ text, (∀ s, vprintf putchar mem slack [37; 117] [lo] s = s' ← emit putchar text s; Ret (0, s')) ∧
     read_numeral 10 text = lo) ∧
  (∃ text, (∀ s, vprintf putchar mem slack [37; 120] [lo] s = s' ← emit putchar text s; Ret (0, s')) ∧
     read_numeral 16 text = lo) ∧
  (∃ text, (∀ s, vprintf putchar mem slack [37; 108; 120] [lo; hi] s
                 = s' ← emit putchar text s; Ret (0, s')) ∧
     read_numeral 16 text = lo + 2 ^ 32 * hi).
Proof.
  intros Hlo Hhi Hslack. unfold is_u32 in *. split_and!.
  - exists (numeral 10 lo ++ []). split; [|rewrite app_nil_r; apply read_numeral_numeral; lia].
    intros s. apply vprintf_run; [|done|simpl; lia].
    apply renders_u; [u32_lia|constructor].
  - exists (numeral 16 lo ++ []). split; [|rewrite app_nil_r; apply read_numeral_numeral; lia].
    intros s. apply vprintf_run; [|done|simpl; lia].
    apply renders_x; [u32_lia|constructor].
  - exists (numeral 16 (lo + 2 ^ 32 * hi) ++ []).
    split; [|rewrite app_nil_r; apply read_numeral_numeral; lia].
    intros s. apply vprintf_run; [|done|simpl; lia].
    apply renders_lx; [u32_lia..|constructor].
Qed.

Lemma vprintf_numbers_roundtrip_witness :
  ∃ text, (∀ s, vprintf keep ∅ 2 [37; 117] [1000] s = s' ← emit keep text s; Ret (0, s')) ∧
     read_numeral 10 text = 1000.
Proof.
  apply (vprintf_numbers_roundtrip keep ∅ 2 1000 0).
  - split; [discriminate|reflexivity].
  - split; [discriminate|reflexivity].
  - apply le_n.
Defined.

