(* ===== verification/Ports.v ===== *)
(** Port input and output: [libsc/arch/i386/outportb.c], [inportb.c] and the
    helpers of [kernel/include/arch/i386/io.h].

    Writes are collected in order; what a read returns is the device's
    business, a function of the port and of the writes so far. *)
From stdpp Require Import base numbers list.
From Stdlib Require Import ZArith Lia.
From S2P Require Import Prelude.

(** A write to a port: the port and the datum. *)
Definition port_log : Type := list (Z * Z).

(** What a device answers. *)
Definition port_device : Type := port_log → Z → Z.

Definition outportb (port data : Z) (log : port_log) : port_log := log ++ [(u16 port, u8 data)].
Definition inportb (dev : port_device) (port : Z) (log : port_log) : Z := u8 (dev log (u16 port)).

(** The width of the datum is the width of the instruction. *)
Definition IoWrite8 (port data : Z) (log : port_log) : port_log := log ++ [(u16 port, u8 data)].
Definition IoRead8 (dev : port_device) (port : Z) (log : port_log) : Z := u8 (dev log (u16 port)).
Definition IoWrite16 (port data : Z) (log : port_log) : port_log := log ++ [(u16 port, u16 data)].
Definition IoRead16 (dev : port_device) (port : Z) (log : port_log) : Z := u16 (dev log (u16 port)).
Definition IoWrite32 (port data : Z) (log : port_log) : port_log := log ++ [(u16 port, u32 data)].
Definition IoRead32 (dev : port_device) (port : Z) (log : port_log) : Z := u32 (dev log (u16 port)).
