(* ===== verification/Textmode.v ===== *)
(** The VGA text-mode driver: [kernel/drivers/vga/textmode.c].

    The screen is a window of memory-mapped cells, 80 by 25 of them visible.
    [vga_textmode_buffer] is a plain pointer: an access through it faults only
    outside the 32 KiB window of the hardware. *)
From stdpp Require Import base numbers list gmap.
From Stdlib Require Import ZArith Lia.
From S2P Require Import Prelude Strings Ports.

(** * The code *)

Definition VGA_WIDTH : Z := 80.
Definition VGA_HEIGHT : Z := 25.

Inductive vga_color :=
| COLOR_BLACK | COLOR_BLUE | COLOR_GREEN | COLOR_CYAN | COLOR_RED | COLOR_MAGENTA | COLOR_BROWN
| COLOR_LIGHT_GREY | COLOR_DARK_GREY | COLOR_LIGHT_BLUE | COLOR_LIGHT_GREEN | COLOR_LIGHT_CYAN
| COLOR_LIGHT_RED | COLOR_LIGHT_MAGENTA | COLOR_LIGHT_BROWN | COLOR_WHITE.

#[global] Instance vga_color_eq_dec : EqDecision vga_color.
Proof. solve_decision. Defined.

(** The value of an enumeration constant. *)
Definition color_value (c : vga_color) : Z :=
  match c with
  | COLOR_BLACK => 0 | COLOR_BLUE => 1 | COLOR_GREEN => 2 | COLOR_CYAN => 3
  | COLOR_RED => 4 | COLOR_MAGENTA => 5 | COLOR_BROWN => 6 | COLOR_LIGHT_GREY => 7
  | COLOR_DARK_GREY => 8 | COLOR_LIGHT_BLUE => 9 | COLOR_LIGHT_GREEN => 10 | COLOR_LIGHT_CYAN => 11
  | COLOR_LIGHT_RED => 12 | COLOR_LIGHT_MAGENTA => 13 | COLOR_LIGHT_BROWN => 14 | COLOR_WHITE => 15
  end.

Definition make_color (fg bg : vga_color) : Z :=
  u8 (Z.lor (color_value fg) (Z.shiftl (color_value bg) 4)).

(** [c] is a [char]: its conversion to [uint16_t] extends the sign. *)
Definition make_vgaentry (c color : Z) : Z :=
  u16 (Z.lor (u16 c) (Z.shiftl color 8)).

(** The globals of textmode.c, the video memory and the ports. *)
Record vga := Vga {
  vga_textmode_row : Z;
  vga_textmode_column : Z;
  vga_textmode_color : Z;
  vga_textmode_buffer : Z;
  vga_memory : gmap Z Z;     (** cells by address *)
  vga_ports : port_log
}.

(** The hardware's window. *)
Definition in_vga_window (a : Z) : bool := (0xB8000 <=? a) && (a + 2 <=? 0xC0000).

(** [vga_textmode_buffer[index]]. *)
Definition get_cell (index : Z) (s : vga) : outcome Z :=
  let a := vga_textmode_buffer s + 2 * index in
  if in_vga_window a then Ret (default 0 (vga_memory s !! a)) else Fault.

Definition set_cell (index v : Z) (s : vga) : outcome vga :=
  let a := vga_textmode_buffer s + 2 * index in
  if in_vga_window a then
    Ret (Vga (vga_textmode_row s) (vga_textmode_column s) (vga_textmode_color s)
           (vga_textmode_buffer s) (<[a := v]> (vga_memory s)) (vga_ports s))
  else Fault.

Definition move_to (row column : Z) (s : vga) : vga :=
  Vga row column (vga_textmode_color s) (vga_textmode_buffer s) (vga_memory s) (vga_ports s).

Definition vga_textmode_setcolor (color : Z) (s : vga) : vga :=
  Vga (vga_textmode_row s) (vga_textmode_column s) color (vga_textmode_buffer s) (vga_memory s)
    (vga_ports s).

(** The two nested loops that the functions below share. *)
Definition for_each_cell (body : Z → Z → vga → outcome vga) (s : vga) : outcome vga :=
  for_range 0 VGA_HEIGHT (λ y s, for_range 0 VGA_WIDTH (λ x s, body x y s) s) s.

Definition blank_screen (s : vga) : outcome vga :=
  for_each_cell (λ x y s,
    set_cell (y ⊗ VGA_WIDTH ⊕ x) (make_vgaentry 32 (vga_textmode_color s)) s) s.

Definition vga_textmode_initialize (s : vga) : outcome vga :=
  let s1 := vga_textmode_setcolor (make_color COLOR_LIGHT_GREY COLOR_BLACK) (move_to 0 0 s) in
  blank_screen (Vga (vga_textmode_row s1) (vga_textmode_column s1) (vga_textmode_color s1)
                  0xB8000 (vga_memory s1) (vga_ports s1)).

Definition vga_textmode_putentryat (c color x y : Z) (s : vga) : outcome vga :=
  set_cell (y ⊗ VGA_WIDTH ⊕ x) (make_vgaentry c color) s.

Definition vga_textmode_scroll (s : vga) : outcome vga :=
  s' ← for_each_cell (λ x y s,
    let index := y ⊗ VGA_WIDTH ⊕ x in
    let nextrow_index := index ⊕ VGA_WIDTH in
    if y =? VGA_HEIGHT then set_cell index (make_vgaentry 32 (vga_textmode_color s)) s
    else v ← get_cell nextrow_index s; set_cell index v s) s;
  Ret (move_to (VGA_HEIGHT - 1) 0 s').

(** The cursor position, to registers 14 and 15 of the CRT controller. *)
Definition update_cursor_ports (cur_pos : Z) (s : vga) : vga :=
  Vga (vga_textmode_row s) (vga_textmode_column s) (vga_textmode_color s) (vga_textmode_buffer s)
    (vga_memory s)
    (outportb 0x3D5 cur_pos (outportb 0x3D4 15
      (outportb 0x3D5 (Z.shiftr cur_pos 8) (outportb 0x3D4 14 (vga_ports s))))).

Definition vga_textmode_putchar (c : Z) (s : vga) : outcome vga :=
  s1 ← (if c =? 10 then Ret (move_to (vga_textmode_row s ⊕ 1) 0 s)
        else
          s' ← vga_textmode_putentryat c (vga_textmode_color s) (vga_textmode_column s)
                 (vga_textmode_row s) s;
          let column := vga_textmode_column s' ⊕ 1 in
          if column =? VGA_WIDTH then Ret (move_to (vga_textmode_row s' ⊕ 1) 0 s')
          else Ret (move_to (vga_textmode_row s') column s'));
  s2 ← (if vga_textmode_row s1 =? VGA_HEIGHT then vga_textmode_scroll s1 else Ret s1);
  Ret (update_cursor_ports (vga_textmode_row s2 ⊗ 80 ⊕ vga_textmode_column s2) s2).

(** [data] points to a string in memory. *)
Definition vga_textmode_writestring (mem : memory) (data : Z) (s : vga) : outcome vga :=
  datalen ← strlen data mem;
  for_range 0 datalen (λ i s, c ← load8 (data + i) mem; vga_textmode_putchar (s8 c) s) s.

Definition vga_textmode_clear (s : vga) : outcome vga :=
  let s1 := vga_textmode_setcolor (make_color COLOR_LIGHT_GREY COLOR_BLACK) (move_to 0 0 s) in
  s2 ← blank_screen s1;
  Ret (update_cursor_ports 0 s2).

Definition vga_textmode_writebuffer (newbuffer : list Z) (newbuffer_length : Z) (s : vga)
    : outcome vga :=
  for_range 0 newbuffer_length (λ i s, v ← array_get newbuffer i; set_cell i v s) s.

(** [putchar] of the C library, built for the kernel: libsc/stdio/putchar.c. *)
Definition putchar (ic : Z) (s : vga) : outcome vga := vga_textmode_putchar (s8 ic) s.

(** * Specification *)

(** The entry at a screen position; row 25 is the first row off screen. *)
Definition cell (s : vga) (x y : Z) : Z := default 0 (vga_memory s !! (0xB8000 + 2 * (y * 80 + x))).

Record vga_inv (s : vga) : Prop := VgaInv {
  vi_row : 0 ≤ vga_textmode_row s < VGA_HEIGHT;
  vi_column : 0 ≤ vga_textmode_column s < VGA_WIDTH;
  vi_color : 0 ≤ vga_textmode_color s < 256;
  vi_buffer : vga_textmode_buffer s = 0xB8000
}.

Definition on_screen (x y : Z) : Prop := 0 ≤ x < VGA_WIDTH ∧ 0 ≤ y < VGA_HEIGHT.

(** Everything but the cells, the cursor and the ports is the same. *)
Definition same_vga (s s' : vga) : Prop :=
  vga_textmode_color s' = vga_textmode_color s ∧ vga_textmode_buffer s' = vga_textmode_buffer s.
