(* ===== verification/TextmodeProps.v ===== *)
(** The text-mode driver: what a character does to the screen, and formatted
    output on the screen. *)
From stdpp Require Import base numbers list gmap.
From Stdlib Require Import ZArith Lia.
From S2P Require Import Prelude Digits Strings StringProps Printf PrintfProps Ports Textmode.

(** * Lemmas *)

(** The cell with a linear index. *)
Definition cell_at (s : vga) (k : Z) : Z := default 0 (vga_memory s !! (0xB8000 + 2 * k)).

Definition set_memory (s : vga) (m : gmap Z Z) : vga :=
  Vga (vga_textmode_row s) (vga_textmode_column s) (vga_textmode_color s) (vga_textmode_buffer s) m
    (vga_ports s).

Lemma cell_cell_at s x y : cell s x y = cell_at s (y * 80 + x).
Proof. done. Qed.

Lemma set_cell_spec k v s :
  vga_textmode_buffer s = 0xB8000 → 0 ≤ k < 16384 →
  set_cell k v s = Ret (set_memory s (<[0xB8000 + 2 * k := v]> (vga_memory s))).
Proof.
  intros Hb Hk. unfold set_cell, in_vga_window. rewrite Hb.
  destruct (Z.leb_spec 0xB8000 (0xB8000 + 2 * k)); [|lia].
  destruct (Z.leb_spec (0xB8000 + 2 * k + 2) 0xC0000); [|lia]. unfold set_memory. by rewrite Hb.
Qed.

Lemma get_cell_spec k s :
  vga_textmode_buffer s = 0xB8000 → 0 ≤ k < 16384 → get_cell k s = Ret (cell_at s k).
Proof.
  intros Hb Hk. unfold get_cell, in_vga_window. rewrite Hb.
  destruct (Z.leb_spec 0xB8000 (0xB8000 + 2 * k)); [|lia].
  destruct (Z.leb_spec (0xB8000 + 2 * k + 2) 0xC0000); [done|lia].
Qed.

Lemma cell_at_insert s k v j :
  cell_at (set_memory s (<[0xB8000 + 2 * k := v]> (vga_memory s))) j = if j =? k then v else cell_at s j.
Proof.
  unfold cell_at. simpl. destruct (Z.eqb_spec j k) as [->|].
  - by rewrite lookup_insert_eq.
  - by rewrite lookup_insert_ne by lia.
Qed.

Lemma set_memory_set_memory s m m' : set_memory (set_memory s m) m' = set_memory s m'.
Proof. done. Qed.

Lemma screen_index x y : on_screen x y → y ⊗ VGA_WIDTH ⊕ x = y * 80 + x.
Proof.
  unfold on_screen, VGA_WIDTH, VGA_HEIGHT. intros H. rewrite (u32_small (y * 80)) by u32_lia.
  apply u32_small. u32_lia.
Qed.

(** The invariant rule of the nested loops, over the linear index. *)
Lemma wp_for_each_cell (I : Z → vga → Prop) body s :
  I 0 s → (∀ x y s', on_screen x y → I (y * 80 + x) s' → wp (body x y s') (I (y * 80 + x + 1))) →
  wp (for_each_cell body s) (I 2000).
Proof.
  intros H0 Hbody. apply (wp_for_range (λ y, I (y * 80)) 0 VGA_HEIGHT); [done|done|].
  intros y s1 Hy H1.
  eapply wp_mono; [apply (wp_for_range (λ x, I (y * 80 + x)) 0 VGA_WIDTH)|].
  - done.
  - by rewrite Z.add_0_r.
  - intros x s2 Hx H2. rewrite Z.add_assoc. by apply Hbody.
  - intros s2 H2. replace ((y + 1) * 80) with (y * 80 + VGA_WIDTH) by (unfold VGA_WIDTH; lia). done.
Qed.

(** Scrolling moves every cell up by one row: the last row receives the first
    row off screen. *)
Lemma scroll_spec s :
  vga_textmode_buffer s = 0xB8000 →
  ∃ m, vga_textmode_scroll s = Ret (move_to 24 0 (set_memory s m)) ∧
    ∀ k, cell_at (set_memory s m) k = if (0 <=? k) && (k <? 2000) then cell_at s (k + 80) else cell_at s k.
Proof.
  intros Hb. unfold vga_textmode_scroll.
  match goal with |- context [for_each_cell ?b s] =>
    assert (H : wp (for_each_cell b s) (λ s', ∃ m, s' = set_memory s m ∧ ∀ k,
      cell_at s' k = if (0 <=? k) && (k <? 2000) then cell_at s (k + 80) else cell_at s k)) end.
  - apply (wp_for_each_cell (λ n s', ∃ m, s' = set_memory s m ∧ ∀ k,
      cell_at s' k = if (0 <=? k) && (k <? n) then cell_at s (k + 80) else cell_at s k)).
    + exists (vga_memory s). split; [by destruct s|]. intros k.
      destruct (Z.leb_spec 0 k), (Z.ltb_spec k 0); simpl; done || lia.
    + intros x y s' Hxy (m & -> & Hm). cbv zeta. rewrite screen_index by done.
      unfold on_screen, VGA_WIDTH, VGA_HEIGHT in *. destruct (Z.eqb_spec y 25); [lia|].
      rewrite u32_small by u32_lia. rewrite get_cell_spec, Ret_bind by (done || lia).
      rewrite set_cell_spec by (done || lia). apply wp_ret.
      eexists. split; [apply set_memory_set_memory|]. intros k. rewrite cell_at_insert, !Hm.
      destruct (Z.eqb_spec k (y * 80 + x)) as [->|].
      * destruct (Z.leb_spec 0 (y * 80 + x + 80)), (Z.ltb_spec (y * 80 + x + 80) (y * 80 + x)),
          (Z.leb_spec 0 (y * 80 + x)), (Z.ltb_spec (y * 80 + x) (y * 80 + x + 1)); simpl; done || lia.
      * destruct (Z.leb_spec 0 k), (Z.ltb_spec k (y * 80 + x)), (Z.ltb_spec k (y * 80 + x + 1));
          simpl; done || lia.
  - apply wp_inv in H as (s' & -> & m & -> & Hm). by exists m.
Qed.

(** ** Where a character goes *)

(** The cursor after a character, before scrolling. *)
Definition advance (c : Z) (s : vga) : Z * Z :=
  if (c =? 10) || (vga_textmode_column s + 1 =? 80) then (vga_textmode_row s + 1, 0)
  else (vga_textmode_row s, vga_textmode_column s + 1).

(** The cells after a character, before scrolling. *)
Definition written (c : Z) (s : vga) (x y : Z) : Z :=
  if negb (c =? 10) && (x =? vga_textmode_column s) && (y =? vga_textmode_row s)
  then make_vgaentry c (vga_textmode_color s) else cell s x y.

(** The first part of [vga_textmode_putchar]. *)
Lemma put_spec c s :
  vga_inv s →
  ∃ m, (if c =? 10 then Ret (move_to (vga_textmode_row s ⊕ 1) 0 s)
        else
          s' ← vga_textmode_putentryat c (vga_textmode_color s) (vga_textmode_column s)
                 (vga_textmode_row s) s;
          if vga_textmode_column s' ⊕ 1 =? VGA_WIDTH
          then Ret (move_to (vga_textmode_row s' ⊕ 1) 0 s')
          else Ret (move_to (vga_textmode_row s') (vga_textmode_column s' ⊕ 1) s'))
       = Ret (move_to (advance c s).1 (advance c s).2 (set_memory s m)) ∧
    ∀ x y, 0 ≤ x < 80 → 0 ≤ y → cell (set_memory s m) x y = written c s x y.
Proof.
  intros [Hr Hc _ Hb]. unfold VGA_WIDTH, VGA_HEIGHT in *. unfold advance, written.
  destruct (Z.eqb_spec c 10); simpl.
  - exists (vga_memory s). rewrite u32_small by u32_lia. destruct s. done.
  - unfold vga_textmode_putentryat. rewrite screen_index by (split; done).
    rewrite set_cell_spec, Ret_bind by (done || lia). simpl.
    rewrite !u32_small by u32_lia. eexists. split.
    + destruct (Z.eqb_spec (vga_textmode_column s + 1) 80); done.
    + intros x y Hx Hy. rewrite !cell_cell_at, cell_at_insert.
      destruct (Z.eqb_spec (y * 80 + x) (vga_textmode_row s * 80 + vga_textmode_column s)) as [He|He].
      * assert (x = vga_textmode_column s) as -> by lia. assert (y = vga_textmode_row s) as -> by lia.
        by rewrite !Z.eqb_refl.
      * destruct (Z.eqb_spec x (vga_textmode_column s)) as [->|]; [|done].
        destruct (Z.eqb_spec y (vga_textmode_row s)) as [->|]; [lia|done].
Qed.

(** The cursor's bytes. *)
Definition cursor_writes (pos : Z) : port_log :=
  [(0x3D4, 14); (0x3D5, pos / 256); (0x3D4, 15); (0x3D5, pos mod 256)].

Lemma update_cursor_ports_spec pos s :
  0 ≤ pos < 2000 →
  update_cursor_ports pos s =
    Vga (vga_textmode_row s) (vga_textmode_column s) (vga_textmode_color s) (vga_textmode_buffer s)
      (vga_memory s) (vga_ports s ++ cursor_writes pos).
Proof.
  intros Hp. unfold update_cursor_ports, outportb, cursor_writes. f_equal.
  rewrite <- !app_assoc. simpl. rewrite Z.shiftr_div_pow2 by lia. change (2 ^ 8) with 256.
  rewrite (u8_small (pos / 256)) by div_lia. done.
Qed.

Lemma putchar_spec c s :
  vga_inv s →
  let scrolled := (advance c s).1 =? 25 in
  ∃ s', vga_textmode_putchar c s = Ret s' ∧ vga_inv s' ∧ same_vga s s' ∧
    vga_textmode_row s' = (if scrolled then 24 else (advance c s).1) ∧
    vga_textmode_column s' = (advance c s).2 ∧
    (∀ x y, 0 ≤ x < 80 → 0 ≤ y →
       cell s' x y = if scrolled && (y <? 25) then written c s x (y + 1) else written c s x y) ∧
    vga_ports s' = vga_ports s ++ cursor_writes (vga_textmode_row s' * 80 + vga_textmode_column s').
Proof.
  intros Hs scrolled. destruct (put_spec c s Hs) as (m & Hput & Hcells).
  unfold vga_textmode_putchar. rewrite Hput, Ret_bind. cbn [vga_textmode_row move_to].
  pose proof Hs as [Hr Hc Hcol Hb]. unfold VGA_WIDTH, VGA_HEIGHT in *.
  assert (Ha : 0 ≤ (advance c s).1 ≤ 25 ∧ 0 ≤ (advance c s).2 < 80 ∧
               ((advance c s).1 = 25 → (advance c s).2 = 0)).
  { unfold advance. destruct (_ || _) eqn:E; simpl; [lia|].
    apply orb_false_iff in E as [_ E%Z.eqb_neq]. lia. }
  destruct (advance c s) as [r col]. simpl in *. subst scrolled.
  destruct (Z.eqb_spec r 25) as [->|Hr25].
  - destruct (scroll_spec (move_to 25 col (set_memory s m))) as (m' & -> & Hm'); [done|].
    rewrite Ret_bind. cbn [vga_textmode_row vga_textmode_column move_to].
    replace (24 ⊗ 80 ⊕ 0) with 1920 by done. rewrite update_cursor_ports_spec by lia.
    eexists. split; [done|]. split; [done|]. split; [done|]. simpl.
    split; [done|]. split; [lia|]. split; [|done]. intros x y Hx Hy.
    rewrite cell_cell_at. transitivity (cell_at (set_memory (move_to 25 col (set_memory s m)) m') (y * 80 + x)).
    { done. }
    rewrite Hm'. destruct (Z.leb_spec 0 (y * 80 + x)); [|lia].
    destruct (Z.ltb_spec (y * 80 + x) 2000), (Z.ltb_spec y 25); simpl; try lia.
    + rewrite <- Hcells by lia. rewrite cell_cell_at. unfold cell_at. simpl. do 4 f_equal. lia.
    + rewrite <- Hcells by lia. done.
  - rewrite Ret_bind. cbn [vga_textmode_row vga_textmode_column move_to].
    rewrite (u32_small (r * 80)) by u32_lia. rewrite u32_small by u32_lia.
    rewrite update_cursor_ports_spec by lia.
    eexists. split; [done|]. split; [split; simpl; unfold VGA_WIDTH, VGA_HEIGHT; lia || done|].
    split; [done|]. simpl. split; [done|]. split; [done|]. split; [|done].
    intros x y Hx Hy. rewrite <- Hcells by lia. done.
Qed.

(** ** Text *)

Lemma emit_screen text s :
  vga_inv s → ∃ s', emit putchar text s = Ret s' ∧ vga_inv s' ∧ same_vga s s'.
Proof.
  revert s. induction text as [|c text IH]; intros s Hs; [by exists s|]. simpl.
  change (putchar (u8 c) s) with (vga_textmode_putchar (s8 (u8 c)) s).
  destruct (putchar_spec (s8 (u8 c)) s Hs) as (s1 & -> & Hs1 & [H1 H2] & _). rewrite Ret_bind.
  destruct (IH s1 Hs1) as (s2 & -> & Hs2 & [H3 H4]). exists s2. split; [done|]. split; [done|].
  split; congruence.
Qed.

(** Text without newlines that ends before the last column stays in its row. *)
Lemma emit_row text s :
  vga_inv s → Forall (λ c, s8 (u8 c) ≠ 10) text →
  vga_textmode_column s + Z.of_nat (length text) < 80 →
  ∃ s', emit putchar text s = Ret s' ∧ vga_inv s' ∧
    vga_textmode_row s' = vga_textmode_row s ∧
    vga_textmode_column s' = vga_textmode_column s + Z.of_nat (length text) ∧
    (∀ i c, text !! i = Some c →
       cell s' (vga_textmode_column s + Z.of_nat i) (vga_textmode_row s)
       = make_vgaentry (s8 (u8 c)) (vga_textmode_color s)) ∧
    (∀ x y, 0 ≤ x < 80 → 0 ≤ y →
       ¬ (y = vga_textmode_row s ∧
          vga_textmode_column s ≤ x < vga_textmode_column s + Z.of_nat (length text)) →
       cell s' x y = cell s x y).
Proof.
  revert s. induction text as [|c text IH]; intros s Hs Hnl Hlen.
  { exists s. simpl. split; [done|]. split; [done|]. split; [done|]. split; [lia|]. done. }
  apply Forall_cons in Hnl as [Hc Hnl]. cbn [length emit] in *.
  change (putchar (u8 c) s) with (vga_textmode_putchar (s8 (u8 c)) s).
  destruct (putchar_spec (s8 (u8 c)) s Hs) as (s1 & -> & Hs1 & [Hcol _] & Hr1 & Hc1 & Hcells & _).
  pose proof Hs as [Hr Hcl _ _]. unfold VGA_WIDTH, VGA_HEIGHT in *.
  assert (Hadv : advance (s8 (u8 c)) s = (vga_textmode_row s, vga_textmode_column s + 1)).
  { unfold advance. destruct (Z.eqb_spec (s8 (u8 c)) 10); [done|].
    destruct (Z.eqb_spec (vga_textmode_column s + 1) 80); [lia|done]. }
  rewrite Hadv in *. simpl in Hr1, Hc1, Hcells. destruct (Z.eqb_spec (vga_textmode_row s) 25); [lia|].
  simpl in Hcells. rewrite Ret_bind.
  destruct (IH s1 Hs1 Hnl) as (s2 & -> & Hs2 & Hr2 & Hc2 & Ht & Ho); [lia|].
  assert (Hw : ∀ x y, written (s8 (u8 c)) s x y =
            if (x =? vga_textmode_column s) && (y =? vga_textmode_row s)
            then make_vgaentry (s8 (u8 c)) (vga_textmode_color s) else cell s x y).
  { intros x y. unfold written. destruct (Z.eqb_spec (s8 (u8 c)) 10); done. }
  exists s2. split; [done|]. split; [done|]. split; [congruence|]. split; [lia|]. split.
  - intros [|i] d Hd; simpl in Hd.
    + injection Hd as <-. rewrite Z.add_0_r. rewrite Ho by lia. rewrite Hcells, Hw, !Z.eqb_refl by lia. done.
    + apply Ht in Hd. rewrite Hr1, Hc1, Hcol in Hd. rewrite <- Hd. f_equal. lia.
  - intros x y Hx Hy Hn. rewrite Ho by lia. rewrite Hcells, Hw by lia.
    destruct (Z.eqb_spec x (vga_textmode_column s)), (Z.eqb_spec y (vga_textmode_row s)); simpl; done || lia.
Qed.

(** ** Entries *)

Lemma low_byte x y : 0 ≤ x < 256 → Z.lor x (Z.shiftl y 8) mod 256 = x.
Proof.
  intros Hx. change 256 with (2 ^ 8). apply Z.bits_inj'. intros i Hi.
  destruct (decide (i < 8)).
  - rewrite Z.mod_pow2_bits_low, Z.lor_spec, Z.shiftl_spec_low by lia. by rewrite orb_false_r.
  - rewrite Z.mod_pow2_bits_high by lia. symmetry. apply Z.bits_above_log2; [lia|].
    destruct (decide (x = 0)) as [->|]; [simpl; lia|]. apply Z.log2_lt_pow2; [lia|].
    apply Z.lt_le_trans with (2 ^ 8); [lia|]. apply Z.pow_le_mono_r; lia.
Qed.

Lemma high_part x y : 0 ≤ x < 256 → Z.lor x (Z.shiftl y 8) / 256 = y.
Proof.
  intros Hx. change 256 with (2 ^ 8). rewrite <- Z.shiftr_div_pow2, Z.shiftr_lor by lia.
  rewrite Z.shiftr_shiftl_l, Z.sub_diag, Z.shiftl_0_r by lia.
  rewrite Z.shiftr_div_pow2, Z.div_small by lia. done.
Qed.

Lemma vgaentry_ascii c color :
  0 ≤ c < 128 → 0 ≤ color < 256 →
  make_vgaentry c color mod 256 = c ∧ make_vgaentry c color / 256 = color.
Proof.
  intros Hc Hcol. unfold make_vgaentry. rewrite (u16_small c) by lia.
  pose proof (low_byte c color ltac:(lia)) as Hl. pose proof (high_part c color ltac:(lia)) as Hh.
  rewrite u16_small; [done|]. pose proof (Z.div_mod (Z.lor c (Z.shiftl color 8)) 256).
  lia.
Qed.

(** A negative character fills the high byte with ones. *)
Lemma vgaentry_negative c color :
  - 128 ≤ c < 0 → 0 ≤ color < 256 → make_vgaentry c color = 2 ^ 16 + c.
Proof.
  intros Hc Hcol. unfold make_vgaentry.
  assert (Hu : u16 c = 2 ^ 16 + c).
  { unfold u16. rewrite <- (Z_mod_plus_full c 1), Z.mod_small by lia. lia. }
  rewrite Hu. set (e := 2 ^ 16 + c). assert (He : 0 ≤ e - 2 ^ 8 * 255 < 256) by lia.
  assert (Hlor : Z.lor e (Z.shiftl color 8) = e); [|rewrite Hlor; apply u16_small; lia].
  apply Z.bits_inj'. intros i Hi. rewrite Z.lor_spec, Z.shiftl_spec by lia.
  destruct (Z.testbit color (i - 8)) eqn:Hb; [|by rewrite orb_false_r].
  rewrite orb_true_r. symmetry.
  assert (Hi8 : 8 ≤ i < 16).
  { destruct (decide (8 ≤ i)); [|rewrite Z.testbit_neg_r in Hb by lia; done]. split; [done|].
    destruct (decide (i < 16)); [done|]. rewrite Z.bits_above_log2 in Hb; [done|lia|].
    destruct (decide (color = 0)) as [->|]; [simpl; lia|]. apply Z.log2_lt_pow2; [lia|].
    apply Z.lt_le_trans with (2 ^ 8); [lia|]. apply Z.pow_le_mono_r; lia. }
  replace i with (i - 8 + 8) by lia. rewrite <- Z.div_pow2_bits by lia.
  assert (Hd : e / 2 ^ 8 = 255) by (change (2 ^ 8) with 256 in *; div_lia). rewrite Hd.
  change 255 with (Z.ones 8). apply Z.ones_spec_low. lia.
Qed.

(** * Theorems *)

(** C31: a character on the screen.  From a state within the screen,
    [vga_textmode_putchar] returns, the cursor stays within the screen and its
    position is sent to the CRT controller.  A newline changes no cell, any
    other character exactly the one under the cursor.  When the cursor leaves
    the last row, every row moves up, and the last one receives the row that
    follows it in video memory, which is never written. *)
Theorem vga_textmode_putchar_correct c s :
  vga_inv s →
  let scrolled := (advance c s).1 =? 25 in
  ∃ s', vga_textmode_putchar c s = Ret s' ∧ vga_inv s' ∧ same_vga s s' ∧
    vga_textmode_row s' = (if scrolled then 24 else (advance c s).1) ∧
    vga_textmode_column s' = (advance c s).2 ∧
    (∀ x y, 0 ≤ x < 80 → 0 ≤ y →
       cell s' x y = if scrolled && (y <? 25) then written c s x (y + 1) else written c s x y) ∧
    vga_ports s' = vga_ports s ++ cursor_writes (vga_textmode_row s' * 80 + vga_textmode_column s').
Proof. apply putchar_spec. Qed.

(** A screen whose last row holds the cursor, above a row of [0x7058]. *)
Definition demo_screen : vga := Vga 24 7 7 0xB8000 {[ 0xB8000 + 2 * 2000 := 0x7058 ]} [].

Lemma demo_screen_inv : vga_inv demo_screen.
Proof. split; [split; [discriminate|reflexivity]..|reflexivity]. Qed.

(** After a newline the first cell of the last row is not blank. *)
Lemma vga_textmode_putchar_correct_witness :
  ∃ s', vga_textmode_putchar 10 demo_screen = Ret s' ∧ vga_inv s' ∧ cell s' 0 24 = 0x7058.
Proof.
  destruct (vga_textmode_putchar_correct 10 demo_screen demo_screen_inv)
    as (s' & H1 & H2 & _ & _ & _ & H3 & _).
  exists s'. split; [exact H1|]. split; [exact H2|].
  rewrite (H3 0 24); [reflexivity|split; [discriminate|reflexivity]|discriminate].
Defined.

(** Entries.  An entry of an ASCII character can be decoded into the
    character and its colour; for a character above 127, which is negative as
    a [char], the colour is lost: the high byte is all ones. *)
Theorem make_vgaentry_decodes c color :
  0 ≤ color < 256 →
  (0 ≤ c < 128 → make_vgaentry c color mod 256 = c ∧ make_vgaentry c color / 256 = color) ∧
  (- 128 ≤ c < 0 → make_vgaentry c color mod 256 = c + 256 ∧ make_vgaentry c color / 256 = 255).
Proof.
  intros Hcol. split; intros Hc; [by apply vgaentry_ascii|].
  rewrite vgaentry_negative by done. change (2 ^ 16) with 65536. div_lia.
Qed.

Lemma make_vgaentry_decodes_witness :
  (make_vgaentry 65 0x1E mod 256 = 65 ∧ make_vgaentry 65 0x1E / 256 = 0x1E) ∧
  make_vgaentry (-1) 0x1E / 256 = 255.
Proof.
  split.
  - apply (make_vgaentry_decodes 65 0x1E); split; try discriminate; reflexivity.
  - apply (make_vgaentry_decodes (-1) 0x1E); split; try discriminate; reflexivity.
Defined.

(** Formatted output on the screen.  Over the text-mode driver [vprintf]
    never faults and keeps the cursor on the screen; rendered text without
    newlines that ends before the last column appears at the cursor,
    character by character, and nothing else on the screen changes. *)
Theorem vprintf_on_screen mem slack format args text n s :
  vga_inv s → renders mem format args text n → (2 ≤ slack)%nat →
  Z.of_nat (length format) < 2 ^ 31 →
  ∃ s', vprintf putchar mem slack format args s = Ret (n, s') ∧ vga_inv s' ∧
    (Forall (λ c, s8 (u8 c) ≠ 10) text →
     vga_textmode_column s + Z.of_nat (length text) < 80 →
     vga_textmode_row s' = vga_textmode_row s ∧
     vga_textmode_column s' = vga_textmode_column s + Z.of_nat (length text) ∧
     (∀ i c, text !! i = Some c →
        cell s' (vga_textmode_column s + Z.of_nat i) (vga_textmode_row s)
        = make_vgaentry (s8 (u8 c)) (vga_textmode_color s)) ∧
     (∀ x y, 0 ≤ x < 80 → 0 ≤ y →
        ¬ (y = vga_textmode_row s ∧
           vga_textmode_column s ≤ x < vga_textmode_column s + Z.of_nat (length text)) →
        cell s' x y = cell s x y)).
Proof.
  intros Hs Hr Hslack Hlen. destruct (emit_screen text s Hs) as (s' & Hemit & Hs' & _).
  exists s'. split; [by rewrite (vprintf_run putchar mem slack format args text n), Hemit|].
  split; [done|]. intros Hnl Hcol.
  destruct (emit_row text s Hs Hnl Hcol) as (s2 & Hemit2 & _ & H).
  rewrite Hemit in Hemit2. by injection Hemit2 as <-.
Qed.

Lemma vprintf_on_screen_witness :
  ∃ s', vprintf putchar ∅ 2 [37; 120] [0xF00] demo_screen = Ret (0, s') ∧
    cell s' 8 24 = make_vgaentry 48 7.
Proof.
  destruct (vprintf_on_screen ∅ 2 [37; 120] [0xF00] (numeral 16 0xF00 ++ []) 0 demo_screen
    demo_screen_inv) as (s' & H1 & _ & H2).
  - apply renders_x; [split; [discriminate|reflexivity]|]. apply renders_end.
  - apply le_n.
  - reflexivity.
  - exists s'. split; [exact H1|]. destruct H2 as (_ & _ & H2 & _).
    + repeat constructor; discriminate.
    + reflexivity.
    + exact (H2 1%nat 48 eq_refl).
Defined.
