(* ===== verification/KernelStdio.v ===== *)
(** The kernel's input and output buffers: [kernel/kernel/kernel_stdio.c],
    [kernel/include/kernel/kernel_stdio.h]. *)
From stdpp Require Import base numbers list.
From Stdlib Require Import ZArith Lia.
From S2P Require Import Prelude.

(** * The code *)

Definition STDIN_MAX_BUFFER : Z := 256.
Definition STDOUT_MAX_BUFFER : Z := 256.

(** The globals of kernel_stdio.c. *)
Record stdio := Stdio {
  kernel_buffer_stdin : list Z;
  kernel_buffer_stdout : list Z;
  kernel_buffer_stdin_length : Z;
  kernel_buffer_stdout_length : Z
}.

Definition stdio_initial : stdio := Stdio (replicate 256 0) (replicate 256 0) 0 0.

Definition kernel_buffer_stdin_flush (k : stdio) : stdio :=
  Stdio (kernel_buffer_stdin k) (kernel_buffer_stdout k) 0 (kernel_buffer_stdout_length k).

Definition kernel_buffer_stdout_flush (k : stdio) : stdio :=
  Stdio (kernel_buffer_stdin k) (kernel_buffer_stdout k) (kernel_buffer_stdin_length k) 0.

Definition kernel_buffer_stdin_writechar (c : Z) (k : stdio) : outcome stdio :=
  let k1 := if STDIN_MAX_BUFFER <=? kernel_buffer_stdin_length k then kernel_buffer_stdin_flush k else k in
  buffer ← array_set (kernel_buffer_stdin k1) (kernel_buffer_stdin_length k1) c;
  Ret (Stdio buffer (kernel_buffer_stdout k1) (u16 (kernel_buffer_stdin_length k1 + 1))
         (kernel_buffer_stdout_length k1)).

Definition kernel_buffer_stdout_writechar (c : Z) (k : stdio) : outcome stdio :=
  let k1 := if STDOUT_MAX_BUFFER <=? kernel_buffer_stdout_length k then kernel_buffer_stdout_flush k else k in
  buffer ← array_set (kernel_buffer_stdout k1) (kernel_buffer_stdout_length k1) c;
  Ret (Stdio (kernel_buffer_stdin k1) buffer (kernel_buffer_stdin_length k1)
         (u16 (kernel_buffer_stdout_length k1 + 1))).

Definition kernel_buffer_stdout_writestring (str : list Z) (length : Z) (k : stdio) : outcome stdio :=
  for_range 0 length (λ i k, c ← array_get str i; kernel_buffer_stdout_writechar c k) k.

(** [strncpy] of the C library between two arrays. *)
Definition strncpy_array (dest src : list Z) (n : Z) : outcome (list Z) :=
  for_range 0 n (λ i dest, c ← array_get src i; array_set dest i c) dest.

(** Fills the caller's buffer and returns the length. *)
Definition kernel_buffer_stdout_get (buffer : list Z) (k : stdio) : outcome (Z * list Z * stdio) :=
  buffer' ← strncpy_array buffer (kernel_buffer_stdout k) (kernel_buffer_stdout_length k);
  Ret (kernel_buffer_stdout_length k, buffer', kernel_buffer_stdout_flush k).

(** * Specification *)

Record stdio_inv (k : stdio) : Prop := StdioInv {
  si_stdin : length (kernel_buffer_stdin k) = 256%nat;
  si_stdout : length (kernel_buffer_stdout k) = 256%nat;
  si_stdin_length : 0 ≤ kernel_buffer_stdin_length k ≤ 256;
  si_stdout_length : 0 ≤ kernel_buffer_stdout_length k ≤ 256
}.

(** The characters waiting. *)
Definition stdin_contents (k : stdio) : list Z :=
  take (Z.to_nat (kernel_buffer_stdin_length k)) (kernel_buffer_stdin k).
Definition stdout_contents (k : stdio) : list Z :=
  take (Z.to_nat (kernel_buffer_stdout_length k)) (kernel_buffer_stdout k).

(** A queue of at most 256 characters that starts afresh when it is full. *)
Definition enqueue (c : Z) (q : list Z) : list Z :=
  if decide (length q = 256%nat) then [c] else q ++ [c].

Definition enqueue_all (cs q : list Z) : list Z := foldl (λ q c, enqueue c q) q cs.

(** * Lemmas *)

Lemma stdio_initial_inv : stdio_inv stdio_initial.
Proof. split; simpl; done || lia. Qed.

Lemma stdout_length k : stdio_inv k → length (stdout_contents k) = Z.to_nat (kernel_buffer_stdout_length k).
Proof. intros []. unfold stdout_contents. rewrite length_take. lia. Qed.

Lemma stdin_length k : stdio_inv k → length (stdin_contents k) = Z.to_nat (kernel_buffer_stdin_length k).
Proof. intros []. unfold stdin_contents. rewrite length_take. lia. Qed.

(** Appending to an array in use up to [n]. *)
Lemma take_append (l : list Z) n c :
  0 ≤ n < Z.of_nat (length l) →
  take (Z.to_nat (n + 1)) (<[Z.to_nat n := c]> l) = take (Z.to_nat n) l ++ [c].
Proof.
  intros Hn. replace (Z.to_nat (n + 1)) with (S (Z.to_nat n)) by lia.
  rewrite (take_S_r _ _ c) by (apply list_lookup_insert_eq; lia). by rewrite take_insert_ge by lia.
Qed.

Lemma stdout_writechar_spec c k :
  stdio_inv k →
  ∃ k', kernel_buffer_stdout_writechar c k = Ret k' ∧ stdio_inv k' ∧
    stdout_contents k' = enqueue c (stdout_contents k) ∧ stdin_contents k' = stdin_contents k.
Proof.
  intros Hk. pose proof (stdout_length k Hk) as Hl. destruct Hk as [H1 H2 H3 H4].
  unfold kernel_buffer_stdout_writechar, STDOUT_MAX_BUFFER, enqueue.
  destruct (Z.leb_spec 256 (kernel_buffer_stdout_length k)); cbv zeta; simpl.
  - rewrite array_set_in, Ret_bind, decide_True by lia. eexists. split; [done|]. split.
    + split; simpl; rewrite ?length_insert; done || lia.
    + split; [|done]. apply (take_append _ 0). lia.
  - rewrite array_set_in, Ret_bind, decide_False by lia. eexists. split; [done|].
    rewrite u16_small by lia. split.
    + split; simpl; rewrite ?length_insert; done || lia.
    + split; [|done]. apply take_append. lia.
Qed.

Lemma stdin_writechar_spec c k :
  stdio_inv k →
  ∃ k', kernel_buffer_stdin_writechar c k = Ret k' ∧ stdio_inv k' ∧
    stdin_contents k' = enqueue c (stdin_contents k) ∧ stdout_contents k' = stdout_contents k.
Proof.
  intros Hk. pose proof (stdin_length k Hk) as Hl. destruct Hk as [H1 H2 H3 H4].
  unfold kernel_buffer_stdin_writechar, STDIN_MAX_BUFFER, enqueue.
  destruct (Z.leb_spec 256 (kernel_buffer_stdin_length k)); cbv zeta; simpl.
  - rewrite array_set_in, Ret_bind, decide_True by lia. eexists. split; [done|]. split.
    + split; simpl; rewrite ?length_insert; done || lia.
    + split; [|done]. apply (take_append _ 0). lia.
  - rewrite array_set_in, Ret_bind, decide_False by lia. eexists. split; [done|].
    rewrite u16_small by lia. split.
    + split; simpl; rewrite ?length_insert; done || lia.
    + split; [|done]. apply take_append. lia.
Qed.

Lemma stdout_writestring_spec str k :
  stdio_inv k →
  ∃ k', kernel_buffer_stdout_writestring str (Z.of_nat (length str)) k = Ret k' ∧ stdio_inv k' ∧
    stdout_contents k' = enqueue_all str (stdout_contents k).
Proof.
  intros Hk. unfold kernel_buffer_stdout_writestring.
  enough (H : wp (for_range 0 (Z.of_nat (length str))
                    (λ i k, c ← array_get str i; kernel_buffer_stdout_writechar c k) k)
    (λ k', stdio_inv k' ∧
       stdout_contents k' = enqueue_all (take (Z.to_nat (Z.of_nat (length str))) str) (stdout_contents k))).
  { apply wp_inv in H as (k' & -> & H1 & H2). rewrite Nat2Z.id, firstn_all in H2. by exists k'. }
  apply (wp_for_range (λ i k', stdio_inv k' ∧
           stdout_contents k' = enqueue_all (take (Z.to_nat i) str) (stdout_contents k))); [lia|done|].
  intros i k1 Hi [Hk1 Hc]. destruct (array_get_in str i) as (c & Hget & ->); [lia|]. rewrite Ret_bind.
  destruct (stdout_writechar_spec c k1 Hk1) as (k2 & -> & Hk2 & Hc2 & _). apply wp_ret. split; [done|].
  rewrite Hc2, Hc. replace (Z.to_nat (i + 1)) with (S (Z.to_nat i)) by lia.
  rewrite (take_S_r _ _ c) by done. unfold enqueue_all. by rewrite foldl_app.
Qed.

Lemma strncpy_array_spec dest src n :
  0 ≤ n ≤ Z.of_nat (length src) → n ≤ Z.of_nat (length dest) →
  strncpy_array dest src n = Ret (take (Z.to_nat n) src ++ drop (Z.to_nat n) dest).
Proof.
  intros Hn Hd. unfold strncpy_array.
  enough (H : wp (for_range 0 n (λ i dest, c ← array_get src i; array_set dest i c) dest)
    (λ d, d = take (Z.to_nat n) src ++ drop (Z.to_nat n) dest)).
  { by apply wp_inv in H as (d & -> & ->). }
  apply (wp_for_range (λ i d, d = take (Z.to_nat i) src ++ drop (Z.to_nat i) dest)); [lia|done|].
  intros i d Hi ->. destruct (array_get_in src i) as (c & Hget & ->); [lia|]. rewrite Ret_bind.
  assert (Hlen : length (take (Z.to_nat i) src) = Z.to_nat i) by (rewrite length_take; lia).
  rewrite array_set_in by (rewrite length_app, length_drop; lia). apply wp_ret.
  replace (Z.to_nat (i + 1)) with (S (Z.to_nat i)) by lia.
  rewrite (take_S_r _ _ c) by done. rewrite insert_app_r_alt, Hlen, Nat.sub_diag by lia.
  destruct (lookup_lt_is_Some_2 dest (Z.to_nat i)) as [e He]; [lia|].
  rewrite (drop_S _ e) by done. simpl. by rewrite <- app_assoc.
Qed.

Lemma stdout_get_spec buffer k :
  stdio_inv k → length buffer = 256%nat →
  kernel_buffer_stdout_get buffer k =
    Ret (Z.of_nat (length (stdout_contents k)),
         stdout_contents k ++ drop (length (stdout_contents k)) buffer,
         kernel_buffer_stdout_flush k) ∧
  stdio_inv (kernel_buffer_stdout_flush k) ∧
  stdout_contents (kernel_buffer_stdout_flush k) = [].
Proof.
  intros Hk Hb. rewrite (stdout_length k Hk). destruct Hk as [H1 H2 H3 H4].
  unfold kernel_buffer_stdout_get. rewrite strncpy_array_spec, Ret_bind by lia.
  split; [by rewrite Z2Nat.id by lia|]. split; [|done]. split; simpl; done || lia.
Qed.
