(* ===== verification/Fields.v ===== *)
(** Bit fields: the registers and descriptors of the hardware pack several
    numbers into one word. *)
From stdpp Require Import base numbers list.
From Stdlib Require Import ZArith Lia.
From S2P Require Import Prelude.

(** Joining a field to a word whose low bits are clear. *)
Lemma lor_add hi lo k :
  0 ≤ k → hi mod 2 ^ k = 0 → 0 ≤ lo < 2 ^ k → Z.lor hi lo = hi + lo.
Proof.
  intros Hk Hhi Hlo. symmetry.
  rewrite Z.add_nocarry_lxor, Z.lxor_lor; [done| |]; apply Z.bits_inj'; intros i Hi;
    rewrite Z.land_spec, Z.bits_0; apply andb_false_iff; destruct (decide (i < k)).
  1, 3: left; by rewrite <- (Z.mod_pow2_bits_low hi k), Hhi, Z.bits_0 by lia.
  all: right; rewrite <- (Z.mod_small lo (2 ^ k)) by lia; by rewrite Z.mod_pow2_bits_high by lia.
Qed.

(** The same with the low part shifted out on the left. *)
Lemma lor_shiftl_add x y k :
  0 ≤ k → 0 ≤ x < 2 ^ k → Z.lor (Z.shiftl y k) x = y * 2 ^ k + x.
Proof.
  intros Hk Hx. rewrite (lor_add _ _ k); rewrite ?Z.shiftl_mul_pow2 by lia; [done|lia| |lia].
  apply Z_mod_mult.
Qed.

Lemma land_mask x k : 0 ≤ k → Z.land x (Z.ones k) = x mod 2 ^ k.
Proof. intros Hk. by rewrite Z.land_ones. Qed.

Lemma land_FF x : Z.land x 0xFF = x mod 256.
Proof. change 0xFF with (Z.ones 8). by rewrite land_mask. Qed.

Lemma land_FFFF x : Z.land x 0xFFFF = x mod 65536.
Proof. change 0xFFFF with (Z.ones 16). by rewrite land_mask. Qed.

Lemma land_0F x : Z.land x 0x0F = x mod 16.
Proof. change 0x0F with (Z.ones 4). by rewrite land_mask. Qed.

Lemma shiftr_16 x : Z.shiftr x 16 = x / 65536.
Proof. by rewrite Z.shiftr_div_pow2. Qed.

Lemma shiftr_24 x : Z.shiftr x 24 = x / 16777216.
Proof. by rewrite Z.shiftr_div_pow2. Qed.

(** A statement about bytes can be checked on each of them. *)
Lemma byte_cases (P : Z → Prop) `{∀ x, Decision (P x)} :
  forallb (λ x, bool_decide (P x)) (seqZ 0 256) = true → ∀ x, 0 ≤ x < 256 → P x.
Proof.
  intros Hall x Hx. rewrite forallb_forall in Hall.
  apply (bool_decide_eq_true_1 (P x)), Hall, list_elem_of_In, elem_of_seqZ. lia.
Qed.

Lemma land_FC x : 0 ≤ x < 256 → Z.land x 0xFC = x - x mod 4.
Proof. revert x. apply (byte_cases _). vm_compute. done. Qed.

Lemma land_F0 x : 0 ≤ x < 256 → Z.land x 0xF0 = x - x mod 16.
Proof. revert x. apply (byte_cases _). vm_compute. done. Qed.

Lemma land_80 x : 0 ≤ x < 256 → truthy (Z.land x 0x80) = (128 <=? x).
Proof. revert x. apply (byte_cases _). vm_compute. done. Qed.
