(* ===== verification/Pit.v ===== *)
(** The programmable interval timer: [kernel/drivers/pc/pit.c],
    [kernel/include/drivers/pc/pit.h].

    Routines are addresses of functions without arguments; calling one is a
    parameter that acts on a state of its own, since no routine the kernel
    installs touches the driver. *)
From stdpp Require Import base numbers list.
From Stdlib Require Import ZArith Lia.
From S2P Require Import Prelude Kernel Ports.

(** * The code *)

Definition PIT_TIMER_CONSTANT : Z := 1000.

(** [hz] counts timer ticks between two calls, not a frequency. *)
Record pit_routine := PitRoutine { hz : Z; func : Z }.

(** The globals of pit.c. *)
Record pit := Pit {
  pit_routines : list pit_routine;   (** [_pit_routines] *)
  pit_routines_size : Z;             (** [_pit_routines_size] *)
  pit_total_timer_ticks : Z
}.

Definition pit_initial : pit := Pit (replicate 64 (PitRoutine 0 0)) 0 0.

(** Returns the index, or -1 converted to [uint16_t]. *)
Definition pit_install_scheduler_routine (r : pit_routine) (p : pit) : outcome (Z * pit) :=
  if 64 <=? pit_routines_size p then Ret (u16 (-1), p)
  else
    rs ← array_set (pit_routines p) (pit_routines_size p) r;
    Ret (pit_routines_size p,
         Pit rs (u16 (pit_routines_size p + 1)) (pit_total_timer_ticks p)).

Definition pit_uninstall_scheduler_routine (index : Z) (p : pit) : outcome pit :=
  r ← array_get (pit_routines p) index;
  rs ← array_set (pit_routines p) index (PitRoutine 0 (func r));
  Ret (Pit rs (pit_routines_size p) (pit_total_timer_ticks p)).

(** Signed division of C. *)
Definition sdiv (a b : Z) : outcome Z := if b =? 0 then Fault else Ret (Z.quot a b).

Definition pit_set_timer_phase (hz : Z) (log : port_log) : outcome port_log :=
  q ← sdiv 1193180 hz;
  let divisor := s16 q in
  Ret (outportb 0x40 (Z.shiftr divisor 8) (outportb 0x40 (Z.land divisor 0xFF)
        (outportb 0x43 0x36 log))).

(** The loop over the routines. *)
Definition pit_run_routines {S} (call : Z → S → outcome S) (p : pit) (s : S) : outcome S :=
  for_range 0 (pit_routines_size p) (λ i s,
    r ← array_get (pit_routines p) i;
    m ← umod (pit_total_timer_ticks p) (hz r);
    if m =? 0 then call (func r) s else Ret s) s.

Definition pit_irq_timer_handler {S} (call : Z → S → outcome S) (int_no : Z) (p : pit) (s : S)
    : outcome (pit * S) :=
  if truthy (int_no ⊖ 32) then Abort
  else
    let p' := Pit (pit_routines p) (pit_routines_size p) (pit_total_timer_ticks p ⊕ 1) in
    s' ← pit_run_routines call p' s;
    Ret (p', s').

Definition pit_get_total_ticks (p : pit) : Z := pit_total_timer_ticks p.

(** Busy waiting: each round of the loop may see a timer interrupt, which the
    list tells; the result is the tick count and the rounds left over. *)
Fixpoint wait_until (desired_ticks ticks : Z) (interrupts : list bool) : outcome (Z * list bool) :=
  if ticks <? desired_ticks then
    match interrupts with
    | [] => NoFuel
    | i :: rest => wait_until desired_ticks (if i then ticks ⊕ 1 else ticks) rest
    end
  else Ret (ticks, interrupts).

Definition pit_timer_wait (seconds ticks : Z) (interrupts : list bool) : outcome (Z * list bool) :=
  wait_until (ticks ⊕ seconds ⊗ PIT_TIMER_CONSTANT) ticks interrupts.

Definition pit_timer_wait_ms (ms ticks : Z) (interrupts : list bool) : outcome (Z * list bool) :=
  wait_until (ticks ⊕ ms ⊗ (PIT_TIMER_CONSTANT / 1000)) ticks interrupts.

(** kernel/kernel/kernel_thread.c *)
Definition kernel_thread_sleep (seconds ticks : Z) (interrupts : list bool) : outcome (Z * list bool) :=
  pit_timer_wait seconds ticks interrupts.

(** * Specification *)

Record pit_inv (p : pit) : Prop := PitInv {
  pit_table : length (pit_routines p) = 64%nat;
  pit_size : 0 ≤ pit_routines_size p ≤ 64;
  pit_ticks : is_u32 (pit_total_timer_ticks p)
}.

(** The routines in use. *)
Definition installed_routines (p : pit) : list pit_routine :=
  take (Z.to_nat (pit_routines_size p)) (pit_routines p).

(** The routines due at a tick, in the order they were installed. *)
Definition due (ticks : Z) (rs : list pit_routine) : list pit_routine :=
  filter (λ r, ticks mod hz r = 0) rs.

(** Calling functions one after the other. *)
Fixpoint call_all {S} (call : Z → S → outcome S) (rs : list pit_routine) (s : S) : outcome S :=
  match rs with
  | [] => Ret s
  | r :: rs' => s' ← call (func r) s; call_all call rs' s'
  end.

(** * Lemmas *)

(** A loop over the first entries of an array. *)
Lemma for_range_list {A S} (l : list A) n (body : A → S → outcome S) s :
  0 ≤ n ≤ Z.of_nat (length l) →
  for_range 0 n (λ i s, x ← array_get l i; body x s) s =
    (fix go (k : list A) (s : S) : outcome S :=
       match k with [] => Ret s | x :: k' => s' ← body x s; go k' s' end) (take (Z.to_nat n) l) s.
Proof.
  intros Hn. unfold for_range. rewrite Z.sub_0_r.
  enough (H : ∀ pre k, l = pre ++ k → (Z.to_nat n ≤ length l)%nat →
    ∀ m s, (m ≤ length k)%nat →
    rounds_all m (Z.of_nat (length pre)) (λ i s, x ← array_get l i; body x s) s =
    (fix go (k : list A) (s : S) : outcome S :=
       match k with [] => Ret s | x :: k' => s' ← body x s; go k' s' end) (take m k) s).
  { apply (H [] l eq_refl); lia. }
  intros pre k Hl _ m. revert pre k Hl. induction m as [|m IH]; intros pre k Hl s' Hm; [by destruct k|].
  destruct k as [|x k]; [simpl in Hm; lia|]. simpl.
  assert (Hx : array_get l (Z.of_nat (length pre)) = Ret x).
  { apply array_get_Ret. split; [lia|]. rewrite Hl, Nat2Z.id, lookup_app_r, Nat.sub_diag by lia. done. }
  rewrite Hx, Ret_bind. destruct (body x s') as [s2| | |]; simpl; [|done..].
  replace (Z.of_nat (length pre) + 1) with (Z.of_nat (length (pre ++ [x])))
    by (rewrite length_app; simpl; lia).
  apply IH; [by rewrite Hl, <- app_assoc|simpl in Hm; lia].
Qed.

Lemma run_due {S} (call : Z → S → outcome S) ticks rs s :
  Forall (λ r, 0 < hz r) rs →
  (fix go (k : list pit_routine) (s : S) : outcome S :=
     match k with
     | [] => Ret s
     | r :: k' => s' ← (m ← umod ticks (hz r); if m =? 0 then call (func r) s else Ret s); go k' s'
     end) rs s = call_all call (due ticks rs) s.
Proof.
  intros Hrs. revert s. induction Hrs as [|r rs Hr Hrs IH]; intros s; [done|].
  rewrite umod_pos, Ret_bind by done. unfold due. rewrite filter_cons.
  destruct (Z.eqb_spec (ticks mod hz r) 0) as [He|He].
  - rewrite decide_True by done. simpl. destruct (call (func r) s); simpl; [apply IH|done..].
  - rewrite decide_False by done. apply IH.
Qed.

(** A routine without a period is a division by zero. *)
Lemma run_zero {S} (call : Z → S → outcome S) ticks rs r rs' s :
  (∀ f s, ∃ s', call f s = Ret s') → Forall (λ r, 0 < hz r) rs → hz r = 0 →
  (fix go (k : list pit_routine) (s : S) : outcome S :=
     match k with
     | [] => Ret s
     | r :: k' => s' ← (m ← umod ticks (hz r); if m =? 0 then call (func r) s else Ret s); go k' s'
     end) (rs ++ r :: rs') s = Fault.
Proof.
  intros Hcall Hrs Hr. revert s. induction Hrs as [|r0 rs Hr0 Hrs IH]; intros s.
  - simpl. rewrite Hr. done.
  - simpl. rewrite umod_pos, Ret_bind by done.
    destruct (Z.eqb_spec (ticks mod hz r0) 0); [|apply IH].
    destruct (Hcall (func r0) s) as [s' ->]. apply IH.
Qed.

(** Ticks among the rounds of a waiting loop. *)
Definition ticks_in (l : list bool) : Z := Z.of_nat (length (filter (λ i, i = true) l)).

Lemma ticks_in_cons i l : ticks_in (i :: l) = (if i then 1 else 0) + ticks_in l.
Proof. unfold ticks_in. rewrite filter_cons. destruct i; simpl; lia. Qed.

(** Waiting ends when the last tick that is wanted arrives. *)
Lemma wait_until_spec desired ticks l rest :
  0 ≤ ticks ≤ desired → desired < 2 ^ 32 → ticks_in l = desired - ticks → l = [] ∨ last l = Some true →
  wait_until desired ticks (l ++ rest) = Ret (desired, rest).
Proof.
  revert ticks. induction l as [|i l IH]; intros ticks Ht Hd Hn Hl.
  - unfold ticks_in in Hn. simpl in Hn. assert (ticks = desired) as -> by lia.
    destruct rest; simpl; by rewrite Z.ltb_irrefl.
  - destruct Hl as [Hl|Hl]; [done|]. rewrite ticks_in_cons in Hn.
    assert (Hmore : l = [] ∧ i = true ∨ last l = Some true ∧ 0 < ticks_in l).
    { destruct l as [|j l]; [left; simpl in Hl; split; [done|congruence]|right; split; [done|]].
      change (last (i :: j :: l)) with (last (j :: l)) in Hl.
      apply last_Some in Hl as [l' ->]. unfold ticks_in. rewrite filter_app, length_app. simpl. lia. }
    simpl. destruct (Z.ltb_spec ticks desired) as [|Hge].
    2:{ destruct Hmore as [[-> ->]|[_ ?]]; [unfold ticks_in in Hn; simpl in Hn; lia|destruct i; lia]. }
    destruct i.
    + rewrite u32_small by u32_lia. apply IH; [lia|done|lia|]. destruct Hmore as [[-> _]|[? _]]; auto.
    + apply IH; [lia|done|lia|]. destruct Hmore as [[_ ?]|[? _]]; [done|auto].
Qed.

(** Before that it goes on. *)
Lemma wait_until_pending desired ticks l :
  0 ≤ ticks → desired < 2 ^ 32 → ticks_in l < desired - ticks → wait_until desired ticks l = NoFuel.
Proof.
  revert ticks. induction l as [|i l IH]; intros ticks Ht Hd Hn.
  - unfold ticks_in in Hn. simpl in Hn |- *. by destruct (Z.ltb_spec ticks desired); [|lia].
  - rewrite ticks_in_cons in Hn. assert (0 ≤ ticks_in l) by (unfold ticks_in; lia). simpl.
    destruct (Z.ltb_spec ticks desired); [|destruct i; lia].
    destruct i; [rewrite u32_small by u32_lia|]; apply IH; lia.
Qed.

(** [waits wait ticks k]: started at the count [ticks], the loop returns at
    the [k]-th timer interrupt, not sooner, however many rounds it makes. *)
Definition waits (wait : list bool → outcome (Z * list bool)) (ticks k : Z) : Prop :=
  (∀ l rest, ticks_in l = k → l = [] ∨ last l = Some true → wait (l ++ rest) = Ret (ticks + k, rest)) ∧
  (∀ l, ticks_in l < k → wait l = NoFuel).

Lemma wait_until_waits desired ticks :
  is_u32 ticks → is_u32 desired → waits (wait_until desired ticks) ticks (Z.max 0 (desired - ticks)).
Proof.
  intros Ht Hd. destruct (Z.le_gt_cases desired ticks).
  - rewrite Z.max_l by lia. split.
    + intros l rest Hn Hl. assert (l = []) as ->.
      { destruct Hl as [|Hl]; [done|]. apply last_Some in Hl as [l' ->]. unfold ticks_in in Hn.
        rewrite filter_app, length_app in Hn. simpl in Hn. lia. }
      rewrite Z.add_0_r. destruct rest; simpl; destruct (Z.ltb_spec ticks desired); done || lia.
    + intros l Hl. unfold ticks_in in Hl. lia.
  - rewrite Z.max_r by lia. split.
    + intros l rest Hn Hl. rewrite wait_until_spec; [do 2 f_equal; lia|u32_lia|u32_lia|done|done].
    + intros l Hl. apply wait_until_pending; [u32_lia|u32_lia|done].
Qed.

(** The handler, raised by the timer. *)
Lemma timer_handler_run {S} (call : Z → S → outcome S) p s :
  pit_inv p → Forall (λ r, 0 < hz r) (installed_routines p) →
  let p' := Pit (pit_routines p) (pit_routines_size p) (pit_total_timer_ticks p ⊕ 1) in
  pit_irq_timer_handler call 32 p s =
    (s' ← call_all call (due (pit_total_timer_ticks p') (installed_routines p)) s; Ret (p', s')) ∧
  pit_inv p'.
Proof.
  intros [Hlen Hsize Hticks] Hhz p'. split.
  - unfold pit_irq_timer_handler. change (truthy (32 ⊖ 32)) with false. cbv iota zeta.
    unfold pit_run_routines. cbn [pit_routines_size pit_total_timer_ticks pit_routines].
    rewrite (for_range_list (pit_routines p) (pit_routines_size p)
               (λ r s, m ← umod (pit_total_timer_ticks p ⊕ 1) (hz r);
                       if m =? 0 then call (func r) s else Ret s)) by lia.
    by rewrite run_due.
  - split; [done|done|apply u32_range].
Qed.

(** * Theorems *)

(** C36: a timer tick.  From a state of the driver in which every routine in
    use has a period, the handler counts the tick and calls exactly the
    routines whose period divides the new count, in the order they were
    installed; raised by any other interrupt, it aborts.  Uninstalling a
    routine clears its period and leaves it in use: the next tick divides by
    zero. *)
Theorem pit_irq_timer_handler_correct {S} (call : Z → S → outcome S) p s :
  pit_inv p → Forall (λ r, 0 < hz r) (installed_routines p) →
  let p' := Pit (pit_routines p) (pit_routines_size p) (pit_total_timer_ticks p ⊕ 1) in
  pit_irq_timer_handler call 32 p s =
    (s' ← call_all call (due (pit_total_timer_ticks p') (installed_routines p)) s; Ret (p', s')) ∧
  pit_inv p' ∧
  (∀ int_no, is_u32 int_no → int_no ≠ 32 → pit_irq_timer_handler call int_no p s = Abort) ∧
  (∀ index, (∀ f s, ∃ s', call f s = Ret s') → 0 ≤ index < pit_routines_size p →
     ∃ p2, pit_uninstall_scheduler_routine index p = Ret p2 ∧
       pit_irq_timer_handler call 32 p2 s = Fault).
Proof.
  intros Hp Hhz p'. destruct (timer_handler_run call p s Hp Hhz) as [Hrun Hp'].
  destruct Hp as [Hlen Hsize Hticks]. split_and!; [done|done| |].
  - intros int_no Hi Hne. unfold pit_irq_timer_handler, truthy.
    destruct (Z.eqb_spec (int_no ⊖ 32) 0) as [He|]; [|done]. unfold u32, is_u32 in *.
    apply Z.mod_divide in He as [q Hq]; [|done]. assert (q = 0) as -> by lia. lia.
  - intros index Hcall Hi. unfold pit_uninstall_scheduler_routine.
    destruct (array_get_in (pit_routines p) index) as (r & Hr & ->); [lia|].
    rewrite Ret_bind, array_set_in, Ret_bind by lia. eexists. split; [done|].
    unfold pit_irq_timer_handler. change (truthy (32 ⊖ 32)) with false. cbv iota zeta.
    unfold pit_run_routines. cbn [pit_routines_size pit_total_timer_ticks pit_routines].
    rewrite (for_range_list _ (pit_routines_size p)
               (λ r s, m ← umod (pit_total_timer_ticks p ⊕ 1) (hz r);
                       if m =? 0 then call (func r) s else Ret s)) by (rewrite length_insert; lia).
    unfold installed_routines in Hhz.
    set (i := Z.to_nat index). set (n := Z.to_nat (pit_routines_size p)) in *.
    rewrite take_insert_lt by lia. rewrite (insert_take_drop (take n (pit_routines p)) i)
      by (rewrite length_take; lia).
    rewrite (run_zero call (pit_total_timer_ticks p ⊕ 1)); [done|done| |done].
    by apply Forall_take.
Qed.

(** A driver with two routines, every third and every second tick. *)
Definition demo_pit : pit :=
  Pit (PitRoutine 3 0x1000 :: PitRoutine 2 0x2000 :: replicate 62 (PitRoutine 0 0)) 2 5.

Lemma demo_pit_inv : pit_inv demo_pit.
Proof. split; [reflexivity|split; discriminate|split; [discriminate|reflexivity]]. Qed.

Lemma demo_pit_periods : Forall (λ r, 0 < hz r) (installed_routines demo_pit).
Proof. repeat constructor. Qed.

(** At the sixth tick both are called. *)
Lemma pit_irq_timer_handler_correct_witness :
  pit_irq_timer_handler (λ f calls, Ret (calls ++ [f])) 32 demo_pit []
  = Ret (Pit (pit_routines demo_pit) 2 6, [0x1000; 0x2000]).
Proof.
  exact (proj1 (pit_irq_timer_handler_correct (λ f calls, Ret (calls ++ [f])) demo_pit []
    demo_pit_inv demo_pit_periods)).
Defined.

(** C37: waiting.  For every argument, [pit_timer_wait] returns exactly at the
    tick that brings the counter to its target, and neither sooner nor later,
    however many rounds the loop makes; at once if the counter is not below the
    target.  The target is a 32-bit number: it is the count plus 1000 per
    second modulo 2^32, so the wait lasts as many seconds as it was asked for
    only if the sum does not wrap; otherwise it is shorter.  The same holds for
    [pit_timer_wait_ms], with one tick per millisecond, and
    [kernel_thread_sleep] is [pit_timer_wait]. *)
Theorem pit_timer_wait_returns n ticks :
  is_u32 ticks → is_u32 n →
  let seconds := Z.max 0 ((ticks + n * 1000) mod 2 ^ 32 - ticks) in
  let milliseconds := Z.max 0 ((ticks + n) mod 2 ^ 32 - ticks) in
  waits (pit_timer_wait n ticks) ticks seconds ∧
  waits (pit_timer_wait_ms n ticks) ticks milliseconds ∧
  waits (kernel_thread_sleep n ticks) ticks seconds ∧
  (if ticks + n * 1000 <? 2 ^ 32 then seconds = n * 1000 else seconds < n * 1000) ∧
  (if ticks + n <? 2 ^ 32 then milliseconds = n else milliseconds < n).
Proof.
  intros Ht Hn seconds milliseconds.
  assert (Hs : waits (pit_timer_wait n ticks) ticks seconds).
  { unfold pit_timer_wait, PIT_TIMER_CONSTANT, seconds.
    replace ((ticks + n * 1000) mod 2 ^ 32) with (ticks ⊕ n ⊗ 1000) by (unfold u32; apply Zplus_mod_idemp_r).
    apply wait_until_waits; [done|apply u32_range]. }
  assert (Hms : waits (pit_timer_wait_ms n ticks) ticks milliseconds).
  { unfold pit_timer_wait_ms, milliseconds. change (PIT_TIMER_CONSTANT / 1000) with 1.
    rewrite Z.mul_1_r, (u32_small n) by done. apply wait_until_waits; [done|apply u32_range]. }
  split; [done|]. split; [done|]. split; [done|]. unfold seconds, milliseconds, is_u32 in *. clear - Ht Hn.
  split; case_bool; [rewrite Z.mod_small by lia; lia|div_lia|rewrite Z.mod_small by lia; lia|div_lia].
Qed.

(** A second from tick 7; five seconds asked for ten ticks before the counter
    wraps; and 4294968 seconds asked for at tick 0, which end after 704 ticks. *)
Lemma pit_timer_wait_returns_witness :
  pit_timer_wait 1 7 (replicate 1000 true ++ [false]) = Ret (1007, [false]) ∧
  pit_timer_wait 5 (2 ^ 32 - 10) [] = Ret (2 ^ 32 - 10, []) ∧
  pit_timer_wait 4294968 0 (replicate 704 true ++ []) = Ret (704, []).
Proof.
  assert (H : ∀ n, is_u32 n ↔ (0 <=? n) && (n <? 2 ^ 32) = true) by (intros n; unfold is_u32; lia).
  split; [|split].
  - refine (proj1 (proj1 (pit_timer_wait_returns 1 7 _ _)) (replicate 1000 true) [false] _ _).
    + apply H. reflexivity.
    + apply H. reflexivity.
    + reflexivity.
    + right. reflexivity.
  - refine (proj1 (proj1 (pit_timer_wait_returns 5 (2 ^ 32 - 10) _ _)) [] [] _ _).
    + apply H. reflexivity.
    + apply H. reflexivity.
    + reflexivity.
    + left. reflexivity.
  - refine (proj1 (proj1 (pit_timer_wait_returns 4294968 0 _ _)) (replicate 704 true) [] _ _).
    + apply H. reflexivity.
    + apply H. reflexivity.
    + reflexivity.
    + right. reflexivity.
Defined.
