(* ===== verification/Terminal.v ===== *)
(** The kernel terminal: [kernel/kernel/kernel_terminal.c],
    [kernel/include/kernel/kernel_terminal.h].

    It empties the output buffer at every timer tick, keeps a copy of the
    screen of its own, and redraws the screen from that copy. *)
From stdpp Require Import base numbers list gmap.
From Stdlib Require Import ZArith Lia.
From S2P Require Import Prelude Kernel Ports Textmode TextmodeProps KernelStdio Pit.

(** * The code *)

Definition ESCAPECODE_LENGTH : Z := 15.

Definition kernel_terminal_escapecodes : list Z := [10; 8; 0; 0; 0; 0; 0; 0; 0; 0; 0; 0; 0; 0; 0].

(** The globals of kernel_terminal.c, the screen and the buffers it uses. *)
Record terminal := Terminal {
  cur_xpos : Z;
  cur_ypos : Z;
  color : Z;
  is_ansi_escape : bool;
  ansi_escape_length : Z;
  terminal_buffer : list Z;
  screen : vga;
  buffers : stdio
}.

Definition terminal_at (x y : Z) (t : terminal) : terminal :=
  Terminal x y (color t) (is_ansi_escape t) (ansi_escape_length t) (terminal_buffer t) (screen t)
    (buffers t).

Definition terminal_ansi (b : bool) (n : Z) (t : terminal) : terminal :=
  Terminal (cur_xpos t) (cur_ypos t) (color t) b n (terminal_buffer t) (screen t) (buffers t).

Definition terminal_show (b : list Z) (v : vga) (t : terminal) : terminal :=
  Terminal (cur_xpos t) (cur_ypos t) (color t) (is_ansi_escape t) (ansi_escape_length t) b v (buffers t).

Definition kernel_terminal_putentry (c color x y : Z) (t : terminal) : outcome terminal :=
  v ← vga_textmode_putentryat c color x y (screen t);
  b ← array_set (terminal_buffer t) (y ⊗ VGA_WIDTH ⊕ x) (make_vgaentry c color);
  Ret (terminal_show b v t).

Definition kernel_terminal_update_cursor (t : terminal) : outcome terminal :=
  if cur_xpos t =? 0 then kernel_terminal_putentry 95 (color t) (cur_xpos t) (cur_ypos t) t
  else kernel_terminal_putentry 95 (color t) (cur_xpos t) (cur_ypos t) t.

Definition kernel_terminal_handle_overflow (t : terminal) : terminal :=
  if VGA_WIDTH <=? cur_xpos t then terminal_at 0 (cur_ypos t ⊕ 1) t else t.

Definition kernel_terminal_handle_scroll (t : terminal) : outcome terminal :=
  if cur_ypos t =? VGA_HEIGHT then
    t' ← for_range 0 VGA_HEIGHT (λ y t, for_range 0 VGA_WIDTH (λ x t,
           let index := y ⊗ VGA_WIDTH ⊕ x in
           let nextrow_index := index ⊕ VGA_WIDTH in
           if y =? VGA_HEIGHT - 1 then kernel_terminal_putentry 32 (color t) x y t
           else
             v ← array_get (terminal_buffer t) nextrow_index;
             b ← array_set (terminal_buffer t) index v;
             Ret (terminal_show b (screen t) t)) t) t;
    Ret (terminal_at (cur_xpos t') (cur_ypos t' ⊖ 1) t')
  else Ret t.

Definition kernel_terminal_backspace (t : terminal) : outcome terminal :=
  t1 ← kernel_terminal_putentry 32 (color t) (cur_xpos t) (cur_ypos t) t;
  if (cur_xpos t1 =? 0) && (cur_ypos t1 =? 0) then kernel_terminal_putentry 32 (color t1) 0 0 t1
  else if cur_xpos t1 =? 0 then Ret t1
  else
    t2 ← kernel_terminal_putentry 32 (color t1) (cur_xpos t1) (cur_ypos t1) t1;
    Ret (terminal_at (cur_xpos t2 ⊖ 1) (cur_ypos t2) t2).

Definition kernel_terminal_check_escapecode (c : Z) (t : terminal) : outcome (bool * terminal) :=
  r ← for_return 0 ESCAPECODE_LENGTH (λ i u,
        e ← array_get kernel_terminal_escapecodes i;
        Ret (if c =? e then Return true else Continue u)) tt;
  match r with
  | Return b => Ret (b, t)
  | Continue _ => if c =? 27 then Ret (true, terminal_ansi true 1 t) else Ret (false, t)
  end.

(** The label [ansi_fail]. *)
Definition ansi_fail (t : terminal) : terminal := terminal_ansi false 0 t.

(** The case of the second character runs into the label. *)
Definition kernel_terminal_handle_escapecode (c : Z) (t : terminal) : outcome terminal :=
  if c =? 10 then
    t1 ← kernel_terminal_putentry 32 (color t) (cur_xpos t) (cur_ypos t) t;
    kernel_terminal_update_cursor (terminal_at 0 (cur_ypos t1 ⊕ 1) t1)
  else if c =? 8 then kernel_terminal_backspace t
  else if is_ansi_escape t then
    if ansi_escape_length t =? 1 then
      if negb (c =? 27) then Ret (ansi_fail t)
      else Ret (terminal_ansi (is_ansi_escape t) (u8 (ansi_escape_length t + 1)) t)
    else if ansi_escape_length t =? 2 then
      if negb (c =? 91) then Ret (ansi_fail t)
      else Ret (ansi_fail (terminal_ansi (is_ansi_escape t) (u8 (ansi_escape_length t + 1)) t))
    else Ret (ansi_fail t)
  else Ret (ansi_fail t).

(** The body of the loop of [kernel_terminal_update_tick]. *)
Definition kernel_terminal_char (cur_char : Z) (t : terminal) : outcome terminal :=
  '(escape, t1) ← kernel_terminal_check_escapecode cur_char t;
  if escape || is_ansi_escape t1 then
    t2 ← kernel_terminal_handle_escapecode cur_char t1;
    t3 ← kernel_terminal_handle_scroll t2;
    kernel_terminal_update_cursor t3
  else
    t2 ← kernel_terminal_handle_scroll (kernel_terminal_handle_overflow t1);
    t3 ← kernel_terminal_putentry cur_char (color t2) (cur_xpos t2) (cur_ypos t2)
           (terminal_at (cur_xpos t2 ⊕ 1) (cur_ypos t2) t2);
    kernel_terminal_update_cursor t3.

(** [stdout_buffer] is what the stack holds when the tick begins. *)
Definition kernel_terminal_update_tick (stdout_buffer : list Z) (t : terminal) : outcome terminal :=
  '(stdout_buffer_length, stdout_buffer, sio) ← kernel_buffer_stdout_get stdout_buffer (buffers t);
  let t1 := Terminal (cur_xpos t) (cur_ypos t) (color t) (is_ansi_escape t) (ansi_escape_length t)
              (terminal_buffer t) (screen t) sio in
  if negb (stdout_buffer_length =? 0) then
    v ← vga_textmode_clear (screen t1);
    t2 ← for_range 0 stdout_buffer_length (λ i t,
           cur_char ← array_get stdout_buffer i; kernel_terminal_char cur_char t)
           (terminal_show (terminal_buffer t1) v t1);
    v' ← vga_textmode_writebuffer (terminal_buffer t2) (VGA_WIDTH * VGA_HEIGHT) (screen t2);
    Ret (terminal_show (terminal_buffer t2) v' t2)
  else Ret t1.

(** [update_tick] is the address of [kernel_terminal_update_tick]. *)
Definition kernel_terminal_init (update_tick refresh_rate : Z) (stdout_buffer : list Z)
    (t : terminal) (p : pit) : outcome (terminal * pit) :=
  v ← vga_textmode_initialize (screen t);
  let color := make_color COLOR_LIGHT_GREY COLOR_BLACK in
  b ← for_range 0 VGA_HEIGHT (λ y b, for_range 0 VGA_WIDTH (λ x b,
        array_set b (y ⊗ VGA_WIDTH ⊕ x) (make_vgaentry 32 color)) b) (terminal_buffer t);
  period ← sdiv 10000 refresh_rate;
  '(_, p') ← pit_install_scheduler_routine (PitRoutine (u32 period) update_tick) p;
  t' ← kernel_terminal_update_tick stdout_buffer
         (Terminal (cur_xpos t) (cur_ypos t) color (is_ansi_escape t) (ansi_escape_length t) b v
            (buffers t));
  Ret (t', p').

(** * Specification *)

(** A console: 2000 entries in a row, the cursor's column and row, and whether
    an escape character is waiting for its successor. *)
Record console := Console {
  text : list Z;
  column : Z;
  row : Z;
  pending : bool
}.

(** The entry under the cursor; column 80 is the first one of the next row. *)
Definition cursor (k : console) : Z := row k * 80 + column k.

Definition console_ok (k : console) : Prop :=
  length (text k) = 2000%nat ∧ 0 ≤ column k ≤ 80 ∧ 0 ≤ row k ∧ cursor k < 2000.

Definition write_at (p e : Z) (k : console) : console :=
  Console (<[Z.to_nat p := e]> (text k)) (column k) (row k) (pending k).

Definition go_to (x y : Z) (k : console) : console := Console (text k) x y (pending k).

Section console.
Context (col : Z).

(** A character before the cursor is drawn: a newline and a backspace blank
    the cursor, the escape character arms, what follows it or a null character
    disarms, and any other character is written at the cursor. *)
Definition console_step (c : Z) (k : console) : console :=
  if c =? 10 then go_to 0 (row k + 1) (write_at (cursor k) (make_vgaentry 32 col) k)
  else if c =? 8 then
    go_to (if column k =? 0 then 0 else column k - 1) (row k) (write_at (cursor k) (make_vgaentry 32 col) k)
  else if c =? 27 then Console (text k) (column k) (row k) true
  else if (c =? 0) || pending k then Console (text k) (column k) (row k) false
  else
    let k1 := write_at (cursor k) (make_vgaentry c col) k in
    if column k =? 80 then go_to 1 (row k + 1) k1 else go_to (column k + 1) (row k) k1.

(** The cursor must stay among the 2000 entries. *)
Definition console_char (c : Z) (k : console) : option console :=
  let k1 := console_step c k in
  if cursor k1 <? 2000 then Some (write_at (cursor k1) (make_vgaentry 95 col) k1) else None.

Fixpoint console_chars (cs : list Z) (k : console) : option console :=
  match cs with
  | [] => Some k
  | c :: cs' => k' ← console_char c k; console_chars cs' k'
  end.
End console.

(** The terminal is in the state [k] of the console, and the buffers are [q]. *)
Record shows (col : Z) (q : stdio) (k : console) (t : terminal) : Prop := Shows {
  sh_text : terminal_buffer t = text k;
  sh_x : cur_xpos t = column k;
  sh_y : cur_ypos t = row k;
  sh_pending : is_ansi_escape t = pending k;
  sh_length : ansi_escape_length t = if pending k then 2 else 0;
  sh_color : color t = col;
  sh_buffers : buffers t = q;
  sh_screen : vga_textmode_buffer (screen t) = 0xB8000
}.
