(* ===== verification/TerminalProps.v ===== *)
(** The kernel terminal implements the console of Terminal.v. *)
From stdpp Require Import base numbers list gmap.
From Stdlib Require Import ZArith Lia.
From S2P Require Import Prelude Kernel Ports Textmode TextmodeProps KernelStdio Pit Terminal.

(** * Lemmas *)

(** The code at hand reaches the console's next state, or faults when there
    is none. *)
Definition draws (col : Z) (q : stdio) (o : option console) (m : outcome terminal) : Prop :=
  match o with
  | Some k => ∃ t, m = Ret t ∧ shows col q k t
  | None => m = Fault
  end.

Definition in_text (k : console) : Prop := length (text k) = 2000%nat.

Lemma write_at_twice p e e' k : write_at p e (write_at p e' k) = write_at p e k.
Proof. unfold write_at. simpl. by rewrite list_insert_insert_eq. Qed.

Lemma in_text_write p e k : in_text (write_at p e k) ↔ in_text k.
Proof. unfold in_text. simpl. by rewrite length_insert. Qed.

Lemma shows_at col q k t x y : shows col q k t → shows col q (go_to x y k) (terminal_at x y t).
Proof. intros []. by split. Qed.

Lemma entry_index x y : 0 ≤ x ≤ 80 → 0 ≤ y ≤ 25 → y ⊗ VGA_WIDTH ⊕ x = y * 80 + x.
Proof.
  intros Hx Hy. unfold VGA_WIDTH. rewrite (u32_small (y * 80)) by u32_lia. apply u32_small. u32_lia.
Qed.

Lemma putentry_draws col q k t c e x y :
  shows col q k t → in_text k → 0 ≤ x ≤ 80 → 0 ≤ y ≤ 25 →
  draws col q (if y * 80 + x <? 2000 then Some (write_at (y * 80 + x) (make_vgaentry c e) k) else None)
    (kernel_terminal_putentry c e x y t).
Proof.
  intros Hs Hk Hx Hy. unfold kernel_terminal_putentry, vga_textmode_putentryat.
  rewrite entry_index by done. pose proof Hs as [Htext Hposx Hposy Hpend Hlen Hcolor Hbuf Hvga]. unfold in_text in Hk.
  rewrite set_cell_spec, Ret_bind by (done || lia).
  destruct (Z.ltb_spec (y * 80 + x) 2000); simpl.
  - rewrite array_set_in by (rewrite Htext; lia). eexists. split; [done|].
    split; simpl; congruence.
  - by rewrite array_set_out by (rewrite Htext; lia).
Qed.

Lemma update_cursor_draws col q k t :
  shows col q k t → in_text k → 0 ≤ column k ≤ 80 → 0 ≤ row k ≤ 25 →
  draws col q (if cursor k <? 2000 then Some (write_at (cursor k) (make_vgaentry 95 col) k) else None)
    (kernel_terminal_update_cursor t).
Proof.
  intros Hs Hk Hx Hy. unfold kernel_terminal_update_cursor. pose proof Hs as [Htext Hposx Hposy Hpend Hlen Hcolor Hbuf Hvga].
  replace (if cur_xpos t =? 0 then _ else _) with (kernel_terminal_putentry 95 col (column k) (row k) t).
  - by apply putentry_draws.
  - by destruct (cur_xpos t =? 0); rewrite Hcolor, Hposx, Hposy.
Qed.

(** Within the screen there is nothing to scroll. *)
Lemma handle_scroll_none col q k t :
  shows col q k t → row k ≠ 25 → kernel_terminal_handle_scroll t = Ret t.
Proof.
  intros [Htext Hposx Hposy Hpend Hlen Hcolor Hbuf Hvga] Hr. unfold kernel_terminal_handle_scroll, VGA_HEIGHT. rewrite Hposy.
  by destruct (Z.eqb_spec (row k) 25).
Qed.

Lemma check_escapecode_spec c t :
  kernel_terminal_check_escapecode c t =
    Ret (if (c =? 10) || (c =? 8) || (c =? 0) then (true, t)
         else if c =? 27 then (true, terminal_ansi true 1 t) else (false, t)).
Proof.
  unfold kernel_terminal_check_escapecode, for_return. simpl.
  destruct (c =? 10), (c =? 8), (c =? 0), (c =? 27); done.
Qed.

(** Continue after a step that draws. *)
Lemma draws_bind col q o m (f : terminal → outcome terminal) (g : console → option console) :
  draws col q o m → (∀ k t, o = Some k → shows col q k t → draws col q (g k) (f t)) →
  draws col q (o ≫= g) (m ≫= f).
Proof.
  destruct o as [k|]; simpl; [|by intros -> _]. intros (t & -> & Ht) H. simpl. by apply H.
Qed.

Lemma draws_some col q k k' m : k = k' → draws col q (Some k) m → draws col q (Some k') m.
Proof. by intros ->. Qed.

(** ** One character *)

(** Everything but printable characters ends by redrawing the cursor. *)
Lemma escape_tail col q k t :
  shows col q k t → in_text k → 0 ≤ column k ≤ 80 → 0 ≤ row k → cursor k < 2000 →
  draws col q (Some (write_at (cursor k) (make_vgaentry 95 col) k))
    (t1 ← kernel_terminal_handle_scroll t; kernel_terminal_update_cursor t1).
Proof.
  intros Hs Hk Hc Hr Hcur. unfold cursor in *. rewrite (handle_scroll_none col q k t Hs), Ret_bind by lia.
  pose proof (update_cursor_draws col q k t Hs Hk Hc ltac:(lia)) as H. unfold cursor in *.
  destruct (Z.ltb_spec (row k * 80 + column k) 2000); [done|lia].
Qed.

Lemma newline_draws col q k t :
  shows col q k t → console_ok k →
  draws col q (console_char col 10 k) (kernel_terminal_char 10 t).
Proof.
  intros Hs (Hk & Hc & Hr & Hcur). unfold cursor in Hcur. pose proof Hs as [Htext Hposx Hposy Hpend Hlen Hcolor Hbuf Hvga].
  unfold kernel_terminal_char. rewrite check_escapecode_spec, Ret_bind. simpl orb. cbv iota.
  unfold kernel_terminal_handle_escapecode. simpl (10 =? 10). cbv iota.
  rewrite Hposx, Hposy, Hcolor.
  pose proof (putentry_draws col q k t 32 col (column k) (row k) Hs Hk Hc ltac:(lia)) as H1.
  destruct (Z.ltb_spec (row k * 80 + column k) 2000); [|lia]. destruct H1 as (t1 & -> & Hs1).
  rewrite Ret_bind. fold (cursor k) in Hs1. pose proof Hs1 as [_ _ Hposy1 _ _ _ _ _]. rewrite Hposy1. simpl row.
  rewrite u32_small by u32_lia.
  apply (shows_at _ _ _ _ 0 (row k + 1)) in Hs1.
  change (console_char col 10 k) with (let k1 := console_step col 10 k in
    if cursor k1 <? 2000 then Some (write_at (cursor k1) (make_vgaentry 95 col) k1) else None).
  cbv zeta. unfold console_step. simpl (10 =? 10). cbv iota.
  set (k1 := go_to 0 (row k + 1) (write_at (cursor k) (make_vgaentry 32 col) k)) in *.
  assert (Hk1 : in_text k1) by (by apply in_text_write).
  pose proof (update_cursor_draws col q k1 _ Hs1 Hk1 ltac:(simpl; lia) ltac:(simpl; lia)) as H2.
  destruct (Z.ltb_spec (cursor k1) 2000); [|by rewrite H2]. destruct H2 as (t2 & -> & Hs2).
  rewrite Ret_bind. eapply draws_some; [|apply (escape_tail _ _ _ _ Hs2)].
  - apply write_at_twice.
  - by apply in_text_write.
  - simpl. lia.
  - simpl. lia.
  - done.
Qed.

Lemma backspace_draws col q k t :
  shows col q k t → console_ok k →
  draws col q (console_char col 8 k) (kernel_terminal_char 8 t).
Proof.
  intros Hs (Hk & Hc & Hr & Hcur). unfold cursor in Hcur. pose proof Hs as [Htext Hposx Hposy Hpend Hlen Hcolor Hbuf Hvga].
  unfold kernel_terminal_char. rewrite check_escapecode_spec, Ret_bind. simpl orb. cbv iota.
  unfold kernel_terminal_handle_escapecode. simpl (8 =? _). cbv iota. unfold kernel_terminal_backspace.
  rewrite Hposx, Hposy, Hcolor.
  pose proof (putentry_draws col q k t 32 col (column k) (row k) Hs Hk Hc ltac:(lia)) as H1.
  destruct (Z.ltb_spec (row k * 80 + column k) 2000); [|lia]. destruct H1 as (t1 & -> & Hs1).
  rewrite Ret_bind. fold (cursor k) in Hs1. pose proof Hs1 as [_ Hx1 Hy1 _ _ Hcol1 _ _].
  rewrite Hx1, Hy1, Hcol1. simpl column. simpl row.
  set (k1 := write_at (cursor k) (make_vgaentry 32 col) k) in *.
  assert (Hk1 : in_text k1) by (by apply in_text_write).
  pose proof (putentry_draws col q k1 t1 32 col (column k) (row k) Hs1 Hk1 Hc ltac:(lia)) as H2.
  destruct (Z.ltb_spec (row k * 80 + column k) 2000); [|lia]. fold (cursor k) in H2.
  unfold k1 in H2. rewrite write_at_twice in H2. fold k1 in H2.
  assert (Hend : ∃ t2, (if (column k =? 0) && (row k =? 0) then kernel_terminal_putentry 32 col 0 0 t1
      else if column k =? 0 then Ret t1
      else t2 ← kernel_terminal_putentry 32 col (column k) (row k) t1;
           Ret (terminal_at (cur_xpos t2 ⊖ 1) (cur_ypos t2) t2)) = Ret t2 ∧
      shows col q (console_step col 8 k) t2).
  { unfold console_step. simpl (8 =? _). cbv iota. fold k1. destruct H2 as (t2 & He & Hs2).
    destruct (Z.eqb_spec (column k) 0) as [Hx|Hx]; cbn [andb].
    - assert (Hsame : go_to 0 (row k) k1 = k1) by (unfold k1, go_to; simpl; by rewrite <- Hx).
      rewrite Hsame. destruct (Z.eqb_spec (row k) 0) as [Hy|Hy].
      + rewrite Hx, Hy in He. by exists t2.
      + by exists t1.
    - rewrite He, Ret_bind. pose proof Hs2 as [_ -> -> _ _ _ _ _].
      change (column k1) with (column k). change (row k1) with (row k).
      rewrite u32_small by u32_lia. eexists. split; [done|]. by apply shows_at. }
  destruct Hend as (t2 & -> & Hs2). rewrite Ret_bind. unfold console_char.
  assert (Hpos : in_text (console_step col 8 k) ∧ 0 ≤ column (console_step col 8 k) ≤ 80 ∧
                 row (console_step col 8 k) = row k ∧ cursor (console_step col 8 k) < 2000).
  { unfold console_step, cursor. simpl (8 =? _). cbv iota. simpl. split; [by apply in_text_write|].
    destruct (Z.eqb_spec (column k) 0); lia. }
  destruct Hpos as (Hi & Hc' & Hr' & Hcur'). cbv zeta.
  destruct (Z.ltb_spec (cursor (console_step col 8 k)) 2000); [|lia].
  apply escape_tail; [done|done|done|lia|done].
Qed.

(** The characters that only change the escape state. *)
Lemma silent_draws col q k t b c :
  shows col q k t → console_ok k →
  shows col q (Console (text k) (column k) (row k) b) (terminal_ansi b (if b then 2 else 0) t) →
  console_step col c k = Console (text k) (column k) (row k) b →
  draws col q (console_char col c k)
    (t3 ← kernel_terminal_handle_scroll (terminal_ansi b (if b then 2 else 0) t);
     kernel_terminal_update_cursor t3).
Proof.
  intros Hs (Hk & Hc & Hr & Hcur) Hs1 Hstep. unfold console_char. rewrite Hstep. cbv zeta.
  change (cursor (Console (text k) (column k) (row k) b)) with (cursor k).
  destruct (Z.ltb_spec (cursor k) 2000); [|lia].
  by apply (escape_tail col q (Console (text k) (column k) (row k) b)).
Qed.

Lemma printable_draws col q k t c :
  shows col q k t → console_ok k → c ≠ 10 → c ≠ 8 → c ≠ 27 → c ≠ 0 → pending k = false →
  draws col q (console_char col c k) (kernel_terminal_char c t).
Proof.
  intros Hs (Hk & Hc & Hr & Hcur) H10 H8 H27 H0 Hp. unfold cursor in Hcur. pose proof Hs as [Htext Hposx Hposy Hpend Hlen Hcolor Hbuf Hvga].
  unfold kernel_terminal_char. rewrite check_escapecode_spec, Ret_bind.
  apply Z.eqb_neq in H10, H8, H27, H0. rewrite H10, H8, H27, H0. simpl orb. cbv iota.
  rewrite Hpend, Hp. cbv iota.
  assert (Hover : ∃ x y, kernel_terminal_handle_overflow t = terminal_at x y t ∧
    0 ≤ x < 80 ∧ 0 ≤ y < 25 ∧ y * 80 + x = cursor k ∧
    console_step col c k = go_to (x + 1) y (write_at (cursor k) (make_vgaentry c col) k)).
  { unfold kernel_terminal_handle_overflow, VGA_WIDTH, console_step, cursor.
    rewrite H10, H8, H27, H0, Hp, Hposx, Hposy. simpl orb. cbv iota zeta.
    destruct (Z.leb_spec 80 (column k)), (Z.eqb_spec (column k) 80); try lia.
    - exists 0, (row k + 1). rewrite u32_small by u32_lia. split; [done|]. split_and!; lia || done.
    - exists (column k), (row k). split; [|split_and!; lia || done].
      rewrite <- Hposx, <- Hposy. by destruct t. }
  destruct Hover as (x & y & -> & Hx & Hy & Hcursor & Hstep).
  apply (shows_at _ _ _ _ x y) in Hs as Hs1.
  rewrite (handle_scroll_none col q _ _ Hs1), Ret_bind by (simpl; lia).
  pose proof Hs1 as [_ -> -> _ _ -> _ _]. simpl column. simpl row. rewrite u32_small by u32_lia.
  apply (shows_at _ _ _ _ (x + 1) y) in Hs1.
  pose proof (putentry_draws col q _ _ c col x y Hs1 Hk ltac:(lia) ltac:(lia)) as H2.
  destruct (Z.ltb_spec (y * 80 + x) 2000); [|unfold cursor in Hcursor; lia].
  destruct H2 as (t2 & -> & Hs2). rewrite Ret_bind. rewrite Hcursor in Hs2.
  unfold console_char. rewrite Hstep. cbv zeta.
  apply update_cursor_draws; [done|by apply in_text_write|simpl; lia|simpl; lia].
Qed.

Lemma char_draws col q k t c :
  shows col q k t → console_ok k → draws col q (console_char col c k) (kernel_terminal_char c t).
Proof.
  intros Hs Hk. destruct (decide (c = 10)) as [->|H10]; [by apply newline_draws|].
  destruct (decide (c = 8)) as [->|H8]; [by apply backspace_draws|].
  destruct (decide (c = 27)) as [->|H27].
  { unfold kernel_terminal_char. rewrite check_escapecode_spec, Ret_bind. simpl.
    apply (silent_draws col q k t true 27); [done|done| |done]. by destruct Hs. }
  destruct (decide (c = 0)) as [->|H0]; [|destruct (pending k) eqn:Hp; [|by apply printable_draws]].
  - unfold kernel_terminal_char. rewrite check_escapecode_spec, Ret_bind. cbn [orb Z.eqb].
    assert (Hh : kernel_terminal_handle_escapecode 0 t = Ret (terminal_ansi false 0 t)).
    { unfold kernel_terminal_handle_escapecode. destruct Hs as [Htext Hposx Hposy Hpend Hlen Hcolor Hbuf Hvga]. simpl.
      rewrite Hpend, Hlen. by destruct (pending k). }
    rewrite Hh, Ret_bind. apply (silent_draws col q k t false 0); [done|done| |done]. by destruct Hs.
  - unfold kernel_terminal_char. rewrite check_escapecode_spec, Ret_bind.
    apply Z.eqb_neq in H10, H8, H27, H0. rewrite H10, H8, H27, H0. cbn [orb].
    pose proof Hs as [Htext Hposx Hposy Hpend Hlen Hcolor Hbuf Hvga]. rewrite Hpend, Hp.
    assert (Hh : kernel_terminal_handle_escapecode c t = Ret (terminal_ansi false 0 t)).
    { unfold kernel_terminal_handle_escapecode.
      rewrite H10, H8, H27, Hpend, Hlen, Hp. simpl. by destruct (c =? 91). }
    rewrite Hh, Ret_bind. apply (silent_draws col q k t false c); [done|done| |].
    + by split.
    + unfold console_step. by rewrite H10, H8, H27, Hp, orb_true_r.
Qed.

Lemma console_char_ok col c k k' : console_ok k → console_char col c k = Some k' → console_ok k'.
Proof.
  intros (Hk & Hc & Hr & Hcur). unfold console_char. cbv zeta.
  destruct (Z.ltb_spec (cursor (console_step col c k)) 2000) as [Hlt|]; [|done]. intros [= <-].
  unfold console_ok, cursor in *. simpl. rewrite length_insert. unfold console_step in *.
  destruct (c =? 10); [simpl in *; rewrite length_insert; lia|].
  destruct (c =? 8); [simpl in *; rewrite length_insert; case_bool; lia|].
  destruct (c =? 27); [simpl in *; lia|].
  destruct (_ || _); [simpl in *; lia|]. cbv zeta in *.
  destruct (Z.eqb_spec (column k) 80); simpl in *; rewrite length_insert; lia.
Qed.

(** ** A tick *)

Lemma chars_draws col q cs k t :
  shows col q k t → console_ok k →
  draws col q (console_chars col cs k)
    ((fix go (l : list Z) (t : terminal) : outcome terminal :=
        match l with [] => Ret t | c :: l' => t' ← kernel_terminal_char c t; go l' t' end) cs t).
Proof.
  revert k t. induction cs as [|c cs IH]; intros k t Hs Hk; [by exists t|].
  simpl. apply draws_bind; [by apply char_draws|]. intros k' t' Hstep Hs'.
  apply IH; [done|by eapply console_char_ok].
Qed.

Lemma console_chars_ok col cs k k' : console_ok k → console_chars col cs k = Some k' → console_ok k'.
Proof.
  revert k. induction cs as [|c cs IH]; intros k Hk; simpl; [by intros [= <-]|].
  destruct (console_char col c k) as [k1|] eqn:H1; simpl; [|done].
  apply IH. by eapply console_char_ok.
Qed.

(** Drawing over the whole screen keeps the buffer's address. *)
Lemma blank_screen_spec s :
  vga_textmode_buffer s = 0xB8000 → ∃ s', blank_screen s = Ret s' ∧ vga_textmode_buffer s' = 0xB8000.
Proof.
  intros Hb. enough (H : wp (blank_screen s) (λ s', vga_textmode_buffer s' = 0xB8000))
    by (by apply wp_inv in H).
  apply (wp_for_each_cell (λ _ s', vga_textmode_buffer s' = 0xB8000)); [done|].
  intros x y s' Hxy Hb'. rewrite screen_index by done. unfold on_screen, VGA_WIDTH, VGA_HEIGHT in Hxy.
  by rewrite set_cell_spec by (done || lia).
Qed.

Lemma clear_spec s :
  vga_textmode_buffer s = 0xB8000 →
  ∃ s', vga_textmode_clear s = Ret s' ∧ vga_textmode_buffer s' = 0xB8000.
Proof.
  intros Hb. unfold vga_textmode_clear. cbv zeta.
  destruct (blank_screen_spec (vga_textmode_setcolor (make_color COLOR_LIGHT_GREY COLOR_BLACK)
    (move_to 0 0 s))) as (s' & -> & Hb'); [done|]. rewrite Ret_bind. by eexists.
Qed.

Lemma writebuffer_spec l s :
  vga_textmode_buffer s = 0xB8000 → length l = 2000%nat →
  ∃ s', vga_textmode_writebuffer l 2000 s = Ret s' ∧ vga_textmode_buffer s' = 0xB8000 ∧
    ∀ k, 0 ≤ k < 2000 → l !! Z.to_nat k = Some (cell_at s' k).
Proof.
  intros Hb Hl. enough (H : wp (vga_textmode_writebuffer l 2000 s) (λ s',
    vga_textmode_buffer s' = 0xB8000 ∧ ∀ k, 0 ≤ k < 2000 → l !! Z.to_nat k = Some (cell_at s' k)))
    by (by apply wp_inv in H).
  apply (wp_for_range (λ n s', vga_textmode_buffer s' = 0xB8000 ∧
    ∀ k, 0 ≤ k < n → l !! Z.to_nat k = Some (cell_at s' k))); [lia|by split; [|intros; lia]|].
  intros n s' Hn [Hb' Hcells]. destruct (array_get_in l n) as (v & Hv & ->); [lia|].
  rewrite Ret_bind, set_cell_spec by (done || lia). apply wp_ret. split; [done|].
  intros k Hk. rewrite cell_at_insert. destruct (Z.eqb_spec k n) as [->|]; [done|]. apply Hcells. lia.
Qed.

(** ** Initialisation *)

Definition blank_console : console := Console (replicate 2000 (make_vgaentry 32 7)) 0 0 false.

Lemma blank_console_ok : console_ok blank_console.
Proof. split; [apply length_replicate|]. unfold cursor. simpl. lia. Qed.

Lemma fill_buffer_spec (e : Z) (b : list Z) :
  length b = 2000%nat →
  for_range 0 VGA_HEIGHT (λ y b, for_range 0 VGA_WIDTH (λ x b, array_set b (y ⊗ VGA_WIDTH ⊕ x) e) b) b
  = Ret (replicate 2000 e).
Proof.
  intros Hb.
  set (I := λ n (b : list Z), length b = 2000%nat ∧ ∀ i, (i < Z.to_nat n)%nat → b !! i = Some e).
  enough (H : wp (for_range 0 VGA_HEIGHT
     (λ y b, for_range 0 VGA_WIDTH (λ x b, array_set b (y ⊗ VGA_WIDTH ⊕ x) e) b) b) (I 2000)).
  { apply wp_inv in H as (b' & -> & Hl & Hi). f_equal. apply list_eq. intros i.
    destruct (decide (i < 2000)%nat) as [Hlt|]; [rewrite lookup_replicate_2 by done; apply Hi; lia|].
    rewrite !lookup_ge_None_2; [done| |lia]. rewrite length_replicate. lia. }
  apply (wp_for_range (λ y, I (y * 80)) 0 VGA_HEIGHT); [done|split; [done|intros; lia]|].
  intros y b1 Hy H1. eapply wp_mono; [apply (wp_for_range (λ x, I (y * 80 + x)) 0 VGA_WIDTH)|].
  - done.
  - by rewrite Z.add_0_r.
  - intros x b2 Hx [Hl Hi]. rewrite screen_index by done. unfold VGA_WIDTH, VGA_HEIGHT in *.
    rewrite array_set_in by lia. apply wp_ret. split; [by rewrite length_insert|]. intros i Hlt.
    destruct (decide (i = Z.to_nat (y * 80 + x))) as [->|].
    + apply list_lookup_insert_eq. lia.
    + rewrite list_lookup_insert_ne by done. apply Hi. lia.
  - intros b2 H2. by replace ((y + 1) * 80) with (y * 80 + VGA_WIDTH) by (unfold VGA_WIDTH; lia).
Qed.

Lemma tick_spec col q k stack t :
  shows col q k t → console_ok k → stdio_inv q → length stack = 256%nat →
  match console_chars col (stdout_contents q) k with
  | Some k' =>
      ∃ t', kernel_terminal_update_tick stack t = Ret t' ∧
        shows col (kernel_buffer_stdout_flush q) k' t' ∧
        (stdout_contents q ≠ [] →
           ∀ x y, on_screen x y → text k' !! Z.to_nat (y * 80 + x) = Some (cell (screen t') x y))
  | None => kernel_terminal_update_tick stack t = Fault
  end.
Proof.
  intros Hs Hk Hq Hstack. destruct (stdout_get_spec stack q Hq Hstack) as (Hget & Hq' & _).
  pose proof Hs as [Htext Hposx Hposy Hpend Hlen Hcolor Hbuf Hvga].
  unfold kernel_terminal_update_tick. rewrite Hbuf, Hget, Ret_bind. cbv zeta.
  pose proof (stdout_length q Hq) as Hl. destruct Hq as [_ Hsize _ Hn].
  destruct (Z.eqb_spec (Z.of_nat (length (stdout_contents q))) 0) as [Hz|Hz]; cbn [negb].
  { destruct (stdout_contents q); [|simpl in Hz; lia]. eexists. split; [done|]. split; [by split|done]. }
  cbn [screen terminal_buffer].
  destruct (clear_spec (screen t) Hvga) as (v & -> & Hv). rewrite Ret_bind.
  rewrite for_range_list by (rewrite length_app, length_drop; lia).
  rewrite Nat2Z.id, take_app_length.
  match goal with |- context [mbind _ (?go (stdout_contents q) ?t0)] =>
    pose proof (chars_draws col (kernel_buffer_stdout_flush q) (stdout_contents q) k t0) as Hdraw end.
  specialize (Hdraw ltac:(by split) Hk).
  destruct (console_chars col (stdout_contents q) k) as [k'|] eqn:Hrun; simpl in Hdraw.
  - destruct Hdraw as (t2 & -> & Hs2). rewrite Ret_bind.
    destruct (console_chars_ok _ _ _ _ Hk Hrun) as (Hk' & _). pose proof Hs2 as [Htext2 _ _ _ _ _ _ Hvga2].
    destruct (writebuffer_spec (terminal_buffer t2) (screen t2) Hvga2) as (v' & Hw & Hv' & Hcells);
      [by rewrite Htext2|].
    change (VGA_WIDTH * VGA_HEIGHT) with 2000. rewrite Hw, Ret_bind. eexists. split; [done|]. split.
    + destruct Hs2. by split.
    + intros _ x y Hxy. unfold on_screen, VGA_WIDTH, VGA_HEIGHT in Hxy.
      rewrite <- Htext2, Hcells by lia. done.
  - by rewrite Hdraw.
Qed.

Lemma kernel_terminal_init_spec update_tick rate stack t p :
  cur_xpos t = 0 → cur_ypos t = 0 → is_ansi_escape t = false → ansi_escape_length t = 0 →
  length (terminal_buffer t) = 2000%nat → stdio_inv (buffers t) → stdout_contents (buffers t) = [] →
  length stack = 256%nat → 0 < rate < 2 ^ 16 → length (pit_routines p) = 64%nat →
  0 ≤ pit_routines_size p < 64 →
  ∃ t' p', kernel_terminal_init update_tick rate stack t p = Ret (t', p') ∧
    shows 7 (kernel_buffer_stdout_flush (buffers t)) blank_console t' ∧
    pit_routines_size p' = pit_routines_size p + 1 ∧
    pit_routines p' !! Z.to_nat (pit_routines_size p) = Some (PitRoutine (10000 / rate) update_tick).
Proof.
  intros Hx Hy Ha Hal Hb Hq Hempty Hstack Hrate Htable Hroom. unfold kernel_terminal_init.
  change (make_color COLOR_LIGHT_GREY COLOR_BLACK) with 7.
  unfold vga_textmode_initialize. cbv zeta. match goal with |- context [blank_screen ?s] =>
    destruct (blank_screen_spec s eq_refl) as (v & -> & Hv) end.
  rewrite Ret_bind, fill_buffer_spec, Ret_bind by done. unfold sdiv.
  destruct (Z.eqb_spec rate 0); [lia|]. rewrite Ret_bind, Z.quot_div_nonneg by lia.
  unfold pit_install_scheduler_routine. destruct (Z.leb_spec 64 (pit_routines_size p)); [lia|].
  rewrite array_set_in by lia. rewrite !Ret_bind, u16_small by lia.
  match goal with |- context [kernel_terminal_update_tick stack ?t0] =>
    pose proof (tick_spec 7 (buffers t) blank_console stack t0) as Htick end.
  rewrite Hempty in Htick. destruct Htick as (t' & -> & Hs' & _).
  - by split.
  - apply blank_console_ok.
  - done.
  - done.
  - rewrite Ret_bind. eexists _, _. split; [done|]. split; [done|]. split; [done|]. simpl.
    rewrite list_lookup_insert_eq by lia. rewrite u32_small; [done|]. unfold is_u32.
    pose proof (Z.div_pos 10000 rate ltac:(lia) ltac:(lia)).
    pose proof (Z.div_le_upper_bound 10000 rate 10000 ltac:(lia) ltac:(nia)). lia.
Qed.

(** * Theorem *)

(** C34: the terminal's tick refines the console.  [kernel_terminal_update_tick]
    runs the characters of the output buffer through the console and empties
    the buffer; when there was one, the screen then shows the console's text.
    It faults exactly when the console has no next state: when a newline in
    the last row, or a character in the last cell, moves the cursor behind the
    2000 entries.  The code that would scroll is never reached. *)
Theorem kernel_terminal_update_tick_refines col q k stack t :
  shows col q k t → console_ok k → stdio_inv q → length stack = 256%nat →
  match console_chars col (stdout_contents q) k with
  | Some k' =>
      ∃ t', kernel_terminal_update_tick stack t = Ret t' ∧
        shows col (kernel_buffer_stdout_flush q) k' t' ∧ console_ok k' ∧
        (stdout_contents q ≠ [] →
           ∀ x y, on_screen x y → text k' !! Z.to_nat (y * 80 + x) = Some (cell (screen t') x y))
  | None => kernel_terminal_update_tick stack t = Fault
  end.
Proof.
  intros Hs Hk Hq Hstack. pose proof (tick_spec col q k stack t Hs Hk Hq Hstack) as H.
  destruct (console_chars col (stdout_contents q) k) as [k'|] eqn:Hrun; [|done].
  destruct H as (t' & H1 & H2 & H3). exists t'. split; [done|]. split; [done|].
  split; [by eapply console_chars_ok|done].
Qed.

(** A terminal with the cursor at the start of a row, and a buffer. *)
Definition demo_terminal (y : Z) (q : stdio) : terminal :=
  Terminal 0 y 7 false 0 (text blank_console) (Vga 0 0 7 0xB8000 ∅ []) q.

Definition demo_buffer (c : Z) : stdio := Stdio (replicate 256 0) (c :: replicate 255 0) 0 1.

Lemma demo_buffer_inv c : stdio_inv (demo_buffer c).
Proof. split; simpl; done || lia. Qed.

(** The letter A appears in row 3; a newline in row 24 faults. *)
Lemma kernel_terminal_update_tick_refines_witness :
  (∃ t', kernel_terminal_update_tick (replicate 256 0) (demo_terminal 3 (demo_buffer 65)) = Ret t' ∧
     cell (screen t') 0 3 = make_vgaentry 65 7) ∧
  kernel_terminal_update_tick (replicate 256 0) (demo_terminal 24 (demo_buffer 10)) = Fault.
Proof.
  split.
  - destruct (kernel_terminal_update_tick_refines 7 (demo_buffer 65) (go_to 0 3 blank_console)
      (replicate 256 0) (demo_terminal 3 (demo_buffer 65))) as (t' & H1 & _ & _ & H2).
    + split; reflexivity.
    + split; [apply length_replicate|]. unfold cursor. simpl. lia.
    + apply demo_buffer_inv.
    + reflexivity.
    + exists t'. split; [exact H1|]. specialize (H2 ltac:(discriminate) 0 3).
      assert (Hon : on_screen 0 3) by (split; split; reflexivity || discriminate).
      specialize (H2 Hon). exact (eq_sym (f_equal (default 0) H2)).
  - apply (kernel_terminal_update_tick_refines 7 (demo_buffer 10) (go_to 0 24 blank_console)
      (replicate 256 0) (demo_terminal 24 (demo_buffer 10))).
    + split; reflexivity.
    + split; [apply length_replicate|]. unfold cursor. simpl. lia.
    + apply demo_buffer_inv.
    + reflexivity.
Defined.
