(* ===== verification/Descriptors.v ===== *)
(** Segment and interrupt descriptors:
    [kernel/arch/i386/descriptors/gdt.c], [idt.c], [gdtflush.asm],
    [idtflush.asm], and the functions of [isr.c] and [irq.c] that fill the
    interrupt table.

    The addresses of assembly entry points and of the tables are parameters. *)
From stdpp Require Import base numbers list.
From Stdlib Require Import ZArith Lia.
From S2P Require Import Prelude Ports Fields.

(** * Segments *)

Record gdt_entry := GdtEntry {
  limit_low : Z;
  base_low : Z;
  base_middle : Z;
  access : Z;
  granularity : Z;
  base_high : Z
}.

(** [struct gdt_ptr] and [struct idt_ptr]. *)
Record table_ptr := TablePtr { ptr_limit : Z; ptr_base : Z }.

(** The globals of gdt.c and the processor's table register. *)
Record gdt_state := GdtState {
  gdt : list gdt_entry;
  gp : table_ptr;
  gdtr : table_ptr
}.

Definition sizeof_gdt_entry : Z := 8.

(** [base] and [limit] are [uint64_t]. *)
Definition gdt_gate (base limit access gran : Z) : gdt_entry :=
  GdtEntry (u16 (Z.land limit 0xFFFF)) (u16 (Z.land base 0xFFFF))
    (u8 (Z.land (Z.shiftr base 16) 0xFF)) (u8 access)
    (u8 (Z.lor (u8 (Z.land (Z.shiftr limit 16) 0x0F)) (Z.land gran 0xF0)))
    (u8 (Z.land (Z.shiftr base 24) 0xFF)).

Definition _gdt_set_gate (num base limit access gran : Z) (s : gdt_state) : outcome gdt_state :=
  entries ← array_set (gdt s) num (gdt_gate base limit access gran);
  Ret (GdtState entries (gp s) (gdtr s)).

(** [lgdt] loads the register.  The far jump and the moves that follow change
    no global: [Tables.v] has them, on the segment registers. *)
Definition _gdt_flush (s : gdt_state) : gdt_state := GdtState (gdt s) (gp s) (gp s).

Definition gdt_install (gdt_address : Z) (s : gdt_state) : outcome gdt_state :=
  let s0 := GdtState (gdt s) (TablePtr (u16 (sizeof_gdt_entry * 3 - 1)) (u32 gdt_address)) (gdtr s) in
  s1 ← _gdt_set_gate 0 0 0 0 0 s0;
  s2 ← _gdt_set_gate 1 0 0xFFFFFFFF 0x9A 0xCF s1;
  s3 ← _gdt_set_gate 2 0 0xFFFFFFFF 0x92 0xCF s2;
  s4 ← _gdt_set_gate 3 0 0xFFFFFFFF 0xFA 0xCF s3;
  s5 ← _gdt_set_gate 4 0 0xFFFFFFFF 0xF2 0xCF s4;
  Ret (_gdt_flush s5).

(** * Interrupt gates *)

Record idt_entry := IdtEntry { base_lo : Z; sel : Z; always0 : Z; flags : Z; base_hi : Z }.

Record idt_gate_debug := IdtGateDebug { dbg_num : Z; dbg_base : Z; dbg_sel : Z; dbg_flags : Z }.

(** The globals of idt.c, the processor's table register and the ports. *)
Record idt_state := IdtState {
  idt : list idt_entry;
  idt_debug : list idt_gate_debug;
  idtp : table_ptr;
  idtr : table_ptr;
  idt_ports : port_log
}.

Definition sizeof_idt_entry : Z := 8.

Definition idt_gate (base sel flags : Z) : idt_entry :=
  IdtEntry (u16 (Z.land base 0xFFFF)) sel 0 flags (u16 (Z.land (Z.shiftr base 16) 0xFFFF)).

Definition _idt_set_gate (num base sel flags : Z) (s : idt_state) : outcome idt_state :=
  debug ← array_set (idt_debug s) num (IdtGateDebug num base sel flags);
  gates ← array_set (idt s) num (idt_gate base sel flags);
  Ret (IdtState gates debug (idtp s) (idtr s) (idt_ports s)).

(** The calls of [_idt_set_gate] that [_isr_install] and [_irq_install] write
    out, one after the other. *)
Fixpoint set_gates (num : Z) (stubs : list Z) (s : idt_state) : outcome idt_state :=
  match stubs with
  | [] => Ret s
  | stub :: rest => s' ← _idt_set_gate num (u32 stub) 0x08 0x8E s; set_gates (num + 1) rest s'
  end.

Definition idt_out (port data : Z) (s : idt_state) : idt_state :=
  IdtState (idt s) (idt_debug s) (idtp s) (idtr s) (outportb port data (idt_ports s)).

Definition __irq_remap (s : idt_state) : idt_state :=
  foldl (λ s '(port, data), idt_out port data s) s
    [(0x20, 0x11); (0xA0, 0x11); (0x21, 0x20); (0xA1, 0x28); (0x21, 0x04); (0xA1, 0x02);
     (0x21, 0x01); (0xA1, 0x01); (0x21, 0x0); (0xA1, 0x0)].

Definition _idt_flush (s : idt_state) : idt_state :=
  IdtState (idt s) (idt_debug s) (idtp s) (idtp s) (idt_ports s).

Section tables.
Context (isr_stub irq_stub : Z → Z) (idt_address : Z).

Definition _isr_install (s : idt_state) : outcome idt_state :=
  set_gates 0 (isr_stub <$> seqZ 0 32) s.

Definition _irq_install (s : idt_state) : outcome idt_state :=
  set_gates 32 (irq_stub <$> seqZ 0 16) (__irq_remap s).

Definition idt_install (s : idt_state) : outcome idt_state :=
  let s0 := IdtState (replicate 256 (IdtEntry 0 0 0 0 0)) (idt_debug s)
              (TablePtr (u16 (sizeof_idt_entry * 256 - 1)) (u32 idt_address)) (idtr s) (idt_ports s) in
  s1 ← _isr_install s0;
  s2 ← _irq_install s1;
  Ret (_idt_flush s2).
End tables.

(** * Specification: what the hardware reads *)

(** A segment descriptor: base, 20-bit limit, access byte and the four flags. *)
Definition segment_base (e : gdt_entry) : Z := base_low e + 2 ^ 16 * base_middle e + 2 ^ 24 * base_high e.
Definition segment_limit (e : gdt_entry) : Z := limit_low e + 2 ^ 16 * (granularity e mod 16).
Definition segment_flags (e : gdt_entry) : Z := granularity e / 16.

(** The size in bytes: with flag 3 the limit counts pages. *)
Definition segment_size (e : gdt_entry) : Z :=
  if Z.testbit (segment_flags e) 3 then (segment_limit e + 1) * 4096 else segment_limit e + 1.

Definition privilege (e : gdt_entry) : Z := access e / 32 mod 4.
Definition executable (e : gdt_entry) : bool := Z.testbit (access e) 3.

(** The processor can use an entry when its eight bytes lie within the limit
    of the table. *)
Definition selectable (p : table_ptr) (i : Z) : Prop := 0 ≤ i ∧ i * 8 + 7 ≤ ptr_limit p.

(** The handler of a gate, when it is present. *)
Definition gate_target (e : idt_entry) : option Z :=
  if Z.testbit (flags e) 7 then Some (base_lo e + 2 ^ 16 * base_hi e) else None.

(** An interrupt controller of the 8259 kind: after a command with bit 4 set,
    the next bytes on its data port are the vector base, the wiring and the
    mode; later ones are the mask. *)
Record pic := Pic { pic_awaits : nat; pic_base : Z; pic_mask : Z }.

Definition pic_write (command : Z) (p : pic) (w : Z * Z) : pic :=
  if w.1 =? command then if Z.testbit w.2 4 then Pic 3 (pic_base p) (pic_mask p) else p
  else if w.1 =? command + 1 then
    match pic_awaits p with
    | O => Pic 0 (pic_base p) w.2
    | 3%nat => Pic 2 w.2 (pic_mask p)
    | S n => Pic n (pic_base p) (pic_mask p)
    end
  else p.

Definition pic_run (command : Z) (p : pic) (log : port_log) : pic := foldl (pic_write command) p log.

(** The vector of a line, from the two controllers. *)
Definition irq_vector (master slave : pic) (line : Z) : Z :=
  if line <? 8 then pic_base master + line else pic_base slave + (line - 8).

(** * Lemmas *)

Lemma gdt_gate_fields base limit acc gran :
  0 ≤ base < 2 ^ 64 → 0 ≤ limit < 2 ^ 64 → 0 ≤ acc < 256 → 0 ≤ gran < 256 →
  segment_base (gdt_gate base limit acc gran) = base mod 2 ^ 32 ∧
  segment_limit (gdt_gate base limit acc gran) = limit mod 2 ^ 20 ∧
  segment_flags (gdt_gate base limit acc gran) = gran / 16 ∧
  access (gdt_gate base limit acc gran) = acc.
Proof.
  intros Hb Hl Ha Hg. unfold segment_base, segment_limit, segment_flags, gdt_gate.
  cbn [base_low base_middle base_high limit_low granularity access].
  rewrite !land_FFFF, !land_FF, land_0F, land_F0, shiftr_16, shiftr_16, shiftr_24 by lia.
  rewrite !(u16_small (_ mod 65536)) by div_lia. rewrite !(u8_small (_ mod 256)) by div_lia.
  rewrite (u8_small (_ mod 16)) by div_lia.
  rewrite Z.lor_comm, (lor_add (gran - gran mod 16) _ 4) by (try lia; div_lia).
  rewrite !u8_small by div_lia. change (2 ^ 16) with 65536. change (2 ^ 24) with 16777216.
  change (2 ^ 32) with 4294967296. change (2 ^ 20) with 1048576. split_and!; try done; div_lia.
Qed.

Lemma idt_gate_target base sel :
  is_u32 base → gate_target (idt_gate base sel 0x8E) = Some base.
Proof.
  intros Hb. unfold gate_target, idt_gate, is_u32 in *. simpl. f_equal.
  rewrite !land_FFFF, shiftr_16. rewrite !u16_small by div_lia. change (Z.pow_pos 2 16) with 65536. div_lia.
Qed.

(** Filling a run of gates. *)
Lemma set_gates_spec num stubs s :
  0 ≤ num → num + Z.of_nat (length stubs) ≤ 256 →
  length (idt s) = 256%nat → length (idt_debug s) = 256%nat → Forall is_u32 stubs →
  ∃ s', set_gates num stubs s = Ret s' ∧
    length (idt s') = 256%nat ∧ length (idt_debug s') = 256%nat ∧
    idtp s' = idtp s ∧ idt_ports s' = idt_ports s ∧
    (∀ i, 0 ≤ i → idt s' !! Z.to_nat i =
       if (num <=? i) && (i <? num + Z.of_nat (length stubs))
       then (λ b, idt_gate b 0x08 0x8E) <$> stubs !! Z.to_nat (i - num) else idt s !! Z.to_nat i).
Proof.
  revert num s. induction stubs as [|b stubs IH]; intros num s H0 Hn Hi Hd Hall.
  - exists s. split_and!; try done. intros i Hge. simpl length.
    destruct (Z.leb_spec num i), (Z.ltb_spec i (num + Z.of_nat 0)); simpl; done || lia.
  - apply Forall_cons in Hall as [Hb Hall]. cbn [length set_gates] in *. rewrite u32_small by done.
    unfold _idt_set_gate. rewrite !array_set_in, !Ret_bind by lia.
    destruct (IH (num + 1) (IdtState (<[Z.to_nat num := idt_gate b 8 142]> (idt s))
      (<[Z.to_nat num := IdtGateDebug num b 8 142]> (idt_debug s)) (idtp s) (idtr s) (idt_ports s)))
      as (s' & -> & H1 & H2 & H3 & H4 & H5); [lia|lia|by simpl; rewrite length_insert..|done|].
    exists s'. split_and!; try done. intros i Hge. rewrite H5 by done. simpl idt.
    destruct (Z.leb_spec (num + 1) i), (Z.ltb_spec i (num + 1 + Z.of_nat (length stubs))),
      (Z.leb_spec num i), (Z.ltb_spec i (num + Z.of_nat (S (length stubs)))); simpl; try lia.
    + replace (Z.to_nat (i - num)) with (S (Z.to_nat (i - (num + 1)))) by lia. done.
    + apply list_lookup_insert_ne. lia.
    + replace i with num by lia. rewrite Z.sub_diag, list_lookup_insert_eq by lia. done.
    + apply list_lookup_insert_ne. lia.
Qed.

(** ** Installation *)

Lemma gdt_install_run gdt_address s :
  length (gdt s) = 5%nat →
  ∃ s', gdt_install gdt_address s = Ret s' ∧ ptr_base (gdtr s') = u32 gdt_address ∧
   map (λ e, (segment_base e, segment_size e, privilege e, executable e)) (drop 1 (gdt s'))
     = [(0, 2 ^ 32, 0, true); (0, 2 ^ 32, 0, false); (0, 2 ^ 32, 3, true); (0, 2 ^ 32, 3, false)] ∧
   (∀ k, selectable (gdtr s') k ↔ 0 ≤ k < 3).
Proof.
  intros Hgdt.
  destruct s as [[|e0 [|e1 [|e2 [|e3 [|e4 [|e5 l]]]]]] g r]; try done.
  eexists. split; [reflexivity|]. split; [done|]. split; [done|].
  intros k. unfold selectable. simpl.
  change (u16 _) with 23. lia.
Qed.

(** The gate of a vector after installation. *)
Definition installed_gate (isr_stub irq_stub : Z → Z) (n : Z) : idt_entry :=
  if n <? 32 then idt_gate (isr_stub n) 0x08 0x8E
  else if n <? 48 then idt_gate (irq_stub (n - 32)) 0x08 0x8E else IdtEntry 0 0 0 0 0.

Lemma idt_install_entries isr_stub irq_stub idt_address i :
  length (idt_debug i) = 256%nat → (∀ n, is_u32 (isr_stub n)) → (∀ n, is_u32 (irq_stub n)) →
  ∃ i', idt_install isr_stub irq_stub idt_address i = Ret i' ∧
    idtr i' = TablePtr 2047 (u32 idt_address) ∧ idtp i' = idtr i' ∧
    idt_ports i' = idt_ports (__irq_remap i) ∧
    (∀ n, 0 ≤ n < 256 → idt i' !! Z.to_nat n = Some (installed_gate isr_stub irq_stub n)).
Proof.
  intros Hdebug Hisr Hirq.
  unfold idt_install, _isr_install, _irq_install. cbv zeta.
  match goal with |- context [set_gates 0 ?l ?s0] => destruct (set_gates_spec 0 l s0)
    as (s1 & -> & Hl1 & Hd1 & Hp1 & Hlog1 & Hg1) end;
    [lia|by rewrite length_fmap, length_seqZ|done|done|apply Forall_fmap, Forall_true; intros n; apply Hisr|].
  rewrite Ret_bind.
  match goal with |- context [set_gates 32 ?l ?s0] => destruct (set_gates_spec 32 l s0)
    as (s2 & -> & Hl2 & Hd2 & Hp2 & Hlog2 & Hg2) end;
    [lia|by rewrite length_fmap, length_seqZ|done|done|apply Forall_fmap, Forall_true; intros n; apply Hirq|].
  rewrite Ret_bind. eexists. split; [done|]. cbn [_idt_flush idtr idtp idt_ports idt].
  rewrite Hp2. simpl idtp. rewrite Hp1. split; [done|]. split; [done|]. split.
  - rewrite Hlog2. simpl. by rewrite Hlog1.
  - intros n Hn. unfold installed_gate. rewrite Hg2 by lia. simpl idt. rewrite Hg1 by lia.
    rewrite !length_fmap, !length_seqZ, !list_lookup_fmap.
    destruct (Z.ltb_spec n 32).
    { destruct (Z.leb_spec 32 n), (Z.leb_spec 0 n), (Z.ltb_spec n (0 + Z.of_nat (Z.to_nat 32))); try lia. cbn [andb].
      rewrite Z.sub_0_r, lookup_seqZ_lt by lia. cbn [fmap option_fmap option_map]. do 3 f_equal. lia. }
    destruct (Z.ltb_spec n 48).
    { destruct (Z.leb_spec 32 n), (Z.ltb_spec n (32 + Z.of_nat (Z.to_nat 16))); try lia. cbn [andb].
      rewrite lookup_seqZ_lt by lia. cbn [fmap option_fmap option_map]. do 3 f_equal. lia. }
    destruct (Z.leb_spec 32 n), (Z.ltb_spec n (32 + Z.of_nat (Z.to_nat 16))),
      (Z.leb_spec 0 n), (Z.ltb_spec n (0 + Z.of_nat (Z.to_nat 32))); try lia. cbn [andb].
    apply lookup_replicate_2. lia.
Qed.

Lemma idt_install_run isr_stub irq_stub idt_address i :
  length (idt_debug i) = 256%nat → (∀ n, is_u32 (isr_stub n)) → (∀ n, is_u32 (irq_stub n)) →
  ∃ i' log, idt_install isr_stub irq_stub idt_address i = Ret i' ∧
   ptr_base (idtr i') = u32 idt_address ∧ (∀ k, selectable (idtr i') k ↔ 0 ≤ k < 256) ∧
   idt_ports i' = idt_ports i ++ log ∧
   (∀ p1 p2, let master := pic_run 0x20 p1 log in let slave := pic_run 0xA0 p2 log in
      pic_mask master = 0 ∧ pic_mask slave = 0 ∧
      ∀ line, 0 ≤ line < 16 → irq_vector master slave line = 32 + line) ∧
   (∀ n, 0 ≤ n < 32 → gate_target <$> idt i' !! Z.to_nat n = Some (Some (isr_stub n))) ∧
   (∀ n, 0 ≤ n < 16 → gate_target <$> idt i' !! Z.to_nat (32 + n) = Some (Some (irq_stub n))) ∧
   (∀ n, 48 ≤ n < 256 → gate_target <$> idt i' !! Z.to_nat n = Some None).
Proof.
  intros Hdebug Hisr Hirq.
  destruct (idt_install_entries isr_stub irq_stub idt_address i Hdebug Hisr Hirq) as (i' & Hrun & Hr & _ & Hlog & Hg).
  exists i'. eexists. split; [done|]. rewrite Hr. split; [done|]. split; [|split; [|split; [|split; [|split]]]].
  - intros k. unfold selectable. simpl. lia.
  - rewrite Hlog. simpl. unfold outportb. rewrite <- !app_assoc. simpl. reflexivity.
  - intros [a1 b1 m1] [a2 b2 m2]. cbv zeta. split; [done|]. split; [done|].
    intros line Hline. unfold irq_vector. change (pic_base (pic_run 160 _ _)) with 40.
    change (pic_base (pic_run 32 _ _)) with 32. case_bool; lia.
  - intros n Hn. rewrite Hg by lia. unfold installed_gate. destruct (Z.ltb_spec n 32); [|lia].
    cbn [fmap option_fmap option_map]. by rewrite idt_gate_target.
  - intros n Hn. rewrite Hg by lia. unfold installed_gate.
    destruct (Z.ltb_spec (32 + n) 32), (Z.ltb_spec (32 + n) 48); try lia.
    cbn [fmap option_fmap option_map]. rewrite idt_gate_target by done. do 3 f_equal. lia.
  - intros n Hn. rewrite Hg by lia. unfold installed_gate.
    by destruct (Z.ltb_spec n 32), (Z.ltb_spec n 48); try lia.
Qed.

(** * Theorems *)

(** C39: the processor's tables.  A segment descriptor decodes into what it
    was made of, up to the width of its fields.  [gdt_install] loads flat
    segments of four gigabytes, code and data for the kernel (ring 0) and for
    user mode (ring 3), but the limit it loads leaves out the last two.
    [idt_install] remaps the interrupt controllers so that line [n] raises
    vector [32 + n], unmasked, and points the gates of the 32 exceptions and
    of these 16 vectors at their stubs; the other gates are not present. *)
Theorem descriptor_tables_correct isr_stub irq_stub gdt_address idt_address s i :
  length (gdt s) = 5%nat → length (idt_debug i) = 256%nat →
  (∀ n, is_u32 (isr_stub n)) → (∀ n, is_u32 (irq_stub n)) →
  (∀ base limit acc gran,
     0 ≤ base < 2 ^ 64 → 0 ≤ limit < 2 ^ 64 → 0 ≤ acc < 256 → 0 ≤ gran < 256 →
     let e := gdt_gate base limit acc gran in
     segment_base e = base mod 2 ^ 32 ∧ segment_limit e = limit mod 2 ^ 20 ∧
     segment_flags e = gran / 16 ∧ access e = acc) ∧
  (∃ s', gdt_install gdt_address s = Ret s' ∧ ptr_base (gdtr s') = u32 gdt_address ∧
     map (λ e, (segment_base e, segment_size e, privilege e, executable e)) (drop 1 (gdt s'))
       = [(0, 2 ^ 32, 0, true); (0, 2 ^ 32, 0, false); (0, 2 ^ 32, 3, true); (0, 2 ^ 32, 3, false)] ∧
     (∀ k, selectable (gdtr s') k ↔ 0 ≤ k < 3)) ∧
  (∃ i' log, idt_install isr_stub irq_stub idt_address i = Ret i' ∧
     ptr_base (idtr i') = u32 idt_address ∧ (∀ k, selectable (idtr i') k ↔ 0 ≤ k < 256) ∧
     idt_ports i' = idt_ports i ++ log ∧
     (∀ p1 p2, let master := pic_run 0x20 p1 log in let slave := pic_run 0xA0 p2 log in
        pic_mask master = 0 ∧ pic_mask slave = 0 ∧
        ∀ line, 0 ≤ line < 16 → irq_vector master slave line = 32 + line) ∧
     (∀ n, 0 ≤ n < 32 → gate_target <$> idt i' !! Z.to_nat n = Some (Some (isr_stub n))) ∧
     (∀ n, 0 ≤ n < 16 → gate_target <$> idt i' !! Z.to_nat (32 + n) = Some (Some (irq_stub n))) ∧
     (∀ n, 48 ≤ n < 256 → gate_target <$> idt i' !! Z.to_nat n = Some None)).
Proof.
  intros Hgdt Hdebug Hisr Hirq. split_and!.
  - intros base limit acc gran ? ? ? ? e. by apply gdt_gate_fields.
  - by apply gdt_install_run.
  - by apply idt_install_run.
Qed.

Lemma descriptor_tables_correct_witness :
  (∃ s', gdt_install 0x1000 (GdtState (replicate 5 (GdtEntry 0 0 0 0 0 0)) (TablePtr 0 0) (TablePtr 0 0))
     = Ret s' ∧ ¬ selectable (gdtr s') 3) ∧
  (∃ i', idt_install (λ n, u32 (0x2000 + n)) (λ n, u32 (0x3000 + n)) 0x4000
     (IdtState [] (replicate 256 (IdtGateDebug 0 0 0 0)) (TablePtr 0 0) (TablePtr 0 0) []) = Ret i' ∧
     gate_target <$> idt i' !! 14%nat = Some (Some 0x200E)).
Proof.
  destruct (descriptor_tables_correct (λ n, u32 (0x2000 + n)) (λ n, u32 (0x3000 + n)) 0x1000 0x4000
    (GdtState (replicate 5 (GdtEntry 0 0 0 0 0 0)) (TablePtr 0 0) (TablePtr 0 0))
    (IdtState [] (replicate 256 (IdtGateDebug 0 0 0 0)) (TablePtr 0 0) (TablePtr 0 0) []))
    as (_ & (s' & H1 & _ & _ & H2) & i' & log & H3 & _ & _ & _ & _ & H4 & _).
  - reflexivity.
  - reflexivity.
  - intros n. apply u32_range.
  - intros n. apply u32_range.
  - split.
    + exists s'. split; [exact H1|]. intros H. apply H2 in H. destruct H as [_ H]. discriminate H.
    + exists i'. split; [exact H3|]. apply (H4 14). split; [discriminate|reflexivity].
Defined.
