(* ===== verification/Interrupts.v ===== *)
(** Interrupt entry and dispatch: [kernel/arch/i386/isrstub.asm],
    [irqstub.asm], [isr.c], [irq.c], and [printk_debug] of
    [kernel/kernel/kernel.c].

    A handler is an address; calling one is a parameter that acts on the
    screen and on the rest of the system, a type [X]. *)
From stdpp Require Import base numbers list gmap.
From Stdlib Require Import ZArith Lia Ascii String.
From S2P Require Import Prelude Strings Digits Printf PrintfProps Ports Textmode TextmodeProps.

Open Scope Z_scope.

(** * The code *)

(** The characters of a literal. *)
Definition chars (s : string) : list Z := map (λ a, Z.of_N (N_of_ascii a)) (list_ascii_of_string s).

(** [vga_textmode_writestring] of a literal. *)
Definition write_literal (data : list Z) (s : vga) : outcome vga :=
  for_range 0 (Z.of_nat (List.length data)) (λ i s,
    c ← array_get data i; vga_textmode_putchar (s8 c) s) s.

Definition printk_debug (mem : memory) (slack : nat) (fmt args : list Z) (s : vga) : outcome vga :=
  s1 ← write_literal (chars "DEBUG: ") (vga_textmode_setcolor (color_value COLOR_RED) s);
  '(_, s2) ← vprintf putchar mem slack fmt args
               (vga_textmode_setcolor (make_color COLOR_LIGHT_GREY COLOR_BLACK) s1);
  putchar 10 s2.

(** ** Entry *)

(** What the handlers read of [i386_registers_t]. *)
Record i386_registers := Registers { int_no : Z; err_code : Z; eip : Z; esp : Z }.

(** The stack grows to the left.  The stubs push the vector, after a zero
    where they take the processor to push no error code. *)
Definition isr_stub_push (n : Z) (stack : list Z) : list Z :=
  if n =? 7 then 0 :: stack
  else if (n =? 8) || ((10 <=? n) && (n <=? 14)) then n :: stack
  else n :: 0 :: stack.

Definition irq_stub_push (line : Z) (stack : list Z) : list Z := (32 + line) :: 0 :: stack.

(** [isr_common_stub] and [irq_common_stub] pass a pointer to the registers
    they save on top of it. *)
Definition common_stub (esp : Z) (stack : list Z) : outcome i386_registers :=
  number ← array_get stack 0;
  err ← array_get stack 1;
  eip ← array_get stack 2;
  Ret (Registers number err eip esp).

(** ** Exceptions *)

Definition isr_install_handler (isr handler : Z) (isr_routines : list Z) : outcome (list Z) :=
  array_set isr_routines isr handler.

(** Adjacent literals without a comma are one literal. *)
Definition exception_messages : list (list Z) :=
  map chars
    ([ "Exception: division by zero"; "Exception: debug exception";
       "Exception: non-maskable interrupt"; "Exception: breakpoint"; "Exception: overflow";
       "Exception: out of bounds"; "Exception: invalid opcode"; "Exception: no coprocessor";
       "Exception: double fault"; "Exception: coprocessor segment overrun"; "Exception: bad TSS";
       "Exception: segment not present"; "Exception: STACK FAULT";
       "Exception: GENERAL PROTECTION FAULT"; "Exception: PAGE FAULT";
       "Exception: unknown interrupt";
       "Exception: COPROCESSOR FAULT" ++ "Exception: alignment check";
       "Exception: machine check" ++ "Exception: INTEL RESERVED EXCEPTION";
       "Exception: INTEL RESERVED EXCEPTION"; "Exception: INTEL RESERVED EXCEPTION";
       "Exception: INTEL RESERVED EXCEPTION"; "Exception: INTEL RESERVED EXCEPTION";
       "Exception: INTEL RESERVED EXCEPTION"; "Exception: INTEL RESERVED EXCEPTION";
       "Exception: INTEL RESERVED EXCEPTION"; "Exception: INTEL RESERVED EXCEPTION";
       "Exception: INTEL RESERVED EXCEPTION"; "Exception: INTEL RESERVED EXCEPTION";
       "Exception: INTEL RESERVED EXCEPTION"; "Exception: INTEL RESERVED EXCEPTION" ]%string).

(** What [_fault_handler] prints before it calls [abort]. *)
Definition fault_report (mem : memory) (slack : nat) (r : i386_registers) (s : vga) : outcome vga :=
  s1 ← write_literal [10] (vga_textmode_setcolor (color_value COLOR_RED) s);
  message ← array_get exception_messages (int_no r);
  s2 ← write_literal message s1;
  s3 ← write_literal ([10; 10] ++ chars "Stack Dump:" ++ [10]) s2;
  s4 ← printf putchar mem slack (chars "EIP: 0x%x" ++ [10]) [eip r] s3;
  s5 ← printf putchar mem slack (chars "ESP: 0x%x" ++ [10]) [esp r] s4;
  s6 ← printf putchar mem slack (chars "Error Code: %d" ++ [10]) [err_code r] s5;
  printf putchar mem slack ([10] ++ chars "HALT" ++ [10]) [] s6.

Section dispatch.
Context {X : Type} (call : Z → i386_registers → vga * X → outcome (vga * X)).
Context (mem : memory) (slack : nat).

Definition _fault_handler (isr_routines : list Z) (r : i386_registers) (s : vga * X)
    : outcome (vga * X) :=
  handler ← array_get isr_routines (int_no r);
  if truthy handler then call handler r s
  else _ ← fault_report mem slack r s.1; Abort.

(** ** Interrupt requests *)

Definition irq_install_handler (irq handler : Z) (irq_routines : list Z) : outcome (list Z) :=
  array_set irq_routines irq handler.

Definition irq_uninstall_handler (irq : Z) (irq_routines : list Z) : outcome (list Z) :=
  array_set irq_routines irq 0.

Definition port_out (port data : Z) (v : vga) : vga :=
  Vga (vga_textmode_row v) (vga_textmode_column v) (vga_textmode_color v) (vga_textmode_buffer v)
    (vga_memory v) (outportb port data (vga_ports v)).

Definition _irq_handler (irq_routines : list Z) (r : i386_registers) (s : vga * X)
    : outcome (vga * X) :=
  handler ← array_get irq_routines (int_no r ⊖ 32);
  '(v, x) ← (if truthy handler then call handler r s
             else v ← printk_debug mem slack (chars "Don't know how to handle IRQ #%d")
                        [int_no r ⊖ 32] s.1; Ret (v, s.2));
  let v1 := if 40 <=? int_no r then port_out 0xA0 0x20 v else v in
  Ret (port_out 0x20 0x20 v1, x).

(** From the interrupt to the return of the handler: the processor pushed
    [stack]. *)
Definition exception (isr_routines : list Z) (n esp : Z) (stack : list Z) (s : vga * X)
    : outcome (vga * X) :=
  r ← common_stub esp (isr_stub_push n stack); _fault_handler isr_routines r s.

Definition interrupt_request (irq_routines : list Z) (line esp : Z) (stack : list Z) (s : vga * X)
    : outcome (vga * X) :=
  r ← common_stub esp (irq_stub_push line stack); _irq_handler irq_routines r s.
End dispatch.

(** * Specification *)

(** The processor pushes flags, code segment and instruction pointer, and for
    some exceptions an error code on top. *)
Definition has_error_code (n : Z) : bool := (n =? 8) || ((10 <=? n) && (n <=? 14)) || (n =? 17).

Definition cpu_frame (n err eip cs eflags : Z) : list Z :=
  if has_error_code n then [err; eip; cs; eflags] else [eip; cs; eflags].

(** The lines of a report. *)
Definition report_text (message : list Z) (r : i386_registers) : list Z :=
  [10] ++ message ++ ([10; 10] ++ chars "Stack Dump:" ++ [10]) ++
  (chars "EIP: 0x" ++ numeral 16 (eip r) ++ [10]) ++ (chars "ESP: 0x" ++ numeral 16 (esp r) ++ [10]) ++
  (chars "Error Code: " ++ numeral 10 (err_code r) ++ [10]) ++ ([10] ++ chars "HALT" ++ [10]).

(** * Lemmas *)

(** Facts about literals are computed. *)
Ltac literal := apply (bool_decide_eq_true_1 _); vm_compute; done.

Definition printable (l : list Z) : Prop := Forall (λ c, 0 < c < 128 ∧ c ≠ 37) l.

Lemma renders_literal mem l f args text n :
  printable l → renders mem f args text n →
  renders mem (l ++ f) args (l ++ text) (Z.of_nat (List.length l) + n).
Proof.
  induction 1 as [|c l [Hc Hp] Hl IH]; intros Hr; [done|]. simpl app.
  replace (Z.of_nat (List.length (c :: l)) + n) with (1 + (Z.of_nat (List.length l) + n)) by (simpl; lia).
  apply renders_char; [lia|done|by apply IH].
Qed.

Lemma write_literal_emit data s :
  Forall (λ c, 0 ≤ c < 256) data → write_literal data s = emit putchar data s.
Proof.
  intros Hd. unfold write_literal. rewrite <- print_all. unfold print, for_range.
  generalize (Z.to_nat (Z.of_nat (List.length data) - 0)) as n. generalize 0 as i. intros i n.
  revert i s. induction n as [|n IH]; intros i s; [done|]. simpl.
  destruct (array_get data i) as [c| | |] eqn:Hc; simpl; [|done..].
  apply array_get_Ret in Hc as [_ Hc]. rewrite Forall_lookup in Hd. specialize (Hd _ _ Hc).
  assert (He : putchar (u8 c) s = vga_textmode_putchar (s8 c) s)
    by (unfold putchar; by rewrite u8_small). rewrite He. destruct (vga_textmode_putchar (s8 c) s); simpl; [apply IH|done..].
Qed.

Lemma printable_bytes l : printable l → Forall (λ c, 0 ≤ c < 256) l.
Proof. intros H. eapply Forall_impl; [exact H|]. simpl. lia. Qed.

Lemma message_printable n m : exception_messages !! n = Some m → printable m.
Proof.
  intros Hm. apply list_elem_of_lookup_2 in Hm. revert m Hm. apply Forall_forall.
  literal.
Qed.

Lemma printf_emit mem slack f args text n s :
  renders mem f args text n → (2 ≤ slack)%nat → Z.of_nat (List.length f) < 2 ^ 31 →
  printf putchar mem slack f args s = emit putchar text s.
Proof.
  intros Hr Hs Hl. unfold printf. rewrite (vprintf_run putchar mem slack f args text n) by done.
  by destruct (emit putchar text s).
Qed.

Lemma line_x mem l w :
  printable l → is_u32 w →
  renders mem (l ++ [37; 120; 10]) [w] (l ++ numeral 16 w ++ [10]) (Z.of_nat (List.length l) + (1 + 0)).
Proof.
  intros Hl Hw. apply renders_literal; [done|]. apply renders_x; [done|].
  apply renders_char; [lia|done|]. apply renders_end.
Qed.

Lemma line_d mem l w :
  printable l → 0 ≤ w < 2 ^ 31 →
  renders mem (l ++ [37; 100; 10]) [w] (l ++ numeral 10 w ++ [10]) (Z.of_nat (List.length l) + (1 + 0)).
Proof.
  intros Hl Hw. apply renders_literal; [done|]. apply renders_d; [done|].
  apply renders_char; [lia|done|]. apply renders_end.
Qed.

Ltac next_emit := match goal with |- mbind _ (emit putchar ?t ?s) = _ =>
  destruct (emit putchar t s); [|done..]; rewrite !Ret_bind end.

(** The whole report, as text. *)
Lemma fault_report_emit mem slack r message s :
  (2 ≤ slack)%nat → is_u32 (eip r) → is_u32 (esp r) → 0 ≤ err_code r < 2 ^ 31 → 0 ≤ int_no r →
  exception_messages !! Z.to_nat (int_no r) = Some message →
  fault_report mem slack r s =
    emit putchar (report_text message r) (vga_textmode_setcolor (color_value COLOR_RED) s).
Proof.
  intros Hs Heip Hesp Herr Hno Hm. unfold fault_report.
  assert (Hget : array_get exception_messages (int_no r) = Ret message) by (by apply array_get_Ret).
  set (s0 := vga_textmode_setcolor _ s). unfold report_text.
  rewrite emit_app, write_literal_emit by literal. next_emit. rewrite Hget, Ret_bind, emit_app.
  rewrite write_literal_emit by (apply printable_bytes; by eapply message_printable). next_emit.
  rewrite emit_app, write_literal_emit by literal. next_emit.
  rewrite emit_app, (printf_emit _ _ _ _ _ _ _ (line_x mem (chars "EIP: 0x") (eip r) ltac:(literal) Heip)) by done.
  next_emit.
  rewrite emit_app, (printf_emit _ _ _ _ _ _ _ (line_x mem (chars "ESP: 0x") (esp r) ltac:(literal) Hesp)) by done.
  next_emit.
  rewrite emit_app, (printf_emit _ _ _ _ _ _ _ (line_d mem (chars "Error Code: ") (err_code r) ltac:(literal) Herr)) by done.
  next_emit.
  erewrite printf_emit; [done| |done|done].
  apply (renders_char _ 10); [lia|done|]. apply (renders_literal _ (chars "HALT")); [literal|].
  apply renders_char; [lia|done|]. apply renders_end.
Qed.

(** ** Entry *)

(** What the handler is told. *)
Definition seen (n err eip cs esp : Z) : i386_registers :=
  if n =? 7 then Registers 0 eip cs esp
  else if n =? 17 then Registers 17 0 err esp
  else Registers n (if has_error_code n then err else 0) eip esp.

Lemma entry_spec n err eip cs eflags esp :
  common_stub esp (isr_stub_push n (cpu_frame n err eip cs eflags)) = Ret (seen n err eip cs esp).
Proof.
  unfold isr_stub_push, cpu_frame, seen, has_error_code.
  destruct (Z.eqb_spec n 7) as [->|]; [done|]. destruct (Z.eqb_spec n 17) as [->|]; [done|].
  destruct ((n =? 8) || ((10 <=? n) && (n <=? 14))); done.
Qed.

Section theorems.
Context {X : Type} (call : Z → i386_registers → vga * X → outcome (vga * X)) (mem : memory) (slack : nat).

Lemma exception_spec routines n err eip cs eflags esp (s : vga * X) :
  exception call mem slack routines n esp (cpu_frame n err eip cs eflags) s =
    _fault_handler call mem slack routines (seen n err eip cs esp) s.
Proof. unfold exception. by rewrite entry_spec. Qed.

Lemma fault_handler_installed routines h r (s : vga * X) :
  array_get routines (int_no r) = Ret h → h ≠ 0 →
  _fault_handler call mem slack routines r s = call h r s.
Proof.
  intros Hget Hh. unfold _fault_handler, truthy. rewrite Hget, Ret_bind.
  by destruct (Z.eqb_spec h 0).
Qed.

(** C35: exceptions.  After [isr_install_handler], an exception other than 7
    and 17 calls the handler, with the vector, the error code of the processor
    or zero, and the instruction pointer.  The stub of exception 7 forgets the
    vector: whatever is installed for it, exception 0 is served with shifted
    registers; the stub of exception 17 pushes a second error code.  Without a
    handler the report is printed and the kernel aborts; vectors 30 and 31
    read beyond the messages, of which two commas are missing. *)
Theorem exception_dispatch_correct routines (s : vga * X) :
  List.length routines = 32%nat → (2 ≤ slack)%nat → vga_inv s.1 →
  (∀ n h err eip cs eflags esp, 0 ≤ n < 32 → n ≠ 7 → n ≠ 17 → h ≠ 0 → ∃ routines',
     isr_install_handler n h routines = Ret routines' ∧
     exception call mem slack routines' n esp (cpu_frame n err eip cs eflags) s =
       call h (Registers n (if has_error_code n then err else 0) eip esp) s) ∧
  (∀ err eip cs eflags esp,
     exception call mem slack routines 7 esp (cpu_frame 7 err eip cs eflags) s =
       _fault_handler call mem slack routines (Registers 0 eip cs esp) s) ∧
  (∀ err eip cs eflags esp,
     exception call mem slack routines 17 esp (cpu_frame 17 err eip cs eflags) s =
       _fault_handler call mem slack routines (Registers 17 0 err esp) s) ∧
  (∀ r, is_u32 (eip r) → is_u32 (esp r) → 0 ≤ err_code r < 2 ^ 31 → 0 ≤ int_no r < 32 →
     routines !! Z.to_nat (int_no r) = Some 0 →
     if int_no r <? 30 then
       ∃ message v, exception_messages !! Z.to_nat (int_no r) = Some message ∧
         fault_report mem slack r s.1 = Ret v ∧ vga_inv v ∧
         emit putchar (report_text message r) (vga_textmode_setcolor 4 s.1) = Ret v ∧
         _fault_handler call mem slack routines r s = Abort
     else _fault_handler call mem slack routines r s = Fault).
Proof.
  intros Hlen Hslack Hs. split_and!.
  - intros n h err eip cs eflags esp Hn H7 H17 Hh. unfold isr_install_handler.
    rewrite array_set_in by lia. eexists. split; [done|]. rewrite exception_spec. unfold seen.
    destruct (Z.eqb_spec n 7); [done|]. destruct (Z.eqb_spec n 17); [done|].
    apply fault_handler_installed; [|done]. apply array_get_Ret. split; [simpl; lia|].
    apply list_lookup_insert_eq. lia.
  - intros. by rewrite exception_spec.
  - intros. by rewrite exception_spec.
  - intros r Heip Hesp Herr Hno Hroutine.
    assert (Hget : array_get routines (int_no r) = Ret 0) by (apply array_get_Ret; by split; [lia|]).
    unfold _fault_handler. rewrite Hget, Ret_bind. cbn [truthy negb Z.eqb].
    destruct (Z.ltb_spec (int_no r) 30).
    + destruct (lookup_lt_is_Some_2 exception_messages (Z.to_nat (int_no r))) as [message Hm];
        [simpl List.length; lia|].
      rewrite (fault_report_emit mem slack r message) by (done || lia).
      change (color_value COLOR_RED) with 4.
      destruct (emit_screen (report_text message r) (vga_textmode_setcolor 4 s.1))
        as (v & Hv & Hinv & _); [by destruct Hs|].
      rewrite Hv. exists message, v. split_and!; done.
    + unfold fault_report. rewrite write_literal_emit by literal.
      destruct (emit_screen [10] (vga_textmode_setcolor (color_value COLOR_RED) s.1))
        as (v & -> & _); [by destruct Hs|].
      by rewrite Ret_bind, array_get_out by (simpl List.length; lia).
Qed.
End theorems.

(** A page fault with a handler, and exception 30 without. *)
Lemma exception_dispatch_correct_witness :
  (∃ routines', isr_install_handler 14 0x1234 (replicate 32 0) = Ret routines' ∧
     exception (λ h r s, Ret (s.1, h + err_code r)) ∅ 2 routines' 14 0 (cpu_frame 14 2 0x5000 8 0)
       (demo_screen, 0) = Ret (demo_screen, 0x1236)) ∧
  _fault_handler (λ h r s, Ret (s.1, h)) ∅ 2 (replicate 32 0) (Registers 30 0 0x5000 0) (demo_screen, 0)
    = Fault.
Proof.
  split.
  - destruct (exception_dispatch_correct (λ h r s, Ret (s.1, h + err_code r)) ∅ 2 (replicate 32 0)
      (demo_screen, 0) eq_refl (le_n 2) demo_screen_inv) as (H & _).
    apply (H 14 0x1234 2 0x5000 8 0 0); [split; [discriminate|reflexivity]|discriminate..].
  - destruct (exception_dispatch_correct (λ h r s, Ret (s.1, h)) ∅ 2 (replicate 32 0)
      (demo_screen, 0) eq_refl (le_n 2) demo_screen_inv) as (_ & _ & _ & H).
    apply (H (Registers 30 0 0x5000 0)); try (split; [discriminate|reflexivity]). reflexivity.
Defined.
