(* ===== verification/Keyboard.v ===== *)
(** The keyboard: [kernel/drivers/pc/pckbd.c] and the US layout,
    [kernel/include/drivers/pc/pckbd_us.h]. *)
From stdpp Require Import base numbers list gmap.
From Stdlib Require Import ZArith Lia Bool.
From S2P Require Import Prelude Strings Printf PrintfProps Ports Textmode TextmodeProps Fields Interrupts.

(** * The layout *)

Definition _pckbd_us_qwerty_sc_arr : list Z :=
  [0; 27; 49; 50; 51; 52; 53; 54; 55; 56; 57; 48; 45; 61; 8; 9; 113; 119; 101; 114; 116; 121;
   117; 105; 111; 112; 91; 93; 10; 0; 97; 115; 100; 102; 103; 104; 106; 107; 108; 59; 39; 96;
   0; 92; 122; 120; 99; 118; 98; 110; 109; 44; 46; 47; 0; 42; 0; 32; 0; 0; 0; 0; 0; 0; 0; 0; 0;
   0; 0; 0; 0; 0; 0; 0; 45; 0; 0; 0; 43] ++ replicate 49 0.

Definition _pckbd_us_qwerty_sc_shift_arr : list Z :=
  [0; 27; 33; 64; 35; 36; 37; 94; 38; 42; 40; 41; 95; 43; 8; 9; 81; 87; 69; 82; 84; 89; 85; 73;
   79; 80; 123; 125; 10; 0; 65; 83; 68; 70; 71; 72; 74; 75; 76; 58; 34; 126; 0; 124; 90; 88;
   67; 86; 66; 78; 77; 60; 62; 63; 0; 42; 0; 32; 0; 0; 0; 0; 0; 0; 0; 0; 0; 0; 0; 0; 0; 0; 0;
   0; 45; 0; 0; 0; 43] ++ replicate 49 0.

Definition _pckbd_us_qwerty_sc_capslock_arr : list Z :=
  [0; 27; 49; 50; 51; 52; 53; 54; 55; 56; 57; 48; 45; 61; 8; 9; 81; 87; 69; 82; 84; 89; 85; 73;
   79; 80; 91; 93; 10; 0; 65; 83; 68; 70; 71; 72; 74; 75; 76; 59; 39; 96; 0; 92; 90; 88; 67;
   86; 66; 78; 77; 44; 46; 47; 0; 42; 0; 32; 0; 0; 0; 0; 0; 0; 0; 0; 0; 0; 0; 0; 0; 0; 0; 0;
   45; 0; 0; 0; 43] ++ replicate 49 0.

Definition _pckbd_us_qwerty_sc_shift_capslock_arr : list Z :=
  [0; 27; 33; 64; 35; 36; 37; 94; 38; 42; 40; 41; 95; 43; 8; 9; 113; 119; 101; 114; 116; 121;
   117; 105; 111; 112; 123; 125; 10; 0; 97; 115; 100; 102; 103; 104; 106; 107; 108; 58; 34;
   126; 0; 124; 122; 120; 99; 118; 98; 110; 109; 60; 62; 63; 0; 42; 0; 32; 0; 0; 0; 0; 0; 0; 0;
   0; 0; 0; 0; 0; 0; 0; 0; 0; 45; 0; 0; 0; 43] ++ replicate 49 0.

Definition _pckbd_us_qwerty_shift_arr : list Z :=
  [42; 54].
(** [pckbd_scancode_set_t] *)
Record scancode_set := ScancodeSet { scancode_arr : list Z; scancode_arr_len : Z }.

Definition pckbd_us_qwerty_sc : scancode_set := ScancodeSet _pckbd_us_qwerty_sc_arr 128.
Definition pckbd_us_qwerty_sc_shift : scancode_set := ScancodeSet _pckbd_us_qwerty_sc_shift_arr 128.
Definition pckbd_us_qwerty_sc_capslock : scancode_set := ScancodeSet _pckbd_us_qwerty_sc_capslock_arr 128.
Definition pckbd_us_qwerty_sc_shift_capslock : scancode_set :=
  ScancodeSet _pckbd_us_qwerty_sc_shift_capslock_arr 128.
Definition pckbd_us_qwerty_shift : scancode_set := ScancodeSet _pckbd_us_qwerty_shift_arr 2.

(** [struct pckbd_driver]; nothing reads [pckbd_special]. *)
Record pckbd_driver := PckbdDriver {
  pckbd_sc : scancode_set;
  pckbd_sc_shift : scancode_set;
  pckbd_shift : scancode_set;
  pckbd_sc_capslock : scancode_set;
  pckbd_sc_shift_capslock : scancode_set;
  pckbd_caps_sc : Z
}.

Definition pckbd_us_qwerty : pckbd_driver :=
  PckbdDriver pckbd_us_qwerty_sc pckbd_us_qwerty_sc_shift pckbd_us_qwerty_shift
    pckbd_us_qwerty_sc_capslock pckbd_us_qwerty_sc_shift_capslock 58.

(** * The driver *)

(** The globals of pckbd.c; a null pointer is [None]. *)
Record keyboard := Keyboard {
  pckbd_selected_driver : option pckbd_driver;
  pckbd_is_capslock : bool;
  pckbd_is_shift : bool
}.

Definition keyboard_initial : keyboard := Keyboard None false false.

Definition set_contains_sc (scs : scancode_set) (i : Z) : outcome bool :=
  r ← for_return 0 (scancode_arr_len scs) (λ s (u : unit),
        c ← array_get (scancode_arr scs) s;
        Ret (if c =? i then Return true else Continue u)) tt;
  Ret (match r return bool with Return b => b | Continue _ => false end).

Section driver.
Context (dev : port_device) (mem : memory) (slack : nat).

Definition pckbd_irq_input_handler (r : i386_registers) (s : vga * keyboard)
    : outcome (vga * keyboard) :=
  let '(v, k) := s in
  if negb (int_no r ⊖ 32 =? 1) then Abort
  else
    let cur_scancode := inportb dev 0x60 (vga_ports v) in
    d ← match pckbd_selected_driver k with Some d => Ret d | None => Fault end;
    if truthy (Z.land cur_scancode 0x80) then
      b ← set_contains_sc (pckbd_shift d) (cur_scancode - 128);
      Ret (v, Keyboard (Some d) (pckbd_is_capslock k)
                (if (b : bool) then negb (pckbd_is_shift k) else pckbd_is_shift k))
    else
      b ← set_contains_sc (pckbd_shift d) cur_scancode;
      let shift := if (b : bool) then negb (pckbd_is_shift k) else pckbd_is_shift k in
      let capslock := if cur_scancode =? pckbd_caps_sc d then negb (pckbd_is_capslock k)
                      else pckbd_is_capslock k in
      cur_char ← (if capslock && shift then array_get (scancode_arr (pckbd_sc_shift_capslock d)) cur_scancode
                  else if shift then array_get (scancode_arr (pckbd_sc_shift d)) cur_scancode
                  else if capslock then array_get (scancode_arr (pckbd_sc_capslock d)) cur_scancode
                  else array_get (scancode_arr (pckbd_sc d)) cur_scancode);
      v' ← (if truthy cur_char then printf putchar mem slack [37; 99] [cur_char] v else Ret v);
      Ret (v', Keyboard (Some d) capslock shift).

(** [handler] is the address of [pckbd_irq_input_handler]. *)
Definition pckbd_install_irq (handler : Z) (d : pckbd_driver) (routines : list Z) (k : keyboard)
    : outcome (list Z * keyboard) :=
  routines' ← irq_install_handler 1 handler routines;
  Ret (routines', Keyboard (Some d) (pckbd_is_capslock k) (pckbd_is_shift k)).
End driver.

(** * Specification of the US layout *)

Definition key_table (shift capslock : bool) : list Z :=
  match shift, capslock with
  | true, true => _pckbd_us_qwerty_sc_shift_capslock_arr
  | true, false => _pckbd_us_qwerty_sc_shift_arr
  | false, true => _pckbd_us_qwerty_sc_capslock_arr
  | false, false => _pckbd_us_qwerty_sc_arr
  end.

(** The character of a key, zero for none. *)
Definition key_char (shift capslock : bool) (key : Z) : Z :=
  default 0 (key_table shift capslock !! Z.to_nat key).

Definition is_shift_key (key : Z) : bool := (key =? 42) || (key =? 54).
Definition is_letter (c : Z) : bool := (97 <=? c) && (c <=? 122).

(** A byte of the keyboard: the key, and whether it is released. *)
Definition key_of (code : Z) : Z := code mod 128.
Definition released (code : Z) : bool := 128 <=? code.

(** The modifiers after a byte.  Every byte of a shift key flips the flag. *)
Definition shift_after (code : Z) (shift : bool) : bool := xorb shift (is_shift_key (key_of code)).
Definition capslock_after (code : Z) (capslock : bool) : bool := xorb capslock (code =? 58).

(** What a byte prints. *)
Definition key_text (code : Z) (k : keyboard) : list Z :=
  let c := key_char (shift_after code (pckbd_is_shift k)) (capslock_after code (pckbd_is_capslock k))
             (key_of code) in
  if released code || (c =? 0) then [] else [c].

(** * Lemmas *)

Lemma shift_set_spec key : set_contains_sc pckbd_us_qwerty_shift key = Ret (is_shift_key key).
Proof.
  unfold set_contains_sc, for_return, is_shift_key. with_strategy opaque [Z.eqb] simpl.
  rewrite (Z.eqb_sym key 42), (Z.eqb_sym key 54). by destruct (42 =? key), (54 =? key).
Qed.

Lemma key_table_length shift capslock : length (key_table shift capslock) = 128%nat.
Proof. by destruct shift, capslock. Qed.

Lemma key_table_get shift capslock key :
  0 ≤ key < 128 → array_get (key_table shift capslock) key = Ret (key_char shift capslock key).
Proof.
  intros Hk. destruct (array_get_in (key_table shift capslock) key) as (c & Hc & ->).
  - rewrite key_table_length. lia.
  - unfold key_char. by rewrite Hc.
Qed.

(** Every character is ASCII. *)
Lemma key_char_ascii shift capslock key : 0 ≤ key_char shift capslock key < 128.
Proof.
  unfold key_char. destruct (key_table shift capslock !! Z.to_nat key) as [c|] eqn:Hc; [|simpl; lia].
  apply list_elem_of_lookup_2 in Hc. revert c Hc. apply Forall_forall. destruct shift, capslock; literal.
Qed.

Lemma printf_char mem slack c s :
  (2 ≤ slack)%nat → 0 ≤ c < 128 → printf putchar mem slack [37; 99] [c] s = vga_textmode_putchar c s.
Proof.
  intros Hs Hc. erewrite printf_emit; [|apply renders_c, renders_end|done|done].
  simpl. unfold putchar. rewrite !(u8_small c), s8_small by (rewrite ?u8_small; lia).
  by destruct (vga_textmode_putchar c s).
Qed.

(** The layout key by key. *)
Lemma us_layout key :
  0 ≤ key < 128 →
  let c := key_char false false key in
  if is_letter c then
    key_char true false key = c - 32 ∧ key_char false true key = c - 32 ∧ key_char true true key = c
  else key_char false true key = c ∧ key_char true true key = key_char true false key.
Proof.
  intros Hk.
  enough (H : forallb (λ key,
    let c := key_char false false key in
    if is_letter c then
      (key_char true false key =? c - 32) && (key_char false true key =? c - 32) &&
      (key_char true true key =? c)
    else (key_char false true key =? c) && (key_char true true key =? key_char true false key))
    (seqZ 0 128) = true).
  - rewrite forallb_forall in H. specialize (H key). cbv zeta in H |- *.
    destruct (is_letter _); rewrite !andb_true_iff, !Z.eqb_eq in H;
      destruct H as [? ?]; try (apply list_elem_of_In, elem_of_seqZ; lia); tauto.
  - vm_compute. done.
Qed.

Lemma handler_spec dev mem slack err eip esp v k :
  let code := inportb dev 0x60 (vga_ports v) in
  (2 ≤ slack)%nat → vga_inv v → pckbd_selected_driver k = Some pckbd_us_qwerty →
  ∃ v', emit putchar (key_text code k) v = Ret v' ∧ vga_inv v' ∧
    pckbd_irq_input_handler dev mem slack (Registers 33 err eip esp) (v, k) =
      Ret (v', Keyboard (Some pckbd_us_qwerty) (capslock_after code (pckbd_is_capslock k))
                 (shift_after code (pckbd_is_shift k))).
Proof.
  intros code Hslack Hv Hd. assert (Hcode : 0 ≤ code < 256) by (apply Z.mod_pos_bound; lia).
  destruct (emit_screen (key_text code k) v Hv) as (v' & Hemit & Hv' & _).
  exists v'. split; [done|]. split; [done|].
  unfold pckbd_irq_input_handler. change (negb (int_no (Registers 33 err eip esp) ⊖ 32 =? 1)) with false.
  cbv iota zeta. fold code. rewrite Hd, Ret_bind, land_80 by done.
  change (pckbd_shift pckbd_us_qwerty) with pckbd_us_qwerty_shift. rewrite !shift_set_spec, !Ret_bind.
  unfold key_text, released in Hemit. destruct (Z.leb_spec 128 code).
  - cbn [orb] in Hemit. injection Hemit as <-. unfold capslock_after, shift_after, key_of.
    replace (code mod 128) with (code - 128) by div_lia.
    destruct (Z.eqb_spec code 58); [lia|]. rewrite xorb_false_r.
    by destruct (is_shift_key (code - 128)), (pckbd_is_shift k).
  - cbn [orb] in Hemit. change (pckbd_caps_sc pckbd_us_qwerty) with 58.
    assert (Hkey : key_of code = code) by (unfold key_of; apply Z.mod_small; lia). rewrite Hkey in Hemit.
    set (shift := if is_shift_key code then _ else _). set (capslock := if code =? 58 then _ else _).
    assert (Hshift : shift = shift_after code (pckbd_is_shift k)).
    { unfold shift, shift_after. rewrite Hkey. by destruct (is_shift_key code), (pckbd_is_shift k). }
    assert (Hcaps : capslock = capslock_after code (pckbd_is_capslock k)).
    { unfold capslock, capslock_after. by destruct (code =? 58), (pckbd_is_capslock k). }
    rewrite <- Hshift, <- Hcaps in *.
    assert (Hget : (if capslock && shift
        then array_get (scancode_arr (pckbd_sc_shift_capslock pckbd_us_qwerty)) code
        else if shift then array_get (scancode_arr (pckbd_sc_shift pckbd_us_qwerty)) code
        else if capslock then array_get (scancode_arr (pckbd_sc_capslock pckbd_us_qwerty)) code
        else array_get (scancode_arr (pckbd_sc pckbd_us_qwerty)) code) = Ret (key_char shift capslock code)).
    { rewrite <- key_table_get by lia. by destruct shift, capslock. }
    rewrite Hget, Ret_bind. unfold truthy. pose proof (key_char_ascii shift capslock code) as Hascii.
    destruct (Z.eqb_spec (key_char shift capslock code) 0); cbn [negb].
    + by injection Hemit as <-.
    + rewrite printf_char by done. simpl in Hemit. unfold putchar in Hemit.
      rewrite !(u8_small (key_char _ _ _)), s8_small in Hemit by (rewrite ?u8_small; lia).
      destruct (vga_textmode_putchar _ v); simpl in Hemit; [|done..]. by injection Hemit as ->.
Qed.

(** * Theorem *)

(** C40: from the key to the screen.  Once [pckbd_install_irq] has installed
    the US layout, an interrupt request on line 1 ends, for every byte the
    keyboard sends: the character of the key under the modifiers in force
    appears at the cursor, nothing for a release or a key without character,
    every byte of a shift key flips the shift flag and every press of caps lock
    the other one, and the master controller alone receives the end of
    interrupt.  The handler aborts when it is called for any other vector.  The
    four tables agree: a letter is a capital when exactly one modifier is in
    force, and caps lock changes nothing else. *)
Theorem keyboard_interrupt_correct dev mem slack call handler routines esp stack v k :
  length routines = 16%nat → handler ≠ 0 → (2 ≤ slack)%nat → vga_inv v → stack ≠ [] →
  (∀ r s, call handler r s = pckbd_irq_input_handler dev mem slack r s) →
  (∃ routines' k1, pckbd_install_irq handler pckbd_us_qwerty routines k = Ret (routines', k1) ∧
     let code := inportb dev 0x60 (vga_ports v) in
     ∃ v', emit putchar (key_text code k) v = Ret v' ∧ vga_inv v' ∧
       interrupt_request call mem slack routines' 1 esp stack (v, k1) =
         Ret (port_out 0x20 0x20 v',
              Keyboard (Some pckbd_us_qwerty) (capslock_after code (pckbd_is_capslock k))
                (shift_after code (pckbd_is_shift k)))) ∧
  (∀ r s, is_u32 (int_no r) → int_no r ≠ 33 → pckbd_irq_input_handler dev mem slack r s = Abort) ∧
  (∀ key, 0 ≤ key < 128 →
     let c := key_char false false key in
     if is_letter c then
       key_char true false key = c - 32 ∧ key_char false true key = c - 32 ∧ key_char true true key = c
     else key_char false true key = c ∧ key_char true true key = key_char true false key).
Proof.
  intros Hlen Hhandler Hslack Hv Hstack Hcall. split_and!; [| |apply us_layout].
  - unfold pckbd_install_irq, irq_install_handler. rewrite array_set_in, Ret_bind by lia.
    set (k1 := Keyboard (Some pckbd_us_qwerty) (pckbd_is_capslock k) (pckbd_is_shift k)).
    eexists _, k1. split; [done|]. set (code := inportb dev 96 (vga_ports v)).
    destruct stack as [|eip stack]; [done|].
    destruct (handler_spec dev mem slack 0 eip esp v k1 Hslack Hv eq_refl) as (v' & Hemit & Hv' & Hrun).
    fold code in Hemit, Hrun. exists v'. split; [done|]. split; [done|].
    unfold interrupt_request. change (common_stub esp (irq_stub_push 1 (eip :: stack)))
      with (Ret (Registers 33 0 eip esp)). rewrite Ret_bind.
    unfold _irq_handler. change (int_no (Registers 33 0 eip esp) ⊖ 32) with 1.
    assert (Hget : array_get (<[Z.to_nat 1 := handler]> routines) 1 = Ret handler).
    { apply array_get_Ret. split; [lia|]. apply list_lookup_insert_eq. lia. }
    rewrite Hget, Ret_bind. unfold truthy at 1. destruct (Z.eqb_spec handler 0); [done|]. cbn [negb].
    by rewrite Hcall, Hrun.
  - intros r [v0 k0] Hr H33. unfold pckbd_irq_input_handler.
    destruct (Z.eqb_spec (int_no r ⊖ 32) 1) as [He|]; [|done]. exfalso.
    unfold u32, is_u32 in *. div_lia.
Qed.

(** With shift in force, the key A sends its byte: a capital appears. *)
Lemma keyboard_interrupt_correct_witness :
  ∃ routines' k1 v', pckbd_install_irq 0x1000 pckbd_us_qwerty (replicate 16 0)
      (Keyboard None false true) = Ret (routines', k1) ∧
    emit putchar [65] demo_screen = Ret v' ∧
    interrupt_request (λ _ r s, pckbd_irq_input_handler (λ _ _, 30) ∅ 2 r s) ∅ 2 routines' 1 0 [0]
      (demo_screen, k1)
      = Ret (port_out 0x20 0x20 v', Keyboard (Some pckbd_us_qwerty) false true).
Proof.
  destruct (keyboard_interrupt_correct (λ _ _, 30) ∅ 2
    (λ _ r s, pckbd_irq_input_handler (λ _ _, 30) ∅ 2 r s) 0x1000 (replicate 16 0) 0 [0] demo_screen
    (Keyboard None false true)) as ((routines' & k1 & H1 & v' & H2 & _ & H3) & _).
  - reflexivity.
  - discriminate.
  - apply le_n.
  - exact demo_screen_inv.
  - discriminate.
  - reflexivity.
  - exists routines', k1, v'. split; [exact H1|]. split; [exact H2|exact H3].
Defined.
