(* ===== verification/Vfs.v ===== *)
(** The virtual file system: [kernel/fs/vfs.c], [kernel/include/fs/vfs.h].

    Structures lie in byte memory, at the offsets of the i386 layout.  The
    functions of file-system drivers are addresses; calling one is a parameter
    of the model, and so is [kmalloc], with the laws of an allocator. *)
From stdpp Require Import base numbers list gmap.
From Stdlib Require Import ZArith Lia.
From S2P Require Import Prelude Kernel Strings StringProps Fields.

(** * Words in memory *)

Definition load32 (a : Z) (m : memory) : outcome Z :=
  b0 ← load8 a m; b1 ← load8 (a + 1) m; b2 ← load8 (a + 2) m; b3 ← load8 (a + 3) m;
  Ret (b0 + 2 ^ 8 * b1 + 2 ^ 16 * b2 + 2 ^ 24 * b3).

Definition store32 (a w : Z) (m : memory) : outcome memory :=
  m0 ← store8 a (w mod 256) m; m1 ← store8 (a + 1) (w / 2 ^ 8 mod 256) m0;
  m2 ← store8 (a + 2) (w / 2 ^ 16 mod 256) m1; store8 (a + 3) (w / 2 ^ 24 mod 256) m2.

(** * The code *)

Definition VFS_FILE : Z := 1.
Definition VFS_DIRECTORY : Z := 2.
Definition VFS_CHARDEVICE : Z := 4.
Definition VFS_BLOCKDEVICE : Z := 8.
Definition VFS_PIPE : Z := 16.
Definition VFS_SYMLINK : Z := 32.
Definition VFS_MOUNTPOINT : Z := 64.
Definition FS_DRIVER_NAME_LENGTH : Z := 10.
Definition VFS_MAX_SUPERBLOCKS : Z := 24.

(** [struct fs_driver]: [next], [name], [fs_mount]. *)
Definition driver_next : Z := 0.
Definition driver_name : Z := 4.
Definition driver_fs_mount : Z := 16.
Definition sizeof_fs_driver : Z := 20.

Definition sizeof_vfs_superblock : Z := 12.

(** [struct fs_inode] and [struct fs_inode_ops]. *)
Definition inode_refcount : Z := 28.
Definition inode_ops : Z := 36.
Definition ops_read : Z := 0.
Definition ops_write : Z := 4.
Definition ops_open : Z := 8.
Definition ops_close : Z := 12.
Definition ops_readdir : Z := 16.
Definition ops_finddir : Z := 20.

(** The globals of vfs.c, and the memory. *)
Record vfs := Vfs {
  vfs_memory : memory;
  vfs_superblocks : list Z;
  vfs_superblocks_size : Z;
  vfs_drivers_head : Z;
  vfs_refcountLocked : Z
}.

Definition with_memory (m : memory) (s : vfs) : vfs :=
  Vfs m (vfs_superblocks s) (vfs_superblocks_size s) (vfs_drivers_head s) (vfs_refcountLocked s).

Definition with_lock (l : Z) (s : vfs) : vfs :=
  Vfs (vfs_memory s) (vfs_superblocks s) (vfs_superblocks_size s) (vfs_drivers_head s) l.

(** On a single processor a taken lock is never released. *)
Definition SPINLOCK_LOCK (s : vfs) : outcome vfs :=
  if vfs_refcountLocked s =? 0 then Ret (with_lock 1 s) else NoFuel.
Definition SPINLOCK_UNLOCK (s : vfs) : vfs := with_lock 0 s.

Section vfs.
Context (kmalloc : Z → memory → outcome (Z * memory)).
Context (call : Z → list Z → memory → outcome (Z * memory)).

(** Every driver in the list lies at another address. *)
Definition vfs_get_driver (driver : Z) (s : vfs) : outcome Z :=
  let m := vfs_memory s in
  while_fuel (scan_fuel m) (λ cur,
    if truthy cur then
      r ← strcmp driver (cur + driver_name) m;
      if r =? 0 then Ret (Return cur)
      else next ← load32 (cur + driver_next) m; Ret (Continue next)
    else Ret (Return 0)) (vfs_drivers_head s).

Definition vfs_install_driver (driver : Z) (s : vfs) : outcome vfs :=
  '(new, m1) ← kmalloc sizeof_fs_driver (vfs_memory s);
  '(_, m2) ← memcpy new driver sizeof_fs_driver m1;
  m3 ← store32 (new + driver_next) (vfs_drivers_head s) m2;
  Ret (Vfs m3 (vfs_superblocks s) (vfs_superblocks_size s) new (vfs_refcountLocked s)).

Definition vfs_mount (driver device mount_point options : Z) (s : vfs) : outcome (Z * vfs) :=
  driver_info ← vfs_get_driver driver s;
  if driver_info =? 0 then Ret (K_NOTSUP, s)
  else
    '(newsuper, m1) ← kmalloc sizeof_vfs_superblock (vfs_memory s);
    fs_mount ← load32 (driver_info + driver_fs_mount) m1;
    '(res, m2) ← call fs_mount [device; mount_point; options; newsuper] m1;
    let s2 := with_memory m2 s in
    if res <? 0 then Ret (res, s2)
    else if VFS_MAX_SUPERBLOCKS <? vfs_superblocks_size s2 ⊕ 1 then Ret (K_OOM, s2)
    else
      blocks ← array_set (vfs_superblocks s2) (vfs_superblocks_size s2) newsuper;
      Ret (K_SUCCESS, Vfs m2 blocks (vfs_superblocks_size s2 ⊕ 1) (vfs_drivers_head s2)
                        (vfs_refcountLocked s2)).

(** ** Inodes *)

(** [if (ops && ops->f) return ...; return K_UNIMPL;] *)
Definition with_operation (slot node : Z) (body : Z → Z → outcome (Z * vfs)) (s : vfs)
    : outcome (Z * vfs) :=
  ops ← load32 (node + inode_ops) (vfs_memory s);
  if truthy ops then
    f ← load32 (ops + slot) (vfs_memory s);
    if truthy f then body ops f else Ret (K_UNIMPL, s)
  else Ret (K_UNIMPL, s).

Definition call_driver (f : Z) (args : list Z) (s : vfs) : outcome (Z * vfs) :=
  '(r, m) ← call f args (vfs_memory s); Ret (r, with_memory m s).

Definition vfs_inode_read (node offset size buf : Z) (s : vfs) : outcome (Z * vfs) :=
  with_operation ops_read node (λ _ f, call_driver f [node; offset; size; buf] s) s.

Definition vfs_inode_write (node offset size buf : Z) (s : vfs) : outcome (Z * vfs) :=
  with_operation ops_write node (λ _ f, call_driver f [node; offset; size; buf] s) s.

(** Adds to the reference count, under the lock. *)
Definition adjust_refcount (node delta : Z) (s : vfs) : outcome vfs :=
  s1 ← SPINLOCK_LOCK s;
  refcount ← load32 (node + inode_refcount) (vfs_memory s1);
  m ← store32 (node + inode_refcount) (refcount ⊕ delta) (vfs_memory s1);
  Ret (SPINLOCK_UNLOCK (with_memory m s1)).

Definition vfs_inode_open (node : Z) (s : vfs) : outcome (Z * vfs) :=
  with_operation ops_open node (λ ops _,
    s1 ← adjust_refcount node 1 s;
    f ← load32 (ops + ops_open) (vfs_memory s1);
    call_driver f [node] s1) s.

Definition vfs_inode_close (node : Z) (s : vfs) : outcome (Z * vfs) :=
  with_operation ops_close node (λ ops _,
    s1 ← adjust_refcount node (-1) s;
    f ← load32 (ops + ops_close) (vfs_memory s1);
    call_driver f [node] s1) s.

Definition vfs_inode_readdir (node num res : Z) (s : vfs) : outcome (Z * vfs) :=
  with_operation ops_readdir node (λ _ f, call_driver f [node; num; res] s) s.

Definition vfs_inode_finddir (node name res : Z) (s : vfs) : outcome (Z * vfs) :=
  with_operation ops_finddir node (λ _ f, call_driver f [node; name; res] s) s.
End vfs.

(** * Specification *)

(** The four bytes of a word. *)
Definition word_bytes (w : Z) : list Z :=
  [w mod 256; w / 2 ^ 8 mod 256; w / 2 ^ 16 mod 256; w / 2 ^ 24 mod 256].

Definition word_at (m : memory) (a w : Z) : Prop := is_u32 w ∧ bytes_at m a (word_bytes w).

(** A driver: its name and the address of its [fs_mount]. *)
Record driver := Driver { name : list Z; fs_mount : Z }.

Record driver_at (m : memory) (a : Z) (d : driver) (next : Z) : Prop := DriverAt {
  da_mapped : mapped m a sizeof_fs_driver;
  da_next : word_at m a next;
  da_name : cstring m (a + driver_name) (name d);
  da_short : (length (name d) < 10)%nat;
  da_mount : word_at m (a + driver_fs_mount) (fs_mount d)
}.

(** The list of drivers that starts at [a], with their addresses. *)
Fixpoint drivers (m : memory) (a : Z) (l : list (Z * driver)) : Prop :=
  match l with
  | [] => a = 0
  | (p, d) :: l' => a = p ∧ p ≠ 0 ∧ ∃ next, driver_at m p d next ∧ drivers m next l'
  end.

(** The first driver of a name. *)
Definition lookup_driver (n : list Z) (l : list (Z * driver)) : option (Z * driver) :=
  List.find (λ pd, bool_decide (name pd.2 = n)) l.

(** What an allocator promises: fresh memory, and nothing else changes. *)
Class AllocatorLaws (kmalloc : Z → memory → outcome (Z * memory)) : Prop := {
  kmalloc_extends n m p m' : kmalloc n m = Ret (p, m') → m ⊆ m';
  kmalloc_fresh n m p m' :
    kmalloc n m = Ret (p, m') → p ≠ 0 →
    0 < p ∧ p + n ≤ 2 ^ 32 ∧ mapped m' p n ∧ ∀ i, 0 ≤ i < n → m !! (p + i) = None
}.

Record vfs_inv (l : list (Z * driver)) (s : vfs) : Prop := VfsInv {
  vi_drivers : drivers (vfs_memory s) (vfs_drivers_head s) l;
  vi_head : is_u32 (vfs_drivers_head s);
  vi_blocks : length (vfs_superblocks s) = 24%nat;
  vi_size : 0 ≤ vfs_superblocks_size s ≤ 24;
  vi_lock : vfs_refcountLocked s = 0
}.

(** * Lemmas *)

Lemma word_bytes_value w :
  is_u32 w → w mod 256 + 2 ^ 8 * (w / 2 ^ 8 mod 256) + 2 ^ 16 * (w / 2 ^ 16 mod 256)
             + 2 ^ 24 * (w / 2 ^ 24 mod 256) = w.
Proof.
  intros H. unfold is_u32 in H. change (2 ^ 8) with 256. change (2 ^ 16) with 65536.
  change (2 ^ 24) with 16777216. div_lia.
Qed.

Lemma word_at_bytes m a w :
  word_at m a w → m !! a = Some (w mod 256) ∧ m !! (a + 1) = Some (w / 2 ^ 8 mod 256) ∧
    m !! (a + 2) = Some (w / 2 ^ 16 mod 256) ∧ m !! (a + 3) = Some (w / 2 ^ 24 mod 256).
Proof.
  intros [_ H]. pose proof (H 0%nat _ eq_refl) as H0. rewrite Z.add_0_r in H0.
  by pose proof (H 1%nat _ eq_refl); pose proof (H 2%nat _ eq_refl); pose proof (H 3%nat _ eq_refl).
Qed.

Lemma load32_spec m a w : word_at m a w → load32 a m = Ret w.
Proof.
  intros Hw. pose proof (word_at_bytes m a w Hw) as (H0 & H1 & H2 & H3). unfold load32.
  rewrite (load8_Ret _ _ _ H0), (load8_Ret _ _ _ H1), (load8_Ret _ _ _ H2), (load8_Ret _ _ _ H3), !Ret_bind.
  f_equal. apply word_bytes_value, Hw.
Qed.

Lemma store32_spec m a w :
  mapped m a 4 → is_u32 w → ∃ m', store32 a w m = Ret m' ∧ word_at m' a w ∧ same_outside m m' a 4.
Proof.
  intros Hm Hw. unfold store32. assert (Hi : ∀ i, 0 ≤ i < 4 → is_Some (m !! (a + i))) by done.
  rewrite store8_Ret, Ret_bind by (specialize (Hi 0); rewrite Z.add_0_r in Hi; apply Hi; lia).
  rewrite store8_Ret, Ret_bind by (rewrite lookup_insert_ne by lia; apply Hi; lia).
  rewrite store8_Ret, Ret_bind by (rewrite !lookup_insert_ne by lia; apply Hi; lia).
  rewrite store8_Ret by (rewrite !lookup_insert_ne by lia; apply Hi; lia).
  eexists. split; [done|]. split.
  - split; [done|]. repeat (apply bytes_at_cons; split); try apply bytes_at_nil;
      rewrite <- ?Z.add_assoc; simpl; repeat (rewrite lookup_insert_ne by lia);
      by rewrite lookup_insert_eq.
  - intros x Hx. by rewrite !lookup_insert_ne by lia.
Qed.

Lemma bytes_at_weaken m m' a l : m ⊆ m' → bytes_at m a l → bytes_at m' a l.
Proof. intros Hsub H i v Hv. eapply lookup_weaken; [by apply H|done]. Qed.

Lemma mapped_weaken m m' a n : m ⊆ m' → mapped m a n → mapped m' a n.
Proof. intros Hsub H i Hi. destruct (H i Hi) as [v Hv]. exists v. by eapply lookup_weaken. Qed.

Lemma word_at_weaken m m' a w : m ⊆ m' → word_at m a w → word_at m' a w.
Proof. intros Hsub [Hw H]. split; [done|by eapply bytes_at_weaken]. Qed.

Lemma cstring_weaken m m' a t : m ⊆ m' → cstring m a t → cstring m' a t.
Proof. intros Hsub [H Ht]. split; [by eapply bytes_at_weaken|done]. Qed.

Lemma drivers_weaken m m' a l : m ⊆ m' → drivers m a l → drivers m' a l.
Proof.
  intros Hsub. revert a. induction l as [|[p d] l IH]; intros a; [done|].
  intros (-> & Hp & next & [H1 H2 H3 H4 H5] & Hl). split; [done|]. split; [done|]. exists next.
  split; [|by apply IH]. split; [by eapply mapped_weaken|by eapply word_at_weaken|
    by eapply cstring_weaken|done|by eapply word_at_weaken].
Qed.

(** Bytes that were not there before do not matter to the memory before. *)
Lemma fresh_subseteq m m1 m2 p n :
  m ⊆ m1 → (∀ i, 0 ≤ i < n → m !! (p + i) = None) → same_outside m1 m2 p n → m ⊆ m2.
Proof.
  intros Hsub Hfresh Hsame. apply map_subseteq_spec. intros x v Hx.
  destruct (decide (p ≤ x < p + n)) as [Hin|Hout].
  - specialize (Hfresh (x - p) ltac:(lia)). replace (p + (x - p)) with x in Hfresh by lia. congruence.
  - rewrite Hsame by lia. by eapply lookup_weaken.
Qed.

(** ** The list *)

Lemma driver_next_unique m p d d' next next' :
  driver_at m p d next → driver_at m p d' next' → next = next'.
Proof.
  intros [_ H _ _ _] [_ H' _ _ _]. apply load32_spec in H, H'. congruence.
Qed.

Lemma drivers_length m a l l' : drivers m a l → drivers m a l' → length l = length l'.
Proof.
  revert a l'. induction l as [|[p d] l IH]; intros a [|[p' d'] l']; simpl; try done.
  - intros -> (<- & H & _). done.
  - intros (-> & H & _) ->. done.
  - intros (-> & _ & next & Hn & Hl) (<- & _ & next' & Hn' & Hl'). f_equal.
    rewrite (driver_next_unique _ _ _ _ _ _ Hn Hn') in Hl. by eapply IH.
Qed.

(** The rest of the list from one of its nodes. *)
Lemma drivers_suffix m a l p d :
  drivers m a l → (p, d) ∈ l → ∃ l1 l2, l = l1 ++ l2 ∧ l2 ≠ [] ∧ drivers m p l2.
Proof.
  revert a. induction l as [|[q e] l IH]; intros a Hl Hin; [by apply elem_of_nil in Hin|].
  apply elem_of_cons in Hin as [[= -> ->]|Hin].
  - exists [], ((q, e) :: l). split; [done|]. split; [done|]. destruct Hl as (-> & Hl). by split.
  - destruct Hl as (_ & _ & next & _ & Hl). destruct (IH next Hl Hin) as (l1 & l2 & -> & Hne & H).
    by exists ((q, e) :: l1), l2.
Qed.

Lemma drivers_nodup m a l : drivers m a l → NoDup (l.*1).
Proof.
  revert a. induction l as [|[p d] l IH]; intros a; [constructor|]. intros Hl0. pose proof Hl0 as Hl.
  destruct Hl as (-> & Hp & next & Hn & Hl). simpl. constructor; [|by eapply IH].
  intros Hin. apply list_elem_of_fmap in Hin as ([q e] & -> & Hin). simpl in *.
  destruct (drivers_suffix _ _ _ _ _ Hl Hin) as (l1 & l2 & -> & _ & H2).
  pose proof (drivers_length m q ((q, d) :: l1 ++ l2) l2 Hl0 H2) as Hlen. simpl in Hlen. rewrite length_app in Hlen. lia.
Qed.

Lemma drivers_mapped m a l p : drivers m a l → p ∈ l.*1 → p ∈ dom m.
Proof.
  revert a. induction l as [|[q d] l IH]; intros a; simpl; [by intros _ ?%elem_of_nil|].
  intros (-> & _ & next & Hn & Hl) [->|Hin]%elem_of_cons; [|by eapply IH].
  apply elem_of_dom. destruct Hn as [Hm _ _ _ _]. specialize (Hm 0 ltac:(done)). by rewrite Z.add_0_r in Hm.
Qed.

Lemma drivers_fuel m a l : drivers m a l → (length l < scan_fuel m)%nat.
Proof.
  intros Hl. unfold scan_fuel. apply Nat.lt_succ_r. rewrite <- size_dom, <- (length_fmap fst l).
  rewrite <- (size_list_to_set (C := gset Z)) by (by eapply drivers_nodup).
  apply subseteq_size. intros p Hp%elem_of_list_to_set. by eapply drivers_mapped.
Qed.

(** ** Operations *)

Lemma get_driver_spec n s l driver :
  vfs_inv l s → cstring (vfs_memory s) driver n →
  vfs_get_driver driver s = Ret (match lookup_driver n l with Some (p, _) => p | None => 0 end).
Proof.
  intros [Hl _ _ _ _] Hn. unfold vfs_get_driver. pose proof (drivers_fuel _ _ _ Hl) as Hfuel.
  revert Hfuel. cbv zeta. generalize (scan_fuel (vfs_memory s)) as fuel. revert Hl.
  generalize (vfs_drivers_head s) as a. induction l as [|[p d] l IH]; intros a Hl fuel Hfuel.
  - destruct fuel as [|fuel]; [simpl in Hfuel; lia|]. simpl in Hl. by subst a.
  - destruct fuel as [|fuel]; [simpl in Hfuel; lia|]. destruct Hl as (-> & Hp & next & Hd & Hl).
    assert (Htrue : truthy p = true) by (unfold truthy; by destruct (Z.eqb_spec p 0)).
    cbn [while_fuel]. rewrite Htrue. destruct (strcmp_spec _ _ _ _ _ Hn (da_name _ _ _ _ Hd)) as (r & -> & Hr & _). rewrite !Ret_bind.
    unfold lookup_driver. cbn [List.find snd]. destruct (Z.eqb_spec r 0) as [He|He].
    + apply Hr in He. by rewrite bool_decide_true by congruence.
    + rewrite bool_decide_false by (intros Hne; apply He, Hr; congruence).
      unfold driver_next. rewrite Z.add_0_r, (load32_spec _ _ _ (da_next _ _ _ _ Hd)), !Ret_bind.
      apply IH; [done|simpl in Hfuel; lia].
Qed.

Lemma lookup_driver_at n l m a p d :
  drivers m a l → lookup_driver n l = Some (p, d) → p ≠ 0 ∧ ∃ next, driver_at m p d next.
Proof.
  revert a. induction l as [|[q e] l IH]; intros a; [done|]. intros (-> & Hq & next & Hd & Hl).
  unfold lookup_driver. cbn [List.find]. case_bool_decide; [|by eapply IH].
  intros [= <- <-]. split; [done|]. by exists next.
Qed.

(** The head of the list after a new node was linked in. *)
Lemma install_spec s l driver d next new m1 `{!AllocatorLaws kmalloc} :
  vfs_inv l s → driver_at (vfs_memory s) driver d next →
  kmalloc sizeof_fs_driver (vfs_memory s) = Ret (new, m1) → new ≠ 0 →
  ∃ s', vfs_install_driver kmalloc driver s = Ret s' ∧ vfs_inv ((new, d) :: l) s' ∧
    vfs_memory s ⊆ vfs_memory s'.
Proof.
  intros [Hl Hhead Hblocks Hsize Hlock] Hd Hm Hnew.
  pose proof (kmalloc_extends _ _ _ _ Hm) as Hsub.
  destruct (kmalloc_fresh _ _ _ _ Hm Hnew) as (Hpos & Htop & Hmap & Hfresh).
  unfold sizeof_fs_driver in *. destruct Hd as [Hdmap Hdnext Hdname Hdshort Hdmount].
  unfold sizeof_fs_driver, driver_name, driver_fs_mount in *.
  assert (Happart : ∀ i j, 0 ≤ i < 20 → 0 ≤ j < 20 → driver + i ≠ new + j).
  { intros i j Hi Hj He. destruct (Hdmap i Hi) as [v Hv]. specialize (Hfresh j Hj). rewrite He in Hv.
    congruence. }
  unfold vfs_install_driver. change sizeof_fs_driver with 20. rewrite Hm, Ret_bind.
  destruct (memmove_correct new driver 20 m1 ltac:(lia)) as [_ Hcpy];
    [by eapply mapped_weaken|done|].
  destruct Hcpy as (m2 & -> & Hcopied).
  { intros Hin. apply (Happart (new - driver) 0); lia. }
  rewrite Ret_bind. unfold driver_next. rewrite Z.add_0_r.
  assert (Hcopy : ∀ i v, 0 ≤ i < 20 → m1 !! (driver + i) = Some v → m2 !! (new + i) = Some v).
  { intros i v Hi Hv. rewrite Hcopied, decide_True by lia. rewrite <- Hv. f_equal. lia. }
  destruct (store32_spec m2 new (vfs_drivers_head s)) as (m3 & -> & Hword & Hsame); [|done|].
  { intros i Hi. destruct (mapped_weaken _ _ _ _ Hsub Hdmap i ltac:(lia)) as [v Hv].
    exists v. apply Hcopy; [lia|done]. }
  rewrite Ret_bind. eexists. split; [done|].
  assert (Hsub3 : vfs_memory s ⊆ m3).
  { apply (fresh_subseteq _ m1 _ new 20); [done|done|]. intros x Hx. rewrite Hsame by lia.
    rewrite Hcopied, decide_False by lia. done. }
  assert (Hmoved : ∀ off k, 4 ≤ off → off + Z.of_nat (length k) ≤ 20 →
            bytes_at (vfs_memory s) (driver + off) k → bytes_at m3 (new + off) k).
  { intros off k Hoff Hlen Hk i v Hv. pose proof (lookup_lt_Some _ _ _ Hv).
    rewrite Hsame by lia. rewrite <- Z.add_assoc. apply Hcopy; [lia|].
    eapply lookup_weaken; [|done]. rewrite Z.add_assoc. by apply Hk. }
  split; [|done]. split; cbn [vfs_memory vfs_drivers_head vfs_superblocks vfs_superblocks_size vfs_refcountLocked].
  - split; [done|]. split; [done|]. exists (vfs_drivers_head s). split; [|by eapply drivers_weaken].
    split.
    + intros i Hi. destruct (decide (i < 4)) as [Hlt|Hge].
      * destruct Hword as [_ Hb]. apply (bytes_at_mapped _ _ _ Hb). simpl. lia.
      * rewrite Hsame by lia. destruct (mapped_weaken _ _ _ _ Hsub Hdmap i Hi) as [v Hv].
        exists v. by apply Hcopy.
    + done.
    + unfold driver_name. destruct Hdname as [Hb Ht]. split; [|done]. apply Hmoved; [done| |done].
      rewrite length_app. cbn [length]. lia.
    + done.
    + destruct Hdmount as [Hu Hb]. split; [done|]. by apply Hmoved.
  - unfold is_u32. lia.
  - done.
  - done.
  - done.
Qed.

(** ** Inodes *)

Lemma with_operation_none call slot node ops s :
  word_at (vfs_memory s) (node + inode_ops) ops → ops = 0 ∨ word_at (vfs_memory s) (ops + slot) 0 →
  with_operation slot node call s = Ret (K_UNIMPL, s).
Proof.
  intros Hops H. unfold with_operation. rewrite (load32_spec _ _ _ Hops), Ret_bind. unfold truthy.
  destruct H as [->|H]; [done|]. destruct (Z.eqb_spec ops 0); cbn [negb]; [done|].
  by rewrite (load32_spec _ _ _ H), Ret_bind.
Qed.

Lemma with_operation_some body slot node ops f s :
  word_at (vfs_memory s) (node + inode_ops) ops → ops ≠ 0 → word_at (vfs_memory s) (ops + slot) f →
  f ≠ 0 → with_operation slot node body s = body ops f.
Proof.
  intros Hops Hne Hf Hfne. unfold with_operation. rewrite (load32_spec _ _ _ Hops), Ret_bind. unfold truthy.
  destruct (Z.eqb_spec ops 0); cbn [negb]; [done|].
  rewrite (load32_spec _ _ _ Hf), Ret_bind. by destruct (Z.eqb_spec f 0).
Qed.

Lemma word_at_same m m' a w x :
  word_at m a w → same_outside m m' x 4 → a + 4 ≤ x ∨ x + 4 ≤ a → word_at m' a w.
Proof.
  intros [Hw H] Hs Ha. split; [done|]. eapply bytes_at_same; [done..|]. simpl. intros i Hi. lia.
Qed.

Lemma word_at_mapped m a w : word_at m a w → mapped m a 4.
Proof. intros [_ H]. by apply (bytes_at_mapped _ _ _ H). Qed.

Lemma with_memory_same s : with_memory (vfs_memory s) s = s.
Proof. by destruct s. Qed.

Lemma adjust_refcount_spec node delta refs s :
  vfs_refcountLocked s = 0 → word_at (vfs_memory s) (node + inode_refcount) refs →
  ∃ m, adjust_refcount node delta s = Ret (with_memory m s) ∧
    word_at m (node + inode_refcount) (refs ⊕ delta) ∧
    same_outside (vfs_memory s) m (node + inode_refcount) 4.
Proof.
  intros Hlock Hrefs. unfold adjust_refcount, SPINLOCK_LOCK. rewrite Hlock. cbn [Z.eqb]. rewrite Ret_bind.
  cbn [with_lock vfs_memory]. rewrite (load32_spec _ _ _ Hrefs), Ret_bind.
  destruct (store32_spec (vfs_memory s) (node + inode_refcount) (refs ⊕ delta)) as (m & -> & Hw & Hs);
    [by eapply word_at_mapped|apply u32_range|].
  rewrite Ret_bind. exists m. split; [|done]. unfold SPINLOCK_UNLOCK, with_lock, with_memory.
  cbn [vfs_superblocks vfs_superblocks_size vfs_drivers_head]. by rewrite Hlock.
Qed.

(** Two memories with the same word there and the same bytes elsewhere. *)
Lemma word_at_eq m m' a w : word_at m a w → word_at m' a w → same_outside m m' a 4 → m' = m.
Proof.
  intros H H' Hs. pose proof (word_at_bytes _ _ _ H) as (H0 & H1 & H2 & H3).
  pose proof (word_at_bytes _ _ _ H') as (H0' & H1' & H2' & H3').
  apply map_eq. intros x. destruct (decide (a ≤ x < a + 4)) as [Hin|]; [|by apply Hs].
  assert (x = a ∨ x = a + 1 ∨ x = a + 2 ∨ x = a + 3) as [->|[->|[->| ->]]] by lia; congruence.
Qed.

(** * Theorems *)

Section theorems.
Context (kmalloc : Z → memory → outcome (Z * memory)) `{!AllocatorLaws kmalloc}.
Context (call : Z → list Z → memory → outcome (Z * memory)).

(** C22: drivers and mounts.  The linked list in memory implements a list of
    drivers: [vfs_install_driver] puts a copy of the driver at its head and
    leaves all other memory alone, and [vfs_mount] calls the [fs_mount] of the
    most recently installed driver of the name, or returns [K_NOTSUP].  The
    superblock is registered unless the driver returns a negative number or 24
    are registered already; the error codes of the kernel are positive, so a
    failed mount is registered and reported as a success. *)
Theorem vfs_mount_correct l s :
  vfs_inv l s →
  (∀ driver d next new m1, driver_at (vfs_memory s) driver d next →
     kmalloc sizeof_fs_driver (vfs_memory s) = Ret (new, m1) → new ≠ 0 →
     ∃ s', vfs_install_driver kmalloc driver s = Ret s' ∧ vfs_inv ((new, d) :: l) s' ∧
       vfs_memory s ⊆ vfs_memory s') ∧
  (∀ driver n device mount_point options, cstring (vfs_memory s) driver n →
     match lookup_driver n l with
     | None => vfs_mount kmalloc call driver device mount_point options s = Ret (K_NOTSUP, s)
     | Some (p, d) => ∀ new m1 res m2,
         kmalloc sizeof_vfs_superblock (vfs_memory s) = Ret (new, m1) →
         call (fs_mount d) [device; mount_point; options; new] m1 = Ret (res, m2) →
         ∃ s', vfs_mount kmalloc call driver device mount_point options s =
                 Ret (if res <? 0 then res else if 24 <=? vfs_superblocks_size s then K_OOM else K_SUCCESS, s') ∧
           vfs_memory s' = m2 ∧
           take (Z.to_nat (vfs_superblocks_size s')) (vfs_superblocks s') =
             take (Z.to_nat (vfs_superblocks_size s)) (vfs_superblocks s) ++
             (if (res <? 0) || (24 <=? vfs_superblocks_size s) then [] else [new])
     end).
Proof.
  intros Hs. split; [intros; by eapply install_spec|].
  intros driver n device mount_point options Hn. pose proof (get_driver_spec _ _ _ _ Hs Hn) as Hget.
  destruct Hs as [Hl _ Hblocks Hsize _]. unfold vfs_mount. rewrite Hget, Ret_bind.
  destruct (lookup_driver n l) as [[p d]|] eqn:Hfind; [|done].
  destruct (lookup_driver_at _ _ _ _ _ _ Hl Hfind) as (Hp & next & Hd).
  intros new m1 res m2 Hm Hcall. destruct (Z.eqb_spec p 0); [done|].
  rewrite Hm, Ret_bind.
  rewrite (load32_spec m1 _ (fs_mount d)).
  2:{ eapply word_at_weaken; [by eapply kmalloc_extends|]. apply Hd. }
  rewrite Ret_bind, Hcall, Ret_bind. cbv zeta. unfold VFS_MAX_SUPERBLOCKS.
  cbn [with_memory vfs_superblocks_size vfs_superblocks].
  destruct (Z.ltb_spec res 0); cbn [orb].
  { eexists. split; [done|]. split; [done|]. by rewrite app_nil_r. }
  rewrite u32_small by u32_lia.
  destruct (Z.ltb_spec 24 (vfs_superblocks_size s + 1)), (Z.leb_spec 24 (vfs_superblocks_size s)); try lia.
  - eexists. split; [done|]. split; [done|]. by rewrite app_nil_r.
  - rewrite array_set_in, Ret_bind by lia. eexists. split; [done|]. split; [done|].
    cbn [vfs_superblocks_size vfs_superblocks].
    replace (Z.to_nat (vfs_superblocks_size s + 1)) with (S (Z.to_nat (vfs_superblocks_size s))) by lia.
    rewrite (take_S_r _ _ new) by (apply list_lookup_insert_eq; lia). by rewrite take_insert_ge by lia.
Qed.

(** C32: inodes.  An operation that the inode's table, or a missing table, does
    not provide returns [K_UNIMPL] and changes nothing.  Reading, writing and
    searching pass their arguments to the driver.  Opening and closing first
    move the reference count by one, modulo 2^32, with the lock free again; when the
    driver changes no memory, closing after opening restores every byte. *)
Theorem vfs_inode_operations_correct node ops s :
  word_at (vfs_memory s) (node + inode_ops) ops →
  (∀ a b c slot run,
     (slot, run) ∈ [(ops_read, vfs_inode_read call node a b c); (ops_write, vfs_inode_write call node a b c);
                    (ops_open, vfs_inode_open call node); (ops_close, vfs_inode_close call node);
                    (ops_readdir, vfs_inode_readdir call node a b);
                    (ops_finddir, vfs_inode_finddir call node a b)] →
     ops = 0 ∨ word_at (vfs_memory s) (ops + slot) 0 → run s = Ret (K_UNIMPL, s)) ∧
  (ops ≠ 0 →
   (∀ a b c slot args run f,
      (slot, args, run) ∈ [(ops_read, [node; a; b; c], vfs_inode_read call node a b c);
                           (ops_write, [node; a; b; c], vfs_inode_write call node a b c);
                           (ops_readdir, [node; a; b], vfs_inode_readdir call node a b);
                           (ops_finddir, [node; a; b], vfs_inode_finddir call node a b)] →
      f ≠ 0 → word_at (vfs_memory s) (ops + slot) f →
      run s = ('(r, m) ← call f args (vfs_memory s); Ret (r, with_memory m s))) ∧
   (∀ refs f g, vfs_refcountLocked s = 0 → word_at (vfs_memory s) (node + inode_refcount) refs →
      word_at (vfs_memory s) (ops + ops_open) f → word_at (vfs_memory s) (ops + ops_close) g →
      f ≠ 0 → g ≠ 0 → ops + 16 ≤ node + 28 ∨ node + 32 ≤ ops + 8 →
      ∃ m, word_at m (node + inode_refcount) (refs ⊕ 1) ∧
        same_outside (vfs_memory s) m (node + inode_refcount) 4 ∧
        vfs_inode_open call node s = ('(r, m') ← call f [node] m; Ret (r, with_memory m' s)) ∧
        (∀ r r', call f [node] m = Ret (r, m) → call g [node] (vfs_memory s) = Ret (r', vfs_memory s) →
           ('(_, s1) ← vfs_inode_open call node s; vfs_inode_close call node s1) = Ret (r', s)))).
Proof.
  intros Hops. split.
  - intros a b c slot run Hin Hnone. repeat (apply elem_of_cons in Hin as [[= -> ->]|Hin];
      [by eapply with_operation_none|]). by apply elem_of_nil in Hin.
  - intros Hne. split.
    + intros a b c slot args run f Hin Hf Hslot. repeat (apply elem_of_cons in Hin as [[= -> -> ->]|Hin];
        [exact (with_operation_some (λ _ f, call_driver call f _ s) _ node ops f s Hops Hne Hslot Hf)|]).
      by apply elem_of_nil in Hin.
    + intros refs f g Hlock Hrefs Hf Hg Hfne Hgne Hapart. unfold inode_refcount, ops_open, ops_close in *.
      destruct (adjust_refcount_spec node 1 refs s Hlock Hrefs) as (m & Hopen & Hw & Hsame).
      unfold inode_refcount in Hsame, Hw.
      exists m. split; [done|]. split; [done|].
      assert (Hrun : vfs_inode_open call node s = ('(r, m') ← call f [node] m; Ret (r, with_memory m' s))).
      { unfold vfs_inode_open. rewrite (with_operation_some _ _ _ ops f) by done.
        rewrite Hopen, Ret_bind. unfold ops_open. cbn [with_memory vfs_memory].
        rewrite (load32_spec m (ops + 8) f), Ret_bind; [done|].
        eapply word_at_same; [exact Hf|exact Hsame|lia]. }
      split; [exact Hrun|]. intros r r' Hcall Hcall'. rewrite Hrun, Hcall, !Ret_bind.
      unfold vfs_inode_close.
      assert (Hg1 : word_at m (ops + 12) g) by (eapply word_at_same; [exact Hg|exact Hsame|lia]).
      rewrite (with_operation_some _ _ _ ops g); [|..|done|done]; [|
        eapply word_at_same; [exact Hops|exact Hsame|unfold inode_ops; lia]|done].
      destruct (adjust_refcount_spec node (-1) (refs ⊕ 1) (with_memory m s) Hlock Hw)
        as (m2 & Hclose & Hw2 & Hsame2).
      rewrite Hclose, Ret_bind. unfold ops_close. cbn [with_memory vfs_memory] in *. unfold inode_refcount in *.
      assert (Hm2 : m2 = vfs_memory s).
      { apply (word_at_eq _ _ (node + 28) refs); [done| |by eapply same_outside_trans].
        replace refs with (refs ⊕ 1 ⊕ -1); [done|]. destruct Hrefs as [Hr _]. unfold u32, is_u32 in *.
        rewrite Zplus_mod_idemp_l. rewrite <- Z.add_assoc, Z.add_0_r. by apply Z.mod_small. }
      rewrite Hm2, (load32_spec _ _ _ Hg), Ret_bind. unfold call_driver. cbn [with_memory vfs_memory].
      rewrite Hcall', Ret_bind. by destruct s.
Qed.
End theorems.

(** * Witnesses *)

(** One allocation at a fixed place, if it is free. *)
Definition demo_kmalloc (n : Z) (m : memory) : outcome (Z * memory) :=
  if (0 <=? n) && (n <=? 0x10000) &&
     forallb (λ i, bool_decide (m !! (0x10000 + i) = None)) (seqZ 0 n)
  then Ret (0x10000, m ∪ memory_of 0x10000 (replicate (Z.to_nat n) 0))
  else Ret (0, m).

Lemma memory_of_bytes a l : bytes_at (memory_of a l) a l.
Proof.
  revert a. induction l as [|v l IH]; intros a; [apply bytes_at_nil|]. simpl.
  apply bytes_at_cons. split; [by rewrite lookup_insert_eq|]. apply bytes_at_insert; [apply IH|lia].
Qed.

#[global] Instance demo_kmalloc_laws : AllocatorLaws demo_kmalloc.
Proof.
  split; intros n m p m'; unfold demo_kmalloc; destruct (_ && _) eqn:E; intros [= <- <-]; try done.
  - apply map_union_subseteq_l.
  - intros _. apply andb_true_iff in E as [[H1%Z.leb_le H2%Z.leb_le]%andb_true_iff H3].
    rewrite forallb_forall in H3. split; [lia|]. split; [lia|]. split.
    + intros i Hi. pose proof (bytes_at_mapped _ _ _ (memory_of_bytes 65536 (replicate (Z.to_nat n) 0))) as Hm.
      rewrite length_replicate in Hm. destruct (Hm i ltac:(lia)) as [v Hv].
      destruct (m !! (65536 + i)) as [w|] eqn:Hw.
      * exists w. by apply lookup_union_Some_l.
      * exists v. by rewrite lookup_union_r.
    + intros i Hi. apply (bool_decide_eq_true_1 _), H3, list_elem_of_In, elem_of_seqZ. lia.
Qed.

(** A driver ["fat"] at 100, its name at 200, an inode at 300 whose table at
    400 has the operations open, close and finddir. *)
Definition demo_driver : driver := Driver [102; 97; 116] 0x1234.

Definition demo_memory : memory :=
  memory_of 100 ([0; 0; 0; 0] ++ [102; 97; 116; 0; 0; 0; 0; 0; 0; 0] ++ [0; 0] ++ word_bytes 0x1234) ∪
  memory_of 200 [102; 97; 116; 0] ∪
  memory_of 300 (replicate 28 0 ++ word_bytes 1 ++ word_bytes 0 ++ word_bytes 400) ∪
  memory_of 400 (word_bytes 0 ++ word_bytes 0 ++ word_bytes 0x10 ++ word_bytes 0x20 ++ word_bytes 0 ++
                 word_bytes 0x30).

Definition demo_vfs : vfs := Vfs demo_memory (replicate 24 0) 0 100 0.

Lemma word_check m a w : is_u32 w → bytes_check m a (word_bytes w) = true → word_at m a w.
Proof. intros Hw H. split; [done|by apply bytes_check_at]. Qed.

Lemma demo_driver_at : driver_at demo_memory 100 demo_driver 0.
Proof.
  split.
  - apply mapped_check_mapped. vm_compute. done.
  - apply word_check; [done|vm_compute; done].
  - split; [by apply bytes_check_at; vm_compute|repeat constructor].
  - simpl. lia.
  - apply word_check; [done|vm_compute; done].
Qed.

Lemma demo_vfs_inv : vfs_inv [(100, demo_driver)] demo_vfs.
Proof.
  split; try done. split; [done|]. split; [done|]. exists 0. split; [apply demo_driver_at|done].
Qed.

(** A driver that reports an I/O error is mounted with success. *)
Lemma vfs_mount_correct_witness :
  (∃ s', vfs_install_driver demo_kmalloc 100 demo_vfs = Ret s' ∧
     vfs_inv [(0x10000, demo_driver); (100, demo_driver)] s') ∧
  (∃ s', vfs_mount demo_kmalloc (λ _ _ m, Ret (K_IO, m)) 200 7 0 0 demo_vfs = Ret (K_SUCCESS, s')).
Proof.
  destruct (vfs_mount_correct demo_kmalloc (λ _ _ m, Ret (K_IO, m)) [(100, demo_driver)] demo_vfs
    demo_vfs_inv) as [H1 H2].
  split.
  - destruct (H1 100 demo_driver 0 0x10000 _ demo_driver_at eq_refl ltac:(discriminate))
      as (s' & Hs & Hinv & _). exists s'. split; [exact Hs|exact Hinv].
  - assert (Hname : cstring demo_memory 200 [102; 97; 116])
      by (split; [by apply bytes_check_at; vm_compute|repeat constructor]).
    destruct (H2 200 _ 7 0 0 Hname 0x10000 _ K_IO _ eq_refl eq_refl) as (s' & Hs & _).
    exists s'. exact Hs.
Defined.

Lemma vfs_inode_operations_correct_witness :
  vfs_inode_read (λ _ _ m, Ret (0, m)) 300 0 4 500 demo_vfs = Ret (K_UNIMPL, demo_vfs) ∧
  ('(_, s1) ← vfs_inode_open (λ _ _ m, Ret (0, m)) 300 demo_vfs;
   vfs_inode_close (λ _ _ m, Ret (0, m)) 300 s1) = Ret (0, demo_vfs).
Proof.
  assert (Hops : word_at demo_memory (300 + inode_ops) 400) by (by apply word_check; [|vm_compute]).
  destruct (vfs_inode_operations_correct (λ _ _ m, Ret (0, m)) 300 400 demo_vfs Hops) as [H1 H2].
  split.
  - apply (H1 0 4 500 ops_read); [apply elem_of_cons; left; reflexivity|].
    right. by apply word_check; [|vm_compute].
  - destruct H2 as [_ H2]; [discriminate|].
    destruct (H2 1 0x10 0x20) as (m & _ & _ & _ & H3).
    + reflexivity.
    + by apply word_check; [|vm_compute].
    + by apply word_check; [|vm_compute].
    + by apply word_check; [|vm_compute].
    + discriminate.
    + discriminate.
    + right. discriminate.
    + exact (H3 0 0 eq_refl eq_refl).
Defined.
