(* ===== verification/Layout.v ===== *)
(** The layout of the C structures that the kernel shares with the boot loader
    and the processor: [multiboot.h], [elf.h], [gdt.h], [idt.h], [isr.h] and
    [tss.h] under [kernel/include/arch/i386/], as the i386 ABI lays them out,
    and [descriptors/tss.c]. *)
From stdpp Require Import base numbers list strings.
From Stdlib Require Import ZArith Lia String.
From S2P Require Import Prelude Meminfo Kheap Descriptors Vfs.

Open Scope Z_scope.

(** * Types and structures *)

(** The types of members: integers, pointers (of 32 bits) and arrays of
    characters. *)
Inductive ctype := CU8 | CU16 | CU32 | CU64 | CPtr | CChars (n : positive).

#[export] Instance ctype_eq_dec : EqDecision ctype.
Proof. solve_decision. Defined.

Definition sizeof (t : ctype) : Z :=
  match t with CU8 => 1 | CU16 => 2 | CU32 | CPtr => 4 | CU64 => 8 | CChars n => Z.pos n end.

(** The ABI aligns a 64-bit member to four bytes. *)
Definition alignof (t : ctype) : Z :=
  match t with CU8 | CChars _ => 1 | CU16 => 2 | CU32 | CU64 | CPtr => 4 end.

(** A structure: whether it is packed, and its members.  The members of an
    anonymous or nested structure are written in its place. *)
Record cstruct := CStruct { packed : bool; members : list (string * ctype) }.

#[export] Instance cstruct_eq_dec : EqDecision cstruct.
Proof. solve_decision. Defined.

(** A member that has been given its place. *)
Record slot := Slot { slot_name : string; slot_type : ctype; slot_offset : Z }.

#[export] Instance slot_eq_dec : EqDecision slot.
Proof. solve_decision. Defined.

Definition align_up (x a : Z) : Z := (x + (a - 1)) / a * a.

Definition align_of_member (p : bool) (t : ctype) : Z := if p then 1 else alignof t.

(** The members one after the other, each at the next multiple of its
    alignment. *)
Fixpoint place (p : bool) (pos : Z) (ms : list (string * ctype)) : list slot :=
  match ms with
  | [] => []
  | (n, t) :: rest =>
      let o := align_up pos (align_of_member p t) in
      Slot n t o :: place p (o + sizeof t) rest
  end.

Definition slots (s : cstruct) : list slot := place (packed s) 0 (members s).

Definition slot_end (f : slot) : Z := slot_offset f + sizeof (slot_type f).

Definition struct_align (s : cstruct) : Z :=
  foldr (λ m a, Z.max (align_of_member (packed s) m.2) a) 1 (members s).

Definition sizeof_struct (s : cstruct) : Z :=
  align_up (foldl (λ _ f, slot_end f) 0 (slots s)) (struct_align s).

Definition find_slot (s : cstruct) (n : string) : option slot :=
  List.find (λ f, bool_decide (slot_name f = n)) (slots s).

Definition offsetof (s : cstruct) (n : string) : option Z := slot_offset <$> find_slot s n.

(** Reading and writing a member of the structure at [p]. *)
Definition read_slot (mem : boot_mem) (p : Z) (f : slot) : Z :=
  read_le mem (Z.to_nat (sizeof (slot_type f))) (p + slot_offset f).

Definition read_field (mem : boot_mem) (s : cstruct) (p : Z) (n : string) : option Z :=
  read_slot mem p <$> find_slot s n.

(** [n] little-endian bytes at address [a]; addresses are 32 bits wide. *)
Fixpoint write_le (mem : boot_mem) (n : nat) (a v : Z) : boot_mem :=
  match n with
  | O => mem
  | S n' =>
      let mem' := write_le mem n' (a + 1) (v / 256) in
      λ b, if b =? u32 a then v mod 256 else mem' b
  end.

Definition write_slot (mem : boot_mem) (p : Z) (f : slot) (v : Z) : boot_mem :=
  write_le mem (Z.to_nat (sizeof (slot_type f))) (p + slot_offset f) v.

(** * The structures of the kernel *)

Definition u32_members (ns : list string) : list (string * ctype) := map (λ n, (n, CU32)) ns.

(** [struct multiboot_header] *)
Definition multiboot_header_struct : cstruct := CStruct false (u32_members
  ["magic"; "flags"; "checksum"; "header_addr"; "load_addr"; "load_end_addr"; "bss_end_addr";
   "entry_addr"; "mode_type"; "width"; "height"; "depth"]%string).

Definition multiboot_aout_symbol_table_struct : cstruct :=
  CStruct false (u32_members ["tabsize"; "strsize"; "addr"; "reserved"]%string).

Definition multiboot_elf_section_header_table_struct : cstruct :=
  CStruct false (u32_members ["num"; "size"; "addr"; "shndx"]%string).

(** [struct multiboot_info]; the two members of the union [u] have four words
    each, here under the names of [u.elf_sec]. *)
Definition multiboot_info_struct : cstruct := CStruct false
  (u32_members ["flags"; "mem_lower"; "mem_upper"; "boot_device"; "cmdline"; "mods_count";
                "mods_addr"; "elf_sec.num"; "elf_sec.size"; "elf_sec.addr"; "elf_sec.shndx";
                "mmap_length"; "mmap_addr"; "drives_length"; "drives_addr"; "config_table";
                "boot_loader_name"; "apm_table"; "vbe_control_info"; "vbe_mode_info"]%string
   ++ [("vbe_mode"%string, CU16); ("vbe_interface_seg"%string, CU16);
       ("vbe_interface_off"%string, CU16); ("vbe_interface_len"%string, CU16)]).

(** [struct multiboot_mmap_entry], packed. *)
Definition multiboot_mmap_entry_struct : cstruct := CStruct true
  [("size"%string, CU32); ("addr"%string, CU64); ("len"%string, CU64); ("type"%string, CU32)].

Definition multiboot_mod_list_struct : cstruct :=
  CStruct false (u32_members ["mod_start"; "mod_end"; "cmdline"; "pad"]%string).

Definition elf_section_header_struct : cstruct := CStruct false (u32_members
  ["sh_name"; "sh_type"; "sh_flags"; "sh_addr"; "sh_offset"; "sh_size"; "sh_link"; "sh_info";
   "sh_addralign"; "sh_entsize"]%string).

Definition gdt_entry_struct : cstruct := CStruct true
  [("limit_low"%string, CU16); ("base_low"%string, CU16); ("base_middle"%string, CU8);
   ("access"%string, CU8); ("granularity"%string, CU8); ("base_high"%string, CU8)].

(** [struct gdt_ptr] and [struct idt_ptr]. *)
Definition table_ptr_struct : cstruct :=
  CStruct true [("limit"%string, CU16); ("base"%string, CU32)].

Definition idt_entry_struct : cstruct := CStruct true
  [("base_lo"%string, CU16); ("sel"%string, CU16); ("always0"%string, CU8);
   ("flags"%string, CU8); ("base_hi"%string, CU16)].

(** [struct idt_gate_debug], not packed. *)
Definition idt_gate_debug_struct : cstruct := CStruct false
  [("num"%string, CU8); ("base"%string, CU64); ("sel"%string, CU16); ("flags"%string, CU8)].

(** [struct i386_registers] *)
Definition i386_registers_struct : cstruct := CStruct false (u32_members
  ["gs"; "fs"; "es"; "ds"; "edi"; "esi"; "ebp"; "esp"; "ebx"; "edx"; "ecx"; "eax"; "int_no";
   "err_code"; "eip"; "cs"; "eflags"; "useresp"; "ss"]%string).

(** [struct tss]: the unnamed bit-field of 16 bits after a [uint16_t] takes
    the other half of its word. *)
Definition half (n : string) : list (string * ctype) := [(n, CU16); ((n ++ ":pad")%string, CU16)].

Definition tss_struct : cstruct := CStruct false
  (half "back_link" ++ [("esp0"%string, CPtr)] ++ half "ss0" ++ [("esp1"%string, CPtr)] ++ half "ss1"
   ++ [("esp2"%string, CPtr)] ++ half "ss2" ++ [("cr3"%string, CU32); ("eip"%string, CPtr)]
   ++ u32_members ["eflags"; "eax"; "ecx"; "edx"; "ebx"; "esp"; "ebp"; "esi"; "edi"]%string
   ++ half "es" ++ half "cs" ++ half "ss" ++ half "ds" ++ half "fs" ++ half "gs" ++ half "ldt"
   ++ [("trace"%string, CU16); ("bitmap"%string, CU16)]).

(** [struct kheap_block] with its two [bitset_t]. *)
Definition kheap_block_struct : cstruct := CStruct false
  [("next"%string, CPtr); ("block_size"%string, CU32); ("section_size"%string, CU32);
   ("first_free_section"%string, CU32); ("free_sections"%string, CU32); ("start"%string, CU32);
   ("used_sections.length"%string, CU32); ("used_sections.start"%string, CPtr);
   ("delimiters.length"%string, CU32); ("delimiters.start"%string, CPtr)].

(** The structures of [vfs.h]. *)
Definition fs_dirent_struct : cstruct :=
  CStruct false [("name"%string, CChars 128); ("ino"%string, CU32)].

Definition fs_inode_struct : cstruct := CStruct false
  (u32_members ["ino"; "device"; "mask"; "uid"; "gid"; "flags"; "size"; "refcount"]%string
   ++ [("redirect"%string, CPtr); ("ops"%string, CPtr)]).

Definition fs_inode_ops_struct : cstruct := CStruct false
  (map (λ n, (n, CPtr)) ["read"; "write"; "open"; "close"; "readdir"; "finddir"]%string).

Definition vfs_superblock_struct : cstruct := CStruct false
  [("device"%string, CU32); ("mount_point"%string, CPtr); ("root"%string, CPtr)].

Definition fs_driver_struct : cstruct := CStruct false
  [("next"%string, CPtr); ("name"%string, CChars 10); ("fs_mount"%string, CPtr)].

(** ** The Multiboot header of the image *)

Definition MULTIBOOT_HEADER_MAGIC : Z := 0x1BADB002.
Definition MULTIBOOT_BOOTLOADER_MAGIC : Z := 0x2BADB002.
Definition MULTIBOOT_SEARCH : Z := 8192.
Definition MULTIBOOT_UNSUPPORTED : Z := 0x0000fffc.
Definition MULTIBOOT_PAGE_ALIGN : Z := 0x00000001.
Definition MULTIBOOT_MEMORY_INFO : Z := 0x00000002.
Definition MULTIBOOT_VIDEO_MODE : Z := 0x00000004.
Definition MULTIBOOT_AOUT_KLUDGE : Z := 0x00010000.

(** Alignments the loader keeps. *)
Definition MULTIBOOT_MOD_ALIGN : Z := 0x00001000.
Definition MULTIBOOT_INFO_ALIGN : Z := 0x00000004.

(** The bits of [flags] in the information structure. *)
Definition MULTIBOOT_INFO_MEMORY : Z := 0x00000001.
Definition MULTIBOOT_INFO_BOOTDEV : Z := 0x00000002.
Definition MULTIBOOT_INFO_CMDLINE : Z := 0x00000004.
Definition MULTIBOOT_INFO_MODS : Z := 0x00000008.
Definition MULTIBOOT_INFO_AOUT_SYMS : Z := 0x00000010.
Definition MULTIBOOT_INFO_ELF_SHDR : Z := 0X00000020.
Definition MULTIBOOT_INFO_MEM_MAP : Z := 0x00000040.
Definition MULTIBOOT_INFO_DRIVE_INFO : Z := 0x00000080.
Definition MULTIBOOT_INFO_CONFIG_TABLE : Z := 0x00000100.
Definition MULTIBOOT_INFO_BOOT_LOADER_NAME : Z := 0x00000200.
Definition MULTIBOOT_INFO_APM_TABLE : Z := 0x00000400.
Definition MULTIBOOT_INFO_VIDEO_INFO : Z := 0x00000800.

Definition info_flags : list Z :=
  [MULTIBOOT_INFO_MEMORY; MULTIBOOT_INFO_BOOTDEV; MULTIBOOT_INFO_CMDLINE; MULTIBOOT_INFO_MODS;
   MULTIBOOT_INFO_AOUT_SYMS; MULTIBOOT_INFO_ELF_SHDR; MULTIBOOT_INFO_MEM_MAP; MULTIBOOT_INFO_DRIVE_INFO;
   MULTIBOOT_INFO_CONFIG_TABLE; MULTIBOOT_INFO_BOOT_LOADER_NAME; MULTIBOOT_INFO_APM_TABLE;
   MULTIBOOT_INFO_VIDEO_INFO].

(** The three words that [boot.asm] puts at the start of the image. *)
Definition boot_header : list Z :=
  let flags := Z.lor MULTIBOOT_PAGE_ALIGN MULTIBOOT_MEMORY_INFO in
  [MULTIBOOT_HEADER_MAGIC; flags; u32 (- (MULTIBOOT_HEADER_MAGIC + flags))].

(** ** Frames of the AHCI driver: [ahci.h], all that exists of it *)
Inductive FIS_TYPE :=
| FIS_TYPE_REG_H2D | FIS_TYPE_REG_D2H | FIS_TYPE_DMA_ACT | FIS_TYPE_DMA_SETUP | FIS_TYPE_DATA
| FIS_TYPE_BIST | FIS_TYPE_PIO_SETUP | FIS_TYPE_DEV_BITS.

Definition fis_type_value (t : FIS_TYPE) : Z :=
  match t with
  | FIS_TYPE_REG_H2D => 0x27 | FIS_TYPE_REG_D2H => 0x34 | FIS_TYPE_DMA_ACT => 0x39
  | FIS_TYPE_DMA_SETUP => 0x41 | FIS_TYPE_DATA => 0x46 | FIS_TYPE_BIST => 0x58
  | FIS_TYPE_PIO_SETUP => 0x5F | FIS_TYPE_DEV_BITS => 0xA1
  end.

(** ** The task state segment: [tss.c]

    The global [tss] is a pointer that nothing sets. *)
Definition tss_return (tss : Z) : Z := tss.

(** [tss->ss0 = 0x08]; an access through the null pointer is a fault. *)
Definition tss_install (tss : Z) (mem : boot_mem) : outcome boot_mem :=
  if tss =? 0 then Fault
  else
    match find_slot tss_struct "ss0" with
    | Some f => Ret (write_slot mem tss f 0x08)
    | None => Fault
    end.

(** * Lemmas *)

Lemma sizeof_pos t : 0 < sizeof t.
Proof. by destruct t. Qed.

Lemma align_of_member_pos p t : 0 < align_of_member p t.
Proof. by destruct p, t. Qed.

Lemma align_up_spec x a : 0 < a → x ≤ align_up x a < x + a ∧ align_up x a mod a = 0.
Proof.
  intros Ha. unfold align_up. split; [|apply Z_mod_mult].
  pose proof (Z.div_mod (x + (a - 1)) a). pose proof (Z.mod_pos_bound (x + (a - 1)) a Ha). nia.
Qed.

(** ** Placement *)

(** Members are in order and do not overlap. *)
Definition before (f g : slot) : Prop := slot_end f ≤ slot_offset g.

Lemma place_ge p pos ms f : f ∈ place p pos ms → pos ≤ slot_offset f.
Proof.
  revert pos. induction ms as [|[n t] ms IH]; intros pos Hf; simpl in Hf; [by apply elem_of_nil in Hf|].
  pose proof (align_up_spec pos _ (align_of_member_pos p t)) as [Ha _]. pose proof (sizeof_pos t).
  apply elem_of_cons in Hf as [->|Hf]; simpl; [lia|]. apply IH in Hf. lia.
Qed.

Lemma place_in_order p pos ms i j f g :
  (i < j)%nat → place p pos ms !! i = Some f → place p pos ms !! j = Some g → before f g.
Proof.
  revert pos i j. induction ms as [|[n t] ms IH]; intros pos i j Hij Hf Hg; [done|].
  destruct j as [|j]; [lia|]. destruct i as [|i]; simpl in Hf, Hg.
  - injection Hf as <-. apply list_elem_of_lookup_2, place_ge in Hg. exact Hg.
  - eapply (IH _ i j); [lia|exact Hf|exact Hg].
Qed.

Lemma place_end_ge p pos ms : pos ≤ foldl (λ _ f, slot_end f) pos (place p pos ms).
Proof.
  revert pos. induction ms as [|[n t] ms IH]; intros pos; [done|]. simpl. unfold slot_end at 2. simpl.
  pose proof (align_up_spec pos _ (align_of_member_pos p t)) as [Ha _]. pose proof (sizeof_pos t).
  specialize (IH (align_up pos (align_of_member p t) + sizeof t)). lia.
Qed.

Lemma place_end p pos ms f z :
  f ∈ place p pos ms → slot_end f ≤ foldl (λ _ f, slot_end f) z (place p pos ms).
Proof.
  revert pos z. induction ms as [|[n t] ms IH]; intros pos z Hf; simpl in Hf; [by apply elem_of_nil in Hf|].
  apply elem_of_cons in Hf as [->|Hf]; simpl; [|by apply IH].
  unfold slot_end at 1 3. simpl. apply place_end_ge.
Qed.

(** ** Bytes *)

Lemma write_le_other mem n a v b :
  0 ≤ a → a + Z.of_nat n ≤ 2 ^ 32 → ¬ (a ≤ b < a + Z.of_nat n) → write_le mem n a v b = mem b.
Proof.
  revert a v. induction n as [|n IH]; intros a v Ha Hn Hb; [done|]. simpl.
  rewrite u32_small by u32_lia. destruct (Z.eqb_spec b a); [lia|]. apply IH; lia.
Qed.

Lemma read_le_ext mem mem' n a :
  0 ≤ a → a + Z.of_nat n ≤ 2 ^ 32 → (∀ b, a ≤ b < a + Z.of_nat n → mem b = mem' b) →
  read_le mem n a = read_le mem' n a.
Proof.
  revert a. induction n as [|n IH]; intros a Ha Hn H; [done|]. simpl.
  rewrite u32_small by u32_lia. rewrite (H a) by lia. rewrite (IH (a + 1)); [done|lia|lia|].
  intros b Hb. apply H. lia.
Qed.

Lemma read_write_le mem n a v :
  0 ≤ a → a + Z.of_nat n ≤ 2 ^ 32 → read_le (write_le mem n a v) n a = v mod 2 ^ (8 * Z.of_nat n).
Proof.
  revert a v. induction n as [|n IH]; intros a v Ha Hn; [by rewrite Z.mod_1_r|].
  cbn [read_le write_le]. rewrite !u32_small by u32_lia. rewrite Z.eqb_refl, Zmod_mod.
  rewrite (read_le_ext _ (write_le mem n (a + 1) (v / 256))); [|lia|lia|].
  - rewrite IH by lia. replace (8 * Z.of_nat (S n)) with (8 + 8 * Z.of_nat n) by lia.
    rewrite Z.pow_add_r by lia. change (2 ^ 8) with 256.
    rewrite Z.rem_mul_r by (try apply Z.pow_nonzero; lia). done.
  - intros b Hb. destruct (Z.eqb_spec b a); [lia|done].
Qed.

(** ** Slots of a structure *)

Section slots.
Context (s : cstruct).

Lemma struct_align_pos : 0 < struct_align s.
Proof. unfold struct_align. induction (members s); simpl; lia. Qed.

Lemma slot_bounds f : f ∈ slots s → 0 ≤ slot_offset f ∧ slot_end f ≤ sizeof_struct s.
Proof.
  intros Hf. split; [by eapply place_ge|]. unfold sizeof_struct.
  pose proof (place_end _ _ _ _ 0 Hf). pose proof (align_up_spec (foldl (λ _ f, slot_end f) 0 (slots s)) _ struct_align_pos) as [H1 _].
  unfold slots in *. lia.
Qed.

Lemma slots_disjoint f g : f ∈ slots s → g ∈ slots s → f ≠ g → before f g ∨ before g f.
Proof.
  intros [i Hi]%list_elem_of_lookup [j Hj]%list_elem_of_lookup Hne.
  destruct (Nat.lt_trichotomy i j) as [|[->|]]; [left|congruence|right]; by eapply place_in_order.
Qed.

Context (mem : boot_mem) (p : Z) (Hp : 0 ≤ p) (Hend : p + sizeof_struct s ≤ 2 ^ 32).

Lemma slot_address f :
  f ∈ slots s →
  0 ≤ p + slot_offset f ∧ p + slot_offset f + Z.of_nat (Z.to_nat (sizeof (slot_type f))) ≤ 2 ^ 32 ∧
  Z.of_nat (Z.to_nat (sizeof (slot_type f))) = sizeof (slot_type f).
Proof.
  intros Hf. pose proof (slot_bounds f Hf). pose proof (sizeof_pos (slot_type f)).
  unfold slot_end in *. lia.
Qed.

Lemma read_write_slot f v :
  f ∈ slots s → read_slot (write_slot mem p f v) p f = v mod 2 ^ (8 * sizeof (slot_type f)).
Proof.
  intros Hf. destruct (slot_address f Hf) as (H1 & H2 & H3). unfold read_slot, write_slot.
  by rewrite read_write_le, H3.
Qed.

Lemma read_write_other f g v :
  f ∈ slots s → g ∈ slots s → f ≠ g → read_slot (write_slot mem p f v) p g = read_slot mem p g.
Proof.
  intros Hf Hg Hne. destruct (slot_address f Hf) as (H1 & H2 & H3). destruct (slot_address g Hg) as (H4 & H5 & H6).
  apply read_le_ext; [done|done|]. intros b Hb. apply write_le_other; [done|done|].
  destruct (slots_disjoint f g Hf Hg Hne) as [H|H]; unfold before, slot_end in H; lia.
Qed.
End slots.

(** * Checks *)

(** A check of the transcription: the offsets that [Meminfo.v], [Kheap.v],
    [Descriptors.v] and [Vfs.v] read at are those of the members of the
    structures above, the sizes they use are the sizes of the structures, no
    two flags share a bit, and the image's Multiboot header is one a loader
    accepts: its words add up to zero, and it asks for nothing but page
    alignment and memory information.  [Stubs.v] and [Tables.v] prove that the
    processor finds the members where the structures put them. *)
Lemma readers_follow_the_layout mem p :
  (let i := read_multiboot_info mem p in
   map (read_field mem multiboot_info_struct p)
     ["flags"; "mem_lower"; "mem_upper"; "elf_sec.num"; "elf_sec.size"; "elf_sec.addr"; "elf_sec.shndx";
      "mmap_length"; "mmap_addr"]%string =
   [Some (mbi_flags i); Some (mbi_mem_lower i); Some (mbi_mem_upper i); Some (mbi_elf_num i);
    Some (mbi_elf_size i); Some (mbi_elf_addr i); Some (mbi_elf_shndx i); Some (mbi_mmap_length i);
    Some (mbi_mmap_addr i)]) ∧
  (let e := read_mmap_entry mem p in
   map (read_field mem multiboot_mmap_entry_struct p) ["size"; "addr"; "len"; "type"]%string =
   [Some (me_size e); Some (me_addr e); Some (me_len e); Some (me_type e)]) ∧
  read_field mem elf_section_header_struct p "sh_addr" = Some (read_sh_addr mem p) ∧
  (map (offsetof fs_driver_struct) ["next"; "name"; "fs_mount"]%string
     = [Some driver_next; Some driver_name; Some driver_fs_mount] ∧
   map (offsetof fs_inode_struct) ["refcount"; "ops"]%string = [Some inode_refcount; Some inode_ops] ∧
   map (offsetof fs_inode_ops_struct) ["read"; "write"; "open"; "close"; "readdir"; "finddir"]%string
     = [Some ops_read; Some ops_write; Some ops_open; Some ops_close; Some ops_readdir; Some ops_finddir]) ∧
  map sizeof_struct [multiboot_info_struct; elf_section_header_struct; gdt_entry_struct; idt_entry_struct;
                     kheap_block_struct; fs_driver_struct; vfs_superblock_struct]
    = [sizeof_multiboot_info; sizeof_elf_section_header; sizeof_gdt_entry; sizeof_idt_entry;
       sizeof_kheap_block; sizeof_fs_driver; sizeof_vfs_superblock] ∧
  map sizeof_struct [multiboot_header_struct; multiboot_mod_list_struct; multiboot_mmap_entry_struct;
                     table_ptr_struct; tss_struct; i386_registers_struct] = [48; 16; 24; 6; 104; 76] ∧
  (info_flags = (λ k, 2 ^ k) <$> seqZ 0 12 ∧ MULTIBOOT_INFO_ELF_SHDR = 2 ^ 5 ∧ MULTIBOOT_INFO_MEM_MAP = 2 ^ 6) ∧
  (u32 (foldr Z.add 0 boot_header) = 0 ∧
   ∀ flags, boot_header !! 1%nat = Some flags →
     Z.land flags MULTIBOOT_AOUT_KLUDGE = 0 ∧ Z.land flags MULTIBOOT_VIDEO_MODE = 0 ∧
     Z.land flags MULTIBOOT_UNSUPPORTED = 0).
Proof.
  split_and!.
  - unfold read_multiboot_info, read32. replace (read_le mem 4 p) with (read_le mem 4 (p + 0)) by (by rewrite Z.add_0_r). reflexivity.
  - unfold read_mmap_entry, read32, read64. replace (read_le mem 4 p) with (read_le mem 4 (p + 0)) by (by rewrite Z.add_0_r). reflexivity.
  - done.
  - by vm_compute.
  - by vm_compute.
  - by vm_compute.
  - by vm_compute.
  - by vm_compute.
  - by vm_compute.
  - by vm_compute.
  - by vm_compute.
  - by vm_compute.
  - intros flags [= <-]. by vm_compute.
Qed.

#[export] Instance FIS_TYPE_inj : Inj (=) (=) fis_type_value.
Proof. by intros [] []. Qed.

(** Nothing sets the pointer: installing the segment is an access through
    null.  The selector it would set is the one of the code segment. *)
Lemma tss_install_faults mem gdt_address s s' :
  List.length (gdt s) = 5%nat → gdt_install gdt_address s = Ret s' →
  tss_install 0 mem = Fault ∧ executable <$> gdt s' !! Z.to_nat (0x08 / 8) = Some true.
Proof.
  intros Hl Hrun. split; [done|]. destruct s as [entries gp0 gdtr0].
  destruct entries as [|? [|? [|? [|? [|? [|]]]]]]; try discriminate Hl.
  injection Hrun as <-. by vm_compute.
Qed.

(** With a pointer it would set the selector of the stack segment of privilege 0
    and leave every other member alone. *)
Lemma tss_install_sets tss mem :
  0 < tss → tss + sizeof_struct tss_struct ≤ 2 ^ 32 →
  ∃ mem', tss_install tss mem = Ret mem' ∧ read_field mem' tss_struct tss "ss0" = Some 0x08 ∧
    ∀ f, f ∈ slots tss_struct → slot_name f ≠ "ss0"%string → read_slot mem' tss f = read_slot mem tss f.
Proof.
  intros Hp Hend. set (ss0 := Slot "ss0" CU16 8).
  assert (Hin : ss0 ∈ slots tss_struct) by (apply (bool_decide_eq_true_1 _); by vm_compute).
  exists (write_slot mem tss ss0 0x08). unfold tss_install, read_field.
  change (find_slot tss_struct "ss0") with (Some ss0). destruct (Z.eqb_spec tss 0); [lia|]. split; [done|]. split.
  - cbn [fmap option_fmap option_map]. f_equal. rewrite (read_write_slot tss_struct) by (done || lia). done.
  - intros f Hf Hne. apply (read_write_other tss_struct); [lia|done|done|done|]. intros <-. by apply Hne.
Qed.
