(* ===== verification/Stubs.v ===== *)
(** The interrupt stubs [kernel/arch/i386/isrstub.asm] and [irqstub.asm],
    instruction by instruction, from the moment the processor takes an
    interrupt to the [iret], and the structure [i386_registers] of [isr.h]
    that they build on the stack. *)
From stdpp Require Import base numbers list functions strings.
From Stdlib Require Import ZArith Lia String.
From S2P Require Import Prelude Meminfo Layout Interrupts.

Open Scope Z_scope.

(** * The processor, as far as this code sees it *)

Inductive reg32 := EAX | ECX | EDX | EBX | ESP | EBP | ESI | EDI.
Inductive segreg := CS | DS | ES | FS | GS | SS.

#[export] Instance reg32_eq_dec : EqDecision reg32.
Proof. solve_decision. Defined.
#[export] Instance segreg_eq_dec : EqDecision segreg.
Proof. solve_decision. Defined.

Record cpu := Cpu {
  regs : reg32 → Z;
  segs : segreg → Z;
  eflags : Z;
  ip : Z;
  ram : boot_mem
}.

Definition set_reg (r : reg32) (v : Z) (c : cpu) : cpu :=
  Cpu (<[r := v]> (regs c)) (segs c) (eflags c) (ip c) (ram c).
Definition set_seg (s : segreg) (v : Z) (c : cpu) : cpu :=
  Cpu (regs c) (<[s := v]> (segs c)) (eflags c) (ip c) (ram c).
Definition set_flags (v : Z) (c : cpu) : cpu := Cpu (regs c) (segs c) v (ip c) (ram c).
Definition set_ip (v : Z) (c : cpu) : cpu := Cpu (regs c) (segs c) (eflags c) v (ram c).

(** [n] bytes of [v] at the new top of the stack, which moves by a word. *)
Definition push_bytes (n : nat) (v : Z) (c : cpu) : cpu :=
  let sp := regs c ESP ⊖ 4 in
  Cpu (<[ESP := sp]> (regs c)) (segs c) (eflags c) (ip c) (write_le (ram c) n sp v).
Definition push (v : Z) (c : cpu) : cpu := push_bytes 4 v c.
Definition pop (c : cpu) : Z * cpu :=
  (read_le (ram c) 4 (regs c ESP), set_reg ESP (regs c ESP ⊕ 4) c).

(** The instructions of the two files. *)
Inductive instruction :=
  | cli
  | push_byte (v : Z)
  | pusha
  | popa
  | push_seg (s : segreg)
  | pop_seg (s : segreg)
  | mov_ax (v : Z)
  | mov_seg_ax (s : segreg)
  | mov (r r' : reg32)
  | mov_imm (r : reg32) (v : Z)
  | push_reg (r : reg32)
  | pop_reg (r : reg32)
  | call (r : reg32)
  | add_esp (v : Z)
  | jmp_common                      (** to the common stub of the file *)
  | iret.

(** * The code *)

(** [_isr0] to [_isr31]. *)
Definition isr_stub (n : Z) : list instruction :=
  if n =? 7 then [cli; push_byte 0; jmp_common; push_byte 7]
  else if (n =? 8) || ((10 <=? n) && (n <=? 14)) then [cli; push_byte n; jmp_common]
  else (if n <=? 26 then [cli] else []) ++ [push_byte 0; push_byte n; jmp_common].

(** [_irq0] to [_irq15]. *)
Definition irq_stub (line : Z) : list instruction := [cli; push_byte 0; push_byte (32 + line); jmp_common].

(** [isr_common_stub] and [irq_common_stub], which differ in the handler they
    call; up to the call, and from there on. *)
Definition common_entry (handler : Z) : list instruction :=
  [pusha; push_seg DS; push_seg ES; push_seg FS; push_seg GS;
   mov_ax 0x10; mov_seg_ax DS; mov_seg_ax ES; mov_seg_ax FS; mov_seg_ax GS;
   mov EAX ESP; push_reg EAX; mov_imm EAX handler].
Definition common_exit : list instruction :=
  [pop_reg EAX; pop_seg GS; pop_seg FS; pop_seg ES; pop_seg DS; popa; add_esp 8; iret].
Definition common_stub_code (handler : Z) : list instruction :=
  common_entry handler ++ [call EAX] ++ common_exit.

(** What runs: the stub up to its jump, then the common stub. *)
Fixpoint follow (common code : list instruction) : list instruction :=
  match code with
  | [] => []
  | jmp_common :: _ => common
  | i :: rest => i :: follow common rest
  end.

(** * Running it

    Functions are known by their addresses.  A segment register is pushed as a
    word whose upper half is zero or, on other processors, stays what memory
    held: [zero_extends] tells which. *)
Section run.
Context (function : Z → cpu → outcome cpu) (zero_extends : bool) (return_address : Z).

Definition step (i : instruction) (c : cpu) : outcome cpu :=
  match i with
  | cli => Ret (set_flags (Z.clearbit (eflags c) 9) c)
  | push_byte v => Ret (push v c)
  | pusha =>
      let sp := regs c ESP in
      Ret (foldl (λ c v, push v c) c
             [regs c EAX; regs c ECX; regs c EDX; regs c EBX; sp; regs c EBP; regs c ESI; regs c EDI])
  | popa =>
      let take r c := let '(v, c') := pop c in set_reg r v c' in
      let skip c := snd (pop c) in
      Ret (take EAX (take ECX (take EDX (take EBX (skip (take EBP (take ESI (take EDI c))))))))
  | push_seg s => Ret (push_bytes (if zero_extends then 4 else 2) (segs c s) c)
  | pop_seg s => let '(v, c') := pop c in Ret (set_seg s (v mod 2 ^ 16) c')
  | mov_ax v => Ret (set_reg EAX (regs c EAX - regs c EAX mod 2 ^ 16 + v) c)
  | mov_seg_ax s => Ret (set_seg s (regs c EAX mod 2 ^ 16) c)
  | mov r r' => Ret (set_reg r (regs c r') c)
  | mov_imm r v => Ret (set_reg r v c)
  | push_reg r => Ret (push (regs c r) c)
  | pop_reg r => let '(v, c') := pop c in Ret (set_reg r v c')
  | call r => function (regs c r) (push return_address c)
  | add_esp v => Ret (set_reg ESP (regs c ESP ⊕ v) c)
  | jmp_common => Fault
  | iret =>
      let '(new_ip, c1) := pop c in
      let '(new_cs, c2) := pop c1 in
      let '(new_flags, c3) := pop c2 in
      Ret (set_ip new_ip (set_seg CS (new_cs mod 2 ^ 16) (set_flags new_flags c3)))
  end.

Fixpoint straight (code : list instruction) (c : cpu) : outcome cpu :=
  match code with
  | [] => Ret c
  | i :: rest => c' ← step i c; straight rest c'
  end.
End run.

(** The processor takes interrupt [n] through an interrupt gate with selector
    8, at the privilege of the kernel: it pushes flags, code segment and
    instruction pointer and, for some exceptions, an error code, and clears the
    flags IF, TF, NT and RF. *)
Definition deliver (n err : Z) (c : cpu) : cpu :=
  let c1 := push (ip c) (push (segs c CS) (push (eflags c) c)) in
  let c2 := if has_error_code n then push err c1 else c1 in
  set_seg CS 8 (set_flags (Z.ldiff (eflags c) (2 ^ 9 + 2 ^ 8 + 2 ^ 14 + 2 ^ 16)) c2).

(** The code for the 48 vectors in use, and what its stub pushes. *)
Definition stub_code (fault_handler irq_handler n : Z) : list instruction :=
  if n <? 32 then follow (common_stub_code fault_handler) (isr_stub n)
  else follow (common_stub_code irq_handler) (irq_stub (n - 32)).
Definition handler_of (fault_handler irq_handler n : Z) : Z := if n <? 32 then fault_handler else irq_handler.
Definition stub_push (n : Z) (stack : list Z) : list Z :=
  if n <? 32 then isr_stub_push n stack else irq_stub_push (n - 32) stack.

(** * Specification *)

(** The words [ws], the topmost first, lie on a stack whose pointer was [top]. *)
Record stacked (top : Z) (c : cpu) (ws : list Z) : Prop := Stacked {
  st_top : 80 ≤ top < 2 ^ 32;
  st_room : (List.length ws ≤ 20)%nat;
  st_esp : regs c ESP = top - 4 * Z.of_nat (List.length ws);
  st_words : ∀ i w, ws !! i = Some w → read_le (ram c) 4 (regs c ESP + 4 * Z.of_nat i) = w
}.

(** What the stubs need of a handler compiled from C: it returns, pops its
    return address, and keeps the stack segment and the stack above its
    argument. *)
Definition handler_returns (f : cpu → outcome cpu) : Prop :=
  ∀ top c ret arg ws, stacked top c (ret :: arg :: ws) →
    wp (f c) (λ c', segs c' SS = segs c SS ∧ ∃ x, stacked top c' (x :: ws)).

Record cpu_typed (c : cpu) : Prop := CpuTyped {
  ct_regs : ∀ r, is_u32 (regs c r);
  ct_segs : ∀ s, 0 ≤ segs c s < 2 ^ 16;
  ct_flags : is_u32 (eflags c);
  ct_ip : is_u32 (ip c)
}.

Definition same_cpu (c c' : cpu) : Prop :=
  (∀ r, regs c' r = regs c r) ∧ (∀ s, segs c' s = segs c s) ∧ eflags c' = eflags c ∧ ip c' = ip c.

(** * Lemmas *)

(** ** Words in memory *)

Lemma read_le_bounds m n a : 0 ≤ read_le m n a < 2 ^ (8 * Z.of_nat n).
Proof.
  revert a. induction n as [|n IH]; intros a; [by simpl|].
  replace (8 * Z.of_nat (S n)) with (8 + 8 * Z.of_nat n) by lia. rewrite Z.pow_add_r by lia.
  change (2 ^ 8) with 256. cbn [read_le]. specialize (IH (a + 1)).
  pose proof (Z.mod_pos_bound (m (u32 a)) 256 ltac:(lia)). nia.
Qed.

Lemma read_le_low m a : read_le m 4 a mod 2 ^ 16 = read_le m 2 a.
Proof.
  pose proof (read_le_bounds m 2 a) as Hb. symmetry.
  apply (Z.mod_unique_pos _ _ (read_le m 2 (a + 1 + 1))); [exact Hb|]. cbn [read_le].
  change (2 ^ 16) with 65536. ring.
Qed.

Lemma read_after_write m n a v k b :
  0 ≤ a → a + Z.of_nat n ≤ 2 ^ 32 → 0 ≤ b → b + Z.of_nat k ≤ 2 ^ 32 →
  b + Z.of_nat k ≤ a ∨ a + Z.of_nat n ≤ b → read_le (write_le m n a v) k b = read_le m k b.
Proof.
  intros Ha Hn Hb Hk Hd. apply read_le_ext; [done|done|]. intros x Hx.
  apply write_le_other; [done|done|]. lia.
Qed.

(** ** The stack *)

Section stack.
Context (top : Z).
Local Abbreviation stacked := (stacked top).

Lemma stacked_same c c' ws :
  stacked c ws → regs c' ESP = regs c ESP → ram c' = ram c → stacked c' ws.
Proof. intros [H1 H2 H3 H4] Hsp Hm. split; [done|done|congruence|]. by rewrite Hsp, Hm. Qed.

Lemma stacked_push_bytes n v c ws :
  stacked c ws → (List.length ws < 20)%nat → (1 ≤ n ≤ 4)%nat →
  stacked (push_bytes n v c) (read_le (ram (push_bytes n v c)) 4 (regs c ESP - 4) :: ws).
Proof.
  intros [H1 H2 H3 H4] Hl Hn. unfold push_bytes. cbn [ram regs].
  assert (Hsp : regs c ESP ⊖ 4 = regs c ESP - 4) by (apply u32_small; u32_lia).
  rewrite Hsp. split; cbn [ram regs List.length]; [done|lia|rewrite fn_lookup_insert; lia|].
  rewrite fn_lookup_insert. intros [|i] w Hw; cbn in Hw.
  - injection Hw as <-. change (4 * Z.of_nat 0) with 0. by rewrite Z.add_0_r.
  - pose proof (lookup_lt_Some _ _ _ Hw).
    replace (regs c ESP - 4 + 4 * Z.of_nat (S i)) with (regs c ESP + 4 * Z.of_nat i) by lia.
    rewrite read_after_write by lia. by apply H4.
Qed.

Lemma stacked_push v c ws :
  stacked c ws → (List.length ws < 20)%nat → is_u32 v → stacked (push v c) (v :: ws).
Proof.
  intros Hc Hl Hv. pose proof (stacked_push_bytes 4 v c ws Hc Hl ltac:(lia)) as H.
  destruct Hc as [H1 H2 H3 H4]. unfold push. replace v with (read_le (ram (push_bytes 4 v c)) 4 (regs c ESP - 4)) at 2; [done|].
  unfold push_bytes. cbn [ram]. rewrite u32_small by u32_lia. rewrite read_write_le by lia.
  change (2 ^ (8 * Z.of_nat 4)) with (2 ^ 32). by apply u32_small.
Qed.

Lemma stacked_push_seg zx v c ws :
  stacked c ws → (List.length ws < 20)%nat → 0 ≤ v < 2 ^ 16 →
  ∃ w, w mod 2 ^ 16 = v ∧ stacked (push_bytes (if zx : bool then 4 else 2) v c) (w :: ws).
Proof.
  intros Hc Hl Hv. eexists. split; [|apply stacked_push_bytes; [done|done|destruct zx; lia]].
  destruct Hc as [H1 H2 H3 H4]. unfold push_bytes. cbn [ram]. rewrite u32_small by u32_lia.
  rewrite read_le_low. destruct zx.
  - rewrite <- read_le_low, read_write_le by lia. change (2 ^ (8 * Z.of_nat 4)) with (2 ^ 32).
    rewrite (Z.mod_small v) by lia. by apply Z.mod_small.
  - rewrite read_write_le by lia. change (2 ^ (8 * Z.of_nat 2)) with (2 ^ 16). by apply Z.mod_small.
Qed.

Lemma stacked_pop c w ws :
  stacked c (w :: ws) → fst (pop c) = w ∧ stacked (snd (pop c)) ws.
Proof.
  intros [H1 H2 H3 H4]. unfold pop. cbn [fst snd List.length] in *. split.
  - rewrite <- (H4 0%nat w eq_refl). change (4 * Z.of_nat 0) with 0. by rewrite Z.add_0_r.
  - split; [done|lia| |]; cbn [regs set_reg ram]; rewrite fn_lookup_insert; rewrite u32_small by u32_lia; [lia|].
    intros i x Hx. rewrite <- (H4 (S i) x Hx). f_equal. lia.
Qed.

(** ** Instructions

    What is known of a state: the stack, the other registers and the segments. *)
Record tracks (c : cpu) (ws : list Z) (R : reg32 → Z) (S : segreg → Z) : Prop := Tracks {
  tr_stack : stacked c ws;
  tr_regs : ∀ r, r ≠ ESP → regs c r = R r;
  tr_segs : ∀ s, segs c s = S s
}.

Lemma tracks_push v c ws R S :
  tracks c ws R S → (List.length ws < 20)%nat → is_u32 v → tracks (push v c) (v :: ws) R S.
Proof.
  intros [H1 H2 H3] Hl Hv. split; [by apply stacked_push| |done].
  intros r Hr. unfold push, push_bytes. cbn [regs]. rewrite fn_lookup_insert_ne by done. by apply H2.
Qed.

Lemma tracks_push_seg zx s c ws R S :
  tracks c ws R S → (List.length ws < 20)%nat → 0 ≤ S s < 2 ^ 16 →
  ∃ w, w mod 2 ^ 16 = S s ∧ tracks (push_bytes (if zx : bool then 4 else 2) (segs c s) c) (w :: ws) R S.
Proof.
  intros [H1 H2 H3] Hl Hs. rewrite H3. destruct (stacked_push_seg zx (S s) c ws H1 Hl Hs) as (w & Hw & Hst).
  exists w. split; [done|]. split; [done| |done].
  intros r Hr. unfold push_bytes. cbn [regs]. rewrite fn_lookup_insert_ne by done. by apply H2.
Qed.

Lemma tracks_set_reg r v c ws R S :
  r ≠ ESP → tracks c ws R S → tracks (set_reg r v c) ws (<[r := v]> R) S.
Proof.
  intros Hr [H1 H2 H3]. split; [|intros r' Hr'; cbn [set_reg regs]|done].
  - eapply stacked_same; [done| |done]. cbn [set_reg regs]. by rewrite fn_lookup_insert_ne.
  - destruct (decide (r' = r)) as [->|]; [by rewrite !fn_lookup_insert|]. rewrite !fn_lookup_insert_ne by done. by apply H2.
Qed.

Lemma tracks_set_seg s v c ws R S : tracks c ws R S → tracks (set_seg s v c) ws R (<[s := v]> S).
Proof.
  intros [H1 H2 H3]. split; [by eapply stacked_same|done|]. intros s'. cbn [set_seg segs].
  destruct (decide (s' = s)) as [->|]; [by rewrite !fn_lookup_insert|]. by rewrite !fn_lookup_insert_ne by done.
Qed.

Lemma tracks_set_flags v c ws R S : tracks c ws R S → tracks (set_flags v c) ws R S.
Proof. intros [H1 H2 H3]. split; [by eapply stacked_same|done|done]. Qed.

Lemma tracks_pop c w ws R S : tracks c (w :: ws) R S → ∃ c', pop c = (w, c') ∧ tracks c' ws R S.
Proof.
  intros [H1 H2 H3]. destruct (stacked_pop _ _ _ H1) as [Hw Hst]. exists (snd (pop c)).
  split; [by rewrite <- Hw, <- surjective_pairing|]. split; [done| |done].
  intros r Hr. cbn [pop snd set_reg regs]. rewrite fn_lookup_insert_ne by done. by apply H2.
Qed.

Lemma tracks_esp c ws R S : tracks c ws R S → regs c ESP = top - 4 * Z.of_nat (List.length ws).
Proof. intros [[] _ _]. done. Qed.

(** [pusha] and [popa]. *)
Definition saved_regs (R : reg32 → Z) (sp : Z) : list Z := [R EDI; R ESI; R EBP; sp; R EBX; R EDX; R ECX; R EAX].

Lemma pusha_tracks function zx ra c ws R S :
  tracks c ws R S → (List.length ws ≤ 12)%nat → (∀ r, is_u32 (R r)) →
  ∃ c', step function zx ra pusha c = Ret c' ∧ eflags c' = eflags c ∧
    tracks c' (saved_regs R (top - 4 * Z.of_nat (List.length ws)) ++ ws) R S.
Proof.
  intros Hc Hl HR. eexists. split; [reflexivity|]. split; [done|]. cbn [foldl saved_regs app].
  pose proof (tracks_esp _ _ _ _ Hc) as Hsp. rewrite Hsp, !(tr_regs _ _ _ _ Hc) by done.
  pose proof (st_top _ _ _ (tr_stack _ _ _ _ Hc)) as Htop.
  repeat (apply tracks_push; [|cbn [List.length]; lia|first [apply HR|unfold is_u32; lia]]). done.
Qed.

Lemma popa_tracks function zx ra c edi esi ebp x ebx edx ecx eax ws R S :
  tracks c ([edi; esi; ebp; x; ebx; edx; ecx; eax] ++ ws) R S →
  ∃ c', step function zx ra popa c = Ret c' ∧
    tracks c' ws (<[EAX := eax]> (<[ECX := ecx]> (<[EDX := edx]> (<[EBX := ebx]>
      (<[EBP := ebp]> (<[ESI := esi]> (<[EDI := edi]> R))))))) S.
Proof.
  intros Hc. cbn [step].
  destruct (tracks_pop _ _ _ _ _ Hc) as (c1 & -> & H1). apply (tracks_set_reg EDI edi) in H1; [|done].
  destruct (tracks_pop _ _ _ _ _ H1) as (c2 & -> & H2). apply (tracks_set_reg ESI esi) in H2; [|done].
  destruct (tracks_pop _ _ _ _ _ H2) as (c3 & -> & H3). apply (tracks_set_reg EBP ebp) in H3; [|done].
  destruct (tracks_pop _ _ _ _ _ H3) as (c4 & -> & H4). cbn [snd].
  destruct (tracks_pop _ _ _ _ _ H4) as (c5 & -> & H5). apply (tracks_set_reg EBX ebx) in H5; [|done].
  destruct (tracks_pop _ _ _ _ _ H5) as (c6 & -> & H6). apply (tracks_set_reg EDX edx) in H6; [|done].
  destruct (tracks_pop _ _ _ _ _ H6) as (c7 & -> & H7). apply (tracks_set_reg ECX ecx) in H7; [|done].
  destruct (tracks_pop _ _ _ _ _ H7) as (c8 & -> & H8). apply (tracks_set_reg EAX eax) in H8; [|done].
  eexists. split; [reflexivity|done].
Qed.
End stack.

(** ** The common stub *)

Lemma straight_app function zx ra code code' c :
  straight function zx ra (code ++ code') c = c' ← straight function zx ra code c; straight function zx ra code' c'.
Proof.
  revert c. induction code as [|i code IH]; intros c; [done|]. simpl.
  destruct (step function zx ra i c); [apply IH|done..].
Qed.

Lemma data_selector x : (x - x mod 2 ^ 16 + 16) mod 2 ^ 16 = 16.
Proof.
  replace (x - x mod 2 ^ 16 + 16) with (16 + x / 2 ^ 16 * 2 ^ 16); [by rewrite Z_mod_plus_full|].
  pose proof (Z.div_mod x (2 ^ 16)). lia.
Qed.

(** Up to the call: the registers are saved, the data segments are those of
    the kernel, and the pointer to the saved registers is on top. *)
Lemma common_entry_run top function zx ra handler c ws R S :
  tracks top c ws R S → (List.length ws ≤ 6)%nat → (∀ r, is_u32 (R r)) → (∀ s, 0 ≤ S s < 2 ^ 16) →
  ∃ c' gs fs es ds, straight function zx ra (common_entry handler) c = Ret c' ∧
    tracks top c' (top - 4 * (12 + Z.of_nat (List.length ws)) :: gs :: fs :: es :: ds ::
                   saved_regs R (top - 4 * Z.of_nat (List.length ws)) ++ ws)
      (<[EAX := handler]> R) (<[GS := 16]> (<[FS := 16]> (<[ES := 16]> (<[DS := 16]> S)))) ∧
    eflags c' = eflags c ∧
    gs mod 2 ^ 16 = S GS ∧ fs mod 2 ^ 16 = S FS ∧ es mod 2 ^ 16 = S ES ∧ ds mod 2 ^ 16 = S DS.
Proof.
  intros Hc Hl HR HS. pose proof (st_top _ _ _ (tr_stack _ _ _ _ _ Hc)) as Htop.
  destruct (pusha_tracks top function zx ra c ws R S Hc ltac:(lia) HR) as (c1 & Hp & Hf1 & H1).
  destruct (tracks_push_seg top zx DS c1 _ R S H1) as (ds & Hds & H2); [simpl; lia|done|].
  destruct (tracks_push_seg top zx ES _ _ R S H2) as (es & Hes & H3); [simpl; lia|done|].
  destruct (tracks_push_seg top zx FS _ _ R S H3) as (fs & Hfs & H4); [simpl; lia|done|].
  destruct (tracks_push_seg top zx GS _ _ R S H4) as (gs & Hgs & H5); [simpl; lia|done|].
  match type of H5 with tracks _ ?x _ _ _ => set (c5 := x) in H5 end.
  assert (Hf5 : eflags c5 = eflags c) by exact Hf1.
  apply (tracks_set_reg top EAX (regs c5 EAX - regs c5 EAX mod 2 ^ 16 + 16)) in H5; [|done].
  match type of H5 with tracks _ ?x _ _ _ => set (c6 := x) in H5 end.
  assert (Hax : regs c6 EAX mod 2 ^ 16 = 16) by (subst c6; cbn [set_reg regs]; rewrite fn_lookup_insert; apply data_selector).
  assert (H6 : tracks top (set_seg GS 16 (set_seg FS 16 (set_seg ES 16 (set_seg DS 16 c6))))
    (gs :: fs :: es :: ds :: saved_regs R (top - 4 * Z.of_nat (List.length ws)) ++ ws)
    (<[EAX := regs c5 EAX - regs c5 EAX mod 2 ^ 16 + 16]> R)
    (<[GS := 16]> (<[FS := 16]> (<[ES := 16]> (<[DS := 16]> S))))) by (by do 4 apply tracks_set_seg).
  set (c7 := set_seg GS 16 _) in H6. pose proof (tracks_esp _ _ _ _ _ H6) as Hsp.
  cbn [List.length saved_regs app] in Hsp.
  apply (tracks_set_reg top EAX (regs c7 ESP)) in H6; [|done].
  apply (tracks_push top (regs c7 ESP)) in H6; [|simpl; lia|rewrite Hsp; unfold is_u32; lia].
  apply (tracks_set_reg top EAX handler) in H6; [|done].
  match type of H6 with tracks _ ?x _ _ _ => set (c8 := x) in H6 end.
  exists c8, gs, fs, es, ds. split; [|split; [|split; [exact Hf5|done]]].
  - unfold common_entry. cbn [straight]. rewrite Hp, Ret_bind. cbn [step]. rewrite !Ret_bind.
    fold c5. cbn [regs set_seg]. fold c6. rewrite Hax. fold c7. reflexivity.
  - destruct H6 as [T1 T2 T3]. split; [|intros r Hr; rewrite T2 by done; destruct r; try done|done].
    replace (top - 4 * (12 + Z.of_nat (List.length ws))) with (regs c7 ESP) by (rewrite Hsp; lia). exact T1.
Qed.

(** After the call, down to what [popa] leaves. *)
Lemma restore_run top function zx ra c x gs fs es ds edi esi ebp y ebx edx ecx eax ws R S :
  tracks top c (x :: gs :: fs :: es :: ds :: [edi; esi; ebp; y; ebx; edx; ecx; eax] ++ ws) R S →
  ∃ c', straight function zx ra common_exit c = straight function zx ra [add_esp 8; iret] c' ∧
    tracks top c' ws (<[EAX := eax]> (<[ECX := ecx]> (<[EDX := edx]> (<[EBX := ebx]>
      (<[EBP := ebp]> (<[ESI := esi]> (<[EDI := edi]> (<[EAX := x]> R))))))))
      (<[DS := ds mod 2 ^ 16]> (<[ES := es mod 2 ^ 16]> (<[FS := fs mod 2 ^ 16]> (<[GS := gs mod 2 ^ 16]> S)))).
Proof.
  intros Hc. unfold common_exit. cbn [straight step].
  destruct (tracks_pop _ _ _ _ _ _ Hc) as (c0 & -> & H0). apply (tracks_set_reg top EAX x) in H0; [|done]. rewrite Ret_bind.
  destruct (tracks_pop _ _ _ _ _ _ H0) as (c1 & -> & H1). apply (tracks_set_seg top GS (gs mod 2 ^ 16)) in H1. rewrite Ret_bind.
  destruct (tracks_pop _ _ _ _ _ _ H1) as (c2 & -> & H2). apply (tracks_set_seg top FS (fs mod 2 ^ 16)) in H2. rewrite Ret_bind.
  destruct (tracks_pop _ _ _ _ _ _ H2) as (c3 & -> & H3). apply (tracks_set_seg top ES (es mod 2 ^ 16)) in H3. rewrite Ret_bind.
  destruct (tracks_pop _ _ _ _ _ _ H3) as (c4 & -> & H4). apply (tracks_set_seg top DS (ds mod 2 ^ 16)) in H4. rewrite Ret_bind.
  destruct (popa_tracks top function zx ra _ _ _ _ _ _ _ _ _ _ _ _ H4) as (c5 & Hpop & H5).
  cbn [step] in Hpop. rewrite Hpop, Ret_bind. exists c5. split; [done|exact H5].
Qed.

Lemma tracks_drop2 top c a b ws R S :
  tracks top c (a :: b :: ws) R S → tracks top (set_reg ESP (regs c ESP ⊕ 8) c) ws R S.
Proof.
  intros Hc. pose proof (tracks_esp _ _ _ _ _ Hc) as Hsp. pose proof (st_top _ _ _ (tr_stack _ _ _ _ _ Hc)) as Htop.
  destruct Hc as [[H1 H2 H3 H4] H5 H6]. cbn [List.length] in *. split; [split| |done]; cbn [set_reg regs ram].
  - done.
  - lia.
  - rewrite fn_lookup_insert, u32_small by u32_lia. lia.
  - intros i w Hw. rewrite fn_lookup_insert, u32_small by u32_lia. rewrite <- (H4 (Datatypes.S (Datatypes.S i)) w Hw). f_equal. lia.
  - intros r Hr. rewrite fn_lookup_insert_ne by done. by apply H5.
Qed.

(** The end, when the three words of the interrupted code follow. *)
Lemma return_run top function zx ra c a b i cs fl ws R S :
  tracks top c (a :: b :: i :: cs :: fl :: ws) R S →
  ∃ c', straight function zx ra [add_esp 8; iret] c = Ret c' ∧ ip c' = i ∧ eflags c' = fl ∧
    tracks top c' ws R (<[CS := cs mod 2 ^ 16]> S).
Proof.
  intros Hc. cbn [straight step]. rewrite Ret_bind. apply tracks_drop2 in Hc.
  destruct (tracks_pop _ _ _ _ _ _ Hc) as (c1 & -> & H1). destruct (tracks_pop _ _ _ _ _ _ H1) as (c2 & -> & H2).
  destruct (tracks_pop _ _ _ _ _ _ H2) as (c3 & -> & H3). rewrite Ret_bind. eexists. split; [reflexivity|].
  split; [done|]. split; [done|]. apply (tracks_set_flags top fl), (tracks_set_seg top CS (cs mod 2 ^ 16)) in H3.
  destruct H3 as [T1 T2 T3]. split; [by eapply stacked_same|done|done].
Qed.

(** The end, when one word is missing. *)
Lemma return_short top function zx ra c a b i cs R S :
  tracks top c [a; b; i; cs] R S →
  ∃ c', straight function zx ra [add_esp 8; iret] c = Ret c' ∧ ip c' = i ∧ segs c' CS = cs mod 2 ^ 16 ∧
    regs c' ESP = top ⊕ 4.
Proof.
  intros Hc. cbn [straight step]. rewrite Ret_bind. apply tracks_drop2 in Hc.
  destruct (tracks_pop _ _ _ _ _ _ Hc) as (c1 & -> & H1). destruct (tracks_pop _ _ _ _ _ _ H1) as (c2 & -> & H2).
  pose proof (tracks_esp _ _ _ _ _ H2) as Hsp. simpl in Hsp. rewrite Z.sub_0_r in Hsp.
  unfold pop. rewrite Ret_bind. eexists. split; [reflexivity|]. split; [done|]. cbn. rewrite !fn_lookup_insert, Hsp. done.
Qed.

(** ** From the interrupt to the common stub *)

Lemma deliver_tracks n err c :
  cpu_typed c → 80 ≤ regs c ESP → is_u32 err →
  tracks (regs c ESP) (deliver n err c) (cpu_frame n err (ip c) (segs c CS) (eflags c)) (regs c) (<[CS := 8]> (segs c)) ∧
  Z.testbit (eflags (deliver n err c)) 9 = false.
Proof.
  intros [T1 T2 T3 T4] Hsp Herr. pose proof (T1 ESP) as Hu. unfold is_u32 in Hu.
  assert (Hc : tracks (regs c ESP) c [] (regs c) (segs c)).
  { split; [split; [lia|simpl; lia|simpl; lia|done]|done|done]. }
  apply (tracks_push _ (eflags c)) in Hc; [|simpl; lia|done].
  apply (tracks_push _ (segs c CS)) in Hc; [|simpl; lia|pose proof (T2 CS); unfold is_u32; lia].
  apply (tracks_push _ (ip c)) in Hc; [|simpl; lia|done].
  unfold deliver, cpu_frame. split.
  - apply tracks_set_seg, tracks_set_flags. destruct (has_error_code n); [|done].
    apply tracks_push; [done|simpl; lia|done].
  - cbn [eflags set_flags set_seg]. rewrite Z.ldiff_spec by lia. by rewrite andb_false_r.
Qed.

(** What a stub does before its jump. *)
Lemma stub_run top function zx ra fault_handler irq_handler n c ws R S :
  tracks top c ws R S → (List.length ws ≤ 4)%nat → 0 ≤ n < 48 → Z.testbit (eflags c) 9 = false →
  ∃ c', straight function zx ra (stub_code fault_handler irq_handler n) c =
      straight function zx ra (common_stub_code (handler_of fault_handler irq_handler n)) c' ∧
    tracks top c' (stub_push n ws) R S ∧ Z.testbit (eflags c') 9 = false.
Proof.
  intros Hc Hl Hn Hi.
  assert (Hcli : tracks top (set_flags (Z.clearbit (eflags c) 9) c) ws R S ∧
            Z.testbit (eflags (set_flags (Z.clearbit (eflags c) 9) c)) 9 = false).
  { split; [by apply tracks_set_flags|]. cbn [eflags set_flags]. apply Z.clearbit_eq. }
  assert (Hone : ∀ c v, is_u32 v → tracks top c ws R S → tracks top (push v c) (v :: ws) R S)
    by (intros; apply tracks_push; [done|lia|done]).
  assert (Htwo : ∀ c v, is_u32 v → tracks top c ws R S → tracks top (push v (push 0 c)) (v :: 0 :: ws) R S).
  { intros c0 v Hv H. apply tracks_push; [|simpl; lia|done]. apply Hone; [u32_lia|done]. }
  assert (Hrun : ∀ common pre c', straight function zx ra pre c = Ret c' →
            straight function zx ra (pre ++ common) c = straight function zx ra common c').
  { intros common pre c' Hpre. by rewrite straight_app, Hpre. }
  unfold stub_code, handler_of, stub_push, isr_stub, isr_stub_push, irq_stub, irq_stub_push.
  destruct (Z.ltb_spec n 32).
  - generalize (common_stub_code fault_handler). intros common. destruct (Z.eqb_spec n 7).
    { eexists. split; [by apply (Hrun common [cli; push_byte 0])|]. split; [apply Hone; [u32_lia|apply Hcli]|apply Hcli]. }
    destruct ((n =? 8) || ((10 <=? n) && (n <=? 14))).
    { eexists. split; [by apply (Hrun common [cli; push_byte n])|]. split; [apply Hone; [u32_lia|apply Hcli]|apply Hcli]. }
    destruct (n <=? 26).
    + eexists. split; [by apply (Hrun common [cli; push_byte 0; push_byte n])|].
      split; [apply Htwo; [u32_lia|apply Hcli]|apply Hcli].
    + eexists. split; [by apply (Hrun common [push_byte 0; push_byte n])|]. split; [apply Htwo; [u32_lia|done]|done].
  - generalize (common_stub_code irq_handler). intros common.
    eexists. split; [by apply (Hrun common [cli; push_byte 0; push_byte (32 + (n - 32))])|].
    split; [apply Htwo; [u32_lia|apply Hcli]|apply Hcli].
Qed.

(** ** What the handler finds *)

Lemma field_word top c ra p frame name k w :
  stacked top c (ra :: p :: frame) → p = regs c ESP + 8 →
  find_slot i386_registers_struct name = Some (Slot name CU32 (4 * Z.of_nat k)) → frame !! k = Some w →
  read_field (ram c) i386_registers_struct p name = Some w.
Proof.
  intros [_ _ _ H] -> Hslot Hw. unfold read_field. rewrite Hslot. cbn [fmap option_fmap option_map]. f_equal.
  unfold read_slot. cbn [slot_type slot_offset sizeof]. change (Z.to_nat 4) with 4%nat.
  rewrite <- (H (Datatypes.S (Datatypes.S k)) w Hw). f_equal. lia.
Qed.

(** * Theorem *)

Definition general_registers : list (string * reg32) :=
  [("edi", EDI); ("esi", ESI); ("ebp", EBP); ("ebx", EBX); ("edx", EDX); ("ecx", ECX); ("eax", EAX)]%string.
Definition data_segments : list (string * segreg) := [("gs", GS); ("fs", FS); ("es", ES); ("ds", DS)]%string.

(** What a handler is given: the registers of the interrupted code [c] in the
    structure of [isr.h], above the vector and the error code of the model of
    the dispatch. *)
Definition handler_finds (n err : Z) (c c1 : cpu) : Prop :=
  let field := read_field (ram c1) i386_registers_struct (read_le (ram c1) 4 (regs c1 ESP + 4)) in
  (∀ name r, (name, r) ∈ general_registers → field name = Some (regs c r)) ∧
  (∀ name s, (name, s) ∈ data_segments → ∃ w, field name = Some w ∧ w mod 2 ^ 16 = segs c s) ∧
  (∃ r, common_stub (regs c ESP - 4 * Z.of_nat (List.length (stub_push n (cpu_frame n err (ip c) (segs c CS) (eflags c)))))
          (stub_push n (cpu_frame n err (ip c) (segs c CS) (eflags c))) = Ret r ∧
     field "int_no"%string = Some (int_no r) ∧ field "err_code"%string = Some (err_code r) ∧
     field "eip"%string = Some (eip r) ∧ field "esp"%string = Some (esp r)).

Section theorem.
Context (function : Z → cpu → outcome cpu) (zero_extends : bool) (return_address fault_handler irq_handler : Z).
Context (Hra : is_u32 return_address).

Lemma at_handler n err c :
  cpu_typed c → 80 ≤ regs c ESP → is_u32 err → 0 ≤ n < 48 →
  let ws := stub_push n (cpu_frame n err (ip c) (segs c CS) (eflags c)) in
  let handler := handler_of fault_handler irq_handler n in
  ∃ c1 p gs fs es ds R, straight function zero_extends return_address (stub_code fault_handler irq_handler n) (deliver n err c) =
      (c2 ← function handler c1; straight function zero_extends return_address common_exit c2) ∧
    tracks (regs c ESP) c1 (return_address :: p :: gs :: fs :: es :: ds ::
      saved_regs (regs c) (regs c ESP - 4 * Z.of_nat (List.length ws)) ++ ws) R
      (<[GS := 16]> (<[FS := 16]> (<[ES := 16]> (<[DS := 16]> (<[CS := 8]> (segs c)))))) ∧
    p = regs c1 ESP + 8 ∧ Z.testbit (eflags c1) 9 = false ∧
    gs mod 2 ^ 16 = segs c GS ∧ fs mod 2 ^ 16 = segs c FS ∧ es mod 2 ^ 16 = segs c ES ∧ ds mod 2 ^ 16 = segs c DS.
Proof.
  intros Ht Hsp Herr Hn ws handler. destruct (deliver_tracks n err c Ht Hsp Herr) as [H0 Hi0].
  assert (Hl0 : (List.length (cpu_frame n err (ip c) (segs c CS) (eflags c)) ≤ 4)%nat)
    by (unfold cpu_frame; case_match; simpl; lia).
  destruct (stub_run _ function zero_extends return_address fault_handler irq_handler n _ _ _ _ H0 Hl0 Hn Hi0)
    as (c1 & Hrun & H1 & Hi1). fold ws in H1.
  assert (Hl1 : (List.length ws ≤ 6)%nat).
  { unfold ws, stub_push, isr_stub_push, irq_stub_push. repeat case_match; simpl; lia. }
  destruct (common_entry_run _ function zero_extends return_address handler c1 ws _ _ H1 Hl1)
    as (c2 & gs & fs & es & ds & Hentry & H2 & Hf & Hgs & Hfs & Hes & Hds).
  { apply Ht. }
  { intros s. destruct (decide (s = CS)) as [->|]; [rewrite fn_lookup_insert; lia|].
    rewrite fn_lookup_insert_ne by done. apply Ht. }
  pose proof (tr_regs _ _ _ _ _ H2 EAX ltac:(done)) as Hax. rewrite fn_lookup_insert in Hax.
  apply (tracks_push _ return_address) in H2; [|simpl; lia|done].
  exists (push return_address c2). eexists _, gs, fs, es, ds, _. split; [|split; [exact H2|split; [|split]]].
  - rewrite Hrun. unfold common_stub_code. fold handler. rewrite straight_app, Hentry, Ret_bind.
    rewrite straight_app. cbn [straight step]. rewrite Hax. by destruct (function handler _).
  - rewrite (tracks_esp _ _ _ _ _ H2). simpl List.length. rewrite ?length_app. simpl. lia.
  - change (eflags (push return_address c2)) with (eflags c2). by rewrite Hf.
  - by rewrite fn_lookup_insert_ne in Hgs, Hfs, Hes, Hds by done.
Qed.

(** The members of the structure, from the words of the stack. *)
Lemma finds_fields n err c c1 ra p gs fs es ds R S :
  let ws := stub_push n (cpu_frame n err (ip c) (segs c CS) (eflags c)) in
  tracks (regs c ESP) c1 (ra :: p :: gs :: fs :: es :: ds ::
    saved_regs (regs c) (regs c ESP - 4 * Z.of_nat (List.length ws)) ++ ws) R S →
  p = regs c1 ESP + 8 →
  gs mod 2 ^ 16 = segs c GS → fs mod 2 ^ 16 = segs c FS → es mod 2 ^ 16 = segs c ES → ds mod 2 ^ 16 = segs c DS →
  handler_finds n err c c1.
Proof.
  intros ws H1 Hp Hgs Hfs Hes Hds. pose proof (tr_stack _ _ _ _ _ H1) as Hst.
  assert (Harg : read_le (ram c1) 4 (regs c1 ESP + 4) = p) by (by apply (st_words _ _ _ Hst 1%nat)).
  unfold handler_finds. rewrite Harg. fold ws.
  pose proof (λ name k w, field_word _ _ _ _ _ name k w Hst Hp) as Hfield. split; [|split].
  - intros name r Hin. unfold general_registers in Hin. rewrite !elem_of_cons, elem_of_nil in Hin.
    destruct_or! Hin; try done; injection Hin as -> ->; [eapply (Hfield _ 4%nat)|eapply (Hfield _ 5%nat)
      |eapply (Hfield _ 6%nat)|eapply (Hfield _ 8%nat)|eapply (Hfield _ 9%nat)|eapply (Hfield _ 10%nat)
      |eapply (Hfield _ 11%nat)]; reflexivity.
  - intros name s Hin. unfold data_segments in Hin. rewrite !elem_of_cons, elem_of_nil in Hin.
    destruct_or! Hin; try done; injection Hin as -> ->.
    + exists gs. split; [by apply (Hfield _ 0%nat)|done].
    + exists fs. split; [by apply (Hfield _ 1%nat)|done].
    + exists es. split; [by apply (Hfield _ 2%nat)|done].
    + exists ds. split; [by apply (Hfield _ 3%nat)|done].
  - assert (Hws : ∃ w0 w1 w2 rest, ws = w0 :: w1 :: w2 :: rest).
    { unfold ws, stub_push, isr_stub_push, irq_stub_push, cpu_frame. repeat case_match; eauto. }
    destruct Hws as (w0 & w1 & w2 & rest & Hws). rewrite Hws in Hfield |- *.
    exists (Registers w0 w1 w2 (regs c ESP - 4 * Z.of_nat (List.length (w0 :: w1 :: w2 :: rest)))).
    split; [done|]. cbn [int_no err_code eip esp].
    split_and!; [by apply (Hfield _ 12%nat)|by apply (Hfield _ 13%nat)|by apply (Hfield _ 14%nat)|by apply (Hfield _ 7%nat)].
Qed.

(** The way back, for the stubs whose stack is in order. *)
Lemma resumes n err c c3 R :
  cpu_typed c → 0 ≤ n < 48 → n ≠ 7 → n ≠ 17 → R SS = segs c SS →
  tracks (regs c ESP) c3 (stub_push n (cpu_frame n err (ip c) (segs c CS) (eflags c))) (regs c)
    (<[DS := segs c DS]> (<[ES := segs c ES]> (<[FS := segs c FS]> (<[GS := segs c GS]> R)))) →
  wp (straight function zero_extends return_address [add_esp 8; iret] c3) (same_cpu c).
Proof.
  intros Ht Hn H7 H17 HR H3.
  assert (Hws : ∃ a b, stub_push n (cpu_frame n err (ip c) (segs c CS) (eflags c)) = [a; b; ip c; segs c CS; eflags c]).
  { unfold stub_push, isr_stub_push, irq_stub_push, cpu_frame, has_error_code.
    destruct (Z.eqb_spec n 7); [done|]. destruct (Z.eqb_spec n 17); [done|]. rewrite orb_false_r.
    destruct (Z.ltb_spec n 32).
    - destruct ((n =? 8) || ((10 <=? n) && (n <=? 14))); eauto.
    - assert ((n =? 8) || ((10 <=? n) && (n <=? 14)) = false) as -> by lia. eauto. }
  destruct Hws as (a & b & Hws). rewrite Hws in H3.
  destruct (return_run _ function zero_extends return_address _ _ _ _ _ _ _ _ _ H3) as (c4 & -> & H5 & H6 & H7').
  apply wp_ret. split; [|split; [|done]].
  - intros r. destruct (decide (r = ESP)) as [->|]; [rewrite (tracks_esp _ _ _ _ _ H7'); simpl; lia|].
    by apply (tr_regs _ _ _ _ _ H7').
  - intros s. rewrite (tr_segs _ _ _ _ _ H7'). destruct s; try done.
    rewrite fn_lookup_insert. apply Z.mod_small, Ht.
Qed.

End theorem.

(** A handler that clears every register but the stack pointer and changes its
    argument. *)
Definition careless (c : cpu) : outcome cpu :=
  Ret (Cpu (λ r, if decide (r = ESP) then regs c ESP + 4 else 0) (segs c) 0 (ip c)
         (write_le (ram c) 4 (regs c ESP + 4) 0xFFFFFFFF)).

Lemma careless_returns : handler_returns careless.
Proof.
  intros top c ret arg ws [H1 H2 H3 H4]. cbn [List.length] in *. split; [done|].
  exists 0xFFFFFFFF. split; cbn [regs ram List.length]; [done|lia| |].
  - rewrite decide_True by done. lia.
  - rewrite decide_True by done. intros [|i] w Hw; cbn in Hw.
    + injection Hw as <-. change (4 * Z.of_nat 0) with 0. rewrite Z.add_0_r, read_write_le by lia. done.
    + pose proof (lookup_lt_Some _ _ _ Hw). rewrite read_after_write by lia.
      rewrite <- (H4 (Datatypes.S (Datatypes.S i)) w Hw). f_equal. lia.
Qed.

(** The timer interrupts code whose registers count from 1. *)
Definition demo_cpu : cpu :=
  Cpu (λ r, match r with ESP => 0x9000 | EAX => 1 | ECX => 2 | EDX => 3 | EBX => 4 | EBP => 5 | ESI => 6 | EDI => 7 end)
    (λ s, match s with CS => 8 | _ => 16 end) 0x202 0x1234 (λ _, 0xAA).

