(* ===== verification/Tables.v ===== *)
(** The descriptor tables as the processor finds them in memory: what
    [gdtflush.asm] and [idtflush.asm] of [kernel/arch/i386/descriptors] load,
    instruction by instruction, and where an interrupt goes.

    The kernel writes its tables member by member, at the offsets of [gdt.h]
    and [idt.h]; the processor reads eight bytes and takes them apart as its
    manual says. *)
From stdpp Require Import base numbers list functions strings.
From Stdlib Require Import ZArith Lia String.
From S2P Require Import Prelude Ports Fields Meminfo Layout Descriptors Stubs.

Open Scope Z_scope.

(** * The processor *)

(** A segment as the processor keeps it: base, last offset, access byte. *)
Record segment := Segment { seg_base : Z; seg_last : Z; seg_access : Z }.

Record seg_cpu := SegCpu {
  selector : segreg → Z;
  cached : segreg → segment;
  ax : Z;
  gdt_register : table_ptr;
  idt_register : table_ptr
}.

Definition byte (mem : boot_mem) (a : Z) : Z := read_le mem 1 a.

(** A segment descriptor: the limit in bytes 0, 1 and the low half of byte 6,
    counted in pages if the top bit of byte 6 says so; the base in bytes 2 to 4
    and 7; the access byte is byte 5. *)
Definition decode_segment (mem : boot_mem) (a : Z) : segment :=
  let limit := read_le mem 2 a + 2 ^ 16 * (byte mem (a + 6) mod 16) in
  Segment (read_le mem 3 (a + 2) + 2 ^ 24 * byte mem (a + 7))
    (if Z.testbit (byte mem (a + 6)) 7 then limit * 4096 + 4095 else limit)
    (byte mem (a + 5)).

(** Selectors: privilege in bits 0 and 1, the local table in bit 2, index. *)
Definition fetch_segment (mem : boot_mem) (table : table_ptr) (sel : Z) : outcome segment :=
  if Z.testbit sel 2 then Fault
  else if sel / 8 * 8 + 7 <=? ptr_limit table then Ret (decode_segment mem (ptr_base table + sel / 8 * 8))
  else Fault.

Definition seg_present (d : segment) : bool := Z.testbit (seg_access d) 7.
Definition seg_dpl (d : segment) : Z := seg_access d / 32 mod 4.
(** Neither a system segment nor data. *)
Definition seg_code (d : segment) : bool := Z.testbit (seg_access d) 4 && Z.testbit (seg_access d) 3.
Definition seg_data (d : segment) : bool := Z.testbit (seg_access d) 4 && negb (Z.testbit (seg_access d) 3).
Definition seg_writable (d : segment) : bool := Z.testbit (seg_access d) 1.

(** Loading a segment register at privilege [cpl]; code only through a jump,
    and of code segments only those that do not conform. *)
Definition load_allowed (cpl sel : Z) (s : segreg) (d : segment) : bool :=
  seg_present d &&
  match s with
  | CS => seg_code d && negb (Z.testbit (seg_access d) 2) && (sel mod 4 <=? cpl) && (seg_dpl d =? cpl)
  | SS => seg_data d && seg_writable d && (sel mod 4 =? cpl) && (seg_dpl d =? cpl)
  | _ => seg_data d && (Z.max cpl (sel mod 4) <=? seg_dpl d)
  end.

Definition load_segment (mem : boot_mem) (s : segreg) (sel : Z) (c : seg_cpu) : outcome seg_cpu :=
  if sel / 4 =? 0 then Fault
  else
    d ← fetch_segment mem (gdt_register c) sel;
    if load_allowed (selector c CS mod 4) sel s d
    then Ret (SegCpu (<[s := sel]> (selector c)) (<[s := d]> (cached c)) (ax c) (gdt_register c) (idt_register c))
    else Fault.

Definition read_table_ptr (mem : boot_mem) (a : Z) : table_ptr := TablePtr (read_le mem 2 a) (read_le mem 4 (a + 2)).

(** An interrupt gate: offset in bytes 0, 1, 6 and 7, selector in bytes 2 and
    3, and byte 5 says that it is present and that it is an interrupt gate of
    32 bits. *)
Definition interrupt_target (mem : boot_mem) (c : seg_cpu) (n : Z) : outcome (Z * Z) :=
  if ptr_limit (idt_register c) <? n * 8 + 7 then Fault
  else
    let a := ptr_base (idt_register c) + n * 8 in
    let kind := byte mem (a + 5) in
    if negb (Z.testbit kind 7 && (kind mod 32 =? 14)) then Fault
    else
      let sel := read_le mem 2 (a + 2) in
      let offset := read_le mem 2 a + 2 ^ 16 * read_le mem 2 (a + 6) in
      d ← fetch_segment mem (gdt_register c) sel;
      if seg_present d && seg_code d && (seg_dpl d <=? selector c CS mod 4) && (offset <=? seg_last d)
      then Ret (sel, offset) else Fault.

(** * The code *)

Inductive flush_instruction :=
  | lgdt (a : Z)
  | lidt (a : Z)
  | jmp_next                        (** a jump to the next instruction *)
  | jmp_far_next (sel : Z)
  | load_ax (v : Z)
  | load_sreg (s : segreg)          (** from [ax] *)
  | ret.

(** [_gdt_flush], [reloadSegments] and [reload_CS]; [_idt_flush]. *)
Definition gdt_flush_code (gp_address : Z) : list flush_instruction :=
  [lgdt gp_address; jmp_next; jmp_far_next 0x08; load_ax 0x10;
   load_sreg DS; load_sreg ES; load_sreg FS; load_sreg GS; load_sreg SS; ret].
Definition idt_flush_code (idtp_address : Z) : list flush_instruction := [lidt idtp_address; ret].

Definition flush_step (mem : boot_mem) (i : flush_instruction) (c : seg_cpu) : outcome seg_cpu :=
  match i with
  | lgdt a => Ret (SegCpu (selector c) (cached c) (ax c) (read_table_ptr mem a) (idt_register c))
  | lidt a => Ret (SegCpu (selector c) (cached c) (ax c) (gdt_register c) (read_table_ptr mem a))
  | jmp_next | ret => Ret c
  | jmp_far_next sel => load_segment mem CS sel c
  | load_ax v => Ret (SegCpu (selector c) (cached c) v (gdt_register c) (idt_register c))
  | load_sreg s => load_segment mem s (ax c) c
  end.

Fixpoint flush_run (mem : boot_mem) (code : list flush_instruction) (c : seg_cpu) : outcome seg_cpu :=
  match code with
  | [] => Ret c
  | i :: rest => c' ← flush_step mem i c; flush_run mem rest c'
  end.

(** * Specification: globals in memory *)

(** The structure at [p] has the members [vs], by name, at the offsets of its
    layout. *)
Definition struct_at (mem : boot_mem) (s : cstruct) (p : Z) (vs : list (string * Z)) : Prop :=
  map (λ m, read_field mem s p m.1) vs = map (λ m, Some m.2) vs.

#[export] Instance struct_at_dec mem s p vs : Decision (struct_at mem s p vs).
Proof. unfold struct_at. apply _. Defined.

Definition gdt_members (e : gdt_entry) : list (string * Z) :=
  [("limit_low", limit_low e); ("base_low", base_low e); ("base_middle", base_middle e); ("access", access e);
   ("granularity", granularity e); ("base_high", base_high e)]%string.
Definition idt_members (e : idt_entry) : list (string * Z) :=
  [("base_lo", base_lo e); ("sel", sel e); ("always0", always0 e); ("flags", flags e); ("base_hi", base_hi e)]%string.
Definition ptr_members (p : table_ptr) : list (string * Z) :=
  [("limit", ptr_limit p); ("base", ptr_base p)]%string.

(** The globals of gdt.c and idt.c lie in memory. *)
Record tables_at (mem : boot_mem) (gdt_address gp_address idt_address idtp_address : Z)
    (g : gdt_state) (i : idt_state) : Prop := TablesAt {
  ta_gdt : ∀ k e, gdt g !! k = Some e →
    struct_at mem gdt_entry_struct (gdt_address + sizeof_gdt_entry * Z.of_nat k) (gdt_members e);
  ta_gp : struct_at mem table_ptr_struct gp_address (ptr_members (gp g));
  ta_idt : ∀ k e, idt i !! k = Some e →
    struct_at mem idt_entry_struct (idt_address + sizeof_idt_entry * Z.of_nat k) (idt_members e);
  ta_idtp : struct_at mem table_ptr_struct idtp_address (ptr_members (idtp i))
}.

(** Flat segments of the kernel. *)
Definition kernel_code : segment := Segment 0 (2 ^ 32 - 1) 0x9A.
Definition kernel_data : segment := Segment 0 (2 ^ 32 - 1) 0x92.

(** * Lemmas *)

Lemma read_le_app mem n k a :
  read_le mem (n + k) a = read_le mem n a + 2 ^ (8 * Z.of_nat n) * read_le mem k (a + Z.of_nat n).
Proof.
  revert a. induction n as [|n IH]; intros a.
  - rewrite Z.add_0_r. cbn [Nat.add read_le]. change (2 ^ (8 * Z.of_nat 0)) with 1. lia.
  - cbn [Nat.add read_le]. rewrite IH. replace (8 * Z.of_nat (S n)) with (8 + 8 * Z.of_nat n) by lia.
    rewrite Z.pow_add_r by lia. change (2 ^ 8) with 256. replace (a + 1 + Z.of_nat n) with (a + Z.of_nat (S n)) by lia. ring.
Qed.

#[local] Opaque read_le.

(** What the members of a table entry are to the processor. *)
Lemma decode_members mem a e :
  struct_at mem gdt_entry_struct a (gdt_members e) →
  decode_segment mem a =
    Segment (segment_base e)
      (if Z.testbit (granularity e) 7 then segment_limit e * 4096 + 4095 else segment_limit e) (access e).
Proof.
  unfold struct_at. intros H. destruct e as [l b m acc g h]. cbv -[read_le Z.add] in H.
  injection H as H0 H1 H2 H3 H4 H5.
  unfold decode_segment, byte, segment_base, segment_limit.
  cbn [limit_low base_low base_middle access granularity base_high].
  change 3%nat with (2 + 1)%nat. rewrite (read_le_app mem 2 1 (a + 2)). change (Z.of_nat 2) with 2.
  replace (a + 2 + 2) with (a + 4) by lia. rewrite Z.add_0_r in H0.
  change (2 ^ (8 * 2)) with (2 ^ 16). by rewrite H0, H1, H2, H3, H4, H5.
Qed.

Lemma pointer_members mem a p : struct_at mem table_ptr_struct a (ptr_members p) → read_table_ptr mem a = p.
Proof.
  unfold struct_at. intros H. destruct p as [l b]. cbv -[read_le Z.add] in H.
  injection H as H0 H1. rewrite Z.add_0_r in H0. unfold read_table_ptr. by rewrite H0, H1.
Qed.

Lemma gate_members mem a e :
  struct_at mem idt_entry_struct a (idt_members e) →
  read_le mem 2 a = base_lo e ∧ read_le mem 2 (a + 2) = sel e ∧ byte mem (a + 5) = flags e ∧
  read_le mem 2 (a + 6) = base_hi e.
Proof.
  unfold struct_at. intros H. destruct e as [lo s z f hi]. cbv -[read_le Z.add] in H.
  injection H as H0 H1 H2 H3 H4. rewrite Z.add_0_r in H0. done.
Qed.

(** The two segments of the kernel, fetched. *)
Lemma kernel_segments mem gdt_address gp_address idt_address idtp_address g g' i :
  List.length (gdt g) = 5%nat → is_u32 gdt_address → gdt_install gdt_address g = Ret g' →
  tables_at mem gdt_address gp_address idt_address idtp_address g' i →
  read_table_ptr mem gp_address = gdtr g' ∧
  fetch_segment mem (gdtr g') 0x08 = Ret kernel_code ∧ fetch_segment mem (gdtr g') 0x10 = Ret kernel_data ∧
  (∀ sel, 24 ≤ sel → fetch_segment mem (gdtr g') sel = Fault).
Proof.
  intros Hlen Hu Hrun [Hg Hgp _ _].
  destruct g as [entries gp0 gdtr0]. destruct entries as [|e0 [|e1 [|e2 [|e3 [|e4 [|]]]]]]; try discriminate Hlen.
  injection Hrun as <-. cbn [gdtr gp gdt] in *. rewrite u32_small in Hgp by done. rewrite u32_small by done.
  pose proof (decode_members _ _ _ (Hg 1%nat _ eq_refl)) as Hcode.
  pose proof (decode_members _ _ _ (Hg 2%nat _ eq_refl)) as Hdata.
  split; [by apply pointer_members|]. split; [|split].
  - unfold fetch_segment. cbn [ptr_limit ptr_base]. change (Z.testbit 8 2) with false. cbv iota.
    change (8 / 8 * 8 + 7 <=? _) with true. cbv iota. f_equal. exact Hcode.
  - unfold fetch_segment. cbn [ptr_limit ptr_base]. change (Z.testbit 16 2) with false. cbv iota.
    change (16 / 8 * 8 + 7 <=? _) with true. cbv iota. f_equal. exact Hdata.
  - intros sel Hsel. unfold fetch_segment. cbn [ptr_limit]. destruct (Z.testbit sel 2); [done|].
    match goal with |- (if ?b then _ else _) = _ => replace b with false; [done|] end.
    symmetry. apply Z.leb_gt. change (23 < sel / 8 * 8 + 7). div_lia.
Qed.

Lemma flush_loads mem c g :
  fetch_segment mem g 0x08 = Ret kernel_code → fetch_segment mem g 0x10 = Ret kernel_data →
  selector c CS mod 4 = 0 → ∀ a, read_table_ptr mem a = g →
  ∃ c', flush_run mem (gdt_flush_code a) c = Ret c' ∧ gdt_register c' = g ∧ idt_register c' = idt_register c ∧
    (selector c' CS = 0x08 ∧ cached c' CS = kernel_code) ∧
    (∀ s, s ≠ CS → selector c' s = 0x10 ∧ cached c' s = kernel_data).
Proof.
  intros Hcode Hdata Hcpl a Ha.
  assert (Hload : ∀ s c, s ≠ CS → gdt_register c = g → selector c CS = 8 → load_segment mem s 0x10 c =
    Ret (SegCpu (<[s := 0x10]> (selector c)) (<[s := kernel_data]> (cached c)) (ax c) (gdt_register c) (idt_register c))).
  { intros s c0 Hs Hg Hcs. unfold load_segment. change (0x10 / 4 =? 0) with false. cbv iota.
    rewrite Hg, Hdata, Ret_bind, Hcs. by destruct s. }
  assert (Hjump : ∀ c, gdt_register c = g → selector c CS mod 4 = 0 → load_segment mem CS 0x08 c =
    Ret (SegCpu (<[CS := 0x08]> (selector c)) (<[CS := kernel_code]> (cached c)) (ax c) (gdt_register c) (idt_register c))).
  { intros c0 Hg Hcs. unfold load_segment. change (0x08 / 4 =? 0) with false. cbv iota.
    by rewrite Hg, Hcode, Ret_bind, Hcs. }
  unfold gdt_flush_code. cbn [flush_run flush_step]. rewrite !Ret_bind. rewrite Ha.
  rewrite Hjump by done. rewrite !Ret_bind. cbn [gdt_register selector cached ax idt_register].
  do 5 (rewrite Hload by done; rewrite Ret_bind; cbn [gdt_register selector cached ax idt_register]).
  rewrite Ret_bind. eexists. split; [reflexivity|]. split; [done|]. split; [done|]. split; [done|].
  intros s Hs. by destruct s.
Qed.

(** An installed gate leads to its handler. *)
Lemma gate_leads mem c idt_address n e stub :
  idt_register c = TablePtr 2047 idt_address → 0 ≤ n < 256 → fetch_segment mem (gdt_register c) 0x08 = Ret kernel_code →
  struct_at mem idt_entry_struct (idt_address + sizeof_idt_entry * n) (idt_members e) →
  (e = idt_gate stub 0x08 0x8E → is_u32 stub → selector c CS mod 4 = 0 → interrupt_target mem c n = Ret (8, stub)) ∧
  (e = IdtEntry 0 0 0 0 0 → interrupt_target mem c n = Fault).
Proof.
  intros Hr Hn Hcode He. apply gate_members in He as (H1 & H2 & H3 & H4).
  replace (idt_address + sizeof_idt_entry * n) with (idt_address + n * 8) in * by (unfold sizeof_idt_entry; lia).
  unfold interrupt_target. rewrite Hr. cbn [ptr_limit ptr_base]. destruct (Z.ltb_spec 2047 (n * 8 + 7)); [lia|].
  cbv zeta. rewrite H1, H2, H3, H4. split; [|by intros ->].
  intros -> Hu Hcpl. cbn [base_lo sel flags base_hi idt_gate].
  change (negb (Z.testbit 0x8E 7 && (0x8E mod 32 =? 14))) with false. cbv iota.
  rewrite Hcode, Ret_bind, Hcpl. pose proof (idt_gate_target stub 8 Hu) as Ht. unfold gate_target in Ht.
  cbn [flags base_lo base_hi idt_gate] in Ht. change (Z.testbit 0x8E 7) with true in Ht. injection Ht as Ht.
  change (Z.pow_pos 2 16) with (2 ^ 16) in Ht. rewrite Ht. change (seg_present kernel_code && seg_code kernel_code && (seg_dpl kernel_code <=? 0)) with true.
  cbn [seg_last kernel_code andb]. unfold is_u32 in Hu. destruct (Z.leb_spec stub (2 ^ 32 - 1)); [done|lia].
Qed.

(** * Theorem *)

(** C30: what the processor makes of the tables.  When the globals that
    [gdt_install] and [idt_install] fill lie in memory with their members at
    the offsets of [gdt.h] and [idt.h], then, byte by byte as the processor
    reads them, [_gdt_flush] loads the table register of the model and brings
    the kernel, at privilege 0, into segments that are flat, code in CS and
    writable data in the others; the user segments behind the limit cannot be
    loaded; and after [_idt_flush] each of the 32 exceptions and 16 interrupt
    requests goes to its stub in the kernel's code segment, through a gate
    that turns interrupts off, while the other vectors are faults. *)
Theorem processor_tables_correct mem isr_stub irq_stub gdt_address gp_address idt_address idtp_address g g' i i' c :
  List.length (gdt g) = 5%nat → List.length (idt_debug i) = 256%nat → is_u32 gdt_address → is_u32 idt_address →
  (∀ n, is_u32 (isr_stub n)) → (∀ n, is_u32 (irq_stub n)) →
  gdt_install gdt_address g = Ret g' → idt_install isr_stub irq_stub idt_address i = Ret i' →
  tables_at mem gdt_address gp_address idt_address idtp_address g' i' → selector c CS mod 4 = 0 →
  ∃ c1 c2, flush_run mem (gdt_flush_code gp_address) c = Ret c1 ∧
    flush_run mem (idt_flush_code idtp_address) c1 = Ret c2 ∧
    gdt_register c2 = gdtr g' ∧ idt_register c2 = idtr i' ∧
    (selector c2 CS = 0x08 ∧ cached c2 CS = kernel_code) ∧
    (∀ s, s ≠ CS → selector c2 s = 0x10 ∧ cached c2 s = kernel_data) ∧
    (∀ sel s, 24 ≤ sel → load_segment mem s sel c2 = Fault) ∧
    (∀ n, 0 ≤ n < 32 → interrupt_target mem c2 n = Ret (0x08, isr_stub n)) ∧
    (∀ line, 0 ≤ line < 16 → interrupt_target mem c2 (32 + line) = Ret (0x08, irq_stub line)) ∧
    (∀ n, 48 ≤ n < 256 → interrupt_target mem c2 n = Fault).
Proof.
  intros Hlen Hdebug Hgu Hiu Hisr Hirq Hgrun Hirun Htab Hcpl.
  destruct (kernel_segments _ _ _ _ _ _ _ _ Hlen Hgu Hgrun Htab) as (Hptr & Hcode & Hdata & Huser).
  destruct (flush_loads mem c (gdtr g') Hcode Hdata Hcpl gp_address Hptr) as (c1 & Hrun1 & Hg1 & _ & Hcs & Hseg).
  destruct (idt_install_entries isr_stub irq_stub idt_address i Hdebug Hisr Hirq) as (i2 & Hi2 & Hr & Hp & _ & Hgates).
  rewrite Hirun in Hi2. injection Hi2 as <-. rewrite u32_small in Hr by done.
  pose proof (pointer_members _ _ _ (ta_idtp _ _ _ _ _ _ _ Htab)) as Hidtp. rewrite Hp in Hidtp.
  set (c2 := SegCpu (selector c1) (cached c1) (ax c1) (gdt_register c1) (idtr i')).
  assert (Hgate : ∀ n, 0 ≤ n < 256 → ∀ stub,
    (installed_gate isr_stub irq_stub n = idt_gate stub 0x08 0x8E → is_u32 stub → selector c2 CS mod 4 = 0 →
     interrupt_target mem c2 n = Ret (8, stub)) ∧
    (installed_gate isr_stub irq_stub n = IdtEntry 0 0 0 0 0 → interrupt_target mem c2 n = Fault)).
  { intros n Hn stub. apply (gate_leads mem c2 idt_address n); [exact Hr|done|by rewrite <- Hcode, <- Hg1|].
    pose proof (ta_idt _ _ _ _ _ _ _ Htab _ _ (Hgates n Hn)) as H. by rewrite Z2Nat.id in H by lia. }
  assert (Hcpl2 : selector c2 CS mod 4 = 0) by (simpl; by rewrite (proj1 Hcs)).
  exists c1, c2. split; [done|]. split; [unfold idt_flush_code; cbn [flush_run flush_step]; by rewrite Hidtp|].
  split; [done|]. split; [done|]. split; [done|]. split; [done|]. split; [|split; [|split]].
  - intros sel s Hsel. unfold load_segment. destruct (Z.eqb_spec (sel / 4) 0); [done|].
    change (gdt_register c2) with (gdt_register c1). by rewrite Hg1, Huser.
  - intros n Hn. apply (Hgate n ltac:(lia) (isr_stub n)); [|done|done]. unfold installed_gate.
    by destruct (Z.ltb_spec n 32); [|lia].
  - intros line Hline. apply (Hgate (32 + line) ltac:(lia) (irq_stub line)); [|done|done]. unfold installed_gate.
    destruct (Z.ltb_spec (32 + line) 32), (Z.ltb_spec (32 + line) 48); try lia. do 2 f_equal. lia.
  - intros n Hn. apply (Hgate n ltac:(lia) 0). unfold installed_gate.
    by destruct (Z.ltb_spec n 32), (Z.ltb_spec n 48); try lia.
Qed.

(** * A machine with both tables in memory *)

(** Structures one after the other, checked. *)
Fixpoint array_check (mem : boot_mem) (s : cstruct) (a size : Z) (l : list (list (string * Z))) : bool :=
  match l with
  | [] => true
  | vs :: rest => bool_decide (struct_at mem s a vs) && array_check mem s (a + size) size rest
  end.

Lemma array_check_sound mem s a size l k vs :
  array_check mem s a size l = true → l !! k = Some vs → struct_at mem s (a + size * Z.of_nat k) vs.
Proof.
  revert a k. induction l as [|ws l IH]; intros a k Hc Hk; [done|].
  cbn [array_check] in Hc. apply andb_true_iff in Hc as [H1 H2]. apply bool_decide_eq_true_1 in H1.
  destruct k as [|k]; cbn in Hk.
  - injection Hk as <-. unfold struct_at. by replace (a + size * Z.of_nat 0) with a by lia.
  - replace (a + size * Z.of_nat (S k)) with (a + size + size * Z.of_nat k) by lia. by apply IH.
Qed.

Definition demo_g : gdt_state := GdtState (replicate 5 (GdtEntry 0 0 0 0 0 0)) (TablePtr 0 0) (TablePtr 0 0).
Definition demo_i : idt_state :=
  IdtState [] (replicate 256 (IdtGateDebug 0 0 0 0)) (TablePtr 0 0) (TablePtr 0 0) [].
Definition demo_isr (n : Z) : Z := u32 (0x102000 + 16 * n).
Definition demo_irq (n : Z) : Z := u32 (0x103000 + 16 * n).
Definition demo_g' : gdt_state := match gdt_install 0x1000 demo_g with Ret g => g | _ => demo_g end.
Definition demo_i' : idt_state := match idt_install demo_isr demo_irq 0x4000 demo_i with Ret i => i | _ => demo_i end.

(** The segment table at 0x1000, its pointer at 0x2000, the interrupt table at
    0x4000 and its pointer at 0x3000. *)
Definition demo_tables : boot_mem :=
  let write s a vs mem :=
    foldl (λ m '(n, v), match find_slot s n with Some f => write_slot m a f v | None => m end) mem vs in
  let pointers := write table_ptr_struct 0x2000 (ptr_members (gp demo_g'))
                    (write table_ptr_struct 0x3000 (ptr_members (idtp demo_i')) (λ _, 0)) in
  let segments := foldl (λ m '(k, e), write gdt_entry_struct (0x1000 + 8 * k) (gdt_members e) m) pointers
                    (zip (seqZ 0 5) (gdt demo_g')) in
  λ a, if (0x4000 <=? a) && (a <? 0x4800)
       then let e := installed_gate demo_isr demo_irq ((a - 0x4000) / 8) in
            write idt_entry_struct (a - a mod 8) (idt_members e) (λ _, 0) a
       else segments a.

Lemma demo_tables_at : tables_at demo_tables 0x1000 0x2000 0x4000 0x3000 demo_g' demo_i'.
Proof.
  assert (Hg : array_check demo_tables gdt_entry_struct 0x1000 8 (gdt_members <$> gdt demo_g') = true)
    by (vm_compute; reflexivity).
  assert (Hi : array_check demo_tables idt_entry_struct 0x4000 8 (idt_members <$> idt demo_i') = true)
    by (vm_compute; reflexivity).
  split.
  - intros k e Hk. apply (array_check_sound _ _ _ _ _ k _ Hg). by rewrite list_lookup_fmap, Hk.
  - apply (bool_decide_eq_true_1 (_ = _)). vm_compute. reflexivity.
  - intros k e Hk. apply (array_check_sound _ _ _ _ _ k _ Hi). by rewrite list_lookup_fmap, Hk.
  - apply (bool_decide_eq_true_1 (_ = _)). vm_compute. reflexivity.
Qed.

Lemma processor_tables_correct_witness :
  ∃ c1 c2, flush_run demo_tables (gdt_flush_code 0x2000)
      (SegCpu (λ _, 0x10) (λ _, Segment 0 0 0) 0 (TablePtr 0 0) (TablePtr 0 0)) = Ret c1 ∧
    flush_run demo_tables (idt_flush_code 0x3000) c1 = Ret c2 ∧
    interrupt_target demo_tables c2 14 = Ret (8, 0x1020e0) ∧ load_segment demo_tables DS 0x23 c2 = Fault.
Proof.
  destruct (processor_tables_correct demo_tables demo_isr demo_irq 0x1000 0x2000 0x4000 0x3000 demo_g demo_g'
    demo_i demo_i' (SegCpu (λ _, 0x10) (λ _, Segment 0 0 0) 0 (TablePtr 0 0) (TablePtr 0 0)))
    as (c1 & c2 & H1 & H2 & _ & _ & _ & _ & H3 & H4 & _).
  - reflexivity.
  - reflexivity.
  - split; [discriminate|reflexivity].
  - split; [discriminate|reflexivity].
  - intros n. apply u32_range.
  - intros n. apply u32_range.
  - vm_compute. reflexivity.
  - vm_compute. reflexivity.
  - exact demo_tables_at.
  - reflexivity.
  - exists c1, c2. split; [exact H1|]. split; [exact H2|]. split.
    + apply (H4 14). split; [discriminate|reflexivity].
    + apply (H3 0x23). discriminate.
Defined.
