(* ===== verification/OrderedArray.v ===== *)
(** The ordered array: [kernel/kernel/ordered_array.c],
    [kernel/include/kernel/ordered_array.h].

    Objects are addresses.  The array is the block of [max_size] pointers at
    [addr]; an access outside it faults. *)
From stdpp Require Import base numbers list.
From Stdlib Require Import ZArith Lia.
From S2P Require Import Prelude.

(** * The code *)

Definition comparator_default (a b : Z) : Z := s32 (a ⊖ b).

Record ordered_array := OrderedArray {
  oa_array : list Z;
  oa_size : Z;
  oa_max_size : Z;
  oa_comparator : Z → Z → Z
}.

(** [array] is the memory at [addr]; the [size] field is not initialised: its
    value is what [garbage] happens to be. *)
Definition ordered_array_create (array : list Z) (max_size : Z) (comparator : option (Z → Z → Z))
    (garbage : Z) : outcome ordered_array :=
  cleared ← for_range 0 max_size (λ i l, array_set l i 0) array;
  Ret (OrderedArray cleared garbage max_size (default comparator_default comparator)).

(** [for (j=array->size-1; j <= i; j--) array->array[j+1] = array->array[j]]:
    [j] is unsigned. *)
Definition shift_up (size i : Z) (l : list Z) : outcome (list Z) :=
  while_fuel (S (S (Z.to_nat size))) (λ '(j, l),
    if j <=? i then
      v ← array_get l j;
      l' ← array_set l (j ⊕ 1) v;
      Ret (Continue (j ⊖ 1, l'))
    else Ret (Return l)) (size ⊖ 1, l).

(** The index of the first element that is not less than the object. *)
Definition find_index (a : ordered_array) (object : Z) : outcome Z :=
  r ← for_return 0 (oa_size a) (λ i _,
        x ← array_get (oa_array a) i;
        if 0 <=? oa_comparator a x object then Ret (Return i) else Ret (Continue ())) ();
  Ret (match r with Return i => i | Continue _ => oa_size a end).

Definition set_contents (a : ordered_array) (l : list Z) (size : Z) : ordered_array :=
  OrderedArray l size (oa_max_size a) (oa_comparator a).

Definition ordered_array_insert (a : ordered_array) (object : Z) : outcome (bool * ordered_array) :=
  if oa_max_size a <=? oa_size a then Ret (false, a)
  else
    i ← find_index a object;
    if negb (i =? oa_size a) then
      l ← shift_up (oa_size a) i (oa_array a);
      l' ← array_set l i object;
      Ret (true, set_contents a l' (oa_size a ⊕ 1))
    else
      l ← array_set (oa_array a) (oa_size a) object;
      Ret (true, set_contents a l (oa_size a ⊕ 1)).

(** [NULL] is 0. *)
Definition ordered_array_get (a : ordered_array) (index : Z) : outcome Z :=
  if oa_size a <? index then Ret 0 else array_get (oa_array a) index.

Definition ordered_array_remove (a : ordered_array) (index : Z) : outcome (bool * ordered_array) :=
  if oa_size a <? index then Ret (false, a)
  else
    l ← for_range index (oa_size a) (λ i l,
          v ← array_get l (i + 1);
          array_set l i v) (oa_array a);
    Ret (true, set_contents a l (oa_size a ⊖ 1)).

(** * Specification *)

(** The array holds [l], with [rest] behind it. *)
Record holds (a : ordered_array) (l rest : list Z) : Prop := Holds {
  ho_array : oa_array a = l ++ rest;
  ho_size : oa_size a = Z.of_nat (length l);
  ho_max : oa_max_size a = Z.of_nat (length (l ++ rest));
  ho_width : oa_max_size a < 2 ^ 31
}.

(** The index the search must find. *)
Fixpoint position (cmp : Z → Z → Z) (l : list Z) (object : Z) : nat :=
  match l with
  | [] => 0
  | x :: l' => if 0 <=? cmp x object then 0 else S (position cmp l' object)
  end.

(** Ordered insertion as it is meant. *)
Definition insert_at (i : nat) (object : Z) (l : list Z) : list Z := take i l ++ object :: drop i l.

(** What the code does instead: an element with an element behind it is
    overwritten and a stale entry joins the array; before the last of several
    elements, the first is duplicated and the last but one is lost. *)
Definition insert_coded (i : nat) (object : Z) (l rest : list Z) : list Z :=
  if decide (i = length l) then l ++ [object]
  else if decide (S i < length l)%nat then take i l ++ object :: drop (S i) l ++ take 1 rest
  else if decide (i = 0%nat) then object :: l
  else take 1 l ++ take (i - 1) l ++ object :: drop i l.

(** * Lemmas *)

Lemma position_le cmp l object : (position cmp l object ≤ length l)%nat.
Proof. induction l as [|x l IH]; simpl; [lia|]. case_bool; lia. Qed.

Lemma find_index_spec a l rest object :
  holds a l rest → find_index a object = Ret (Z.of_nat (position (oa_comparator a) l object)).
Proof.
  intros [Ha Hs _ _]. unfold find_index. rewrite Hs, Ha.
  enough (H : ∀ pre k, l = pre ++ k →
    rounds (length k) (Z.of_nat (length pre)) (λ i _,
      x ← array_get (l ++ rest) i;
      if 0 <=? oa_comparator a x object then Ret (Return i) else Ret (Continue ())) () =
    Ret (if decide (position (oa_comparator a) k object < length k)%nat
         then Return (Z.of_nat (length pre) + Z.of_nat (position (oa_comparator a) k object))
         else Continue ())).
  { unfold for_return. rewrite Z.sub_0_r, Nat2Z.id. pose proof (H [] l eq_refl) as H0. cbn [length] in H0.
    change (Z.of_nat 0) with 0 in H0. rewrite H0, Ret_bind. pose proof (position_le (oa_comparator a) l object).
    case_decide; f_equal; lia. }
  intros pre k. revert pre. induction k as [|x k IH]; intros pre Hl; [done|].
  cbn [length rounds position].
  assert (Hx : array_get (l ++ rest) (Z.of_nat (length pre)) = Ret x).
  { apply array_get_Ret. split; [lia|].
    rewrite Hl, <- app_assoc, Nat2Z.id, lookup_app_r, Nat.sub_diag by lia. done. }
  rewrite Hx, Ret_bind. case_bool; simpl.
  - by rewrite Z.add_0_r.
  - replace (Z.of_nat (length pre) + 1) with (Z.of_nat (length (pre ++ [x])))
      by (rewrite length_app; simpl; lia).
    rewrite IH by (by rewrite Hl, <- app_assoc). f_equal. rewrite length_app. simpl.
    repeat case_decide; try lia; [f_equal; lia|done].
Qed.

(** The condition of the shift loop is inverted: nothing moves unless the index
    is that of the last element, and then everything does. *)
Lemma shift_up_none size i l :
  0 ≤ i < size - 1 → size < 2 ^ 31 → shift_up size i l = Ret l.
Proof.
  intros Hi Hs. unfold shift_up. cbn [while_fuel]. rewrite u32_small by u32_lia.
  destruct (Z.leb_spec (size - 1) i); [lia|done].
Qed.

Lemma shifted_list (l rest : list Z) x b :
  l ≠ [] →
  (∀ m, b !! m = if decide (0 < m ≤ length l)%nat then (l ++ x :: rest) !! (m - 1)%nat
                 else (l ++ x :: rest) !! m) →
  b = take 1 l ++ l ++ rest.
Proof.
  intros Hne Hm. apply list_eq. intros m. rewrite Hm.
  destruct m as [|m]; [by destruct l|].
  assert (Hr : (take 1 l ++ l ++ rest) !! S m = (l ++ rest) !! m) by (by destruct l).
  rewrite Hr. case_decide.
  - replace (S m - 1)%nat with m by lia. by rewrite !lookup_app_l by lia.
  - rewrite !lookup_app_r by lia. by replace (S m - length l)%nat with (S (m - length l)) by lia.
Qed.

Lemma shift_up_all l rest x :
  l ≠ [] → Z.of_nat (length l) < 2 ^ 31 →
  shift_up (Z.of_nat (length l)) (Z.of_nat (length l) - 1) (l ++ x :: rest)
  = Ret (take 1 l ++ l ++ rest).
Proof.
  intros Hne Hlen. unfold shift_up. set (n := Z.of_nat (length l)) in *.
  assert (Hn : 1 ≤ n) by (destruct l; simpl in *; [done|lia]).
  rewrite u32_small by u32_lia. set (B := l ++ x :: rest).
  match goal with |- while_fuel ?f ?b ?s0 = _ =>
    enough (H : wp (while_fuel f b s0) (λ r, r = take 1 l ++ l ++ rest))
      by (apply wp_inv in H as (r & -> & ->); done) end.
  apply (wp_while (λ '(j, b), ∃ k : nat, (k ≤ length l)%nat ∧ length b = length B ∧
           j = (if decide (k = 0%nat) then 2 ^ 32 - 1 else Z.of_nat k - 1) ∧
           ∀ m, b !! m = if decide (k < m ≤ length l)%nat then B !! (m - 1)%nat else B !! m)
           (λ '(j, _), if j =? 2 ^ 32 - 1 then 0%nat else Z.to_nat (j + 1))).
  - exists (length l). split; [lia|]. split; [done|]. split; [case_decide; lia|].
    intros m. case_decide; [lia|done].
  - destruct (Z.eqb_spec (n - 1) (2 ^ 32 - 1)); lia.
  - intros [j b] (k & Hk & Hb & -> & Hm). case_decide as Hk0.
    + subst k. destruct (Z.leb_spec (2 ^ 32 - 1) (n - 1)); [lia|]. by apply (shifted_list l rest x).
    + destruct (Z.leb_spec (Z.of_nat k - 1) (n - 1)); [|lia].
      assert (HB : length B = (length l + S (length rest))%nat) by (unfold B; rewrite length_app; done).
      destruct (array_get_in b (Z.of_nat k - 1)) as (v & Hv & ->); [lia|].
      rewrite Ret_bind, (u32_small (Z.of_nat k - 1 + 1)), array_set_in, Ret_bind by (u32_lia || lia). apply wp_ret. split.
      * exists (k - 1)%nat. split; [lia|]. split; [by rewrite length_insert|]. split.
        -- case_decide; [|rewrite u32_small by u32_lia; lia].
           replace (Z.of_nat k - 1 - 1) with (-1) by lia. done.
        -- intros m. replace (Z.to_nat (Z.of_nat k - 1 + 1)) with k by lia.
           rewrite Hm in Hv. case_decide; [lia|].
           destruct (decide (m = k)) as [->|].
           ++ rewrite list_lookup_insert_eq by lia. case_decide; [|lia]. rewrite <- Hv. f_equal. lia.
           ++ rewrite list_lookup_insert_ne, Hm by done. repeat case_decide; try done; lia.
      * destruct (Z.eqb_spec (Z.of_nat k - 1) (2 ^ 32 - 1)); [lia|].
        destruct (decide (k = 1%nat)) as [->|].
        -- change (Z.of_nat 1 - 1 ⊖ 1) with (2 ^ 32 - 1). simpl. lia.
        -- rewrite u32_small by u32_lia. destruct (Z.eqb_spec (Z.of_nat k - 1 - 1) (2 ^ 32 - 1)); lia.
Qed.

Lemma array_set_nat (l : list Z) (i : nat) v :
  (i < length l)%nat → array_set l (Z.of_nat i) v = Ret (<[i := v]> l).
Proof. intros Hi. rewrite array_set_in by lia. by rewrite Nat2Z.id. Qed.

Lemma list_last_two (l : list Z) : (2 ≤ length l)%nat → ∃ init p q, l = init ++ [p; q].
Proof.
  intros Hl. destruct l as [|q l' _] using rev_ind; [simpl in Hl; lia|].
  destruct l' as [|p init _] using rev_ind; [simpl in Hl; lia|].
  exists init, p, q. by rewrite <- app_assoc.
Qed.

(** Where an object that belongs before the last of several elements ends up. *)
Lemma insert_before_last (l rest : list Z) object :
  (2 ≤ length l)%nat →
  <[(length l - 1)%nat := object]> (take 1 l ++ l ++ rest) =
  (take 1 l ++ take (length l - 1 - 1) l ++ object :: drop (length l - 1) l) ++ rest.
Proof.
  intros Hl. destruct (list_last_two l Hl) as (init & p & q & ->).
  assert (H1 : length (take 1 (init ++ [p; q])) = 1%nat) by (rewrite length_take, length_app; cbn [length]; lia).
  rewrite length_app. simpl length. replace (length init + 2 - 1)%nat with (length init + 1)%nat by lia.
  rewrite insert_app_r_alt, H1 by lia.
  replace (length init + 1 - 1)%nat with (length init) by lia.
  rewrite <- app_assoc, insert_app_r_alt, Nat.sub_diag by done. simpl.
  rewrite take_app_length, drop_app_ge by lia.
  replace (length init + 1 - length init)%nat with 1%nat by lia. simpl. by rewrite <- !app_assoc.
Qed.

Lemma ordered_array_insert_spec a l x rest object :
  holds a l (x :: rest) →
  let i := position (oa_comparator a) l object in
  ∃ a', ordered_array_insert a object = Ret (true, a') ∧
    holds a' (insert_coded i object l (x :: rest)) rest.
Proof.
  intros Ha i. pose proof (find_index_spec a l (x :: rest) object Ha) as Hfind. fold i in Hfind.
  pose proof (position_le (oa_comparator a) l object) as Hi. fold i in Hi.
  destruct Ha as [Harr Hsize Hmax Hwidth]. rewrite length_app in Hmax. cbn [length] in Hmax.
  assert (Hn : Z.of_nat (length l) < 2 ^ 31 - 1) by lia.
  unfold ordered_array_insert. rewrite Hfind, Ret_bind, Hsize, Harr.
  destruct (Z.leb_spec (oa_max_size a) (Z.of_nat (length l))); [lia|].
  assert (Hholds : ∀ l', length l' = S (length l) →
            holds (set_contents a (l' ++ rest) (Z.of_nat (length l) ⊕ 1)) l' rest).
  { intros l' Hl'. split; simpl; [done|rewrite u32_small by u32_lia; lia| |done].
    rewrite length_app. lia. }
  unfold insert_coded. destruct (Z.eqb_spec (Z.of_nat i) (Z.of_nat (length l))) as [He|He]; simpl.
  - rewrite decide_True by lia. rewrite array_set_nat, Ret_bind by (rewrite length_app; simpl; lia).
    rewrite insert_app_r_alt, Nat.sub_diag by lia. simpl. eexists. split; [done|].
    replace (l ++ object :: rest) with ((l ++ [object]) ++ rest) by (by rewrite <- app_assoc).
    apply Hholds. rewrite length_app. simpl. lia.
  - rewrite (decide_False (P:=i = length l)) by lia. case_decide as Hlast.
    + rewrite shift_up_none, Ret_bind by lia.
      rewrite array_set_nat, Ret_bind by (rewrite length_app; lia).
      rewrite insert_app_l, insert_take_drop by lia. eexists. split; [done|].
      replace ((take i l ++ object :: drop (S i) l) ++ x :: rest)
        with ((take i l ++ object :: drop (S i) l ++ [x]) ++ rest)
        by (rewrite <- !app_assoc; simpl; by rewrite <- app_assoc).
      apply Hholds. rewrite length_app, length_take. simpl. rewrite length_app, length_drop. simpl. lia.
    + assert (Hsh : shift_up (Z.of_nat (length l)) (Z.of_nat i) (l ++ x :: rest)
                    = Ret (take 1 l ++ l ++ rest)).
      { replace (Z.of_nat i) with (Z.of_nat (length l) - 1) by lia.
        apply shift_up_all; [destruct l; simpl in *; [lia|done]|lia]. }
      rewrite Hsh, Ret_bind.
      rewrite array_set_nat, Ret_bind.
      2:{ rewrite !length_app, length_take. lia. }
      case_decide as Hi0.
      * destruct l as [|y [|z l]]; cbn [length] in *; [lia| |lia]. rewrite Hi0. simpl.
        eexists. split; [done|]. apply (Hholds [object; y]). done.
      * assert (Hil : i = (length l - 1)%nat) by lia. rewrite Hil, insert_before_last by lia.
        eexists. split; [done|]. apply Hholds.
        rewrite !length_app. cbn [length]. rewrite length_drop, !length_take. lia.
Qed.

(** Removal: right below the last slot; one index too many is accepted and
    drops the last element. *)
Lemma ordered_array_remove_spec a l x rest i :
  holds a l (x :: rest) → (i < length l)%nat →
  ∃ a' y, ordered_array_remove a (Z.of_nat i) = Ret (true, a') ∧
    holds a' (take i l ++ drop (S i) l) (y :: x :: rest).
Proof.
  intros [Harr Hsize Hmax Hwidth] Hi. rewrite length_app in Hmax. cbn [length] in Hmax.
  unfold ordered_array_remove. rewrite Hsize, Harr.
  destruct (Z.ltb_spec (Z.of_nat (length l)) (Z.of_nat i)); [lia|].
  assert (Hloop : wp (for_range (Z.of_nat i) (Z.of_nat (length l))
      (λ i l, v ← array_get l (i + 1); array_set l i v) (l ++ x :: rest))
      (λ b, b = take i l ++ drop (S i) l ++ x :: x :: rest)).
  { eapply wp_mono; [apply (wp_for_range (λ k b, ∃ j : nat, k = Z.of_nat j ∧ (i ≤ j ≤ length l)%nat ∧
      b = take i l ++ take (j - i) (drop (S i) l ++ [x]) ++ drop j (l ++ x :: rest)))|].
    - lia.
    - exists i. split; [done|]. split; [lia|]. rewrite Nat.sub_diag. simpl.
      rewrite <- (take_drop i (l ++ x :: rest)) at 1. by rewrite take_app_le by lia.
    - intros k b Hk (j & -> & Hj & ->).
      assert (Hlj : (j < length l)%nat) by lia.
      assert (Hlen : length (take i l ++ take (j - i) (drop (S i) l ++ [x])) = j).
      { rewrite length_app, !length_take, length_app, length_drop. simpl. lia. }
      destruct (lookup_lt_is_Some_2 (l ++ x :: rest) j) as [u Hu]; [rewrite length_app; simpl; lia|].
      destruct (lookup_lt_is_Some_2 (l ++ x :: rest) (S j)) as [v Hv]; [rewrite length_app; simpl; lia|].
      rewrite (drop_S _ u j Hu). rewrite app_assoc.
      assert (Hget : array_get ((take i l ++ take (j - i) (drop (S i) l ++ [x])) ++ u :: drop (S j) (l ++ x :: rest))
                (Z.of_nat j + 1) = Ret v).
      { apply array_get_Ret. split; [lia|]. replace (Z.to_nat (Z.of_nat j + 1)) with (S j) by lia.
        rewrite lookup_app_r, Hlen by lia. replace (S j - j)%nat with 1%nat by lia. simpl.
        rewrite lookup_drop, Nat.add_0_r. done. }
      rewrite Hget, Ret_bind, array_set_nat by (rewrite length_app, Hlen; simpl; lia).
      apply wp_ret. exists (S j). split; [lia|]. split; [lia|].
      rewrite insert_app_r_alt, Hlen, Nat.sub_diag by lia. simpl.
      rewrite <- app_assoc. f_equal. replace (S j - i)%nat with (S (j - i)) by lia.
      rewrite (take_S_r _ _ v); [by rewrite <- app_assoc|].
      destruct (decide (S j < length l)%nat).
      + rewrite lookup_app_l by (rewrite length_drop; lia). rewrite lookup_drop.
        rewrite lookup_app_l in Hv by done. rewrite <- Hv. f_equal. lia.
      + rewrite lookup_app_r by (rewrite length_drop; lia). rewrite lookup_app_r in Hv by lia.
        rewrite length_drop. replace (j - i - (length l - S i))%nat with 0%nat by lia.
        replace (S j - length l)%nat with 0%nat in Hv by lia. done.
    - intros b (j & Hj & Hij & ->). assert (j = length l) as -> by lia.
      rewrite drop_app_length, (take_ge (drop (S i) l ++ [x]))
        by (rewrite length_app, length_drop; simpl; lia).
      by rewrite <- app_assoc. }
  apply wp_inv in Hloop as (b & -> & ->). rewrite Ret_bind. eexists _, x. split; [done|].
  split; simpl; [by rewrite <- app_assoc|rewrite u32_small by u32_lia| |done].
  - rewrite length_app, length_take, length_drop. lia.
  - rewrite !length_app, length_take, length_drop. simpl. lia.
Qed.

(** * Theorems *)

(** C29: insertion.  While there is room, [ordered_array_insert] succeeds and
    leaves the array that [insert_coded] describes; that is ordered insertion
    when the object belongs at the end or the array has at most one element.
    A full array is refused and unchanged. *)
Theorem ordered_array_insert_outcome a l rest object :
  holds a l rest →
  let i := position (oa_comparator a) l object in
  (rest = [] → ordered_array_insert a object = Ret (false, a)) ∧
  (rest ≠ [] →
     (∃ a', ordered_array_insert a object = Ret (true, a') ∧
        holds a' (insert_coded i object l rest) (tail rest)) ∧
     (i = length l ∨ (length l ≤ 1)%nat → insert_coded i object l rest = insert_at i object l)).
Proof.
  intros Ha i. split.
  - intros ->. destruct Ha as [_ Hs Hm _]. rewrite app_nil_r in Hm.
    unfold ordered_array_insert. rewrite Hm, Hs, Z.leb_refl. done.
  - intros Hr. destruct rest as [|x rest]; [done|].
    split; [by apply (ordered_array_insert_spec a l x rest object)|]. intros Hcase.
    pose proof (position_le (oa_comparator a) l object) as Hi. fold i in Hi.
    unfold insert_coded, insert_at. case_decide as He.
    + by rewrite He, take_ge, drop_ge by lia.
    + destruct Hcase as [|Hl]; [done|]. destruct l as [|y [|z l]]; simpl in *; try lia.
      assert (i = 0%nat) as -> by lia. done.
Qed.

(** Three elements; the object belongs between the first two. *)
Definition demo_array : ordered_array := OrderedArray [10; 20; 30; 0] 3 4 comparator_default.

Lemma demo_array_holds : holds demo_array [10; 20; 30] [0].
Proof. split; reflexivity. Qed.

(** The second element is lost and a stale zero joins. *)
Lemma ordered_array_insert_outcome_witness :
  ∃ a', ordered_array_insert demo_array 15 = Ret (true, a') ∧ holds a' [10; 15; 30; 0] [].
Proof.
  refine (proj1 (proj2 (ordered_array_insert_outcome demo_array [10; 20; 30] [0] 15 demo_array_holds) _)).
  discriminate.
Defined.
