(* ===== verification/Pci.v ===== *)
(** The PCI bus scan: [kernel/drivers/pci/pci.c],
    [kernel/include/drivers/pci/pci.h].

    The host bridge is hardware: it keeps the address last written to
    [PCI_CONFIG_ADDR], and a read of [PCI_CONFIG_DATA] answers with the
    doubleword of the configuration space at that address, a parameter here. *)
From stdpp Require Import base numbers list strings.
From Stdlib Require Import ZArith Lia.
From S2P Require Import Prelude Fields.

Open Scope Z_scope.

(** * The code *)

Definition PCI_CONFIG_ADDR : Z := 0xCF8.
Definition PCI_CONFIG_DATA : Z := 0xCFC.

Definition PCI_CLASS_IDS : list string :=
  [ "no class specification"; "Mass Storage Controller"; "Network Controller";
    "Display Controller"; "Multimedia Device"; "Memory Controller"; "Bridge Device";
    "Simple Communication Controller"; "Base System Peripheral"; "Input Device";
    "Docking Station"; "Processor"; "Serial Bus Controller"; "Wireless Controller";
    "Intelligent I/O Controller"; "Satellite Communication Controller";
    "Encryption/Decryption Controller"; "Data Acquisition and Signal Processing Controller" ]%string.

Record pci_device := PciDevice { pci_vendor : Z; pci_device_id : Z; pci_func : Z }.

(** The lines printed. *)
Inductive pci_line :=
| Scanning
| Found (vendor device : Z) (class : string)
| Limit_reached.

(** The globals of pci.c, the bridge's address register, and the output. *)
Record pci := Pci {
  pci_address : Z;
  pci_devices : list pci_device;
  pci_devices_size : Z;
  pci_output : list pci_line
}.

Definition pci_initial : pci := Pci 0 (replicate 16 (PciDevice 0 0 0)) 0 [].

Definition pci_config_address (bus slot func offset : Z) : Z :=
  u32 (Z.lor (Z.lor (Z.lor (Z.lor (u32 (Z.shiftl bus 16)) (u32 (Z.shiftl slot 11)))
                      (u32 (Z.shiftl func 8))) (Z.land offset 0xFC)) 0x80000000).

Section bus.
Context (config : Z → Z).

Definition pci_config_read_word (bus slot func offset : Z) (p : pci) : Z * pci :=
  let address := pci_config_address bus slot func offset in
  let data := u32 (config address) in
  (u16 (Z.land (Z.shiftr data (Z.land offset 2 * 8)) 0xFFFF),
   Pci address (pci_devices p) (pci_devices_size p) (pci_output p)).

Definition pci_get_vendor_id (bus slot func : Z) (p : pci) : Z * pci :=
  pci_config_read_word bus slot func 0 p.

Definition pci_get_device_id (bus slot func : Z) (p : pci) : Z * pci :=
  pci_config_read_word bus slot func 2 p.

Definition pci_get_device_class_id (bus slot func : Z) (p : pci) : Z * pci :=
  let '(class_id_seg, p') := pci_config_read_word bus slot func 0xA p in
  (u16 (Z.shiftr (Z.land class_id_seg (not32 0x00FF)) 8), p').

Definition pci_get_device_subclass_id (bus slot func : Z) (p : pci) : Z * pci :=
  let '(subclass_id_seg, p') := pci_config_read_word bus slot func 0xA p in
  (u16 (Z.land subclass_id_seg (not32 0xFF00)), p').

(** The body of the three loops. *)
Definition pci_probe_function (bus slot func : Z) (p : pci) : outcome (flow pci pci) :=
  if 15 <? pci_devices_size p then Ret (Return (Pci (pci_address p) (pci_devices p) (pci_devices_size p)
                                                  (pci_output p ++ [Limit_reached])))
  else
    let '(vendor_id, p1) := pci_get_vendor_id bus slot func p in
    if vendor_id =? 0xFFFF then Ret (Continue p1)
    else
      let '(device_id, p2) := pci_get_device_id bus slot func p1 in
      let '(class_id, p3) := pci_get_device_class_id bus slot func p2 in
      name ← array_get PCI_CLASS_IDS class_id;
      devices ← array_set (pci_devices p3) (pci_devices_size p3) (PciDevice vendor_id device_id func);
      Ret (Continue (Pci (pci_address p3) devices (pci_devices_size p3 ⊕ 1)
                       (pci_output p3 ++ [Found vendor_id device_id name]))).

Definition pci_probe (p : pci) : outcome pci :=
  r ← for_return 0 256 (λ bus p,
        for_return 0 32 (λ slot p,
          for_return 0 8 (λ func p, pci_probe_function bus slot func p) p) p) p;
  match r with Return p' => Ret p' | Continue p' => Ret p' end.

(** [pci_init] prints a line and scans. *)
Definition pci_init (p : pci) : outcome pci :=
  pci_probe (Pci (pci_address p) (pci_devices p) (pci_devices_size p) (pci_output p ++ [Scanning])).

(** * Specification *)

(** The 16-bit register at an offset of the function with linear number [k]. *)
Definition config_word (k offset : Z) : Z :=
  u16 (Z.land (Z.shiftr (u32 (config (pci_config_address (k / 256) (k / 8 mod 32) (k mod 8) offset)))
                (Z.land offset 2 * 8)) 0xFFFF).

Definition class_of (k : Z) : Z := u16 (Z.shiftr (Z.land (config_word k 0xA) (not32 0x00FF)) 8).

(** A function is present unless its vendor reads as all ones. *)
Definition present (k : Z) : Prop := config_word k 0 ≠ 0xFFFF.
#[global] Instance present_dec k : Decision (present k) := not_dec _.

Definition device_of (k : Z) : pci_device := PciDevice (config_word k 0) (config_word k 2) (k mod 8).

Definition line_of (k : Z) : pci_line :=
  Found (config_word k 0) (config_word k 2) (default ""%string (PCI_CLASS_IDS !! Z.to_nat (class_of k))).

(** The functions present among the first [n], in the order of the scan. *)
Definition present_below (n : Z) : list Z := filter present (seqZ 0 n).

(** What the scan has recorded after [n] functions. *)
Record recorded (n : Z) (p : pci) : Prop := Recorded {
  rec_table : length (pci_devices p) = 16%nat;
  rec_room : (length (present_below n) ≤ 16)%nat;
  rec_size : pci_devices_size p = Z.of_nat (length (present_below n));
  rec_devices : take (length (present_below n)) (pci_devices p) = map device_of (present_below n);
  rec_output : pci_output p = Scanning :: map line_of (present_below n)
}.

(** The scan as one loop over the linear numbers. *)
Definition probe_number (k : Z) (p : pci) : outcome (flow pci pci) :=
  pci_probe_function (k / 256) (k / 8 mod 32) (k mod 8) p.

(** * Lemmas *)

Lemma present_below_step n :
  0 ≤ n → present_below (n + 1) = present_below n ++ (if decide (present n) then [n] else []).
Proof. intros Hn. unfold present_below. rewrite seqZ_app, filter_app by lia. f_equal. Qed.

Lemma present_below_split n m :
  0 ≤ n ≤ m → ∃ l, present_below m = present_below n ++ l.
Proof.
  intros Hnm. exists (filter present (seqZ n (m - n))). unfold present_below.
  replace m with (n + (m - n)) at 1 by lia. rewrite seqZ_app, filter_app by lia. done.
Qed.

Lemma class_of_nonneg k : 0 ≤ class_of k.
Proof. unfold class_of, u16. apply Z.mod_pos_bound. lia. Qed.

Lemma read_word_spec k offset p :
  pci_config_read_word (k / 256) (k / 8 mod 32) (k mod 8) offset p =
    (config_word k offset,
     Pci (pci_config_address (k / 256) (k / 8 mod 32) (k mod 8) offset) (pci_devices p)
       (pci_devices_size p) (pci_output p)).
Proof. done. Qed.

(** One function of the scan. *)
Lemma probe_number_spec k p :
  0 ≤ k → recorded k p → (present k → class_of k < 18) →
  wp (probe_number k p) (λ f,
    match f with
    | Return p' => length (present_below k) = 16%nat ∧
        p' = Pci (pci_address p) (pci_devices p) (pci_devices_size p) (pci_output p ++ [Limit_reached])
    | Continue p' => recorded (k + 1) p' ∧ (length (present_below k) < 16)%nat
    end).
Proof.
  intros Hk [Hlen Hroom Hsize Hdev Hout] Hclass.
  unfold probe_number, pci_probe_function, pci_get_vendor_id, pci_get_device_id, pci_get_device_class_id.
  rewrite !read_word_spec. cbv iota beta zeta. cbn [pci_devices pci_devices_size pci_output pci_address].
  destruct (Z.ltb_spec 15 (pci_devices_size p)); [apply wp_ret; split; [lia|done]|].
  pose proof (present_below_step k Hk) as Hstep. pose proof (class_of_nonneg k) as Hclass0.
  destruct (Z.eqb_spec (config_word k 0) 0xFFFF) as [Hv|Hv].
  - rewrite decide_False in Hstep by (unfold present; tauto). rewrite app_nil_r in Hstep.
    apply wp_ret. split; [|lia]. by split; cbn [pci_devices pci_devices_size pci_output]; rewrite ?Hstep.
  - rewrite decide_True in Hstep by done. fold (class_of k).
    destruct (array_get_in PCI_CLASS_IDS (class_of k)) as (name & Hname & ->).
    { specialize (Hclass Hv). simpl length. lia. }
    rewrite Ret_bind, array_set_in, Ret_bind by lia. apply wp_ret. split; [|lia].
    split; cbn [pci_devices pci_devices_size pci_output]; rewrite ?Hstep, ?length_app; cbn [length].
    + by rewrite length_insert.
    + lia.
    + rewrite u32_small by u32_lia. lia.
    + rewrite Hsize, Nat2Z.id, Nat.add_1_r, (take_S_r _ _ (device_of k)).
      2:{ apply list_lookup_insert_eq. lia. }
      by rewrite take_insert_ge, Hdev, map_app by lia.
    + rewrite map_app, Hout. simpl. do 3 f_equal. unfold line_of. by rewrite Hname.
Qed.

(** A class without a name is read beyond the table. *)
Lemma probe_number_fault k p :
  recorded k p → (length (present_below k) < 16)%nat → present k → 18 ≤ class_of k →
  probe_number k p = Fault.
Proof.
  intros [Hlen Hroom Hsize Hdev Hout] H16 Hk Hclass.
  unfold probe_number, pci_probe_function, pci_get_vendor_id, pci_get_device_id, pci_get_device_class_id.
  rewrite !read_word_spec. cbv iota beta zeta. cbn [pci_devices pci_devices_size pci_output pci_address].
  destruct (Z.ltb_spec 15 (pci_devices_size p)); [lia|].
  destruct (Z.eqb_spec (config_word k 0) 0xFFFF); [done|]. fold (class_of k).
  by rewrite array_get_out by (simpl length; lia).
Qed.

(** The address has the four numbers in fields of their own. *)
Lemma pci_config_address_fields bus slot func offset :
  0 ≤ bus < 256 → 0 ≤ slot < 32 → 0 ≤ func < 8 → 0 ≤ offset < 256 →
  pci_config_address bus slot func offset =
    2 ^ 31 + bus * 2 ^ 16 + slot * 2 ^ 11 + func * 2 ^ 8 + (offset - offset mod 4).
Proof.
  intros Hb Hs Hf Ho. unfold pci_config_address.
  rewrite land_FC by done. rewrite !Z.shiftl_mul_pow2 by lia.
  rewrite !(u32_small (_ * _)) by u32_lia.
  rewrite (lor_add (bus * 2 ^ 16) _ 16), (lor_add (_ + slot * 2 ^ 11) _ 11), (lor_add _ (offset - _) 8),
    Z.lor_comm, (lor_add 0x80000000 _ 31) by (try lia; div_lia).
  rewrite u32_small by (unfold is_u32; div_lia). lia.
Qed.

(** ** The loops *)

Lemma pci_probe_linear p :
  pci_probe p = (r ← for_return 0 65536 probe_number p;
                 match r with Return p' => Ret p' | Continue p' => Ret p' end).
Proof.
  unfold pci_probe. f_equal. change 65536 with (256 * 256).
  rewrite <- (for_return_nest 256 256) by lia. apply for_return_ext. intros bus q Hbus.
  change 256 with (32 * 8) at 2. rewrite <- (for_return_nest 32 8 (λ k, probe_number (bus * 256 + k))) by lia.
  apply for_return_ext. intros slot q' Hslot. apply for_return_ext. intros func q'' Hfunc.
  unfold probe_number. f_equal; div_lia.
Qed.

Definition pci_announced : pci := Pci 0 (replicate 16 (PciDevice 0 0 0)) 0 [Scanning].

Lemma recorded_initial : recorded 0 pci_announced.
Proof. split; simpl; done || lia. Qed.

(** * Theorem *)

(** C38: the scan.  The configuration address of a register has bus, slot,
    function and offset in fields of their own.  When every function present reports one of the 18 named
    classes, [pci_init] announces the scan, records the first 16 functions
    present, in the order of bus, slot and function, prints a line for each, and says so when it
    stops before the last function because the table is full.  When one of
    these functions reports another class, its name is read beyond the table
    of names. *)
Theorem pci_init_correct :
  (∀ bus slot func offset, 0 ≤ bus < 256 → 0 ≤ slot < 32 → 0 ≤ func < 8 → 0 ≤ offset < 256 →
     pci_config_address bus slot func offset =
       2 ^ 31 + bus * 2 ^ 16 + slot * 2 ^ 11 + func * 2 ^ 8 + (offset - offset mod 4)) ∧
  ((∀ k, 0 ≤ k < 65536 → present k → class_of k < 18) →
   ∃ p, pci_init pci_initial = Ret p ∧
     length (pci_devices p) = 16%nat ∧
     pci_devices_size p = Z.of_nat (length (take 16 (present_below 65536))) ∧
     take (Z.to_nat (pci_devices_size p)) (pci_devices p) = map device_of (take 16 (present_below 65536)) ∧
     pci_output p = Scanning :: map line_of (take 16 (present_below 65536)) ++
       (if 16 <=? Z.of_nat (length (present_below 65535)) then [Limit_reached] else [])) ∧
  (∀ n, 0 ≤ n < 65536 → present n → 18 ≤ class_of n →
     (∀ k, 0 ≤ k < n → present k → class_of k < 18) → (length (present_below n) < 16)%nat →
     pci_init pci_initial = Fault).
Proof.
  split_and!; [apply pci_config_address_fields|..].
  - intros Hclass. change (pci_init pci_initial) with (pci_probe pci_announced). rewrite pci_probe_linear.
    apply wp_inv, wp_bind.
    apply (wp_for_return (λ k p, recorded k p ∧ (0 < k → (length (present_below (k - 1)) < 16)%nat))).
    + lia.
    + split; [apply recorded_initial|lia].
    + intros k p Hk [Hrec _]. eapply wp_mono; [apply probe_number_spec; [lia|done|by apply Hclass]|].
      intros [p'|p']; [intros [Hrec' Hlt]; split; [done|]; intros _; by rewrite Z.add_simpl_r|].
      intros [H16 ->]. destruct Hrec as [Hlen Hroom Hsize Hdev Hout].
      destruct (present_below_split k 65536 ltac:(lia)) as [l Hl].
      destruct (present_below_split k 65535 ltac:(lia)) as [l' Hl'].
      rewrite Hl, Hl', !length_app, take_app_le, take_ge by lia.
      apply wp_ret. cbn [pci_devices pci_devices_size pci_output].
      rewrite Hsize, Nat2Z.id. destruct (Z.leb_spec 16 (Z.of_nat (length (present_below k) + length l'))); [|lia].
      split_and!; [done|done|done|by rewrite Hout].
    + intros p [[Hlen Hroom Hsize Hdev Hout] Hlast]. apply wp_ret. specialize (Hlast ltac:(lia)).
      change (65536 - 1) with 65535 in Hlast. rewrite take_ge by lia.
      destruct (Z.leb_spec 16 (Z.of_nat (length (present_below 65535)))); [lia|].
      rewrite Hsize, Nat2Z.id, app_nil_r. done.
  - intros n Hn Hpres Hbad Hclass Hlen. change (pci_init pci_initial) with (pci_probe pci_announced). rewrite pci_probe_linear.
    unfold for_return. replace (Z.to_nat (65536 - 0)) with (Z.to_nat n + S (Z.to_nat (65535 - n)))%nat by lia.
    rewrite rounds_app. enough (H : wp (for_return 0 n probe_number pci_announced)
      (λ f, match f with Continue p => recorded n p | Return _ => False end)).
    { unfold for_return in H. rewrite Z.sub_0_r in H. apply wp_inv in H as ([p|] & -> & Hrec); [|done].
      simpl. rewrite Z2Nat.id by lia. by rewrite probe_number_fault. }
    apply (wp_for_return recorded); [lia|apply recorded_initial| |done].
    intros k p Hk Hrec. eapply wp_mono; [apply probe_number_spec; [lia|done|by apply Hclass]|].
    intros [p'|p']; [tauto|]. intros [H16 _].
    destruct (present_below_split k n ltac:(lia)) as [l Hl]. rewrite Hl, length_app in Hlen. lia.
Qed.
End bus.

(** A bus full of bridges, and one whose first function reports class 255. *)
Lemma pci_init_correct_witness :
  (∃ p, pci_init (λ _, 0x06001234) pci_initial = Ret p ∧ length (pci_devices p) = 16%nat) ∧
  pci_init (λ _, 0xFF001234) pci_initial = Fault.
Proof.
  split.
  - destruct (pci_init_correct (λ _, 0x06001234)) as (_ & H & _).
    destruct H as (p & H1 & H2 & _); [intros k _ _; reflexivity|].
    exists p. split; [exact H1|exact H2].
  - destruct (pci_init_correct (λ _, 0xFF001234)) as (_ & _ & H). apply (H 0).
    + split; [discriminate|reflexivity].
    + discriminate.
    + discriminate.
    + intros k [Hk1 Hk2]. exfalso. exact (Zle_not_lt _ _ Hk1 Hk2).
    + apply Nat.lt_0_succ.
Defined.
