(* ===== verification/Main.v ===== *)
(** The last steps: the page fault handler of [kernel/arch/i386/paging.c], the
    installation of the timer, and [kernel_main] of [kernel/kernel/kernel.c]. *)
From stdpp Require Import base numbers list gmap.
From Stdlib Require Import ZArith Lia String.
From S2P Require Import Prelude Kernel Bitset Alloc Meminfo EarlyHeap Frames Machine KPaging Asa.
From S2P Require Import Paging Window PagingSpec Kheap KheapSpec Boot.
From S2P Require Import Strings Digits Printf PrintfProps Ports Textmode TextmodeProps Pit Interrupts.

Open Scope Z_scope.

(** * The code *)

Definition PF_PRESENT : Z := 1.
Definition PF_RW : Z := 2.
Definition PF_USER : Z := 4.
Definition PF_RESERVED : Z := 8.

(** What [__i386_page_fault_handler] prints; [cr2] is the faulting address. *)
Definition page_fault_report (mem : memory) (slack : nat) (cr2 : Z) (r : i386_registers) (v : vga)
    : outcome vga :=
  let present := negb (truthy (Z.land (err_code r) PF_PRESENT)) in
  let rw := truthy (Z.land (err_code r) PF_RW) in
  let us := truthy (Z.land (err_code r) PF_USER) in
  let reserved := truthy (Z.land (err_code r) PF_RESERVED) in
  let print_if (b : bool) (line : string) (v : vga) :=
    if b then printf putchar mem slack (chars line ++ [10]) [] v else Ret v in
  v1 ← printf putchar mem slack (chars "HALT - PAGE FAULT" ++ [10; 10]) [] v;
  v2 ← printf putchar mem slack (chars "EIP: 0x%x" ++ [10]) [eip r] v1;
  v3 ← printf putchar mem slack (chars "Faulting address: 0x%x" ++ [10]) [cr2] v2;
  v4 ← print_if present "Page not present"%string v3;
  v5 ← print_if rw "Page not writable"%string v4;
  v6 ← print_if us "Page not writable from user-mode"%string v5;
  print_if reserved "Page reserved bits overwitten"%string v6.

Definition __i386_page_fault_handler {X} (mem : memory) (slack : nat) (cr2 : Z) (r : i386_registers)
    (s : vga * X) : outcome (vga * X) :=
  _ ← page_fault_report mem slack cr2 r s.1; Abort.

(** [handler] is the address of [pit_irq_timer_handler]. *)
Definition pit_timer_install_irq (handler : Z) (irq_routines : list Z) (log : port_log)
    : outcome (list Z * port_log) :=
  log' ← pit_set_timer_phase PIT_TIMER_CONSTANT log;
  routines' ← irq_install_handler 0 handler irq_routines;
  Ret (routines', log').

(** The banner of [kernel_main]. *)
Definition kernel_main_banner (mem : memory) (slack : nat) (s : paging_state) (v : vga) : outcome vga :=
  v1 ← write_literal (chars "Welcome to ") v;
  v2 ← write_literal (chars "ShawnOS ") (vga_textmode_setcolor (color_value COLOR_CYAN) v1);
  v3 ← write_literal (chars "Version ")
         (vga_textmode_setcolor (make_color COLOR_LIGHT_GREY COLOR_BLACK) v2);
  v4 ← write_literal (chars "0.01 Alpha") (vga_textmode_setcolor (color_value COLOR_RED) v3);
  v5 ← write_literal (chars "!" ++ [10; 10])
         (vga_textmode_setcolor (make_color COLOR_LIGHT_GREY COLOR_BLACK) v4);
  v6 ← printf putchar mem slack (chars "Heap start: 0x%x" ++ [10]) [u32 (kernel_heap_start (ps_meminfo s))] v5;
  v7 ← printf putchar mem slack (chars "Heap curpos: 0x%x" ++ [10]) [u32 (kernel_heap_curpos (ps_meminfo s))] v6;
  printf putchar mem slack (chars "kHighest page: 0x%x" ++ [10]) [u32 (highest_page (ps_kpaging s))] v7.

(** The two calls of [PANIC] in the loop. *)
Inductive panic_reason := OutOfAddressSpace | FailedToAllocatePage.

(** One round of the endless loop: a page of address space, a frame for it,
    and [memset(tmp, 0xFF, 0x1000)], here by words. *)
Definition kernel_main_round (st : heap_state paging_state)
    : outcome (heap_state paging_state + panic_reason) :=
  '(tmp, asa) ← asa_alloc 1 (hs_asa st);
  if tmp =? 0 then Ret (inr OutOfAddressSpace)
  else
    '(ret, phys, s) ← i386_allocate_page (ps_pd (hs_sys st)) tmp (Z.lor PT_PRESENT PT_RW)
                        (Z.lor PD_PRESENT PD_RW) (hs_sys st);
    if K_FAILED ret then Ret (inr FailedToAllocatePage)
    else
      m ← memset32 tmp 0xFFFFFFFF 1024 (ps_mach s);
      Ret (inl (HeapState (hs_heap st) asa (set_mach s m))).

Definition kernel_main_step (st : heap_state paging_state)
    : outcome (flow (heap_state paging_state) Empty_set) :=
  r ← kernel_main_round st;
  match r with inl st' => Ret (Continue st') | inr _ => Abort end.

Definition kernel_main (fuel : nat) (mem : memory) (slack : nat) (st : heap_state paging_state) (v : vga)
    : outcome Empty_set :=
  _ ← kernel_main_banner mem slack (hs_sys st) v;
  while_fuel fuel kernel_main_step st.

(** * Lemmas *)

(** ** Output *)

(** A step that prints returns, with the cursor on the screen. *)
Definition prints (m : outcome vga) : Prop := ∃ v, m = Ret v ∧ vga_inv v.

Lemma prints_bind m (f : vga → outcome vga) :
  prints m → (∀ v, vga_inv v → prints (f v)) → prints (m ≫= f).
Proof. intros (v & -> & Hv) Hf. by apply Hf. Qed.

Lemma prints_literal l v : Forall (λ c, 0 ≤ c < 256) l → vga_inv v → prints (write_literal l v).
Proof.
  intros Hl Hv. rewrite write_literal_emit by done.
  destruct (emit_screen l v Hv) as (v' & -> & Hv' & _). by exists v'.
Qed.

Lemma prints_printf mem slack f args text n v :
  renders mem f args text n → (2 ≤ slack)%nat → Z.of_nat (List.length f) < 2 ^ 31 → vga_inv v →
  prints (printf putchar mem slack f args v).
Proof.
  intros Hr Hs Hl Hv. rewrite (printf_emit _ _ _ _ text n) by done.
  destruct (emit_screen text v Hv) as (v' & -> & Hv' & _). by exists v'.
Qed.

Lemma setcolor_inv c v : 0 ≤ c < 256 → vga_inv v → vga_inv (vga_textmode_setcolor c v).
Proof. intros Hc []. by split. Qed.

Lemma renders_line mem l : printable l → renders mem (l ++ [10]) [] (l ++ [10]) (Z.of_nat (List.length l) + (1 + 0)).
Proof.
  intros Hl. apply renders_literal; [done|]. apply renders_char; [lia|done|]. apply renders_end.
Qed.

Lemma page_fault_report_prints mem slack cr2 r v :
  (2 ≤ slack)%nat → is_u32 (eip r) → is_u32 cr2 → vga_inv v → prints (page_fault_report mem slack cr2 r v).
Proof.
  intros Hs Heip Hcr2 Hv. unfold page_fault_report. cbv zeta.
  assert (Hline : ∀ (b : bool) line v, printable (chars line) → Z.of_nat (List.length (chars line)) < 1000 →
    vga_inv v → prints (if b then printf putchar mem slack (chars line ++ [10]) [] v else Ret v)).
  { intros [] line v0 Hl Hlen Hv0; [|by exists v0].
    eapply prints_printf; [by apply renders_line|done| |done]. rewrite length_app. cbn [List.length]. lia. }
  apply prints_bind.
  { eapply prints_printf; [|done|done|done]. apply (renders_literal _ (chars "HALT - PAGE FAULT")); [literal|].
    apply (renders_char _ 10); [lia|done|]. apply (renders_char _ 10); [lia|done|]. apply renders_end. }
  intros v1 Hv1. apply prints_bind.
  { eapply prints_printf; [apply (line_x mem (chars "EIP: 0x")); [literal|done]|done|done|done]. }
  intros v2 Hv2. apply prints_bind.
  { eapply prints_printf; [apply (line_x mem (chars "Faulting address: 0x")); [literal|done]|done|done|done]. }
  intros v3 Hv3. apply prints_bind; [apply Hline; [literal|done|done]|].
  intros v4 Hv4. apply prints_bind; [apply Hline; [literal|done|done]|].
  intros v5 Hv5. apply prints_bind; [apply Hline; [literal|done|done]|].
  intros v6 Hv6. apply Hline; [literal|done|done].
Qed.

(** A page fault is reported and the kernel aborts. *)
Lemma page_fault_aborts {X} mem slack cr2 r (s : vga * X) :
  (2 ≤ slack)%nat → is_u32 (eip r) → is_u32 cr2 → vga_inv s.1 →
  __i386_page_fault_handler mem slack cr2 r s = Abort.
Proof.
  intros Hs He Hc Hv. unfold __i386_page_fault_handler.
  by destruct (page_fault_report_prints mem slack cr2 r s.1 Hs He Hc Hv) as (v & -> & _).
Qed.

(** The timer runs at 1193180 / 1193 ticks per second. *)
Lemma pit_timer_install_irq_spec handler routines log :
  List.length routines = 16%nat →
  ∃ routines', pit_timer_install_irq handler routines log =
      Ret (routines', log ++ [(0x43, 0x36); (0x40, 1193 mod 256); (0x40, 1193 / 256)]) ∧
    routines' !! 0%nat = Some handler.
Proof.
  intros Hl. unfold pit_timer_install_irq, irq_install_handler.
  change (pit_set_timer_phase PIT_TIMER_CONSTANT log) with
    (Ret (outportb 0x40 4 (outportb 0x40 169 (outportb 0x43 0x36 log)))).
  rewrite Ret_bind, array_set_in, Ret_bind by lia. eexists. split.
  - unfold outportb. by rewrite <- !app_assoc.
  - apply list_lookup_insert_eq. lia.
Qed.

Lemma banner_prints mem slack s v :
  (2 ≤ slack)%nat → vga_inv v → prints (kernel_main_banner mem slack s v).
Proof.
  intros Hs Hv. unfold kernel_main_banner.
  assert (Hhex : ∀ l w v, printable l → Z.of_nat (List.length l) < 1000 → vga_inv v →
    prints (printf putchar mem slack (l ++ [37; 120; 10]) [u32 w] v)).
  { intros l w v0 Hl Hlen Hv0. eapply prints_printf; [apply line_x; [done|apply u32_range]|done| |done].
    rewrite length_app. cbn [List.length]. lia. }
  apply prints_bind; [apply prints_literal; [literal|done]|]. intros v1 Hv1.
  apply prints_bind; [apply prints_literal; [literal|by apply setcolor_inv]|]. intros v2 Hv2.
  apply prints_bind; [apply prints_literal; [literal|by apply setcolor_inv]|]. intros v3 Hv3.
  apply prints_bind; [apply prints_literal; [literal|by apply setcolor_inv]|]. intros v4 Hv4.
  apply prints_bind; [apply prints_literal; [literal|by apply setcolor_inv]|]. intros v5 Hv5.
  apply prints_bind; [apply (Hhex (chars "Heap start: 0x")); [literal|done|done]|]. intros v6 Hv6.
  apply prints_bind; [apply (Hhex (chars "Heap curpos: 0x")); [literal|done|done]|]. intros v7 Hv7.
  apply (Hhex (chars "kHighest page: 0x")); [literal|done|done].
Qed.

(** ** Memory *)

(** Filling a mapped client page touches no structure. *)
Lemma memset32_client s p f v :
  paging_inv s → client_page p → mapped_frame s p = Some f → is_u32 v →
  ∃ m, memset32 (p * PAGE_SIZE) v 1024 (ps_mach s) = Ret m ∧ paging_inv (set_mach s m) ∧
    ∀ q, is_page q → q ≠ window_page s → mapped_frame (set_mach s m) q = mapped_frame s q.
Proof.
  intros Hs Hp Hf Hv. pose proof (client_is_page p Hp) as Hpg.
  pose proof (client_not_window _ p (window_page_early s Hs) Hp) as Hpw.
  pose proof (pc_client _ _ _ _ _ (pi_core _ Hs) p f Hp Hf) as Hns.
  enough (H : wp (memset32 (p * PAGE_SIZE) v 1024 (ps_mach s)) (λ m, paging_inv (set_mach s m) ∧
    kept (window_page s) (λ a, a = f) (ps_mach s) m)).
  { apply wp_inv in H as (m & -> & Hm & Hk). exists m. split; [done|]. split; [done|].
    intros q Hq Hqw. by apply Hk. }
  unfold memset32.
  apply (wp_for_range (λ k m, paging_inv (set_mach s m) ∧ kept (window_page s) (λ a, a = f) (ps_mach s) m));
    [lia|split; [by destruct s|done]|].
  intros k m Hk (Hsm & Hkept).
  assert (Hva : is_u32 (p * PAGE_SIZE + 4 * k) ∧ (p * PAGE_SIZE + 4 * k) / PAGE_SIZE = p ∧
                (p * PAGE_SIZE + 4 * k) mod PAGE_SIZE = 4 * k).
  { unfold is_u32, is_page, PAGE_SIZE in *. split; [lia|]. div_lia. }
  destruct Hva as (Hu & Hdiv & Hmod).
  assert (Hw : walk m p = Some f) by (rewrite (k_walk _ _ _ _ Hkept) by done; done).
  rewrite <- Hdiv in Hw. destruct (store_mapped (set_mach s m) Hsm _ _ v Hu Hw) as (m1 & Hst & Hm1 & Hs1).
  rewrite Hmod in Hst. unfold store in Hst. simpl in Hst, Hm1.
  apply bind_Ret_inv in Hst as (m2 & -> & Heq). injection Heq as ->. apply wp_ret.
  assert (Hns1 : not_structure m1 f).
  { apply (kept_not_structure (kept_equiv (window_page s) (λ a, a = f) _ _ Hm1)).
    by apply (kept_not_structure Hkept). }
  destruct (write_page_spec _ _ _ _ _ f k v (pi_core _ Hs1) Hns1 Hk Hv) as (Hk1 & Hc1 & Hw1).
  simpl in Hk1, Hc1, Hw1. split.
  - apply (paging_inv_mach (set_mach s m1)); [done|done|].
    apply (tlb_ok_walks m1); [apply (pi_tlb _ Hs1)|done|]. intros q Hq.
    destruct (decide (q = window_page s)) as [->|]; [done|by apply Hk1].
  - apply (kept_trans _ _ _ m); [done|]. apply (kept_trans _ _ _ m1); [by apply kept_equiv|done].
Qed.

(** What the rounds of [kernel_main] keep. *)
Record main_inv (st : heap_state paging_state) : Prop := MainInv {
  mi_asa : asa_inv (hs_asa st);
  mi_sys : paging_inv (hs_sys st);
  mi_unmapped : ∀ p, reserved_pages ≤ p < n_kernel_pages →
    bit (kasa_pages (hs_asa st)) p = false → mapped_frame (hs_sys st) p = None
}.

(** Every round takes a page of address space or panics. *)
Lemma kernel_main_round_spec st :
  main_inv st →
  (∃ reason, kernel_main_round st = Ret (inr reason)) ∨
  ∃ st', kernel_main_round st = Ret (inl st') ∧ main_inv st' ∧
    asa_free_pages (hs_asa st') = asa_free_pages (hs_asa st) - 1.
Proof.
  intros [Hasa Hsys Hun]. unfold kernel_main_round.
  pose proof (asa_alloc_spec 1 (hs_asa st) Hasa ltac:(lia)) as Halloc.
  apply wp_inv in Halloc as ([tmp asa] & -> & Hasa' & [Hok|(-> & _)]); rewrite Ret_bind; [|left; by eexists].
  destruct Hok as (f & -> & Hlow & (_ & Hhigh & Hfree) & _ & Hup & Hcount).
  rewrite (asa_length _ Hasa) in Hhigh. change reserved_pages with 380 in *.
  change n_kernel_pages with 262143 in *.
  destruct (Z.eqb_spec (f * PAGE_SIZE) 0) as [He|_]; [unfold PAGE_SIZE in He; lia|].
  assert (Hclient : client_page f) by (unfold client_page; change (KVIRT_RESERVED / PAGE_SIZE) with 380; lia).
  assert (Hnone : mapped_frame (hs_sys st) f = None) by (apply Hun; [lia|apply Hfree; lia]).
  pose proof (allocate_page_spec (hs_sys st) f 3 3 Hsys Hclient Hnone ltac:(by vm_compute) ltac:(by vm_compute))
    as Hpage.
  change (Z.lor PT_PRESENT PT_RW) with 3. change (Z.lor PD_PRESENT PD_RW) with 3.
  apply wp_inv in Hpage as ([[ret phys] s] & -> & (b & m0 & Hupd) & Hs & Hkeep & _ & [(-> & g & _ & _ & _ & Hmap)|(-> & _)]);
    rewrite Ret_bind; [|left; by eexists].
  change (K_FAILED K_SUCCESS) with false. cbv iota.
  destruct (memset32_client s f _ 0xFFFFFFFF Hs Hclient Hmap ltac:(done)) as (m & -> & Hsm & Hwalks).
  rewrite Ret_bind. right. eexists. split; [done|]. split; [|exact Hcount].
  assert (Hwin : window_page s = window_page (hs_sys st)) by (by rewrite Hupd).
  split; cbn [hs_asa hs_sys]; [done|done|]. intros p Hp Hbit.
  change reserved_pages with 380 in Hp. change n_kernel_pages with 262143 in Hp.
  pose proof (window_page_early _ Hsys) as Hearly. change reserved_pages with 380 in Hearly.
  destruct Hup as (_ & Hlen & Hbits).
  assert (Hpb : 0 ≤ p < bs_length (kasa_pages (hs_asa st))).
  { rewrite (asa_length _ Hasa). change n_kernel_pages with 262143. lia. }
  rewrite Hbits in Hbit by lia. case_decide; [done|].
  rewrite Hwalks, Hkeep; [|unfold is_page; lia|lia|lia|unfold is_page; lia|lia].
  apply Hun; [|done]. change reserved_pages with 380. change n_kernel_pages with 262143. lia.
Qed.

Lemma kernel_main_step_spec st :
  main_inv st →
  kernel_main_step st = Abort ∨
  ∃ st', kernel_main_step st = Ret (Continue st') ∧ main_inv st' ∧
    asa_free_pages (hs_asa st') = asa_free_pages (hs_asa st) - 1.
Proof.
  intros Hst. unfold kernel_main_step.
  destruct (kernel_main_round_spec st Hst) as [(reason & ->)|(st' & -> & H)]; [by left|].
  right. by exists st'.
Qed.

(** A loop that panics or uses something up panics in the end. *)
Lemma while_abort {S R} (I : S → Prop) (measure : S → Z) (body : S → outcome (flow S R)) fuel s :
  (∀ s, I s → 0 ≤ measure s) →
  (∀ s, I s → body s = Abort ∨ ∃ s', body s = Ret (Continue s') ∧ I s' ∧ measure s' = measure s - 1) →
  I s → measure s < Z.of_nat fuel → while_fuel fuel body s = Abort.
Proof.
  intros Hpos Hbody. revert s. induction fuel as [|fuel IH]; intros s Hs Hlt.
  - specialize (Hpos s Hs). lia.
  - simpl. destruct (Hbody s Hs) as [->|(s' & -> & Hs' & Hm)]; [done|]. rewrite Ret_bind.
    apply IH; [done|lia].
Qed.

Lemma kernel_main_loop_aborts st fuel :
  main_inv st → n_kernel_pages < Z.of_nat fuel → while_fuel fuel kernel_main_step st = Abort.
Proof.
  intros Hst Hfuel. apply (while_abort main_inv (λ st, asa_free_pages (hs_asa st))).
  - intros s _. apply count_clear_nonneg.
  - apply kernel_main_step_spec.
  - done.
  - pose proof (asa_length _ (mi_asa _ Hst)) as Hl.
    pose proof (count_clear_le (kasa_pages (hs_asa st))) as Hle. rewrite Hl in Hle.
    change n_kernel_pages with 262143 in *. unfold asa_free_pages. specialize (Hle ltac:(lia)). lia.
Qed.

(** * Theorem *)

(** C26: from power-on to the panic.  Given what the loader must provide,
    [kernel_early] brings the memory system up, and [kernel_main], whose test
    allocates and fills pages without end, never faults: after the banner, and
    after at most as many rounds as there are pages of kernel address space,
    it runs out of address space or of frames and stops with a panic. *)
Theorem kernel_main_panics mem mboot m text slack v :
  boot_ok mem mboot m → (2 ≤ slack)%nat → vga_inv v →
  ∃ st ki, kernel_early_memory mem mboot m = Ret (st, ki) ∧
    ∀ fuel, n_kernel_pages < Z.of_nat fuel → kernel_main fuel text slack st v = Abort.
Proof.
  intros Hboot Hslack Hv.
  destruct (kernel_early_memory_run mem mboot m Hboot) as (st & ki & Hrun & Hheap & _ & Hclient & _).
  exists st, ki. split; [done|]. intros fuel Hfuel. unfold kernel_main.
  destruct (banner_prints text slack (hs_sys st) v Hslack Hv) as (v' & -> & _). rewrite Ret_bind.
  apply kernel_main_loop_aborts; [|done].
  split; [apply Hheap|apply Hheap|]. intros p Hp _. apply Hclient.
  unfold client_page. change (KVIRT_RESERVED / PAGE_SIZE) with 380. change reserved_pages with 380 in Hp.
  change n_kernel_pages with 262143 in Hp. lia.
Qed.

Lemma kernel_main_panics_witness :
  ∃ st ki, kernel_early_memory demo_mem 0x9000 demo_machine = Ret (st, ki) ∧
    kernel_main (Z.to_nat 262144) ∅ 2 st demo_screen = Abort.
Proof.
  destruct (kernel_main_panics demo_mem 0x9000 demo_machine ∅ 2 demo_screen demo_boot_ok (le_n 2)
    demo_screen_inv) as (st & ki & H1 & H2).
  exists st, ki. split; [exact H1|]. apply H2. rewrite Z2Nat.id; [reflexivity|discriminate].
Defined.
