(* ===== verification/Screen.v ===== *)
(** Output as a sequence of actions: what [printk_debug], [PANIC] and the banner
    of the kernel do to the screen, one colour change or character at a time,
    and screens compared up to the log of port writes; [abort] and the stack
    protector of the C library ([libsc/stdlib/abort.c], [libsc/ssp/ssp.c]). *)
From stdpp Require Import base numbers list gmap.
From Stdlib Require Import ZArith Lia String.
From S2P Require Import Prelude Strings StringProps Digits Printf PrintfProps Ports Textmode TextmodeProps Interrupts Main.

Open Scope Z_scope.

(** * The code *)

(** libsc/stdlib/abort.c, built for the kernel: a last message, then the loop
    with interrupts disabled.  The result is the state in which the machine
    stays: the screen and the interrupt flag. *)
Definition abort (mem : memory) (slack : nat) (m : vga * bool) : outcome (vga * bool) :=
  v ← printf putchar mem slack (chars "Kernel Panic: abort()" ++ [10]) [] m.1;
  Ret (v, false).

(** libsc/ssp/ssp.c: the value for 32-bit pointers, and what the compiled
    functions call when they find it changed. *)
Definition STACK_CHK_GUARD : Z := 0xe2dee396.
Definition __stack_chk_fail (mem : memory) (slack : nat) (m : vga * bool) : outcome (vga * bool) :=
  abort mem slack m.

(** [PANIC(reason)]; [reason] and [file] are addresses of strings. *)
Definition PANIC (mem : memory) (slack : nat) (reason file line : Z) (m : vga * bool)
    : outcome (vga * bool) :=
  v ← printk_debug mem slack (chars "PANIC: %s at %s:%d" ++ [10]) [reason; file; line] m.1;
  abort mem slack (v, m.2).

(** [ASSERT(x)]; [expression] is the address of the text of [x]. *)
Definition ASSERT (mem : memory) (slack : nat) (x : bool) (expression file line : Z) (m : vga * bool)
    : outcome (vga * bool) :=
  if x then Ret m
  else
    v ← printk_debug mem slack (chars "ASSERT failed: %s at %s:%d") [expression; file; line] m.1;
    abort mem slack (v, m.2).

(** * Actions *)

Inductive screen_action := SetColor (c : Z) | PutChar (c : Z).

#[export] Instance screen_action_eq_dec : EqDecision screen_action.
Proof. solve_decision. Defined.

Definition run_action (a : screen_action) (v : vga) : outcome vga :=
  match a with
  | SetColor c => Ret (vga_textmode_setcolor c v)
  | PutChar c => putchar (u8 c) v
  end.

Fixpoint run_actions (l : list screen_action) (v : vga) : outcome vga :=
  match l with
  | [] => Ret v
  | a :: l' => v' ← run_action a v; run_actions l' v'
  end.

Definition text (l : list Z) : list screen_action := map PutChar l.

(** [printk_debug] of a message. *)
Definition debug_actions (message : list Z) : list screen_action :=
  SetColor (color_value COLOR_RED) :: text (chars "DEBUG: ")
  ++ SetColor (make_color COLOR_LIGHT_GREY COLOR_BLACK) :: text message ++ [PutChar 10].

Definition abort_actions : list screen_action := text (chars "Kernel Panic: abort()" ++ [10]).

Definition panic_text (reason file : list Z) (line : Z) : list Z :=
  chars "PANIC: " ++ reason ++ chars " at " ++ file ++ [58] ++ numeral 10 line ++ [10].

Definition panic_actions (reason file : list Z) (line : Z) : list screen_action :=
  debug_actions (panic_text reason file line) ++ abort_actions.

Definition action_ok (a : screen_action) : Prop :=
  match a with SetColor c => 0 ≤ c < 256 | PutChar _ => True end.

(** ** Screens up to the port log *)

Definition with_ports (log : port_log) (v : vga) : vga :=
  Vga (vga_textmode_row v) (vga_textmode_column v) (vga_textmode_color v) (vga_textmode_buffer v)
    (vga_memory v) log.

Definition same_screen (v w : vga) : Prop := w = with_ports (vga_ports w) v.

Definition lift_rel {A} (R : A → A → Prop) (m n : outcome A) : Prop :=
  match m, n with
  | Ret a, Ret b => R a b
  | Abort, Abort | Fault, Fault | NoFuel, NoFuel => True
  | _, _ => False
  end.

#[export] Instance same_screen_equiv : Equivalence same_screen.
Proof.
  split.
  - intros []. reflexivity.
  - intros v w H. unfold same_screen in *. rewrite H. by destruct v.
  - intros u v w H1 H2. unfold same_screen in *. rewrite H2, H1. by destruct u.
Qed.

#[export] Instance lift_rel_equiv {A} (R : A → A → Prop) `{!Equivalence R} : Equivalence (lift_rel R).
Proof.
  split.
  - intros []; simpl; done.
  - intros [] []; simpl; done.
  - intros [] [] []; simpl; try done. by etransitivity.
Qed.

Lemma lift_rel_bind {A B} (R : A → A → Prop) (Q : B → B → Prop) m n (f g : A → outcome B) :
  lift_rel R m n → (∀ a b, R a b → lift_rel Q (f a) (g b)) → lift_rel Q (m ≫= f) (n ≫= g).
Proof. destruct m, n; simpl; try done. auto. Qed.

Lemma lift_rel_for_range {A} (R : A → A → Prop) lo hi (body : Z → A → outcome A) s t :
  (∀ i s t, R s t → lift_rel R (body i s) (body i t)) → R s t →
  lift_rel R (for_range lo hi body s) (for_range lo hi body t).
Proof.
  intros Hbody. unfold for_range. generalize (Z.to_nat (hi - lo)) as n. intros n.
  revert lo s t. induction n as [|n IH]; intros lo s t Hst; [done|]. simpl.
  eapply lift_rel_bind; [by apply Hbody|]. auto.
Qed.

Ltac same := match goal with H : same_screen ?v ?w |- _ =>
  unfold same_screen in H; rewrite H; clear H; destruct v; try reflexivity end.

Lemma same_screen_fields v w :
  same_screen v w →
  vga_textmode_row w = vga_textmode_row v ∧ vga_textmode_column w = vga_textmode_column v ∧
  vga_textmode_color w = vga_textmode_color v ∧ vga_textmode_buffer w = vga_textmode_buffer v ∧
  vga_memory w = vga_memory v.
Proof. intros H. by same. Qed.

#[export] Instance set_cell_proper k x : Proper (same_screen ==> lift_rel same_screen) (set_cell k x).
Proof. intros v w H. same. unfold set_cell. simpl. by destruct (in_vga_window _). Qed.

#[export] Instance get_cell_proper k : Proper (same_screen ==> eq) (get_cell k).
Proof. intros v w H. by same. Qed.

#[export] Instance setcolor_proper c : Proper (same_screen ==> same_screen) (vga_textmode_setcolor c).
Proof. intros v w H. by same. Qed.

#[export] Instance move_to_proper r c : Proper (same_screen ==> same_screen) (move_to r c).
Proof. intros v w H. by same. Qed.

#[export] Instance update_cursor_proper p : Proper (same_screen ==> same_screen) (update_cursor_ports p).
Proof. intros v w H. by same. Qed.

#[export] Instance vga_inv_proper : Proper (same_screen ==> iff) vga_inv.
Proof.
  intros v w H. apply same_screen_fields in H as (H1 & H2 & H3 & H4 & _).
  split; intros []; split; congruence.
Qed.

#[export] Instance scroll_proper : Proper (same_screen ==> lift_rel same_screen) vga_textmode_scroll.
Proof.
  intros v w H. unfold vga_textmode_scroll. eapply lift_rel_bind; [|intros a b Hab; simpl; by f_equiv].
  unfold for_each_cell. apply lift_rel_for_range; [|done]. intros y v1 w1 H1.
  apply lift_rel_for_range; [|done]. intros x v2 w2 H2. cbv zeta.
  pose proof (same_screen_fields _ _ H2) as (_ & _ & -> & _).
  destruct (y =? VGA_HEIGHT); [by f_equiv|]. rewrite H2.
  destruct (get_cell _ w2) as [k| | |]; simpl; [|done..]. by f_equiv.
Qed.

#[export] Instance vga_putchar_proper c :
  Proper (same_screen ==> lift_rel same_screen) (vga_textmode_putchar c).
Proof.
  intros v w H. unfold vga_textmode_putchar. pose proof (same_screen_fields _ _ H) as (Hr & Hc & Hk & _).
  eapply (lift_rel_bind same_screen).
  - destruct (c =? 10); [simpl; rewrite Hr; by f_equiv|].
    unfold vga_textmode_putentryat. rewrite Hr, Hc, Hk. eapply (lift_rel_bind same_screen); [by f_equiv|].
    intros a b Hab. pose proof (same_screen_fields _ _ Hab) as (-> & -> & _). cbv zeta.
    destruct (_ =? VGA_WIDTH); simpl; by f_equiv.
  - intros a b Hab. pose proof (same_screen_fields _ _ Hab) as (-> & _).
    eapply (lift_rel_bind same_screen); [by destruct (_ =? VGA_HEIGHT); [f_equiv|]|].
    intros a1 b1 H1. simpl. pose proof (same_screen_fields _ _ H1) as (-> & -> & _). by f_equiv.
Qed.

#[export] Instance run_actions_proper l : Proper (same_screen ==> lift_rel same_screen) (run_actions l).
Proof.
  induction l as [|a l IH]; intros v w H; [done|]. simpl. eapply lift_rel_bind; [|intros; by apply IH].
  destruct a; simpl; [by f_equiv|]. unfold putchar. by f_equiv.
Qed.

(** * Lemmas *)

Lemma run_actions_app l1 l2 v : run_actions (l1 ++ l2) v = run_actions l1 v ≫= run_actions l2.
Proof.
  revert v. induction l1 as [|a l1 IH]; intros v; [done|]. simpl.
  destruct (run_action a v); simpl; [apply IH|done..].
Qed.

Lemma run_text l v : run_actions (text l) v = emit putchar l v.
Proof. revert v. induction l as [|c l IH]; intros v; [done|]. simpl. destruct (putchar (u8 c) v); simpl; [apply IH|done..]. Qed.

Lemma text_app l1 l2 : text (l1 ++ l2) = text l1 ++ text l2.
Proof. apply map_app. Qed.

Lemma text_ok l : Forall action_ok (text l).
Proof. induction l; constructor; done. Qed.

Lemma debug_actions_ok message : Forall action_ok (debug_actions message).
Proof.
  unfold debug_actions. constructor; [by vm_compute|]. apply Forall_app. split; [apply text_ok|].
  constructor; [by vm_compute|]. apply Forall_app. split; [apply text_ok|]. by repeat constructor.
Qed.

Lemma panic_actions_ok reason file line : Forall action_ok (panic_actions reason file line).
Proof. apply Forall_app. split; [apply debug_actions_ok|apply text_ok]. Qed.

#[export] Hint Resolve text_ok debug_actions_ok panic_actions_ok : core.

(** One action leaves a good screen. *)
Lemma run_action_safe a v :
  action_ok a → vga_inv v → ∃ v', run_action a v = Ret v' ∧ vga_inv v'.
Proof.
  intros Ha Hv. destruct a as [c|c]; simpl in *.
  - eexists. split; [done|]. destruct Hv. by split.
  - destruct (putchar_spec (s8 (u8 c)) v Hv) as (v' & H & Hv' & _). by exists v'.
Qed.

Lemma run_actions_safe l v :
  Forall action_ok l → vga_inv v → ∃ v', run_actions l v = Ret v' ∧ vga_inv v'.
Proof.
  intros Hl. revert v. induction Hl as [|a l Ha Hl IH]; intros v Hv; [by exists v|]. simpl.
  destruct (run_action_safe a v Ha Hv) as (v' & -> & Hv'). by apply IH.
Qed.

Lemma printk_debug_actions mem slack fmt args message n v :
  renders mem fmt args message n → (2 ≤ slack)%nat → Z.of_nat (List.length fmt) < 2 ^ 31 →
  printk_debug mem slack fmt args v = run_actions (debug_actions message) v.
Proof.
  intros Hr Hs Hl. unfold printk_debug, debug_actions. cbn [run_actions run_action]. rewrite Ret_bind.
  rewrite run_actions_app, run_text, write_literal_emit by literal.
  destruct (emit putchar (chars "DEBUG: ") _) as [v1| | |]; [|done..].
  rewrite !Ret_bind. cbn [run_actions run_action]. rewrite Ret_bind, run_actions_app, run_text.
  rewrite (vprintf_run putchar mem slack fmt args message n) by done.
  destruct (emit putchar message _) as [v2| | |]; [|done..]. rewrite !Ret_bind. cbn [run_actions run_action].
  change (u8 10) with 10. by destruct (putchar 10 v2).
Qed.

Lemma abort_run mem slack v i :
  (2 ≤ slack)%nat → abort mem slack (v, i) = v' ← run_actions abort_actions v; Ret (v', false).
Proof.
  intros Hs. unfold abort, abort_actions. rewrite run_text. simpl fst.
  by rewrite (printf_emit _ _ _ _ _ _ _ (renders_line mem (chars "Kernel Panic: abort()") ltac:(literal))).
Qed.

(** The arguments are the addresses of the texts. *)
Lemma PANIC_run mem slack reason file line r f v i :
  (2 ≤ slack)%nat → 0 ≤ line < 2 ^ 31 → cstring mem reason r → cstring mem file f →
  Z.of_nat (List.length r) < 2 ^ 32 → Z.of_nat (List.length f) < 2 ^ 32 →
  PANIC mem slack reason file line (v, i) = v' ← run_actions (panic_actions r f line) v; Ret (v', false).
Proof.
  intros Hs Hline Hr Hf Hlr Hlf. unfold PANIC, panic_actions.
  rewrite (printk_debug_actions mem slack _ _ (panic_text r f line) (7 + (4 + (1 + (1 + 0)))) v); [|..|done|by vm_compute].
  - rewrite run_actions_app. destruct (run_actions (debug_actions _) v) as [v1| | |]; [|done..].
    rewrite !Ret_bind. by rewrite abort_run.
  - change (chars "PANIC: %s at %s:%d" ++ [10])
      with (chars "PANIC: " ++ [37; 115] ++ chars " at " ++ [37; 115] ++ [58] ++ [37; 100] ++ [10]).
    apply (renders_literal _ (chars "PANIC: ")); [literal|]. apply renders_s; [done|done|].
    apply (renders_literal _ (chars " at ")); [literal|]. apply renders_s; [done|done|].
    apply renders_char; [lia|done|]. apply renders_d; [done|]. apply renders_char; [lia|done|]. apply renders_end.
Qed.

(** ** Histories

    [shows v0 l v]: the screen [v] is what the actions [l] make of [v0]; the
    ports may have been written to in between. *)
Definition shows (v0 : vga) (l : list screen_action) (v : vga) : Prop :=
  lift_rel same_screen (run_actions l v0) (Ret v).

Lemma shows_nil v : shows v [] v.
Proof. unfold shows. simpl. done. Qed.

Lemma shows_same v0 l v w : shows v0 l v → same_screen v w → shows v0 l w.
Proof. unfold shows. destruct (run_actions l v0); simpl; try done. intros -> ->. done. Qed.

Lemma shows_app v0 l v l' v' : shows v0 l v → run_actions l' v = Ret v' → shows v0 (l ++ l') v'.
Proof.
  unfold shows. intros H Hrun. rewrite run_actions_app.
  destruct (run_actions l v0) as [w| | |]; simpl in H; try done. rewrite Ret_bind, <- Hrun.
  by apply run_actions_proper.
Qed.

Lemma shows_inv v0 l v : shows v0 l v → Forall action_ok l → vga_inv v0 → vga_inv v.
Proof.
  unfold shows. intros H Hl H0. destruct (run_actions_safe l v0 Hl H0) as (w & Hw & Hinv).
  rewrite Hw in H. simpl in H. by rewrite <- H.
Qed.

Lemma with_ports_same log v : same_screen v (with_ports log v).
Proof. by destruct v. Qed.

(** A message without conversions. *)
Lemma debug_literal mem slack message v :
  (2 ≤ slack)%nat → printable (chars message) → Z.of_nat (List.length (chars message)) < 2 ^ 31 →
  printk_debug mem slack (chars message) [] v = run_actions (debug_actions (chars message)) v.
Proof.
  intros Hs Hp Hl. eapply printk_debug_actions; [|done|done].
  pose proof (renders_literal mem (chars message) [] [] [] 0 Hp (renders_end mem [])) as H.
  rewrite !app_nil_r in H. exact H.
Qed.

(** ** Ports

    Output writes to the ports of the cursor only. *)
Definition cursor_port (w : Z * Z) : Prop := w.1 = 0x3D4 ∨ w.1 = 0x3D5.

Lemma run_action_ports a v v' :
  action_ok a → vga_inv v → run_action a v = Ret v' →
  ∃ log, vga_ports v' = vga_ports v ++ log ∧ Forall cursor_port log.
Proof.
  intros Ha Hv Hrun. destruct a as [c|c]; simpl in Hrun.
  - injection Hrun as <-. exists []. by rewrite app_nil_r.
  - destruct (putchar_spec (s8 (u8 c)) v Hv) as (w & Hw & _ & _ & _ & _ & _ & Hports).
    unfold putchar in Hrun. rewrite Hw in Hrun. injection Hrun as <-. eexists. split; [exact Hports|].
    unfold cursor_writes, cursor_port. repeat constructor; simpl; lia.
Qed.

Lemma run_actions_ports l v v' :
  Forall action_ok l → vga_inv v → run_actions l v = Ret v' →
  ∃ log, vga_ports v' = vga_ports v ++ log ∧ Forall cursor_port log.
Proof.
  intros Hl. revert v. induction Hl as [|a l Ha Hl IH]; intros v Hv Hrun.
  - injection Hrun as <-. exists []. by rewrite app_nil_r.
  - simpl in Hrun. destruct (run_action_safe a v Ha Hv) as (v1 & H1 & Hv1). rewrite H1, Ret_bind in Hrun.
    destruct (run_action_ports a v v1 Ha Hv H1) as (log1 & Hp1 & Hf1).
    destruct (IH v1 Hv1 Hrun) as (log2 & Hp2 & Hf2). exists (log1 ++ log2).
    rewrite Hp2, Hp1, <- app_assoc. split; [done|]. by apply Forall_app.
Qed.

(** Running more actions: the screen stays good, the history grows, and only
    cursor ports are written to. *)
Lemma run_shows v0 h l v :
  Forall action_ok l → vga_inv v → shows v0 h v →
  ∃ v', run_actions l v = Ret v' ∧ vga_inv v' ∧ shows v0 (h ++ l) v' ∧
    ∃ log, vga_ports v' = vga_ports v ++ log ∧ Forall cursor_port log.
Proof.
  intros Hl Hv Hs. destruct (run_actions_safe l v Hl Hv) as (v' & Hrun & Hv'). exists v'.
  split; [done|]. split; [done|]. split; [by eapply shows_app|]. by eapply run_actions_ports.
Qed.
