(* ===== verification/Diagnostics.v ===== *)
(** The debugging output of the kernel: [_i386_print_reserved] of
    [kernel/arch/i386/mem.c], [_kheap_print] and [__check_kheap_integrity] of
    [kernel/mm/heap.c], [_i386_print_reserved] being called from a comment of
    [kernel_early] only and [_kheap_print] from nowhere. *)
From stdpp Require Import base numbers list gmap.
From Stdlib Require Import ZArith Lia String.
From S2P Require Import Prelude Kernel Bitset Alloc Meminfo KPaging Asa Kheap.
From S2P Require Import Strings StringProps Digits Printf PrintfProps Ports Textmode TextmodeProps.
From S2P Require Import Interrupts Main Screen.

Open Scope Z_scope.

(** * The code *)

(** ** Memory *)

Section print_reserved.
Context (text_mem : memory) (slack : nat).

Definition print_entry (e : mmap_entry) (v : vga) : outcome vga :=
  printf putchar text_mem slack (chars "[mem] addr: 0x%lx len: 0x%lx reserved: %u" ++ [10])
    [u32 (me_addr e); me_addr e / 2 ^ 32; u32 (me_len e); me_len e / 2 ^ 32; me_type e] v.

Fixpoint print_mmap (fuel : nat) (mem : boot_mem) (cur_mmap_addr mmap_end_addr : Z) (v : vga) : outcome vga :=
  match fuel with
  | O => NoFuel
  | S fuel' =>
      if cur_mmap_addr <? mmap_end_addr then
        let current_entry := read_mmap_entry mem cur_mmap_addr in
        v' ← print_entry current_entry v;
        print_mmap fuel' mem (cur_mmap_addr ⊕ (me_size current_entry ⊕ 4)) mmap_end_addr v'
      else Ret v
  end.

(** As in [i386_mmap_check_reserved], a round per four bytes is enough. *)
Definition _i386_print_reserved (mem : boot_mem) (mi : i386_mem_info) (v : vga) : outcome vga :=
  v1 ← printf putchar text_mem slack (chars "[mem] kernel reserved start: 0x%x end: 0x%x" ++ [10])
         [kernel_reserved_start mi; kernel_reserved_end mi] v;
  v2 ← printf putchar text_mem slack (chars "[mem] mem_lower: %u, mem_upper: %u, mem_total: %u" ++ [10])
         [mem_lower mi; mem_upper mi; mem_lower mi ⊕ mem_upper mi] v1;
  v3 ← print_mmap (S (Z.to_nat (mmap_length mi / 4 + 1))) mem (mmap mi) (mmap mi ⊕ mmap_length mi) v2;
  v4 ← printf putchar text_mem slack (chars "[mem] elf reserved start: 0x%x end: 0x%x" ++ [10])
         [kernel_reserved_start mi; kernel_reserved_end mi] v3;
  printf putchar text_mem slack (chars "[mem] mboot reserved start: 0x%x end: 0x%x" ++ [10])
    [multiboot_reserved_start mi; multiboot_reserved_end mi] v4.
End print_reserved.

(** ** Heap *)

(** [KHEAP_DEBUG] is not defined. *)
Definition __check_kheap_integrity (heap : kheap) : bool := true.

(** [cur->block_size - sizeof(kheap_block_t) - (cur->delimiters.length/32)*8] *)
Definition usable (cur : kheap_block) : Z :=
  block_size cur ⊖ sizeof_kheap_block ⊖ (bs_length (delimiters cur) / 32) ⊗ 8.

Fixpoint kheap_print_blocks (text_mem : memory) (slack : nat) (i : Z) (blocks : list kheap_block) (v : vga)
    : outcome vga :=
  match blocks with
  | [] => Ret v
  | cur :: rest =>
      v' ← printk_debug text_mem slack (chars "[kheap] block %u: Size: %u, Usable: %u")
             [i; block_size cur; usable cur] v;
      kheap_print_blocks text_mem slack (i ⊕ 1) rest v'
  end.

Definition _kheap_print (text_mem : memory) (slack : nat) (heap : kheap) (v : vga) : outcome vga :=
  kheap_print_blocks text_mem slack 0 (first heap) v.

(** * Specification *)

(** What an entry of the memory map looks like in the report. *)
Definition entry_text (e : mmap_entry) : list Z :=
  chars "[mem] addr: 0x" ++ numeral 16 (me_addr e) ++ chars " len: 0x" ++ numeral 16 (me_len e) ++
  chars " reserved: " ++ numeral 10 (me_type e) ++ [10].

Definition range_text (what : string) (lo hi : Z) : list Z :=
  chars what ++ numeral 16 lo ++ chars " end: 0x" ++ numeral 16 hi ++ [10].

Definition totals_text (mi : i386_mem_info) : list Z :=
  chars "[mem] mem_lower: " ++ numeral 10 (mem_lower mi) ++ chars ", mem_upper: " ++
  numeral 10 (mem_upper mi) ++ chars ", mem_total: " ++ numeral 10 (mem_lower mi ⊕ mem_upper mi) ++ [10].

Definition reserved_report (mi : i386_mem_info) (es : list mmap_entry) : list Z :=
  range_text "[mem] kernel reserved start: 0x" (kernel_reserved_start mi) (kernel_reserved_end mi) ++
  totals_text mi ++
  List.concat (map entry_text es) ++
  range_text "[mem] elf reserved start: 0x" (kernel_reserved_start mi) (kernel_reserved_end mi) ++
  range_text "[mem] mboot reserved start: 0x" (multiboot_reserved_start mi) (multiboot_reserved_end mi).

(** * Lemmas *)

Lemma read_le_range mem n a : 0 ≤ read_le mem n a < 2 ^ (8 * Z.of_nat n).
Proof.
  revert a. induction n as [|n IH]; intros a; [simpl; lia|]. cbn [read_le].
  replace (8 * Z.of_nat (S n)) with (8 + 8 * Z.of_nat n) by lia. rewrite Z.pow_add_r by lia.
  change (2 ^ 8) with 256. specialize (IH (a + 1)). pose proof (Z.mod_pos_bound (mem (u32 a)) 256). lia.
Qed.

Section report.
Context (text_mem : memory) (slack : nat) (Hslack : (2 ≤ slack)%nat).

Lemma print_entry_run mem p v :
  print_entry text_mem slack (read_mmap_entry mem p) v = emit putchar (entry_text (read_mmap_entry mem p)) v.
Proof.
  unfold print_entry. set (e := read_mmap_entry mem p).
  assert (Ha : 0 ≤ me_addr e < 2 ^ 64) by apply (read_le_range mem 8).
  assert (Hl : 0 ≤ me_len e < 2 ^ 64) by apply (read_le_range mem 8).
  assert (Ht : is_u32 (me_type e)) by apply (read_le_range mem 4).
  assert (Hsplit : ∀ x, 0 ≤ x < 2 ^ 64 → is_u32 (u32 x) ∧ is_u32 (x / 2 ^ 32) ∧ u32 x + 2 ^ 32 * (x / 2 ^ 32) = x).
  { intros x Hx. split; [apply u32_range|]. unfold is_u32, u32. change (2 ^ 32) with 4294967296.
    change (2 ^ 64) with (4294967296 * 4294967296) in Hx. div_lia. }
  destruct (Hsplit _ Ha) as (Ha1 & Ha2 & Ha3). destruct (Hsplit _ Hl) as (Hl1 & Hl2 & Hl3).
  apply (printf_emit _ _ _ _ _ (14 + (8 + (11 + (1 + 0))))); [|done|by vm_compute].
  change (chars "[mem] addr: 0x%lx len: 0x%lx reserved: %u" ++ [10])
    with (chars "[mem] addr: 0x" ++ [37; 108; 120] ++ chars " len: 0x" ++ [37; 108; 120] ++
          chars " reserved: " ++ [37; 117] ++ [10]).
  unfold entry_text. apply (renders_literal _ (chars "[mem] addr: 0x")); [literal|].
  rewrite <- Ha3 at 3. apply renders_lx; [done|done|].
  apply (renders_literal _ (chars " len: 0x")); [literal|]. rewrite <- Hl3 at 3. apply renders_lx; [done|done|].
  apply (renders_literal _ (chars " reserved: ")); [literal|]. apply renders_u; [done|].
  apply renders_char; [lia|done|]. apply renders_end.
Qed.

Lemma print_range f what lo hi v :
  f = chars what ++ [37; 120] ++ chars " end: 0x" ++ [37; 120; 10] → printable (chars what) → Z.of_nat (List.length (chars what)) < 1000 → is_u32 lo → is_u32 hi →
  printf putchar text_mem slack f [lo; hi] v = emit putchar (range_text what lo hi) v.
Proof.
  intros -> Hp Hlen Hlo Hhi. eapply printf_emit; [|done|].
  - apply renders_literal; [done|]. apply renders_x; [done|].
    apply (renders_literal _ (chars " end: 0x")); [literal|]. apply renders_x; [done|].
    apply renders_char; [lia|done|]. apply renders_end.
  - rewrite length_app. change (List.length ([37; 120] ++ chars " end: 0x" ++ [37; 120; 10])) with 13%nat. lia.
Qed.

Lemma print_mmap_run mem a es z fuel v :
  mmap_at mem a es z → (List.length es < fuel)%nat →
  print_mmap text_mem slack fuel mem a z v = emit putchar (List.concat (map entry_text es)) v.
Proof.
  intros Hat. revert fuel v. induction Hat as [|a e es z He Ha Hsize Hwrap Hat IH];
    intros [|fuel] v Hfuel; simpl in Hfuel; try lia; cbn [print_mmap map List.concat].
  - by rewrite Z.ltb_irrefl.
  - pose proof (mmap_at_length _ _ _ _ Hat). destruct (Z.ltb_spec a z); [|lia]. cbv zeta.
    rewrite print_entry_run, He, emit_app. destruct (emit putchar (entry_text e) v) as [v1| | |]; [|done..].
    rewrite !Ret_bind, (u32_small (me_size e + 4)), u32_small by u32_lia. apply IH. lia.
Qed.

(** [_i386_print_reserved] ends and prints the report, one line for each entry
    of the memory map.  The range it calls that of the ELF sections is the
    kernel's once more. *)
Lemma print_reserved_run mem mi es v :
  mmap_at mem (mmap mi) es (mmap mi + mmap_length mi) → 0 ≤ mmap mi → mmap mi + mmap_length mi < 2 ^ 32 →
  is_u32 (kernel_reserved_start mi) → is_u32 (kernel_reserved_end mi) → is_u32 (mem_lower mi) →
  is_u32 (mem_upper mi) → is_u32 (multiboot_reserved_start mi) → is_u32 (multiboot_reserved_end mi) →
  _i386_print_reserved text_mem slack mem mi v = emit putchar (reserved_report mi es) v.
Proof.
  intros Hat Hm Hl H1 H2 H3 H4 H5 H6. unfold _i386_print_reserved, reserved_report.
  assert (Htotals : ∀ v, printf putchar text_mem slack
      (chars "[mem] mem_lower: %u, mem_upper: %u, mem_total: %u" ++ [10])
      [mem_lower mi; mem_upper mi; mem_lower mi ⊕ mem_upper mi] v = emit putchar (totals_text mi) v).
  { intros v0. eapply printf_emit; [|done|by vm_compute].
    change (chars "[mem] mem_lower: %u, mem_upper: %u, mem_total: %u" ++ [10])
      with (chars "[mem] mem_lower: " ++ [37; 117] ++ chars ", mem_upper: " ++ [37; 117] ++
            chars ", mem_total: " ++ [37; 117] ++ [10]).
    apply (renders_literal _ (chars "[mem] mem_lower: ")); [literal|]. apply renders_u; [done|].
    apply (renders_literal _ (chars ", mem_upper: ")); [literal|]. apply renders_u; [done|].
    apply (renders_literal _ (chars ", mem_total: ")); [literal|]. apply renders_u; [apply u32_range|].
    apply renders_char; [lia|done|]. apply renders_end. }
  pose proof (mmap_at_length _ _ _ _ Hat).
  pose proof (Z.div_le_lower_bound (mmap_length mi) 4 (Z.of_nat (List.length es))).
  rewrite emit_app, (print_range _ "[mem] kernel reserved start: 0x" _ _ _ eq_refl ltac:(literal) ltac:(by vm_compute) H1 H2).
  next_emit. rewrite emit_app, Htotals. next_emit.
  rewrite (u32_small (mmap mi + mmap_length mi)) by u32_lia.
  rewrite emit_app, (print_mmap_run mem _ es) by (done || lia). next_emit.
  rewrite emit_app, (print_range _ "[mem] elf reserved start: 0x" _ _ _ eq_refl ltac:(literal) ltac:(by vm_compute) H1 H2).
  next_emit. by rewrite (print_range _ "[mem] mboot reserved start: 0x" _ _ _ eq_refl ltac:(literal) ltac:(by vm_compute) H5 H6).
Qed.
End report.

(** ** The heap *)

Definition block_text (i : Z) (cur : kheap_block) : list Z :=
  chars "[kheap] block " ++ numeral 10 i ++ chars ": Size: " ++ numeral 10 (block_size cur) ++
  chars ", Usable: " ++ numeral 10 (usable cur).

(** One line for each block. *)
Lemma kheap_print_run text_mem slack blocks i v :
  (2 ≤ slack)%nat → Forall (λ b, is_u32 (block_size b)) blocks →
  0 ≤ i → i + Z.of_nat (List.length blocks) < 2 ^ 32 →
  kheap_print_blocks text_mem slack i blocks v =
    run_actions (List.concat (imap (λ n b, debug_actions (block_text (i + Z.of_nat n) b)) blocks)) v.
Proof.
  intros Hs Hb. revert i v. induction Hb as [|b blocks Hb Hall IH]; intros i v Hi Hn; [done|].
  cbn [kheap_print_blocks]. rewrite imap_cons. cbn [List.concat List.length] in *. rewrite run_actions_app, Z.add_0_r.
  assert (Hline : printk_debug text_mem slack (chars "[kheap] block %u: Size: %u, Usable: %u")
    [i; block_size b; usable b] v = run_actions (debug_actions (block_text i b)) v).
  { eapply printk_debug_actions; [|done|by vm_compute].
    change (chars "[kheap] block %u: Size: %u, Usable: %u")
      with (chars "[kheap] block " ++ [37; 117] ++ chars ": Size: " ++ [37; 117] ++ chars ", Usable: " ++ [37; 117]).
    unfold block_text. rewrite <- (app_nil_r (numeral 10 (usable b))).
    apply renders_literal; [literal|]. apply renders_u; [u32_lia|].
    apply renders_literal; [literal|]. apply renders_u; [done|].
    apply renders_literal; [literal|]. apply renders_u; [apply u32_range|]. apply renders_end. }
  rewrite Hline. destruct (run_actions (debug_actions (block_text i b)) v) as [v1| | |]; [|done..].
  rewrite !Ret_bind, (u32_small (i + 1)) by u32_lia. rewrite IH by lia. f_equal. f_equal.
  apply imap_ext. intros n x _. simpl. do 2 f_equal. lia.
Qed.

(** The whole heap: a line for every block, and the number is its place. *)
Lemma kheap_print_all text_mem slack heap v :
  (2 ≤ slack)%nat → Forall (λ b, is_u32 (block_size b)) (first heap) →
  Z.of_nat (List.length (first heap)) < 2 ^ 32 →
  _kheap_print text_mem slack heap v =
    run_actions (List.concat (imap (λ n b, debug_actions (block_text (Z.of_nat n) b)) (first heap))) v.
Proof. intros Hs Hb Hn. unfold _kheap_print. by rewrite kheap_print_run by (done || lia). Qed.
