(* ===== verification/Startup.v ===== *)
(** From the loader to [sti]: [kernel_early] of [kernel/kernel/kernel.c] with
    everything it sets up.

    The addresses of functions and tables are parameters. *)
From stdpp Require Import base numbers list gmap.
From Stdlib Require Import ZArith Lia String.
From S2P Require Import Prelude Kernel Bitset Alloc Meminfo EarlyHeap Frames Machine KPaging Asa.
From S2P Require Import Paging Window PagingSpec PagingInit Kheap KheapBlock KheapSpec KheapProps Boot.
From S2P Require Import Strings StringProps Digits Printf PrintfProps Ports Textmode TextmodeProps.
From S2P Require Import Pit Descriptors Interrupts Keyboard Vfs Layout Main Screen.

Open Scope Z_scope.

(** * The code *)

(** The globals of the drivers and the processor's interrupt flag.  The ports
    of [d_idt] are not used: there is one log, that of the screen. *)
Record devices := Devices {
  d_vga : vga;
  d_gdt : gdt_state;
  d_idt : idt_state;
  d_isr_routines : list Z;
  d_irq_routines : list Z;
  d_pit : pit;
  d_keyboard : keyboard;
  d_interrupts : bool
}.

Definition with_vga (v : vga) (d : devices) : devices :=
  Devices v (d_gdt d) (d_idt d) (d_isr_routines d) (d_irq_routines d) (d_pit d) (d_keyboard d)
    (d_interrupts d).

(** The tables of handlers of irq.c and isr.c. *)
Definition irq_routines_initial : list Z := replicate 16 0.
Definition isr_routines_initial : list Z := replicate 32 0.

(** Before the kernel runs: zeroed memory, interrupts disabled by the loader. *)
Definition devices_initial (memory : gmap Z Z) : devices :=
  Devices (Vga 0 0 0 0 memory [])
    (GdtState (replicate 5 (GdtEntry 0 0 0 0 0 0)) (TablePtr 0 0) (TablePtr 0 0))
    (IdtState (replicate 256 (IdtEntry 0 0 0 0 0)) (replicate 256 (IdtGateDebug 0 0 0 0))
       (TablePtr 0 0) (TablePtr 0 0) [])
    isr_routines_initial irq_routines_initial pit_initial keyboard_initial false.

(** The body of [kernel_task] is empty. *)
Definition kernel_task {S} (s : S) : S := s.

Section startup.
Context (text_mem : memory) (slack : nat).
Context (isr_stub irq_stub : Z → Z) (gdt_address idt_address : Z).
Context (page_fault_handler timer_handler keyboard_handler kernel_task_address : Z).

Definition debug (message : string) (v : vga) : outcome vga :=
  printk_debug text_mem slack (chars message) [] v.

(** The calls before the memory is set up: screen, segments, interrupt table. *)
Definition kernel_early_tables (mboot_magic : Z) (d : devices) : outcome devices :=
  v0 ← (if negb (mboot_magic =? MULTIBOOT_BOOTLOADER_MAGIC) then debug "Invalid Multiboot Magic!" (d_vga d)
        else Ret (d_vga d));
  v1 ← vga_textmode_initialize v0;
  g ← gdt_install gdt_address (d_gdt d);
  v2 ← debug "GDT Installed!" v1;
  i ← idt_install isr_stub irq_stub idt_address
        (IdtState (idt (d_idt d)) (idt_debug (d_idt d)) (idtp (d_idt d)) (idtr (d_idt d)) (vga_ports v2));
  v3 ← debug "IDT Installed!" (with_ports (idt_ports i) v2);
  Ret (Devices v3 g i (d_isr_routines d) (d_irq_routines d) (d_pit d) (d_keyboard d) (d_interrupts d)).

(** The messages of [i386_mem_init] and of its caller; the state of the memory
    system is not on the screen, so that the message in the middle of
    [i386_mem_init] can follow it. *)
Definition memory_messages (heap_start : Z) (v : vga) : outcome vga :=
  v1 ← printk_debug text_mem slack (chars "Heap started at 0x%x") [u32 heap_start] v;
  debug "Memory Allocation functions enabled!" v1.

(** The calls after the heap is installed: drivers, the kernel's own task, and
    [sti]. *)
Definition kernel_early_drivers (d : devices) : outcome devices :=
  '(irq1, log) ← pit_timer_install_irq timer_handler (d_irq_routines d) (vga_ports (d_vga d));
  '(irq2, k) ← pckbd_install_irq keyboard_handler pckbd_us_qwerty irq1 (d_keyboard d);
  '(_, p) ← pit_install_scheduler_routine (PitRoutine PIT_TIMER_CONSTANT kernel_task_address) (d_pit d);
  Ret (Devices (with_ports log (d_vga d)) (d_gdt d) (d_idt d) (d_isr_routines d) irq2 p k true).

(** [kernel_early] up to [sti]; the result is the memory system, the allocator
    that [kmalloc] reaches, and the devices. *)
Definition kernel_early_sti (mboot_magic : Z) (mem : boot_mem) (mboot : Z) (m : machine) (d : devices)
    : outcome (heap_state paging_state * kalloc_interface (heap_state paging_state) * devices) :=
  d1 ← kernel_early_tables mboot_magic d;
  ms ← i386_mem_init mem mboot;
  v2 ← memory_messages (kernel_heap_start (ms_meminfo ms)) (d_vga d1);
  '(ret, asa, s1) ← asa_init paging_kalloc PAGE_SIZE kasa_data_zero (early_state m ms);
  _ ← assert (ret =? K_SUCCESS);
  s2 ← i386_paging_init s1;
  isr ← isr_install_handler 14 page_fault_handler (d_isr_routines d1);
  v3 ← debug "Paging enabled!" v2;
  let '(st, ki) := kheap_kalloc_install i386_paging_interface (page_size (ps_kpaging s2))
                     (HeapState kheap_zero asa s2) in
  d' ← kernel_early_drivers (Devices v3 (d_gdt d1) (d_idt d1) isr (d_irq_routines d1) (d_pit d1)
                               (d_keyboard d1) (d_interrupts d1));
  Ret (st, ki, d').

(** All of it, when no interrupt request arrives before it returns. *)
Definition kernel_early (mboot_magic : Z) (mem : boot_mem) (mboot : Z) (m : machine) (d : devices)
    : outcome (heap_state paging_state * kalloc_interface (heap_state paging_state) * devices) :=
  '(st, ki, d') ← kernel_early_sti mboot_magic mem mboot m d;
  v ← debug "Interrupts Enabled!" (d_vga d');
  Ret (st, ki, with_vga v d').
End startup.

(** * Specification *)

(** A blank screen with the cursor in its corner. *)
Definition blank (v : vga) : Prop :=
  vga_textmode_row v = 0 ∧ vga_textmode_column v = 0 ∧
  ∀ x y, on_screen x y → cell v x y = make_vgaentry 32 (make_color COLOR_LIGHT_GREY COLOR_BLACK).

(** What the kernel says while it starts, until interrupts are on, and then. *)
Definition startup_actions (heap_start : Z) : list screen_action :=
  debug_actions (chars "GDT Installed!") ++ debug_actions (chars "IDT Installed!") ++
  debug_actions (chars "Heap started at 0x" ++ numeral 16 heap_start) ++
  debug_actions (chars "Memory Allocation functions enabled!") ++
  debug_actions (chars "Paging enabled!").

Definition last_message : list screen_action := debug_actions (chars "Interrupts Enabled!").

(** * Lemmas *)

Lemma initialize_spec v :
  ∃ v', vga_textmode_initialize v = Ret v' ∧ vga_inv v' ∧ blank v' ∧ vga_ports v' = vga_ports v.
Proof.
  unfold vga_textmode_initialize. cbv zeta.
  set (v0 := Vga _ _ _ 0xB8000 _ _). set (e := make_vgaentry 32 7).
  assert (H : wp (blank_screen v0) (λ v', ∃ m, v' = set_memory v0 m ∧
    ∀ k, 0 ≤ k < 2000 → cell_at v' k = e)).
  { unfold blank_screen.
    apply (wp_for_each_cell (λ n v', ∃ m, v' = set_memory v0 m ∧ ∀ k, 0 ≤ k < n → cell_at v' k = e)).
    - exists (vga_memory v0). split; [done|lia].
    - intros x y v1 Hxy (m & -> & Hm). rewrite screen_index by done.
      destruct Hxy as [Hx Hy]. unfold VGA_WIDTH, VGA_HEIGHT in *.
      rewrite set_cell_spec by (done || lia). apply wp_ret. eexists. split; [by rewrite set_memory_set_memory|].
      intros k Hk. rewrite cell_at_insert. destruct (Z.eqb_spec k (y * 80 + x)) as [->|]; [done|].
      apply Hm. lia. }
  apply (proj1 (wp_inv _ _)) in H as (v' & Hrun & m & Hv' & Hcells). exists v'. split; [exact Hrun|]. clear Hrun. subst v'.
  split; [split; done|]. split; [|done]. split; [done|]. split; [done|].
  intros x y [Hx Hy]. unfold VGA_WIDTH, VGA_HEIGHT in *. rewrite cell_cell_at. apply Hcells. lia.
Qed.

(** The interrupt controllers raise vector [32 + n] for line [n], unmasked. *)
Definition pics_ready (log : port_log) : Prop :=
  ∀ p1 p2, let master := pic_run 0x20 p1 log in let slave := pic_run 0xA0 p2 log in
    pic_mask master = 0 ∧ pic_mask slave = 0 ∧
    ∀ line, 0 ≤ line < 16 → irq_vector master slave line = 32 + line.

(** Writes to other ports do not reach the controllers. *)
Definition other_port (w : Z * Z) : Prop := ¬ (0x20 ≤ w.1 ≤ 0x21) ∧ ¬ (0xA0 ≤ w.1 ≤ 0xA1).

Lemma cursor_other log : Forall cursor_port log → Forall other_port log.
Proof. intros Hl. eapply Forall_impl; [exact Hl|]. intros w H. unfold cursor_port, other_port in *. lia. Qed.

Lemma pic_run_other log p :
  Forall other_port log → pic_run 0x20 p log = p ∧ pic_run 0xA0 p log = p.
Proof.
  intros Hl. revert p. induction Hl as [|[port data] log Hw Hl IH]; intros p; [done|].
  unfold pic_run in *. simpl. unfold other_port in Hw. simpl in Hw.
  unfold pic_write at 2 4. cbn [fst snd].
  repeat match goal with |- context [?x =? ?y] => destruct (Z.eqb_spec x y); [lia|] end. apply IH.
Qed.

Lemma pics_ready_around before log after :
  Forall other_port before → Forall other_port after → pics_ready log → pics_ready (before ++ log ++ after).
Proof.
  intros Hb Ha H p1 p2. unfold pic_run. rewrite !foldl_app.
  change (pics_ready log) in H. specialize (H (foldl (pic_write 0x20) p1 before) (foldl (pic_write 0xA0) p2 before)).
  set (m := foldl _ (foldl _ p1 before) log). set (k := foldl _ (foldl _ p2 before) log).
  destruct (pic_run_other after m Ha) as [Hm _]. destruct (pic_run_other after k Ha) as [_ Hk].
  unfold pic_run in Hm, Hk. rewrite Hm, Hk. exact H.
Qed.

Section runs.
Context (text_mem : memory) (slack : nat) (Hslack : (2 ≤ slack)%nat).

Lemma debug_run message v :
  printable (chars message) → Z.of_nat (List.length (chars message)) < 2 ^ 31 →
  debug text_mem slack message v = run_actions (debug_actions (chars message)) v.
Proof. intros Hp Hl. by apply debug_literal. Qed.

Lemma memory_messages_run heap v :
  is_u32 heap →
  memory_messages text_mem slack heap v =
    run_actions (debug_actions (chars "Heap started at 0x" ++ numeral 16 heap) ++
                 debug_actions (chars "Memory Allocation functions enabled!")) v.
Proof.
  intros Hh. unfold memory_messages. rewrite run_actions_app, u32_small by done.
  rewrite (printk_debug_actions _ _ _ _ (chars "Heap started at 0x" ++ numeral 16 heap) (Z.of_nat 18 + 0));
    [| |done|by vm_compute].
  - destruct (run_actions _ v) as [v1| | |]; [|done..]. rewrite !Ret_bind.
    apply debug_run; [literal|by vm_compute].
  - change (chars "Heap started at 0x%x") with (chars "Heap started at 0x" ++ [37; 120]).
    rewrite <- (app_nil_r (numeral 16 heap)).
    apply (renders_literal _ (chars "Heap started at 0x")); [literal|]. apply renders_x; [done|]. apply renders_end.
Qed.

Context (isr_stub irq_stub : Z → Z) (gdt_address idt_address : Z).
Context (Hisr : ∀ n, is_u32 (isr_stub n)) (Hirq : ∀ n, is_u32 (irq_stub n)).

(** The segments and gates that the processor uses afterwards. *)
Definition tables_ready (g : gdt_state) (i : idt_state) : Prop :=
  map (λ e, (segment_base e, segment_size e, privilege e, executable e)) (take 2 (drop 1 (gdt g)))
    = [(0, 2 ^ 32, 0, true); (0, 2 ^ 32, 0, false)] ∧
  (∀ k, selectable (gdtr g) k ↔ 0 ≤ k < 3) ∧ (∀ k, selectable (idtr i) k ↔ 0 ≤ k < 256) ∧
  (∀ n, 0 ≤ n < 32 → gate_target <$> idt i !! Z.to_nat n = Some (Some (isr_stub n))) ∧
  (∀ n, 0 ≤ n < 16 → gate_target <$> idt i !! Z.to_nat (32 + n) = Some (Some (irq_stub n))).

Lemma tables_run memory :
  let d := devices_initial memory in
  ∃ v0 d1, vga_textmode_initialize (d_vga d) = Ret v0 ∧ vga_inv v0 ∧ blank v0 ∧
    kernel_early_tables text_mem slack isr_stub irq_stub gdt_address idt_address MULTIBOOT_BOOTLOADER_MAGIC d
      = Ret d1 ∧
    vga_inv (d_vga d1) ∧
    shows v0 (debug_actions (chars "GDT Installed!") ++ debug_actions (chars "IDT Installed!")) (d_vga d1) ∧
    tables_ready (d_gdt d1) (d_idt d1) ∧ pics_ready (vga_ports (d_vga d1)) ∧
    d_isr_routines d1 = replicate 32 0 ∧ d_irq_routines d1 = replicate 16 0 ∧ d_pit d1 = pit_initial ∧
    d_keyboard d1 = keyboard_initial.
Proof.
  intros d. destruct (initialize_spec (d_vga d)) as (v0 & Hinit & Hv0 & Hblank & Hports).
  unfold kernel_early_tables. change (negb _) with false. cbv iota. rewrite Ret_bind, Hinit, Ret_bind.
  destruct (gdt_install_run gdt_address (d_gdt d) eq_refl) as (g & Hg & _ & Hseg & Hsel). rewrite Hg, Ret_bind.
  rewrite debug_run by (literal || by vm_compute).
  destruct (run_shows v0 [] (debug_actions (chars "GDT Installed!")) v0 ltac:(auto) Hv0 (shows_nil v0))
    as (v2 & -> & Hv2 & Hs2 & log2 & Hl2 & Hc2). rewrite Ret_bind.
  set (i0 := IdtState _ _ _ _ (vga_ports v2)).
  destruct (idt_install_run isr_stub irq_stub idt_address i0 eq_refl Hisr Hirq)
    as (i & log & -> & _ & Hisel & Hilog & Hpic & Hg1 & Hg2 & _). rewrite Ret_bind.
  rewrite debug_run by (literal || by vm_compute).
  pose proof (with_ports_same (idt_ports i) v2) as Hsame.
  assert (Hv2' : vga_inv (with_ports (idt_ports i) v2)) by (by rewrite <- Hsame).
  destruct (run_shows v0 _ (debug_actions (chars "IDT Installed!")) _ ltac:(auto) Hv2'
    (shows_same _ _ _ _ Hs2 Hsame)) as (v3 & -> & Hv3 & Hs3 & log3 & Hl3 & Hc3). rewrite Ret_bind.
  eexists v0, _. split; [done|]. split; [done|]. split; [done|]. split; [done|]. split; [done|].
  split; [exact Hs3|]. split; [|split; [|repeat split]].
  - split_and!; [|done..]. cbn [d_gdt]. rewrite <- firstn_map. by rewrite Hseg.
  - cbn [d_vga]. rewrite Hl3. change (vga_ports (with_ports (idt_ports i) v2)) with (idt_ports i).
    rewrite Hilog, <- app_assoc. apply pics_ready_around; [|by apply cursor_other|done].
    unfold i0. cbn [idt_ports]. rewrite Hl2, Hports. by apply cursor_other.
Qed.

Context (page_fault_handler timer_handler keyboard_handler kernel_task_address : Z).

(** The drivers are in place and interrupts arrive. *)
Record devices_ready (d : devices) : Prop := DevicesReady {
  rd_screen : vga_inv (d_vga d);
  rd_interrupts : d_interrupts d = true;
  rd_tables : tables_ready (d_gdt d) (d_idt d);
  rd_pics : pics_ready (vga_ports (d_vga d));
  rd_timer : ∃ before after, vga_ports (d_vga d) =
    before ++ [(0x43, 0x36); (0x40, 1193 mod 256); (0x40, 1193 / 256)] ++ after ∧ Forall cursor_port after;
  rd_isr : d_isr_routines d = <[14%nat := page_fault_handler]> (replicate 32 0);
  rd_irq : d_irq_routines d = timer_handler :: keyboard_handler :: replicate 14 0;
  rd_pit : d_pit d = Pit (PitRoutine PIT_TIMER_CONSTANT kernel_task_address :: replicate 63 (PitRoutine 0 0)) 1 0;
  rd_keyboard : d_keyboard d = Keyboard (Some pckbd_us_qwerty) false false
}.

Lemma drivers_run v0 h d :
  vga_inv (d_vga d) → shows v0 h (d_vga d) → pics_ready (vga_ports (d_vga d)) →
  tables_ready (d_gdt d) (d_idt d) → d_irq_routines d = replicate 16 0 → d_pit d = pit_initial →
  d_keyboard d = keyboard_initial → d_isr_routines d = <[14%nat := page_fault_handler]> (replicate 32 0) →
  ∃ d', kernel_early_drivers timer_handler keyboard_handler kernel_task_address d = Ret d' ∧
    devices_ready d' ∧ shows v0 h (d_vga d').
Proof.
  clear Hslack. intros Hv Hs Hpics Htables Hirqs Hpit Hk Hisrs. unfold kernel_early_drivers. rewrite Hirqs, Hpit, Hk.
  destruct (pit_timer_install_irq_spec timer_handler (replicate 16 0) (vga_ports (d_vga d)) eq_refl)
    as (r & Hr & Hr0).
  assert (Hr' : r = timer_handler :: replicate 15 0).
  { unfold pit_timer_install_irq in Hr. apply bind_Ret_inv in Hr as (log & _ & Hr).
    cbv in Hr. by injection Hr as <- _. }
  rewrite Hr, Ret_bind. subst r. cbn [pckbd_install_irq irq_install_handler].
  unfold pckbd_install_irq, irq_install_handler. rewrite array_set_in, Ret_bind by (simpl; lia). rewrite Ret_bind.
  unfold pit_install_scheduler_routine, pit_initial. cbn [pit_routines_size pit_routines Z.leb Z.compare].
  rewrite array_set_in, Ret_bind by (rewrite length_replicate; lia). rewrite Ret_bind.
  set (log := vga_ports (d_vga d) ++ _). pose proof (with_ports_same log (d_vga d)) as Hsame.
  eexists. split; [done|]. split; [|exact (shows_same _ _ _ _ Hs Hsame)].
  split; try done; cbn [d_vga].
  - by rewrite <- Hsame.
  - change (vga_ports (with_ports log (d_vga d))) with log. apply (pics_ready_around []); [done| |done].
    unfold other_port. repeat constructor; simpl; lia.
  - exists (vga_ports (d_vga d)), []. split; [reflexivity|done].
Qed.

(** Printing leaves the drivers in place. *)
Lemma devices_ready_print v0 h l d :
  Forall action_ok l → devices_ready d → shows v0 h (d_vga d) →
  ∃ v, run_actions l (d_vga d) = Ret v ∧ devices_ready (with_vga v d) ∧ shows v0 (h ++ l) v.
Proof.
  intros Hl [R1 R2 R3 R4 (before & after & Ht & Hafter) R6 R7 R8 R9] Hs.
  destruct (run_shows v0 h l (d_vga d) Hl R1 Hs) as (v & Hrun & Hv & Hs' & log & Hlog & Hc).
  exists v. split; [exact Hrun|]. split; [|exact Hs']. split; try done; cbn [with_vga d_vga]; rewrite Hlog.
  - apply (pics_ready_around []); [done|by apply cursor_other|done].
  - exists before, (after ++ log). rewrite Ht, <- !app_assoc. split; [done|]. by apply Forall_app.
Qed.
End runs.

(** The pieces of a successful run of the memory part. *)
Lemma kernel_early_memory_inv mem mboot m st ki :
  kernel_early_memory mem mboot m = Ret (st, ki) →
  ∃ ms asa s1 s2 ret, i386_mem_init mem mboot = Ret ms ∧
    asa_init paging_kalloc PAGE_SIZE kasa_data_zero (early_state m ms) = Ret (ret, asa, s1) ∧
    assert (ret =? K_SUCCESS) = Ret tt ∧ i386_paging_init s1 = Ret s2 ∧
    kheap_kalloc_install i386_paging_interface (page_size (ps_kpaging s2)) (HeapState kheap_zero asa s2)
      = (st, ki).
Proof.
  unfold kernel_early_memory. intros H.
  apply bind_Ret_inv in H as (ms & Hms & H). apply bind_Ret_inv in H as ([[ret asa] s1] & Hasa & H).
  apply bind_Ret_inv in H as ([] & Hret & H). apply bind_Ret_inv in H as (s2 & Hs2 & H).
  exists ms, asa, s1, s2, ret. split_and!; [done..|]. congruence.
Qed.

Lemma heap_start_of_init mem mboot m ms :
  boot_ok mem mboot m → i386_mem_init mem mboot = Ret ms →
  kernel_heap_start (ms_meminfo ms) = kernel_heap_start (meminfo_of_header mem mboot) ∧
  is_u32 (kernel_heap_start (ms_meminfo ms)).
Proof.
  intros [H1 H2 H3 H4 H5 H6 _ _] Hrun. set (mi := meminfo_of_header mem mboot) in *.
  destruct (mem_init_run mem mboot H1 H2 H3) as (ms' & Hrun' & _ & _ & _ & Hms & _).
  - fold mi. unfold KVIRT_RESERVED, PAGE_SIZE in *. lia.
  - fold mi. unfold KVIRT_RESERVED, EARLY_HEAP_MAXSIZE, PAGE_SIZE in *. lia.
  - rewrite Hrun in Hrun'. injection Hrun' as <-. fold mi in Hms. rewrite Hms. cbn [kernel_heap_start with_curpos].
    split; [done|]. unfold is_u32, KVIRT_RESERVED, EARLY_HEAP_MAXSIZE, PAGE_SIZE in *. lia.
Qed.

Section startup_run.
Context (text_mem : memory) (slack : nat) (Hslack : (2 ≤ slack)%nat).
Context (isr_stub irq_stub : Z → Z) (gdt_address idt_address : Z).
Context (Hisr : ∀ n, is_u32 (isr_stub n)) (Hirq : ∀ n, is_u32 (irq_stub n)).
Context (page_fault_handler timer_handler keyboard_handler kernel_task_address : Z).

Let early_sti := kernel_early_sti text_mem slack isr_stub irq_stub gdt_address idt_address page_fault_handler
  timer_handler keyboard_handler kernel_task_address.
Let early := kernel_early text_mem slack isr_stub irq_stub gdt_address idt_address page_fault_handler
  timer_handler keyboard_handler kernel_task_address.

Lemma kernel_early_sti_run mem mboot m memory :
  boot_ok mem mboot m →
  ∃ st ki d v0, early_sti MULTIBOOT_BOOTLOADER_MAGIC mem mboot m (devices_initial memory) = Ret (st, ki, d) ∧
    kernel_early_memory mem mboot m = Ret (st, ki) ∧
    devices_ready isr_stub irq_stub page_fault_handler timer_handler keyboard_handler kernel_task_address d ∧
    vga_textmode_initialize (d_vga (devices_initial memory)) = Ret v0 ∧ vga_inv v0 ∧ blank v0 ∧
    shows v0 (startup_actions (kernel_heap_start (meminfo_of_header mem mboot))) (d_vga d).
Proof.
  intros Hboot. destruct (kernel_early_memory_run mem mboot m Hboot) as (st & ki & Hrun & _).
  destruct (kernel_early_memory_inv _ _ _ _ _ Hrun) as (ms & asa & s1 & s2 & ret & Hms & Hasa & Hret & Hs2 & Hinst).
  destruct (tables_run text_mem slack Hslack isr_stub irq_stub gdt_address idt_address Hisr Hirq memory)
    as (v0 & d1 & Hinit & Hv0 & Hblank & Htab & Hv1 & Hs1 & Hready & Hpics & Hd1 & Hd2 & Hd3 & Hd4).
  unfold early_sti, kernel_early_sti. rewrite Htab, Ret_bind, Hms, Ret_bind.
  destruct (heap_start_of_init _ _ _ _ Hboot Hms) as [Hheap Hu]. rewrite memory_messages_run by done.
  rewrite Hheap. set (heap := kernel_heap_start (meminfo_of_header mem mboot)).
  destruct (run_shows v0 _ (debug_actions (chars "Heap started at 0x" ++ numeral 16 heap) ++
     debug_actions (chars "Memory Allocation functions enabled!")) (d_vga d1)
     ltac:(apply Forall_app; auto) Hv1 Hs1) as (v2 & -> & Hv2 & Hs2' & log2 & Hl2 & Hc2).
  rewrite Ret_bind, Hasa, Ret_bind, Hret, Ret_bind, Hs2, Ret_bind.
  unfold isr_install_handler. rewrite Hd1, array_set_in, Ret_bind by (rewrite length_replicate; lia).
  rewrite (debug_run text_mem slack Hslack "Paging enabled!") by (literal || by vm_compute).
  destruct (run_shows v0 _ (debug_actions (chars "Paging enabled!")) v2 ltac:(auto) Hv2 Hs2')
    as (v3 & -> & Hv3 & Hs3 & log3 & Hl3 & Hc3). rewrite Ret_bind, Hinst.
  set (d2 := Devices v3 _ _ _ _ _ _ _).
  destruct (drivers_run isr_stub irq_stub page_fault_handler timer_handler
    keyboard_handler kernel_task_address v0 _ d2 Hv3 Hs3) as (d' & -> & Hd' & Hs').
  - unfold d2. cbn [d_vga]. rewrite Hl3, Hl2, <- app_assoc. apply (pics_ready_around []); [done| |done].
    apply Forall_app; split; by apply cursor_other.
  - done.
  - done.
  - done.
  - done.
  - done.
  - rewrite Ret_bind. exists st, ki, d', v0. split; [reflexivity|].
    split; [exact Hrun|]. split; [exact Hd'|]. split; [exact Hinit|]. split; [exact Hv0|].
    split; [exact Hblank|]. unfold startup_actions. rewrite <- !app_assoc in Hs'. exact Hs'.
Qed.

Lemma kernel_early_run mem mboot m memory :
  boot_ok mem mboot m →
  ∃ st ki d v0, early MULTIBOOT_BOOTLOADER_MAGIC mem mboot m (devices_initial memory) = Ret (st, ki, d) ∧
    kernel_early_memory mem mboot m = Ret (st, ki) ∧
    devices_ready isr_stub irq_stub page_fault_handler timer_handler keyboard_handler kernel_task_address d ∧
    vga_textmode_initialize (d_vga (devices_initial memory)) = Ret v0 ∧ vga_inv v0 ∧ blank v0 ∧
    shows v0 (startup_actions (kernel_heap_start (meminfo_of_header mem mboot)) ++ last_message) (d_vga d).
Proof.
  intros Hboot.
  destruct (kernel_early_sti_run mem mboot m memory Hboot)
    as (st & ki & d & v0 & Hrun & Hmem & Hd & Hinit & Hv0 & Hblank & Hs).
  unfold early, kernel_early. unfold early_sti in Hrun. rewrite Hrun, Ret_bind. clear Hrun.
  rewrite (debug_run text_mem slack Hslack "Interrupts Enabled!") by (literal || by vm_compute).
  destruct (devices_ready_print isr_stub irq_stub page_fault_handler timer_handler keyboard_handler
    kernel_task_address v0 _ last_message d ltac:(unfold last_message; auto) Hd Hs) as (v & Hv & Hd' & Hs').
  unfold last_message in Hv. rewrite Hv, Ret_bind. exists st, ki, (with_vga v d), v0.
  split; [reflexivity|]. split; [exact Hmem|]. split; [exact Hd'|]. split; [exact Hinit|]. split; [exact Hv0|].
  split; [exact Hblank|exact Hs'].
Qed.
End startup_run.

(** * Theorems *)

(** C21: starting the kernel.  Given what the loader must provide, and its
    magic number, [kernel_early] returns with the memory system up, as
    [kernel_early_memory] leaves it, with the segments, gates and interrupt
    controllers set up, the page fault handler installed, the timer set to
    1193180 / 1193 ticks per second with [kernel_task] as its only routine, the
    US keyboard, and interrupts on; the screen holds its six messages under one
    another and nothing else.  With any other magic number the complaint is written
    through a null pointer, before the screen is initialised. *)
Theorem kernel_early_correct text_mem slack isr_stub irq_stub gdt_address idt_address
    page_fault_handler timer_handler keyboard_handler kernel_task_address mem mboot m memory :
  (2 ≤ slack)%nat → (∀ n, is_u32 (isr_stub n)) → (∀ n, is_u32 (irq_stub n)) → boot_ok mem mboot m →
  let early := kernel_early text_mem slack isr_stub irq_stub gdt_address idt_address page_fault_handler
                 timer_handler keyboard_handler kernel_task_address in
  (∃ st ki d v0, early MULTIBOOT_BOOTLOADER_MAGIC mem mboot m (devices_initial memory) = Ret (st, ki, d) ∧
     kernel_early_memory mem mboot m = Ret (st, ki) ∧
     devices_ready isr_stub irq_stub page_fault_handler timer_handler keyboard_handler kernel_task_address d ∧
     vga_textmode_initialize (d_vga (devices_initial memory)) = Ret v0 ∧ vga_inv v0 ∧ blank v0 ∧
     shows v0 (startup_actions (kernel_heap_start (meminfo_of_header mem mboot)) ++ last_message) (d_vga d)) ∧
  (∀ magic, magic ≠ MULTIBOOT_BOOTLOADER_MAGIC → early magic mem mboot m (devices_initial memory) = Fault).
Proof.
  intros Hslack Hisr Hirq Hboot early. split; [by apply kernel_early_run|].
  intros magic Hmagic. unfold early, kernel_early, kernel_early_sti, kernel_early_tables.
  destruct (Z.eqb_spec magic MULTIBOOT_BOOTLOADER_MAGIC) as [|_]; [done|]. cbn [negb].
  by rewrite debug_run by (done || literal || by vm_compute).
Qed.

Lemma kernel_early_correct_witness :
  let early := kernel_early ∅ 2 (λ n, 0x1000 + n mod 32) (λ n, 0x2000 + n mod 32) 0x3000 0x4000 0x5000 0x6000
                 0x7000 0x8000 in
  (∃ st ki d, early MULTIBOOT_BOOTLOADER_MAGIC demo_mem 0x9000 demo_machine (devices_initial ∅) = Ret (st, ki, d) ∧
     d_irq_routines d = 0x6000 :: 0x7000 :: replicate 14 0) ∧
  early 7 demo_mem 0x9000 demo_machine (devices_initial ∅) = Fault.
Proof.
  assert (Hstub : ∀ b n, 0 ≤ b < 0x10000 → is_u32 (b + n mod 32)).
  { intros b n Hb. unfold is_u32. pose proof (Z.mod_pos_bound n 32). lia. }
  destruct (kernel_early_correct ∅ 2 (λ n, 0x1000 + n mod 32) (λ n, 0x2000 + n mod 32) 0x3000 0x4000 0x5000
    0x6000 0x7000 0x8000 demo_mem 0x9000 demo_machine ∅ (le_n 2)
    (λ n, Hstub 0x1000 n ltac:(lia)) (λ n, Hstub 0x2000 n ltac:(lia)) demo_boot_ok)
    as ((st & ki & d & v0 & Hrun & _ & [_ _ _ _ _ _ Hd _ _] & _) & Hwrong).
  split; [|apply Hwrong; discriminate]. exists st, ki, d. split; [exact Hrun|exact Hd].
Defined.
