(* ===== verification/System.v ===== *)
(** The running kernel: [kernel/kernel/kernel.c] from [sti] in [kernel_early]
    through [kernel_main], as a thread that interrupt requests preempt between
    any two characters it prints and any two rounds of its loop, up to the panic
    that ends it.

    The handlers run with interrupts disabled (the gates are interrupt gates),
    so one interrupt request is one step. *)
From stdpp Require Import base numbers list gmap.
From Stdlib Require Import ZArith Lia String.
From S2P Require Import Prelude Kernel Bitset Alloc Meminfo EarlyHeap Frames Machine KPaging Asa.
From S2P Require Import Paging Window PagingSpec Kheap KheapSpec Boot.
From S2P Require Import Strings StringProps Digits Printf PrintfProps Ports Textmode TextmodeProps.
From S2P Require Import Pit Descriptors Interrupts Keyboard Layout Main Screen Startup.

Open Scope Z_scope.

(** * The code *)

(** What [kernel_main] prints before its loop. *)
Definition banner_actions (s : paging_state) : list screen_action :=
  let value (name : string) (x : Z) := text (chars name ++ numeral 16 (u32 x) ++ [10]) in
  text (chars "Welcome to ")
  ++ [SetColor (color_value COLOR_CYAN)] ++ text (chars "ShawnOS ")
  ++ [SetColor (make_color COLOR_LIGHT_GREY COLOR_BLACK)] ++ text (chars "Version ")
  ++ [SetColor (color_value COLOR_RED)] ++ text (chars "0.01 Alpha")
  ++ [SetColor (make_color COLOR_LIGHT_GREY COLOR_BLACK)] ++ text (chars "!" ++ [10; 10])
  ++ value "Heap start: 0x"%string (kernel_heap_start (ps_meminfo s))
  ++ value "Heap curpos: 0x"%string (kernel_heap_curpos (ps_meminfo s))
  ++ value "kHighest page: 0x"%string (highest_page (ps_kpaging s)).

(** What is printed from [sti] to the loop: the last message of [kernel_early]
    and the banner. *)
Definition opening (s : paging_state) : list screen_action := last_message ++ banner_actions s.

(** What it prints when it panics; [file] is [__FILE__].  A page that cannot be
    allocated is first reported by [i386_mem_get_next_free_frame]. *)
Definition panic_script (file : list Z) (r : panic_reason) : list screen_action :=
  match r with
  | OutOfAddressSpace => panic_actions (chars "Out of address space!") file 124
  | FailedToAllocatePage =>
      debug_actions (chars "i386_mem: Out of memory!")
      ++ panic_actions (chars "FAILED TO ALLOCATE PAGE!") file 129
  end.

(** Where the kernel is, from [sti] in [kernel_early] on. *)
Inductive thread :=
| Printing (todo : list screen_action)   (** from [sti] to the loop *)
| Allocating                             (** the loop *)
| Dying (todo : list screen_action)      (** [PANIC] *)
| Halted.                                (** the loop of [abort] *)

Record system := System {
  sy_thread : thread;
  sy_memory : heap_state paging_state;
  sy_vga : vga;
  sy_pit : pit;
  sy_keyboard : keyboard;
  sy_irq_routines : list Z;
  sy_interrupts : bool
}.

Definition with_thread (t : thread) (s : system) : system :=
  System t (sy_memory s) (sy_vga s) (sy_pit s) (sy_keyboard s) (sy_irq_routines s) (sy_interrupts s).

Definition print_next (a : screen_action) (rest : thread) (s : system) : outcome system :=
  v ← run_action a (sy_vga s);
  Ret (System rest (sy_memory s) v (sy_pit s) (sy_keyboard s) (sy_irq_routines s) (sy_interrupts s)).

(** What raises a step: the thread, or the interrupt request on [line], while
    the keyboard holds the byte [code]. *)
Inductive event := EvThread | EvIrq (line code : Z).

Section system.
Context (text_mem : memory) (slack : nat) (file : list Z).
Context (timer_handler keyboard_handler kernel_task_address : Z).

(** Reaching [cli] and the endless loop of [abort]. *)
Definition halt (s : system) : system :=
  System Halted (sy_memory s) (sy_vga s) (sy_pit s) (sy_keyboard s) (sy_irq_routines s) false.

Definition thread_move (s : system) : outcome system :=
  match sy_thread s with
  | Printing (a :: todo) => print_next a (Printing todo) s
  | Printing [] => Ret (with_thread Allocating s)
  | Allocating =>
      r ← kernel_main_round (sy_memory s);
      Ret (match r with
           | inl m => System Allocating m (sy_vga s) (sy_pit s) (sy_keyboard s) (sy_irq_routines s)
                        (sy_interrupts s)
           | inr reason => with_thread (Dying (panic_script file reason)) s
           end)
  | Dying (a :: todo) => print_next a (Dying todo) s
  | Dying [] => Ret (halt s)
  | Halted => Ret s
  end.

(** Jumping to the address of a routine of the timer. *)
Definition call_routine (f : Z) (u : unit) : outcome unit :=
  if f =? kernel_task_address then Ret (kernel_task u) else Fault.

(** Jumping to the address of a handler. *)
Definition call_handler (code : Z) (f : Z) (r : i386_registers) (s : vga * (pit * keyboard))
    : outcome (vga * (pit * keyboard)) :=
  let '(v, (p, k)) := s in
  if f =? timer_handler then
    '(p', _) ← pit_irq_timer_handler call_routine (int_no r) p tt; Ret (v, (p', k))
  else if f =? keyboard_handler then
    '(v', k') ← pckbd_irq_input_handler (λ _ _, code) text_mem slack r (v, k); Ret (v', (p, k'))
  else Fault.

Definition irq_move (line code esp : Z) (stack : list Z) (s : system) : outcome system :=
  '(v, (p, k)) ← interrupt_request (call_handler code) text_mem slack (sy_irq_routines s) line esp stack
                   (sy_vga s, (sy_pit s, sy_keyboard s));
  Ret (System (sy_thread s) (sy_memory s) v p k (sy_irq_routines s) (sy_interrupts s)).

(** ** Steps *)

Inductive result := Running (s : system) | Crashed.

(** A move that does not return crashes the machine.  An interrupt request
    finds the stack of the kernel, with the instruction pointer on it. *)
Inductive step (s : system) : event → result → Prop :=
| step_thread s' : thread_move s = Ret s' → step s EvThread (Running s')
| step_thread_crash : (∀ s', thread_move s ≠ Ret s') → step s EvThread Crashed
| step_irq line code esp stack s' :
    sy_interrupts s = true → 0 ≤ line < 16 → 0 ≤ code < 256 → stack ≠ [] →
    irq_move line code esp stack s = Ret s' → step s (EvIrq line code) (Running s')
| step_irq_crash line code esp stack :
    sy_interrupts s = true → 0 ≤ line < 16 → 0 ≤ code < 256 → stack ≠ [] →
    (∀ s', irq_move line code esp stack s ≠ Ret s') → step s (EvIrq line code) Crashed.

Inductive steps (s : system) : list event → result → Prop :=
| steps_nil : steps s [] (Running s)
| steps_cons e s1 tr r : step s e (Running s1) → steps s1 tr r → steps s (e :: tr) r
| steps_crash e : step s e Crashed → steps s [e] Crashed.

(** * Specification *)

(** Two sequences in one, each in its own order. *)
Inductive interleaving {A} : list A → list A → list A → Prop :=
| il_nil : interleaving [] [] []
| il_left x l r m : interleaving l r m → interleaving (x :: l) r (x :: m)
| il_right x l r m : interleaving l r m → interleaving l (x :: r) (x :: m).

(** What the requests of a trace do: the modifiers of the keyboard, the ticks,
    and what appears on the screen. *)
Definition keyboard_after (e : event) (k : keyboard) : keyboard :=
  match e with
  | EvIrq 1 code =>
      Keyboard (pckbd_selected_driver k) (capslock_after code (pckbd_is_capslock k))
        (shift_after code (pckbd_is_shift k))
  | _ => k
  end.

Definition irq_output (e : event) (k : keyboard) : list screen_action :=
  match e with
  | EvThread => []
  | EvIrq line code =>
      if line =? 0 then []
      else if line =? 1 then text (key_text code k)
      else debug_actions (chars "Don't know how to handle IRQ #" ++ numeral 10 line)
  end.

Fixpoint irqs_output (tr : list event) (k : keyboard) : list screen_action :=
  match tr with
  | [] => []
  | e :: tr' => irq_output e k ++ irqs_output tr' (keyboard_after e k)
  end.

Definition keyboard_after_all (tr : list event) (k : keyboard) : keyboard :=
  foldl (λ k e, keyboard_after e k) k tr.

Definition is_thread (e : event) : bool := match e with EvThread => true | _ => false end.
Definition is_tick (e : event) : bool := match e with EvIrq 0 _ => true | _ => false end.
Definition is_slave (e : event) : bool := match e with EvIrq line _ => 8 <=? line | _ => false end.
Definition is_irq (e : event) : bool := negb (is_thread e).

Definition count (f : event → bool) (tr : list event) : Z := Z.of_nat (List.length (List.filter f tr)).

(** Acknowledgements in the log of the ports. *)
Definition acknowledged (port : Z) (v : vga) : Z :=
  Z.of_nat (List.length (List.filter (λ w, (w.1 =? port) && (w.2 =? 0x20)) (vga_ports v))).

(** What the thread writes on its way from one place to another. *)
Inductive writes : thread → list screen_action → thread → Prop :=
| writes_nothing t : writes t [] t
| writes_banner a todo out t : writes (Printing todo) out t → writes (Printing (a :: todo)) (a :: out) t
| writes_loop out t : writes Allocating out t → writes (Printing []) out t
| writes_panic r out t : writes (Dying (panic_script file r)) out t → writes Allocating out t
| writes_death a todo out t : writes (Dying todo) out t → writes (Dying (a :: todo)) (a :: out) t
| writes_halt out t : writes Halted out t → writes (Dying []) out t.

(** The kernel in good order. *)
Record system_inv (s : system) : Prop := SystemInv {
  sv_memory : main_inv (sy_memory s);
  sv_vga : vga_inv (sy_vga s);
  sv_pit : pit_inv (sy_pit s);
  sv_routines : installed_routines (sy_pit s) = [PitRoutine PIT_TIMER_CONSTANT kernel_task_address];
  sv_keyboard : pckbd_selected_driver (sy_keyboard s) = Some pckbd_us_qwerty;
  sv_irq : sy_irq_routines s = timer_handler :: keyboard_handler :: replicate 14 0;
  sv_interrupts : sy_interrupts s = match sy_thread s with Halted => false | _ => true end;
  sv_todo : match sy_thread s with Printing l | Dying l => Forall action_ok l | _ => True end
}.

(** How far the thread is from the end, at most. *)
Definition panic_length : Z :=
  Z.of_nat (List.length (panic_script file OutOfAddressSpace)
            `max` List.length (panic_script file FailedToAllocatePage)).

Definition distance (s : system) : Z :=
  let free := asa_free_pages (hs_asa (sy_memory s)) in
  match sy_thread s with
  | Printing l => Z.of_nat (List.length l) + 1 + (free + 1 + (panic_length + 1))
  | Allocating => free + 1 + (panic_length + 1)
  | Dying l => Z.of_nat (List.length l) + 1
  | Halted => 0
  end.
End system.

(** * Lemmas *)

(** ** The banner *)

Lemma hex_line mem slack name x v :
  (2 ≤ slack)%nat → printable (chars name) → Z.of_nat (List.length (chars name)) < 1000 → is_u32 x →
  printf putchar mem slack (chars name ++ [37; 120; 10]) [x] v
    = run_actions (text (chars name ++ numeral 16 x ++ [10])) v.
Proof.
  intros Hs Hp Hl Hx. rewrite run_text. eapply printf_emit; [by apply line_x|done|].
  rewrite length_app. cbn [List.length]. lia.
Qed.

Lemma banner_run mem slack s v :
  (2 ≤ slack)%nat → kernel_main_banner mem slack s v = run_actions (banner_actions s) v.
Proof.
  intros Hs. unfold kernel_main_banner, banner_actions. cbv zeta.
  do 4 (rewrite write_literal_emit by literal; rewrite run_actions_app, run_text;
        match goal with |- context [emit putchar ?t ?w] => destruct (emit putchar t w); [|done..] end;
        rewrite !Ret_bind; rewrite run_actions_app; cbn [run_actions run_action]; rewrite !Ret_bind).
  rewrite write_literal_emit by literal. rewrite run_actions_app, run_text.
  match goal with |- context [emit putchar ?t ?w] => destruct (emit putchar t w) as [v5| | |]; [|done..] end.
  rewrite !Ret_bind, run_actions_app.
  rewrite (hex_line mem slack "Heap start: 0x" _ _ Hs ltac:(literal) ltac:(by vm_compute) (u32_range _)).
  destruct (run_actions _ v5) as [v6| | |]; [|done..]. rewrite !Ret_bind, run_actions_app.
  rewrite (hex_line mem slack "Heap curpos: 0x" _ _ Hs ltac:(literal) ltac:(by vm_compute) (u32_range _)).
  destruct (run_actions _ v6) as [v7| | |]; [|done..]. rewrite !Ret_bind.
  apply (hex_line mem slack "kHighest page: 0x" _ _ Hs ltac:(literal) ltac:(by vm_compute) (u32_range _)).
Qed.

(** Uninterrupted, the opening is what the code does after [sti]. *)
Lemma opening_run mem slack s v :
  (2 ≤ slack)%nat →
  (w ← debug mem slack "Interrupts Enabled!" v; kernel_main_banner mem slack s w) = run_actions (opening s) v.
Proof.
  intros Hs. unfold opening. rewrite run_actions_app.
  rewrite (debug_run mem slack Hs "Interrupts Enabled!") by (literal || by vm_compute).
  unfold last_message. destruct (run_actions _ v) as [w| | |]; [|done..]. rewrite !Ret_bind. by apply banner_run.
Qed.

Lemma banner_ok s : Forall action_ok (banner_actions s).
Proof.
  unfold banner_actions. cbv zeta. repeat (apply Forall_app; split); auto; repeat constructor; by vm_compute.
Qed.

Lemma opening_ok s : Forall action_ok (opening s).
Proof. apply Forall_app. split; [unfold last_message; auto|apply banner_ok]. Qed.

Lemma panic_script_ok file r : Forall action_ok (panic_script file r).
Proof. destruct r; [apply panic_actions_ok|]. apply Forall_app. split; [apply debug_actions_ok|apply panic_actions_ok]. Qed.

#[export] Hint Resolve banner_ok opening_ok panic_script_ok : core.

(** ** The log of the ports *)

Lemma acknowledged_cursor port v w log :
  port = 0x20 ∨ port = 0xA0 → vga_ports w = vga_ports v ++ log → Forall cursor_port log →
  acknowledged port w = acknowledged port v.
Proof.
  intros Hport Hw Hlog. unfold acknowledged. rewrite Hw, List.filter_app, length_app.
  enough (List.filter (λ w, (w.1 =? port) && (w.2 =? 0x20)) log = []) as -> by (simpl; lia).
  clear Hw. induction Hlog as [|[p d] log Hc Hlog IH]; [done|]. simpl. unfold cursor_port in Hc. simpl in Hc.
  destruct (Z.eqb_spec p port); [lia|exact IH].
Qed.

Lemma acknowledged_out port p v :
  port = 0x20 ∨ port = 0xA0 → p = 0x20 ∨ p = 0xA0 →
  acknowledged port (port_out p 0x20 v) = acknowledged port v + (if p =? port then 1 else 0).
Proof.
  intros Hport Hp. unfold acknowledged, port_out, outportb. cbn [vga_ports].
  rewrite List.filter_app, length_app. simpl. rewrite u16_small, u8_small by lia.
  destruct (Z.eqb_spec p port); simpl; lia.
Qed.

Lemma port_out_same p d v : same_screen v (port_out p d v).
Proof. by destruct v. Qed.

(** ** Interrupt requests *)

Section irq.
Context (text_mem : memory) (slack : nat) (file : list Z).
Context (timer_handler keyboard_handler kernel_task_address : Z).
Context (Hslack : (2 ≤ slack)%nat) (Htimer : timer_handler ≠ 0) (Hkeyboard : keyboard_handler ≠ 0).
Context (Hdistinct : timer_handler ≠ keyboard_handler).

Let handler := call_handler text_mem slack timer_handler keyboard_handler kernel_task_address.
Let routines := timer_handler :: keyboard_handler :: replicate 14 0.

(** What a request without handler prints. *)
Definition unknown_irq (line : Z) : list screen_action :=
  debug_actions (chars "Don't know how to handle IRQ #" ++ numeral 10 line).

Lemma unknown_irq_run line v :
  0 ≤ line < 16 →
  printk_debug text_mem slack (chars "Don't know how to handle IRQ #%d") [line] v
    = run_actions (unknown_irq line) v.
Proof.
  intros Hline. eapply printk_debug_actions; [|done|by vm_compute].
  change (chars "Don't know how to handle IRQ #%d")
    with (chars "Don't know how to handle IRQ #" ++ [37; 100]).
  rewrite <- (app_nil_r (numeral 10 line)). apply renders_literal; [literal|].
  apply renders_d; [lia|]. apply renders_end.
Qed.

(** The end of [_irq_handler]. *)
Definition end_of_interrupt (line : Z) (v : vga) : vga :=
  port_out 0x20 0x20 (if 8 <=? line then port_out 0xA0 0x20 v else v).

Lemma eoi_same line v : same_screen v (end_of_interrupt line v).
Proof. unfold end_of_interrupt. destruct (8 <=? line); by destruct v. Qed.

Lemma eoi_acknowledged line v :
  acknowledged 0x20 (end_of_interrupt line v) = acknowledged 0x20 v + 1 ∧
  acknowledged 0xA0 (end_of_interrupt line v) = acknowledged 0xA0 v + (if 8 <=? line then 1 else 0).
Proof.
  unfold end_of_interrupt. destruct (8 <=? line); rewrite !acknowledged_out by lia; simpl; lia.
Qed.

Lemma request_run code line esp stack v p k :
  0 ≤ line < 16 → stack ≠ [] →
  interrupt_request (handler code) text_mem slack routines line esp stack (v, (p, k)) =
    ('(v', x) ← (let r := Registers (32 + line) 0 (List.hd 0 stack) esp in
      if line =? 0 then handler code timer_handler r (v, (p, k))
      else if line =? 1 then handler code keyboard_handler r (v, (p, k))
      else v' ← run_actions (unknown_irq line) v; Ret (v', (p, k)));
     Ret (end_of_interrupt line v', x)).
Proof.
  intros Hline Hstack. unfold interrupt_request.
  destruct stack as [|ip stack]; [done|]. change (common_stub esp (irq_stub_push line (ip :: stack)))
    with (Ret (Registers (32 + line) 0 ip esp)). rewrite Ret_bind. unfold _irq_handler. cbn [int_no List.hd].
  assert (Hno : 32 + line ⊖ 32 = line) by (rewrite u32_small; u32_lia). rewrite Hno.
  assert (Hge : (40 <=? 32 + line) = (8 <=? line)).
  { destruct (Z.leb_spec 40 (32 + line)), (Z.leb_spec 8 line); lia. }
  rewrite Hge. unfold end_of_interrupt. cbv zeta.
  destruct (Z.eqb_spec line 0) as [->|H0]; [|destruct (Z.eqb_spec line 1) as [->|H1]].
  - change (array_get routines 0) with (Ret timer_handler). rewrite Ret_bind. unfold truthy.
    destruct (Z.eqb_spec timer_handler 0); [done|]. cbn [negb]. by destruct (handler _ _ _ _) as [[]| | |].
  - change (array_get routines 1) with (Ret keyboard_handler). rewrite Ret_bind. unfold truthy.
    destruct (Z.eqb_spec keyboard_handler 0); [done|]. cbn [negb]. by destruct (handler _ _ _ _) as [[]| | |].
  - assert (Hget : array_get routines line = Ret 0).
    { apply array_get_Ret. split; [lia|]. unfold routines.
      replace (Z.to_nat line) with (S (S (Z.to_nat (line - 2)))) by lia. apply lookup_replicate_2. lia. }
    rewrite Hget, Ret_bind. cbn [truthy negb Z.eqb fst snd]. rewrite unknown_irq_run by done.
    by destruct (run_actions (unknown_irq line) v).
Qed.
Let inv := system_inv timer_handler keyboard_handler kernel_task_address.

(** The timer's handler calls [kernel_task] when it is due, which does
    nothing. *)
Lemma timer_run code v p k ip esp :
  pit_inv p → installed_routines p = [PitRoutine PIT_TIMER_CONSTANT kernel_task_address] →
  handler code timer_handler (Registers 32 0 ip esp) (v, (p, k)) =
    Ret (v, (Pit (pit_routines p) (pit_routines_size p) (pit_total_timer_ticks p ⊕ 1), k)) ∧
  pit_inv (Pit (pit_routines p) (pit_routines_size p) (pit_total_timer_ticks p ⊕ 1)).
Proof.
  intros Hp Hr. unfold handler, call_handler. rewrite Z.eqb_refl. cbn [int_no].
  destruct (timer_handler_run (call_routine kernel_task_address) p tt Hp) as [Hrun Hp'].
  { rewrite Hr. by repeat constructor. }
  split; [|exact Hp']. rewrite Hrun, Hr. unfold due. rewrite filter_cons, filter_nil.
  case_decide; simpl; [|done]. unfold call_routine. by rewrite Z.eqb_refl.
Qed.

Lemma keyboard_run code v p k ip esp :
  0 ≤ code < 256 → vga_inv v → pckbd_selected_driver k = Some pckbd_us_qwerty →
  ∃ v', run_actions (text (key_text code k)) v = Ret v' ∧ vga_inv v' ∧
    handler code keyboard_handler (Registers 33 0 ip esp) (v, (p, k)) =
      Ret (v', (p, keyboard_after (EvIrq 1 code) k)).
Proof.
  intros Hcode Hv Hk. rewrite run_text.
  destruct (handler_spec (λ _ _, code) text_mem slack 0 ip esp v k Hslack Hv Hk) as (v' & Hemit & Hv' & Hrun).
  assert (Hin : inportb (λ _ _, code) 96 (vga_ports v) = code) by (by apply u8_small).
  rewrite Hin in Hemit, Hrun. exists v'. split; [done|]. split; [done|].
  unfold handler, call_handler. destruct (Z.eqb_spec keyboard_handler timer_handler); [by subst|].
  rewrite Z.eqb_refl, Hrun. cbn [keyboard_after]. by rewrite Hk.
Qed.

(** ** One request *)

Lemma irq_move_ok line code esp stack s :
  inv s → 0 ≤ line < 16 → 0 ≤ code < 256 → stack ≠ [] →
  let e := EvIrq line code in
  ∃ s', irq_move text_mem slack timer_handler keyboard_handler kernel_task_address line code esp stack s = Ret s' ∧
    inv s' ∧ sy_thread s' = sy_thread s ∧ sy_memory s' = sy_memory s ∧
    sy_interrupts s' = sy_interrupts s ∧
    sy_keyboard s' = keyboard_after e (sy_keyboard s) ∧
    pit_total_timer_ticks (sy_pit s') = (pit_total_timer_ticks (sy_pit s) ⊕ (if is_tick e then 1 else 0)) ∧
    (∀ v0 h, shows v0 h (sy_vga s) → shows v0 (h ++ irq_output e (sy_keyboard s)) (sy_vga s')) ∧
    acknowledged 0x20 (sy_vga s') = acknowledged 0x20 (sy_vga s) + 1 ∧
    acknowledged 0xA0 (sy_vga s') = acknowledged 0xA0 (sy_vga s) + (if is_slave e then 1 else 0) ∧
    ∃ v, run_actions (irq_output e (sy_keyboard s)) (sy_vga s) = Ret v ∧ sy_vga s' = end_of_interrupt line v.
Proof.
  intros [H1 H2 H3 H4 H5 H6 H7 H8] Hline Hcode Hstack e. unfold irq_move. rewrite H6.
  fold handler routines. rewrite request_run by done. cbv zeta.
  set (ip := List.hd 0 stack). set (v := sy_vga s) in *. set (p := sy_pit s) in *. set (k := sy_keyboard s) in *.
  enough (H : ∃ v' p' k',
    (if line =? 0 then handler code timer_handler (Registers (32 + line) 0 ip esp) (v, (p, k))
     else if line =? 1 then handler code keyboard_handler (Registers (32 + line) 0 ip esp) (v, (p, k))
     else v' ← run_actions (unknown_irq line) v; Ret (v', (p, k))) = Ret (v', (p', k')) ∧
    run_actions (irq_output e k) v = Ret v' ∧ pit_inv p' ∧ installed_routines p' = installed_routines p ∧
    k' = keyboard_after e k ∧
    pit_total_timer_ticks p' = (pit_total_timer_ticks p ⊕ (if is_tick e then 1 else 0))).
  { destruct H as (v' & p' & k' & -> & Hrun & Hp' & Hr' & -> & Ht). rewrite !Ret_bind.
    eexists. split; [reflexivity|]. cbn [sy_thread sy_memory sy_vga sy_pit sy_keyboard sy_irq_routines sy_interrupts].
    assert (Hok : Forall action_ok (irq_output e k)).
    { unfold irq_output, e. destruct (line =? 0); [constructor|]. destruct (line =? 1); auto. }
    destruct (run_actions_safe _ v Hok H2) as (v1 & Hv1 & Hinv1). rewrite Hrun in Hv1. injection Hv1 as <-.
    destruct (run_actions_ports _ v v' Hok H2 Hrun) as (log & Hlog & Hcur).
    destruct (eoi_acknowledged line v') as [Ha1 Ha2]. split_and!; try done.
    - split; cbn; try done; [by rewrite <- eoi_same|congruence|].
      unfold keyboard_after, e. destruct line as [|[]|]; done.
    - intros v0 h Hs. eapply shows_same; [by eapply shows_app|apply eoi_same].
    - rewrite Ha1. by rewrite (acknowledged_cursor 0x20 v v' log) by auto.
    - rewrite Ha2. by rewrite (acknowledged_cursor 0xA0 v v' log) by auto.
    - exists v'. by split. }
  unfold irq_output, e. destruct (Z.eqb_spec line 0) as [->|H0]; [|destruct (Z.eqb_spec line 1) as [->|Hl1]].
  - destruct (timer_run code v p k ip esp H3 H4) as [Hrun Hp']. eexists _, _, _. split; [exact Hrun|].
    split; [done|]. split; [exact Hp'|]. split; [done|]. by split.
  - destruct (keyboard_run code v p k ip esp Hcode H2 H5) as (v' & Hrun & Hv' & Hcall).
    exists v', p, (keyboard_after (EvIrq 1 code) k). split; [exact Hcall|]. split; [done|]. split_and!; try done.
    simpl. rewrite Z.add_0_r, u32_small; [done|]. apply H3.
  - destruct (run_actions_safe (unknown_irq line) v ltac:(unfold unknown_irq; auto) H2) as (v' & Hrun & Hv').
    rewrite Hrun, Ret_bind. exists v', p, k. split_and!; try done.
    + unfold keyboard_after. destruct line as [|[]|]; done.
    + replace (is_tick _) with false by (destruct line as [|[]|]; done).
      rewrite Z.add_0_r, u32_small; [done|]. apply H3.
Qed.
End irq.

(** ** Sequences *)

Lemma interleaving_app {A} (l1 r1 m1 l2 r2 m2 : list A) :
  interleaving l1 r1 m1 → interleaving l2 r2 m2 → interleaving (l1 ++ l2) (r1 ++ r2) (m1 ++ m2).
Proof. induction 1; intros H2; simpl; [done|by constructor; auto..]. Qed.

Lemma interleaving_left {A} (l : list A) : interleaving l [] l.
Proof. induction l; by constructor. Qed.

Lemma interleaving_right {A} (l : list A) : interleaving [] l l.
Proof. induction l; by constructor. Qed.

Lemma count_cons f e tr : count f (e :: tr) = (if f e then 1 else 0) + count f tr.
Proof. unfold count. simpl. destruct (f e); simpl; lia. Qed.

Lemma count_one f e : count f [e] = if f e then 1 else 0.
Proof. rewrite count_cons. unfold count. simpl. lia. Qed.

(** ** The thread *)

Section moves.
Context (text_mem : memory) (slack : nat) (file : list Z).
Context (timer_handler keyboard_handler kernel_task_address : Z).
Context (Hslack : (2 ≤ slack)%nat) (Htimer : timer_handler ≠ 0) (Hkeyboard : keyboard_handler ≠ 0).
Context (Hdistinct : timer_handler ≠ keyboard_handler).

Let inv := system_inv timer_handler keyboard_handler kernel_task_address.
Let move := thread_move file.
Let stepped := step text_mem slack file timer_handler keyboard_handler kernel_task_address.
Let ran := steps text_mem slack file timer_handler keyboard_handler kernel_task_address.

Lemma panic_script_length r : Z.of_nat (List.length (panic_script file r)) ≤ panic_length file.
Proof. unfold panic_length. destruct r; lia. Qed.

Lemma writes_trans t1 o1 t2 o2 t3 :
  writes file t1 o1 t2 → writes file t2 o2 t3 → writes file t1 (o1 ++ o2) t3.
Proof. induction 1; intros H2; simpl; [done|econstructor; by apply IHwrites..]. Qed.

(** What a move of the thread leaves alone. *)
Definition same_devices (s s' : system) : Prop :=
  sy_pit s' = sy_pit s ∧ sy_keyboard s' = sy_keyboard s ∧ sy_irq_routines s' = sy_irq_routines s.

Lemma print_next_ok a rest s :
  inv s → action_ok a → ∃ s', print_next a rest s = Ret s' ∧ same_devices s s' ∧
    sy_thread s' = rest ∧ sy_memory s' = sy_memory s ∧ sy_interrupts s' = sy_interrupts s ∧
    vga_inv (sy_vga s') ∧ run_actions [a] (sy_vga s) = Ret (sy_vga s').
Proof.
  intros Hs Ha. unfold print_next.
  destruct (run_action_safe a (sy_vga s) Ha (sv_vga _ _ _ _ Hs)) as (v & Hrun & Hv). simpl. rewrite Hrun, !Ret_bind.
  eexists. split; [reflexivity|]. by split_and!.
Qed.

Lemma thread_move_ok s :
  inv s →
  ∃ s' out, move s = Ret s' ∧ inv s' ∧ same_devices s s' ∧
    writes file (sy_thread s) out (sy_thread s') ∧ run_actions out (sy_vga s) = Ret (sy_vga s') ∧
    Forall action_ok out ∧ 0 ≤ distance file s' ≤ Z.max 0 (distance file s - 1).
Proof.
  intros Hs. pose proof Hs as [H1 H2 H3 H4 H5 H6 H7 H8]. unfold move, thread_move.
  assert (Hfree : 0 ≤ asa_free_pages (hs_asa (sy_memory s))) by apply count_clear_nonneg.
  pose proof (panic_script_length OutOfAddressSpace) as Hpl.
  destruct (sy_thread s) as [[|a todo]| |[|a todo]|] eqn:Ht.
  - exists (with_thread Allocating s), []. split; [done|]. split; [by split|]. split; [done|].
    split; [repeat constructor|]. split; [done|]. split; [done|]. unfold distance. rewrite Ht. simpl. lia.
  - apply Forall_cons in H8 as [Ha H8].
    destruct (print_next_ok a (Printing todo) s Hs Ha) as (s' & Hrun & (D1 & D2 & D3) & T & M & I & V & R).
    exists s', [a]. split; [done|]. split; [split; rewrite ?D1, ?D2, ?D3, ?M, ?I, ?T; done|]. split; [done|].
    rewrite T. split; [repeat constructor|]. split; [done|]. split; [by repeat constructor|].
    unfold distance. rewrite Ht, T, ?M. simpl List.length. lia.
  - destruct (kernel_main_round_spec (sy_memory s) H1) as [(reason & ->)|(m & -> & Hm & Hcount)];
      rewrite Ret_bind.
    + pose proof (panic_script_length reason). eexists _, []. split; [reflexivity|].
      split; [split; simpl; auto|]. split; [done|].
      split; [econstructor; constructor|]. split; [done|]. split; [done|].
      unfold distance. rewrite Ht. simpl. lia.
    + assert (Hfree' : 0 ≤ asa_free_pages (hs_asa m)) by apply count_clear_nonneg.
      eexists _, []. split; [reflexivity|]. split; [split; simpl; auto|]. split; [done|].
      split; [constructor|]. split; [done|]. split; [done|]. unfold distance. rewrite Ht. simpl. lia.
  - exists (halt s), []. split; [done|]. split; [by split|]. split; [done|].
    split; [repeat constructor|]. split; [done|]. split; [done|]. unfold distance. rewrite Ht. simpl. lia.
  - apply Forall_cons in H8 as [Ha H8].
    destruct (print_next_ok a (Dying todo) s Hs Ha) as (s' & Hrun & (D1 & D2 & D3) & T & M & I & V & R).
    exists s', [a]. split; [done|]. split; [split; rewrite ?D1, ?D2, ?D3, ?M, ?I, ?T; done|]. split; [done|].
    rewrite T. split; [repeat constructor|]. split; [done|]. split; [by repeat constructor|].
    unfold distance. rewrite Ht, T, ?M. simpl List.length. lia.
  - exists s, []. split; [done|]. split; [done|]. split; [done|]. rewrite Ht. split; [constructor|].
    split; [done|]. split; [done|]. unfold distance. rewrite Ht. lia.
Qed.

(** ** Traces *)

(** What a trace does to the kernel. *)
Record trace_effect (s : system) (tr : list event) (s' : system) : Prop := TraceEffect {
  te_screen : ∃ out shown, writes file (sy_thread s) out (sy_thread s') ∧
    interleaving out (irqs_output tr (sy_keyboard s)) shown ∧
    (∀ v0 h, shows v0 h (sy_vga s) → shows v0 (h ++ shown) (sy_vga s'));
  te_keyboard : sy_keyboard s' = keyboard_after_all tr (sy_keyboard s);
  te_ticks : pit_total_timer_ticks (sy_pit s') = (pit_total_timer_ticks (sy_pit s) ⊕ count is_tick tr);
  te_master : acknowledged 0x20 (sy_vga s') = acknowledged 0x20 (sy_vga s) + count is_irq tr;
  te_slave : acknowledged 0xA0 (sy_vga s') = acknowledged 0xA0 (sy_vga s) + count is_slave tr;
  te_distance : 0 ≤ distance file s' ≤ Z.max 0 (distance file s - count is_thread tr)
}.

Lemma effect_cons s e s1 tr s2 :
  trace_effect s [e] s1 → trace_effect s1 tr s2 → trace_effect s (e :: tr) s2.
Proof.
  intros [(o1 & sh1 & W1 & I1 & S1) K1 T1 M1 L1 D1] [(o2 & sh2 & W2 & I2 & S2) K2 T2 M2 L2 D2].
  rewrite !count_one in *. simpl in I1. rewrite app_nil_r in I1. split.
  - exists (o1 ++ o2), (sh1 ++ sh2). split; [by eapply writes_trans|]. split.
    + simpl. rewrite K1 in I2. by apply interleaving_app.
    + intros v0 h H. rewrite app_assoc. auto.
  - rewrite K2, K1. done.
  - rewrite T2, T1, count_cons. unfold u32. rewrite Zplus_mod_idemp_l. f_equal. lia.
  - rewrite M2, M1, count_cons. lia.
  - rewrite L2, L1, count_cons. lia.
  - assert (0 ≤ count is_thread tr) by apply Nat2Z.is_nonneg. rewrite count_cons. destruct (is_thread e); lia.
Qed.

Lemma effect_nil s : inv s → trace_effect s [] s.
Proof.
  intros Hs. pose proof (pit_ticks _ (sv_pit _ _ _ _ Hs)).
  assert (0 ≤ distance file s).
  { unfold distance, panic_length. pose proof (count_clear_nonneg (kasa_pages (hs_asa (sy_memory s)))).
    unfold asa_free_pages. destruct (sy_thread s); lia. }
  split; unfold count; simpl; try done.
  - exists [], []. split; [constructor|]. split; [constructor|]. intros v0 h. by rewrite app_nil_r.
  - by rewrite Z.add_0_r, u32_small.
  - lia.
  - lia.
  - lia.
Qed.

Lemma step_ok s e r : stepped s e r → inv s → ∃ s', r = Running s' ∧ inv s' ∧ trace_effect s [e] s'.
Proof.
  intros Hstep Hs. pose proof (pit_ticks _ (sv_pit _ _ _ _ Hs)) as Hticks.
  destruct (thread_move_ok s Hs) as (t & out & Hmove & Ht & (D1 & D2 & D3) & W & R & Ok & Hd).
  assert (Hthread : trace_effect s [EvThread] t).
  { destruct (run_actions_ports out _ _ Ok (sv_vga _ _ _ _ Hs) R) as (log & Hlog & Hcur).
    split; rewrite ?count_one; simpl; [|done| | | |lia].
    - exists out, out. split; [done|]. split; [apply interleaving_left|]. intros v0 h H. by eapply shows_app.
    - by rewrite D1, Z.add_0_r, u32_small.
    - rewrite (acknowledged_cursor 0x20 (sy_vga s) (sy_vga t) log) by auto. lia.
    - rewrite (acknowledged_cursor 0xA0 (sy_vga s) (sy_vga t) log) by auto. lia. }
  destruct Hstep as [s' Hrun|Hno|line code esp stack s' Hi Hl Hc Hst Hrun|line code esp stack Hi Hl Hc Hst Hno].
  - unfold move in Hmove. rewrite Hrun in Hmove. injection Hmove as ->. by exists t.
  - by destruct (Hno t).
  - destruct (irq_move_ok text_mem slack timer_handler keyboard_handler kernel_task_address Hslack Htimer
      Hkeyboard Hdistinct line code esp stack s Hs Hl Hc Hst) as (t2 & Hrun2 & Ht2 & T & M & I & K & P & S & A1 & A2 & _).
    rewrite Hrun in Hrun2. injection Hrun2 as <-. exists s'. split; [done|]. split; [done|].
    destruct (effect_nil s Hs) as [_ _ _ _ _ Hd0].
    split; rewrite ?count_one; simpl; [|exact K|exact P|exact A1|exact A2|].
    + exists [], (irq_output (EvIrq line code) (sy_keyboard s)). rewrite T, app_nil_r.
      split; [constructor|]. split; [apply interleaving_right|exact S].
    + unfold distance. rewrite T, M. unfold distance in Hd0. unfold count in Hd0. simpl in Hd0. lia.
  - destruct (irq_move_ok text_mem slack timer_handler keyboard_handler kernel_task_address Hslack Htimer
      Hkeyboard Hdistinct line code esp stack s Hs Hl Hc Hst) as (t2 & Hrun2 & _). by destruct (Hno t2).
Qed.

Lemma steps_ok s tr r : ran s tr r → inv s → ∃ s', r = Running s' ∧ inv s' ∧ trace_effect s tr s'.
Proof.
  induction 1 as [s|s e s1 tr r Hstep Hrun IH|s e Hstep]; intros Hs.
  - exists s. split; [done|]. split; [done|by apply effect_nil].
  - destruct (step_ok _ _ _ Hstep Hs) as (s2 & [= <-] & Hs1 & H1).
    destruct (IH Hs1) as (s' & -> & Hs' & H2). exists s'. split; [done|]. split; [done|].
    by eapply effect_cons.
  - by destruct (step_ok _ _ _ Hstep Hs) as (s2 & [=] & _).
Qed.

(** The thread can always move, and takes every request until it has halted. *)
Lemma step_progress s :
  inv s →
  (∃ s', stepped s EvThread (Running s')) ∧
  (sy_thread s ≠ Halted → ∀ line code, 0 ≤ line < 16 → 0 ≤ code < 256 →
     ∃ s', stepped s (EvIrq line code) (Running s')).
Proof.
  intros Hs. split.
  - destruct (thread_move_ok s Hs) as (t & out & Hmove & _). exists t. by constructor.
  - intros Hrunning line code Hl Hc.
    destruct (irq_move_ok text_mem slack timer_handler keyboard_handler kernel_task_address Hslack Htimer
      Hkeyboard Hdistinct line code 0 [0] s Hs Hl Hc ltac:(done)) as (t & Hrun & _).
    exists t. eapply step_irq; [|done|done| |exact Hrun]; [|done].
    rewrite (sv_interrupts _ _ _ _ Hs). by destruct (sy_thread s).
Qed.

(** What the thread has written, by where it is. *)
Lemma writes_from_banner l out t :
  writes file (Printing l) out t →
  match t with
  | Printing l' => out ++ l' = l
  | Allocating => out = l
  | Dying l' => ∃ r, out ++ l' = l ++ panic_script file r
  | Halted => ∃ r, out = l ++ panic_script file r
  end.
Proof.
  assert (Hd : ∀ q out t, writes file q out t → ∀ l, q = Dying l →
    match t with Dying l' => out ++ l' = l | Halted => out = l | _ => False end).
  { induction 1 as [t0| | | |a todo out0 t0 Hw IH|out0 t0 Hw IH]; intros k Hk; try discriminate Hk.
    - by subst t0.
    - injection Hk as <-. specialize (IH todo eq_refl). destruct t0; simpl; try done; by f_equal.
    - injection Hk as <-. inversion Hw; subst. done. }
  intros H. remember (Printing l) as q eqn:Hq. revert l Hq.
  induction H as [t0|a todo out0 t0 Hw IH|out0 t0 Hw IH|r out0 t0 Hw IH|a todo out0 t0 Hw IH|out0 t0 Hw IH];
    intros l Hq; try discriminate Hq.
  - by subst t0.
  - injection Hq as <-. specialize (IH todo eq_refl).
    destruct t0; simpl; [by f_equal|by f_equal| |]; destruct IH as [r IH]; exists r; by rewrite IH.
  - injection Hq as <-. clear IH. inversion Hw as [|? ? ? ? ?|? ? ?|r ? ? Hp| |]; subst; [done|].
    specialize (Hd _ _ _ Hp _ eq_refl). destruct t0; try done; by exists r.
Qed.

(** ** The start *)

(** [kernel_main] after [kernel_early]. *)
Definition kernel_start (st : heap_state paging_state) (d : devices) : system :=
  System (Printing (opening (hs_sys st))) st (d_vga d) (d_pit d) (d_keyboard d) (d_irq_routines d)
    (d_interrupts d).

Context (isr_stub irq_stub : Z → Z) (gdt_address idt_address page_fault_handler : Z).
Context (Hisr : ∀ n, is_u32 (isr_stub n)) (Hirq : ∀ n, is_u32 (irq_stub n)).

(** The state of a good machine after [sti] in [kernel_early]. *)
Definition booted (st : heap_state paging_state) (d : devices) : Prop :=
  ∃ mem mboot m memory ki, boot_ok mem mboot m ∧
    kernel_early_sti text_mem slack isr_stub irq_stub gdt_address idt_address page_fault_handler timer_handler
      keyboard_handler kernel_task_address MULTIBOOT_BOOTLOADER_MAGIC mem mboot m (devices_initial memory)
      = Ret (st, ki, d).

Lemma boot_exists mem mboot m : boot_ok mem mboot m → ∃ st d, booted st d.
Proof.
  intros Hboot.
  destruct (kernel_early_sti_run text_mem slack Hslack isr_stub irq_stub gdt_address idt_address Hisr Hirq
    page_fault_handler timer_handler keyboard_handler kernel_task_address mem mboot m ∅ Hboot)
    as (st & ki & d & _ & Hrun & _). exists st, d, mem, mboot, m, ∅, ki. by split.
Qed.

Lemma booted_inv st d :
  booted st d → inv (kernel_start st d) ∧
    ∃ v0 heap, vga_inv v0 ∧ blank v0 ∧ shows v0 (startup_actions heap) (d_vga d).
Proof.
  intros (mem & mboot & m & memory & ki & Hboot & Hrun).
  destruct (kernel_early_sti_run text_mem slack Hslack isr_stub irq_stub gdt_address idt_address Hisr Hirq
    page_fault_handler timer_handler keyboard_handler kernel_task_address mem mboot m memory Hboot)
    as (st' & ki' & d' & v0 & Hrun' & Hmem & [R1 R2 R3 R4 R5 R6 R7 R8 R9] & _ & Hv0 & Hblank & Hs).
  rewrite Hrun in Hrun'. injection Hrun' as <- <- <-.
  split; [|exists v0; eexists; split; [exact Hv0|]; split; [exact Hblank|exact Hs]].
  destruct (kernel_early_memory_run mem mboot m Hboot) as (st' & ki' & Hmem' & Hheap & _ & Hclient & _).
  rewrite Hmem in Hmem'. injection Hmem' as <- <-.
  split; unfold kernel_start; cbn [sy_memory sy_vga sy_pit sy_keyboard sy_irq_routines sy_interrupts sy_thread].
  - split; [apply Hheap|apply Hheap|]. intros p Hp _. apply Hclient.
    unfold client_page. change (KVIRT_RESERVED / PAGE_SIZE) with 380. change reserved_pages with 380 in Hp.
    change n_kernel_pages with 262143 in Hp. lia.
  - exact R1.
  - rewrite R8. clear. split; [reflexivity|cbn; lia|split; [discriminate|reflexivity]].
  - by rewrite R8.
  - by rewrite R9.
  - exact R7.
  - exact R2.
  - apply opening_ok.
Qed.

(** * Theorems *)

(** C18: the kernel never crashes.  From a boot that provides what the kernel
    needs, whatever interrupt requests arrive between the steps of the thread, from
    [sti] on, and whatever bytes the keyboard sends, every move of the
    thread and every handler returns: there is no fault, no failed assertion
    and no endless loop.  The memory system, the screen, the timer and the
    keyboard keep their invariants; the thread can always move, and until it
    has halted every request is taken. *)
Theorem kernel_never_crashes :
  (∀ mem mboot m, boot_ok mem mboot m → ∃ st d, booted st d) ∧
  ∀ st d tr r, booted st d → ran (kernel_start st d) tr r →
    ∃ s, r = Running s ∧ inv s ∧
      (∃ s', stepped s EvThread (Running s')) ∧
      (sy_thread s ≠ Halted → ∀ line code, 0 ≤ line < 16 → 0 ≤ code < 256 →
         ∃ s', stepped s (EvIrq line code) (Running s')).
Proof.
  split; [exact boot_exists|]. intros st d tr r Hboot Hrun.
  destruct (steps_ok _ _ _ Hrun (proj1 (booted_inv st d Hboot))) as (s & -> & Hs & _).
  exists s. split; [done|]. split; [done|]. by apply step_progress.
Qed.

(** C19: what the kernel shows.  After any trace, the screen is what the
    first five messages of [kernel_early], and then an interleaving of the
    thread's output and the handlers' output, make of a blank screen; the thread
    has written a part of its opening (the last message of [kernel_early] and
    the banner of [kernel_main]), or all of it and a part of a panic message;
    the handlers have echoed the keys under the modifiers in force and reported
    the requests they do not know.  The timer has counted its requests, and
    each request has been acknowledged once, by both controllers where it came
    from the second. *)
Theorem kernel_shows st d tr s :
  booted st d → ran (kernel_start st d) tr (Running s) →
  (∃ v0 heap out shown, vga_inv v0 ∧ blank v0 ∧
     interleaving out (irqs_output tr (d_keyboard d)) shown ∧
     shows v0 (startup_actions heap ++ shown) (sy_vga s) ∧
     let begun := opening (hs_sys st) in
     match sy_thread s with
     | Printing rest => out ++ rest = begun
     | Allocating => out = begun
     | Dying rest => ∃ r, out ++ rest = begun ++ panic_script file r
     | Halted => ∃ r, out = begun ++ panic_script file r
     end) ∧
  sy_keyboard s = keyboard_after_all tr (d_keyboard d) ∧
  pit_total_timer_ticks (sy_pit s) = u32 (count is_tick tr) ∧
  acknowledged 0x20 (sy_vga s) = acknowledged 0x20 (d_vga d) + count is_irq tr ∧
  acknowledged 0xA0 (sy_vga s) = acknowledged 0xA0 (d_vga d) + count is_slave tr.
Proof.
  intros Hboot Hrun. destruct (booted_inv st d Hboot) as (Hinv & v0 & heap & Hv0 & Hblank & Hs0).
  destruct (steps_ok _ _ _ Hrun Hinv) as (s' & [= <-] & Hs & [(out & shown & W & I & S) K T M L _]).
  split; [|split; [exact K|split; [|by split]]].
  - exists v0, heap, out, shown. split; [exact Hv0|]. split; [exact Hblank|]. split; [exact I|].
    split; [by apply S|]. cbv zeta. apply writes_from_banner in W. exact W.
  - rewrite T. unfold kernel_start. cbn [sy_pit]. destruct Hboot as (mem & mboot & m & memory & ki & Hb & Hk).
    destruct (kernel_early_sti_run text_mem slack Hslack isr_stub irq_stub gdt_address idt_address Hisr Hirq
      page_fault_handler timer_handler keyboard_handler kernel_task_address mem mboot m memory Hb)
      as (st' & ki' & d' & v1 & Hk' & _ & Hready & _). rewrite Hk in Hk'. injection Hk' as <- <- <-.
    rewrite (rd_pit _ _ _ _ _ _ _ Hready). cbn [pit_total_timer_ticks]. by rewrite Z.add_0_l.
Qed.

(** C20: the kernel halts.  However the requests are interleaved, once the
    thread has had as many steps as its opening, the pages of address space and
    the longest panic message together need, it has halted: it has written its
    opening and one of its two panic messages, interrupts are off, and no
    request gets through any more. *)
Theorem kernel_halts st d tr s :
  booted st d → ran (kernel_start st d) tr (Running s) →
  Z.of_nat (List.length (opening (hs_sys st))) + n_kernel_pages + panic_length file + 3
    ≤ count is_thread tr →
  sy_thread s = Halted ∧ sy_interrupts s = false ∧
  (∃ out reason, writes file (Printing (opening (hs_sys st))) out Halted ∧
     out = opening (hs_sys st) ++ panic_script file reason) ∧
  (∀ line code r, ¬ stepped s (EvIrq line code) r) ∧
  (∀ r, stepped s EvThread r → r = Running s).
Proof.
  intros Hboot Hrun Hcount. destruct (booted_inv st d Hboot) as (Hinv & _).
  destruct (steps_ok _ _ _ Hrun Hinv) as (s' & [= <-] & Hs & [(out & shown & W & _ & _) _ _ _ _ Hd]).
  assert (Hstart : distance file (kernel_start st d) ≤
    Z.of_nat (List.length (opening (hs_sys st))) + n_kernel_pages + panic_length file + 3).
  { unfold distance, kernel_start. cbn [sy_thread sy_memory].
    pose proof (asa_length _ (mi_asa _ (sv_memory _ _ _ _ Hinv))) as Hl.
    pose proof (count_clear_le (kasa_pages (hs_asa st))) as Hle. unfold kernel_start in Hl. cbn [sy_memory] in Hl.
    rewrite Hl in Hle. change n_kernel_pages with 262143 in *. unfold asa_free_pages. specialize (Hle ltac:(lia)). lia. }
  assert (Hz : distance file s = 0) by lia.
  assert (Hhalt : sy_thread s = Halted).
  { unfold distance in Hz. pose proof (count_clear_nonneg (kasa_pages (hs_asa (sy_memory s)))) as Hf.
    pose proof (panic_script_length OutOfAddressSpace). unfold asa_free_pages in Hz.
    destruct (sy_thread s) as [l| |l|]; try lia. done. }
  assert (Hoff : sy_interrupts s = false) by (rewrite (sv_interrupts _ _ _ _ Hs); by rewrite Hhalt).
  split; [done|]. split; [done|]. split; [|split].
  - rewrite Hhalt in W. exists out. destruct (writes_from_banner _ _ _ W) as [r Hr]. by exists r.
  - intros line code r Hstep. inversion Hstep; congruence.
  - intros r Hstep. inversion Hstep as [s1 Hmove|Hno| |]; subst.
    + unfold thread_move in Hmove. rewrite Hhalt in Hmove. by injection Hmove as ->.
    + destruct (Hno s). unfold thread_move. by rewrite Hhalt.
Qed.
End moves.

(** ** Witnesses: the demonstration machine *)

Definition demo_stub (n : Z) : Z := 0x1000 + n mod 32.

Lemma demo_stub_u32 n : is_u32 (demo_stub n).
Proof. unfold is_u32, demo_stub. pose proof (Z.mod_pos_bound n 32). lia. Qed.

Definition demo_booted : heap_state paging_state → devices → Prop :=
  booted ∅ 2 0x6000 0x7000 0x8000 demo_stub demo_stub 0x3000 0x4000 0x5000.
Definition demo_ran : system → list event → result → Prop := steps ∅ 2 [75] 0x6000 0x7000 0x8000.
Definition demo_inv : system → Prop := system_inv 0x6000 0x7000 0x8000.

Lemma demo_boots : ∃ st d, demo_booted st d.
Proof. exact (boot_exists _ _ _ _ _ (le_n 2) _ _ _ _ _ demo_stub_u32 demo_stub_u32 _ _ _ demo_boot_ok). Qed.

Lemma demo_start_inv st d : demo_booted st d → demo_inv (kernel_start st d).
Proof. intros H. exact (proj1 (booted_inv _ _ _ _ _ (le_n 2) _ _ _ _ _ demo_stub_u32 demo_stub_u32 st d H)). Qed.

(** From a good state every trace of thread steps and requests can be had, as
    long as the thread does not halt. *)
Lemma demo_thread_steps n s : demo_inv s → ∃ s', demo_ran s (replicate n EvThread) (Running s').
Proof.
  revert s. induction n as [|n IH]; intros s Hs; [exists s; constructor|].
  destruct (thread_move_ok 2 [75] 0x6000 0x7000 0x8000 (le_n 2) ltac:(done) ltac:(done) ltac:(done) s Hs) as (s1 & out & Hmove & Hs1 & _).
  destruct (IH s1 Hs1) as (s' & Hrun). exists s'. simpl. eapply steps_cons; [by constructor|exact Hrun].
Qed.

Lemma demo_requests st d :
  demo_booted st d → ∃ s, demo_ran (kernel_start st d) [EvIrq 1 30; EvIrq 0 0; EvThread] (Running s).
Proof.
  intros H. pose proof (demo_start_inv st d H) as H0.
  assert (Hi : sy_interrupts (kernel_start st d) = true) by (by rewrite (sv_interrupts _ _ _ _ H0)).
  destruct (irq_move_ok ∅ 2 0x6000 0x7000 0x8000 (le_n 2) ltac:(done) ltac:(done) ltac:(done) 1 30 0 [0]
    (kernel_start st d) H0 ltac:(lia) ltac:(lia) ltac:(done)) as (s1 & Hr1 & H1 & _ & _ & Hi1 & _).
  destruct (irq_move_ok ∅ 2 0x6000 0x7000 0x8000 (le_n 2) ltac:(done) ltac:(done) ltac:(done) 0 0 0 [0]
    s1 H1 ltac:(lia) ltac:(lia) ltac:(done)) as (s2 & Hr2 & H2 & _).
  destruct (demo_thread_steps 1 s2 H2) as (s3 & H3). exists s3.
  eapply steps_cons; [eapply step_irq; [exact Hi|lia|lia| |exact Hr1]; done|].
  eapply steps_cons; [eapply step_irq; [by rewrite Hi1|lia|lia| |exact Hr2]; done|]. exact H3.
Qed.

Lemma kernel_never_crashes_witness : ∃ st d, demo_booted st d ∧ ¬ demo_ran (kernel_start st d) [EvThread] Crashed.
Proof.
  destruct (kernel_never_crashes ∅ 2 [75] 0x6000 0x7000 0x8000 (le_n 2) ltac:(discriminate) ltac:(discriminate)
    ltac:(discriminate) demo_stub demo_stub 0x3000 0x4000 0x5000 demo_stub_u32 demo_stub_u32) as [H1 H2].
  destruct (H1 _ _ _ demo_boot_ok) as (st & d & Hd). exists st, d. split; [exact Hd|]. intros Hrun.
  destruct (H2 st d _ _ Hd Hrun) as (s & Hs & _). discriminate Hs.
Defined.

(** The key A, a tick and a step of the thread: an [a] and a change
    of colour. *)
Lemma kernel_shows_witness :
  ∃ st d s out shown, demo_booted st d ∧
    demo_ran (kernel_start st d) [EvIrq 1 30; EvIrq 0 0; EvThread] (Running s) ∧
    interleaving out (irqs_output [EvIrq 1 30; EvIrq 0 0; EvThread] (d_keyboard d)) shown ∧
    pit_total_timer_ticks (sy_pit s) = 1 ∧
    acknowledged 0x20 (sy_vga s) = acknowledged 0x20 (d_vga d) + 2.
Proof.
  destruct demo_boots as (st & d & Hd). destruct (demo_requests st d Hd) as (s & Hrun).
  destruct (kernel_shows ∅ 2 [75] 0x6000 0x7000 0x8000 (le_n 2) ltac:(discriminate) ltac:(discriminate)
    ltac:(discriminate) demo_stub demo_stub 0x3000 0x4000 0x5000 demo_stub_u32 demo_stub_u32 st d _ s Hd Hrun)
    as ((v0 & heap & out & shown & _ & _ & Hi & _) & _ & Ht & Ha & _).
  exists st, d, s, out, shown. split; [exact Hd|]. split; [exact Hrun|]. split; [exact Hi|]. split; [exact Ht|exact Ha].
Defined.

Definition demo_bound (st : heap_state paging_state) : nat :=
  Z.to_nat (Z.of_nat (List.length (opening (hs_sys st))) + n_kernel_pages + panic_length [75] + 3).

Lemma count_replicate n : count is_thread (replicate n EvThread) = Z.of_nat n.
Proof. induction n as [|n IH]; [done|]. cbn [replicate]. rewrite count_cons, IH. simpl. lia. Qed.

Lemma demo_bound_enough st :
  Z.of_nat (List.length (opening (hs_sys st))) + n_kernel_pages + panic_length [75] + 3
    ≤ count is_thread (replicate (demo_bound st) EvThread).
Proof.
  rewrite count_replicate. unfold demo_bound. change n_kernel_pages with 262143. unfold panic_length. lia.
Qed.

Lemma kernel_halts_witness :
  ∃ st d s, demo_booted st d ∧ demo_ran (kernel_start st d) (replicate (demo_bound st) EvThread) (Running s) ∧
    sy_thread s = Halted ∧ sy_interrupts s = false.
Proof.
  destruct demo_boots as (st & d & Hd).
  destruct (demo_thread_steps (demo_bound st) _ (demo_start_inv st d Hd)) as (s & Hrun).
  destruct (kernel_halts ∅ 2 [75] 0x6000 0x7000 0x8000 (le_n 2) ltac:(discriminate) ltac:(discriminate)
    ltac:(discriminate) demo_stub demo_stub 0x3000 0x4000 0x5000 demo_stub_u32 demo_stub_u32 st d _ s Hd Hrun
    (demo_bound_enough st)) as (H1 & H2 & _).
  exists st, d, s. split; [exact Hd|]. split; [exact Hrun|]. split; [exact H1|exact H2].
Defined.
