(* ===== verification/Preemption.v ===== *)
(** Preemption in the middle of a character: [vga_textmode_putchar] of
    [kernel/drivers/vga/textmode.c] is called by [kernel_main] with interrupts
    on and by the handlers, on the same globals and without a lock. *)
From stdpp Require Import base numbers list gmap.
From Stdlib Require Import ZArith Lia String.
From S2P Require Import Prelude Strings Digits Printf PrintfProps Ports Textmode TextmodeProps.
From S2P Require Import Interrupts Keyboard Screen.

Open Scope Z_scope.

(** * The code *)

(** Up to the test of the row: the character, and the new position. *)
Definition putchar_place (c : Z) (s : vga) : outcome vga :=
  if c =? 10 then Ret (move_to (vga_textmode_row s ⊕ 1) 0 s)
  else
    s' ← vga_textmode_putentryat c (vga_textmode_color s) (vga_textmode_column s) (vga_textmode_row s) s;
    let column := vga_textmode_column s' ⊕ 1 in
    if column =? VGA_WIDTH then Ret (move_to (vga_textmode_row s' ⊕ 1) 0 s')
    else Ret (move_to (vga_textmode_row s') column s').

(** From the test of the row on: scrolling, and the cursor. *)
Definition putchar_settle (s : vga) : outcome vga :=
  s' ← (if vga_textmode_row s =? VGA_HEIGHT then vga_textmode_scroll s else Ret s);
  Ret (update_cursor_ports (vga_textmode_row s' ⊗ 80 ⊕ vga_textmode_column s') s').

(** An interrupt request between the two. *)
Definition preempted_putchar (c : Z) (irq : vga → outcome vga) (s : vga) : outcome vga :=
  s1 ← putchar_place c s; s2 ← irq s1; putchar_settle s2.

(** * Lemmas *)

Lemma putchar_split c s : vga_textmode_putchar c s = putchar_place c s ≫= putchar_settle.
Proof. done. Qed.

Lemma newline_place s :
  0 ≤ vga_textmode_row s < 2 ^ 32 - 1 → putchar_place 10 s = Ret (move_to (vga_textmode_row s + 1) 0 s).
Proof. intros Hr. unfold putchar_place. cbn [Z.eqb Pos.eqb]. by rewrite u32_small by u32_lia. Qed.

Lemma settle_off_screen s :
  vga_textmode_row s ≠ 25 →
  putchar_settle s = Ret (update_cursor_ports (vga_textmode_row s ⊗ 80 ⊕ vga_textmode_column s) s).
Proof. intros Hr. unfold putchar_settle. destruct (Z.eqb_spec (vga_textmode_row s) VGA_HEIGHT); [done|done]. Qed.

(** Below the screen a newline never scrolls. *)
Lemma newline_below s :
  25 ≤ vga_textmode_row s < 2 ^ 32 - 1 →
  ∃ s', putchar 10 s = Ret s' ∧ vga_textmode_row s' = vga_textmode_row s + 1 ∧
    vga_textmode_column s' = 0 ∧ vga_textmode_buffer s' = vga_textmode_buffer s.
Proof.
  intros Hr. change (putchar 10 s) with (vga_textmode_putchar 10 s).
  rewrite putchar_split, newline_place, Ret_bind by lia. rewrite settle_off_screen by (simpl; lia).
  eexists. by split.
Qed.

Lemma newlines_below n s :
  25 ≤ vga_textmode_row s → vga_textmode_row s + Z.of_nat n < 2 ^ 32 - 1 →
  ∃ s', emit putchar (replicate (S n) 10) s = Ret s' ∧
    vga_textmode_row s' = vga_textmode_row s + Z.of_nat (S n) ∧ vga_textmode_column s' = 0 ∧
    vga_textmode_buffer s' = vga_textmode_buffer s.
Proof.
  revert s. induction n as [|n IH]; intros s Hr Hn.
  - destruct (newline_below s) as (s1 & Hs1 & Hr1 & Hc1 & Hb1); [lia|]. exists s1.
    simpl. change (u8 10) with 10. rewrite Hs1. split; [done|]. split; [lia|by split].
  - destruct (newline_below s) as (s1 & Hs1 & Hr1 & Hc1 & Hb1); [lia|].
    destruct (IH s1) as (s2 & Hs2 & Hr2 & Hc2 & Hb2); [lia|lia|]. exists s2.
    cbn [replicate emit]. change (u8 10) with 10. rewrite Hs1, Ret_bind. split; [exact Hs2|].
    split; [lia|]. split; [done|congruence].
Qed.

(** A character in row 205 or below lies behind the window of the hardware. *)
Lemma putchar_beyond c s :
  205 ≤ vga_textmode_row s < 2 ^ 24 → vga_textmode_column s = 0 → vga_textmode_buffer s = 0xB8000 →
  s8 c ≠ 10 → putchar c s = Fault.
Proof.
  intros Hr Hc Hb Hn. unfold putchar. rewrite putchar_split. unfold putchar_place.
  destruct (Z.eqb_spec (s8 c) 10); [done|]. unfold vga_textmode_putentryat, set_cell. rewrite Hc, Hb.
  unfold VGA_WIDTH. rewrite Z.add_0_r, (u32_small (vga_textmode_row s * 80)), u32_small by u32_lia.
  unfold in_vga_window. destruct (Z.leb_spec (0xB8000 + 2 * (vga_textmode_row s * 80) + 2) 0xC0000); [lia|].
  by rewrite andb_false_r.
Qed.

(** * Theorem *)

(** C33: characters are not atomic.  Uninterrupted, a character is placed and
    the screen scrolled as [vga_textmode_putchar] does, and the cursor stays on
    the screen.  A newline in the last row that is interrupted before the test
    of the row, by a handler that itself prints a newline, as the keyboard's
    does for the Enter key, leaves the cursor below the screen; the test for
    equality then never holds again, and 179 newlines later a character is
    written behind the video memory. *)
Theorem putchar_preempted s :
  vga_inv s →
  (∀ c, ∃ s', preempted_putchar c Ret s = Ret s' ∧ vga_textmode_putchar c s = Ret s' ∧ vga_inv s') ∧
  (∀ d, key_text 28 (Keyboard d false false) = [10]) ∧
  (vga_textmode_row s = 24 →
   ∃ s1 s2, preempted_putchar 10 (putchar 10) s = Ret s1 ∧ vga_textmode_row s1 = 26 ∧ ¬ vga_inv s1 ∧
     emit putchar (replicate 179 10) s1 = Ret s2 ∧ vga_textmode_row s2 = 205 ∧
     ∀ c, s8 c ≠ 10 → putchar c s2 = Fault).
Proof.
  intros Hs. split; [|split].
  - intros c. destruct (putchar_spec c s Hs) as (s' & Hrun & Hs' & _). exists s'. split; [|by split].
    rewrite <- Hrun, putchar_split. unfold preempted_putchar. by destruct (putchar_place c s).
  - intros d. by vm_compute.
  - intros Hr. unfold preempted_putchar. rewrite newline_place, Ret_bind by lia. rewrite Hr.
    destruct (newline_below (move_to (24 + 1) 0 s)) as (s1 & -> & Hr1 & Hc1 & Hb1); [simpl; lia|].
    simpl in Hr1, Hb1. rewrite Ret_bind, settle_off_screen by lia.
    set (s2 := update_cursor_ports _ s1).
    assert (Hr2 : vga_textmode_row s2 = 26) by exact Hr1.
    assert (Hb2 : vga_textmode_buffer s2 = 0xB8000) by (simpl; rewrite Hb1; apply Hs).
    destruct (newlines_below 178 s2) as (s3 & Hs3 & Hr3 & Hc3 & Hb3); [lia|lia|].
    exists s2, s3. split; [done|]. split; [done|]. split.
    { intros [Hrow _ _ _]. rewrite Hr2 in Hrow. unfold VGA_HEIGHT in Hrow. lia. }
    split; [exact Hs3|]. split; [lia|]. intros c Hc. apply putchar_beyond; [lia|done|congruence|done].
Qed.

Lemma putchar_preempted_witness :
  ∃ s1 s2, preempted_putchar 10 (putchar 10) demo_screen = Ret s1 ∧
    emit putchar (replicate 179 10) s1 = Ret s2 ∧ putchar 65 s2 = Fault.
Proof.
  destruct (putchar_preempted demo_screen demo_screen_inv) as (_ & _ & H).
  destruct (H eq_refl) as (s1 & s2 & H1 & _ & _ & H2 & _ & H3). exists s1, s2.
  split; [exact H1|]. split; [exact H2|]. apply H3. discriminate.
Defined.
