(* ===== verification/HeapMemory.v ===== *)
(** The kernel heap as it lies in memory: [kernel/mm/heap.c] on the words of
    the mapped pages.  The headers of the blocks, the pointers that link them
    and both bitsets of every block are read and written by loads and stores
    at their addresses, as the code does it; only the structure [kheap_t],
    a global, is a record.  [HeapLayout.v] and [HeapWords.v] relate this to
    [Kheap.v], where blocks are records. *)
From stdpp Require Import base numbers list strings.
From Stdlib Require Import ZArith Lia String.
From S2P Require Import Prelude Kernel Bitset Alloc Asa KPaging Kheap Layout.

Open Scope Z_scope.

(** * Code with a state

    [ST S A]: a computation on states [S] with a result in [A]. *)
Definition ST (S A : Type) : Type := S → outcome (A * S).

#[export] Instance st_ret S : MRet (ST S) := λ A a s, Ret (a, s).
#[export] Instance st_bind S : MBind (ST S) := λ A B f m s, '(a, s') ← m s; f a s'.

(** A computation without state. *)
Definition pure {S A} (m : outcome A) : ST S A := λ s, a ← m; Ret (a, s).

Section loops.
Context {S : Type}.

Definition for_returnST {A R} (lo hi : Z) (body : Z → A → ST S (flow A R)) (a : A) : ST S (flow A R) :=
  λ s,
    r ← for_return lo hi (λ i '(a, s),
          '(f, s') ← body i a s;
          Ret (match f with Continue a' => Continue (a', s') | Return r => Return (r, s') end)) (a, s);
    Ret (match r with Continue (a, s) => (Continue a, s) | Return (r, s) => (Return r, s) end).

Definition for_rangeST (lo hi : Z) (body : Z → ST S unit) : ST S unit :=
  λ s, s' ← for_range lo hi (λ i s, '(_, s') ← body i s; Ret s') s; Ret ((), s').
End loops.

(** * Fields

    Offsets in [kheap_block_t] and, from its start, in [bitset_t]. *)
Definition next_at : Z := 0.
Definition block_size_at : Z := 4.
Definition section_size_at : Z := 8.
Definition first_free_section_at : Z := 12.
Definition free_sections_at : Z := 16.
Definition start_at : Z := 20.
Definition used_sections_at : Z := 24.
Definition delimiters_at : Z := 32.
Definition bs_length_at : Z := 0.
Definition bs_start_at : Z := 4.

Lemma heap_field_offsets :
  map (offsetof kheap_block_struct)
    ["next"; "block_size"; "section_size"; "first_free_section"; "free_sections"; "start";
     "used_sections.length"; "used_sections.start"; "delimiters.length"; "delimiters.start"]%string
  = map Some [next_at; block_size_at; section_size_at; first_free_section_at; free_sections_at; start_at;
              used_sections_at + bs_length_at; used_sections_at + bs_start_at;
              delimiters_at + bs_length_at; delimiters_at + bs_start_at].
Proof. reflexivity. Qed.

(** [kheap_t], with the pointer to the first block. *)
Record mem_heap := MemHeap {
  mh_first : Z;
  mh_section_size : Z;
  mh_min_size : Z;
  mh_flags : Z;
  mh_effective : Z;
  mh_total : Z
}.

(** The heap with the global state its operations reach. *)
Record mem_state (S : Type) := MemState {
  ms_heap : mem_heap;
  ms_asa : kasa_data;
  ms_sys : S
}.
Arguments MemState {S} _ _ _.
Arguments ms_heap {S} _.
Arguments ms_asa {S} _.
Arguments ms_sys {S} _.

Section code.
Context {S : Type} (pages : kpaging_interface S) (page_size : Z).
Context (load : Z → S → outcome (Z * S)) (store : Z → Z → S → outcome S).

Definition get (a : Z) : ST S Z := load a.
Definition put (a v : Z) : ST S unit := λ s, s' ← store a v s; Ret ((), s').

(** ** [bitset.h] on memory

    [b] is the address of a [bitset_t].  [memset] clears by words. *)
Definition bitset_init_at (b start length : Z) : ST S unit :=
  _ ← put (b ⊕ bs_start_at) start;
  _ ← put (b ⊕ bs_length_at) length;
  n ← pure (DIV_ROUND_UP length 32);
  for_rangeST 0 n (λ i, put (start ⊕ 4 ⊗ i) 0).

(** The two assertions, and the address of the word of entry [n]. *)
Definition bitset_word_at (b n : Z) : ST S Z :=
  _ ← pure (assert (truthy b));
  length ← get (b ⊕ bs_length_at);
  _ ← pure (assert (n <? length));
  start ← get (b ⊕ bs_start_at);
  mret (start ⊕ 4 ⊗ INDEX_FROM_BIT n).

Definition bitset_set_at (b n : Z) : ST S unit :=
  a ← bitset_word_at b n;
  w ← get a;
  put a (Z.lor w (shl1 (OFFSET_FROM_BIT n))).

Definition bitset_get_at (b n : Z) : ST S Z :=
  a ← bitset_word_at b n;
  w ← get a;
  mret (Z.land w (shl1 (OFFSET_FROM_BIT n))).

Definition bitset_clear_at (b n : Z) : ST S unit :=
  a ← bitset_word_at b n;
  w ← get a;
  put a (Z.land w (not32 (shl1 (OFFSET_FROM_BIT n)))).

(** ** Allocation inside a block; [cur] is the address of its header *)

(** One round of the search. *)
Definition section_scan_at (cur n_sec k : Z) (st : Z * Z) : ST S (flow (Z * Z) Z) :=
  let '(first_free, continuous_pages) := st in
  first ← get (cur ⊕ first_free_section_at);
  length ← get (cur ⊕ used_sections_at ⊕ bs_length_at);
  i ← pure (umod (first ⊕ k) length);
  v ← bitset_get_at (cur ⊕ used_sections_at) i;
  mret (if v =? 0 then
          let '(first_free, continuous_pages) :=
            if i <? first_free then (first_free, 0)
            else if continuous_pages =? 0 then (i, continuous_pages)
            else (first_free, continuous_pages) in
          let continuous_pages := continuous_pages ⊕ 1 in
          if continuous_pages =? n_sec then Return first_free
          else Continue (first_free, continuous_pages)
        else Continue (first_free, 0)).

Fixpoint mark_sections_at (fuel : nat) (cur j end_ : Z) : ST S unit :=
  match fuel with
  | O => λ _, NoFuel
  | Datatypes.S fuel' =>
      if j <? end_ then
        if (j mod 32 =? 0) && (j ⊕ 32 <? end_) then
          start ← get (cur ⊕ used_sections_at ⊕ bs_start_at);
          _ ← put (start ⊕ 4 ⊗ (j / 32)) 0xFFFFFFFF;
          mark_sections_at fuel' cur (j ⊕ 32) end_
        else
          _ ← bitset_set_at (cur ⊕ used_sections_at) j;
          mark_sections_at fuel' cur (j ⊕ 1) end_
      else mret ()
  end.

(** The body of the loop over the blocks: the address and the number of
    sections taken, or nothing when the block is skipped or its search
    fails. *)
Definition malloc_in_block_at (size align : Z) (manual_align : bool) (cur : Z) : ST S (option (Z * Z)) :=
  block_size ← get (cur ⊕ block_size_at);
  n_delims ← get (cur ⊕ delimiters_at ⊕ bs_length_at);
  n_used ← get (cur ⊕ used_sections_at ⊕ bs_length_at);
  let max_free_space := block_size ⊖ sizeof_kheap_block ⊖ (n_delims / 32) ⊗ 4 ⊖ (n_used / 32) ⊗ 4 in
  section_size ← get (cur ⊕ section_size_at);
  n_sec ← pure (DIV_ROUND_UP size section_size);
  free ← get (cur ⊕ free_sections_at);
  if (max_free_space <? size) || (free <? n_sec) then mret None
  else
    r ← for_returnST 0 n_used (section_scan_at cur n_sec) (0, 0);
    match r with
    | Continue _ => mret None
    | Return first_free =>
        section_size ← get (cur ⊕ section_size_at);
        let section_start := cur ⊕ first_free ⊗ section_size in
        _ ← mark_sections_at (Datatypes.S (Z.to_nat n_sec)) cur first_free (first_free ⊕ n_sec);
        _ ← bitset_set_at (cur ⊕ delimiters_at) (first_free ⊕ n_sec ⊖ 1);
        addr ← pure (align_start manual_align align section_start);
        free ← get (cur ⊕ free_sections_at);
        _ ← put (cur ⊕ free_sections_at) (free ⊖ n_sec);
        _ ← put (cur ⊕ first_free_section_at) (first_free ⊕ n_sec);
        mret (Some (addr, n_sec))
    end.

(** The loop over the blocks, up to the end of the list; the blocks do not
    overlap, and each has at least a page. *)
Definition block_fuel : nat := Datatypes.S (Z.to_nat (KVIRT_MAX / PAGE_SIZE)).

Fixpoint malloc_walk_at (fuel : nat) (size align : Z) (manual_align : bool) (cur : Z)
    : ST S (option (Z * Z)) :=
  match fuel with
  | O => λ _, NoFuel
  | Datatypes.S fuel' =>
      if truthy cur then
        r ← malloc_in_block_at size align manual_align cur;
        match r with
        | Some p => mret (Some p)
        | None => next ← get (cur ⊕ next_at); malloc_walk_at fuel' size align manual_align next
        end
      else mret None
  end.

(** ** New blocks *)

Definition kheap_add_block_at (heap : mem_heap) (addr size section : Z) : ST S mem_heap :=
  _ ← pure (assert (addr mod 0x1000 =? 0));
  _ ← pure (assert (4 <=? section));
  let bytes_per_int := section ⊗ 32 in
  num_int_required ← pure (DIV_ROUND_UP size bytes_per_int);
  let bitset_size := num_int_required ⊗ 4 in
  bitset_length ← pure (DIV_ROUND_UP size section);
  let used_bitset_start := addr ⊕ sizeof_kheap_block in
  let delimiter_bitset_start := addr ⊕ sizeof_kheap_block ⊕ bitset_size in
  _ ← pure (assert (sizeof_kheap_block ⊕ bitset_size ⊗ 2 <? size));
  _ ← put (addr ⊕ next_at) 0;
  _ ← put (addr ⊕ block_size_at) size;
  _ ← put (addr ⊕ section_size_at) section;
  _ ← put (addr ⊕ start_at) addr;
  _ ← bitset_init_at (addr ⊕ used_sections_at) used_bitset_start bitset_length;
  _ ← bitset_init_at (addr ⊕ delimiters_at) delimiter_bitset_start bitset_length;
  reserved ← pure (DIV_ROUND_UP (sizeof_kheap_block ⊕ bitset_size ⊗ 2) section);
  _ ← for_rangeST 0 reserved (λ i, bitset_set_at (addr ⊕ used_sections_at) i);
  _ ← put (addr ⊕ free_sections_at) (bitset_length ⊖ reserved);
  _ ← put (addr ⊕ first_free_section_at) reserved;
  _ ← put (addr ⊕ next_at) (mh_first heap);
  mret (MemHeap addr (mh_section_size heap) (mh_min_size heap) (mh_flags heap)
          (mh_effective heap ⊕ (size ⊖ sizeof_kheap_block ⊕ bitset_size ⊗ 2))
          (mh_total heap ⊕ (bitset_length ⊖ reserved))).

Definition kheap_expand_at (size : Z) (st : mem_state S) : outcome (Z * mem_state S) :=
  pages_required ← pages_for page_size size;
  '(location, asa) ← asa_alloc pages_required (ms_asa st);
  if location =? 0 then Ret (K_OOM, MemState (ms_heap st) asa (ms_sys st))
  else
    r ← map_pages pages page_size location pages_required (ms_sys st);
    match r with
    | Return (i, s) =>
        '(_, asa') ← asa_free location pages_required asa;
        s' ← unmap_pages pages page_size (Z.to_nat i) location s;
        Ret (K_OOM, MemState (ms_heap st) asa' s')
    | Continue s =>
        '(heap, s') ← kheap_add_block_at (ms_heap st) location (pages_required ⊗ page_size)
                        (mh_section_size (ms_heap st)) s;
        Ret (K_SUCCESS, MemState heap asa s')
    end.

(** ** [kheap_malloc] *)

Fixpoint malloc_loop_at (fuel : nat) (size align : Z) (manual_align : bool) (st : mem_state S)
    : outcome (Z * Z * mem_state S) :=
  match fuel with
  | O => NoFuel
  | Datatypes.S fuel' =>
      let heap := ms_heap st in
      '(r, s) ← malloc_walk_at block_fuel size align manual_align (mh_first heap) (ms_sys st);
      match r with
      | Some (addr, n_sec) =>
          Ret (K_SUCCESS, addr,
            MemState (MemHeap (mh_first heap) (mh_section_size heap) (mh_min_size heap) (mh_flags heap)
                        (mh_effective heap) (mh_total heap ⊖ n_sec)) (ms_asa st) s)
      | None =>
          '(ret, st') ← kheap_expand_at (MAX (mh_min_size heap) size) (MemState heap (ms_asa st) s);
          if K_FAILED ret then Ret (ret, 0, st')
          else malloc_loop_at fuel' size align manual_align st'
      end
  end.

Definition kheap_malloc_at (size align : Z) (st : mem_state S) : outcome (Z * Z * mem_state S) :=
  let fuel st := Datatypes.S (Z.to_nat (bs_length (kasa_pages (ms_asa st)))) in
  let manual_align := (0 <? align) && negb (mh_section_size (ms_heap st) =? align) in
  let size := if manual_align then size ⊕ align else size in
  if truthy (mh_first (ms_heap st)) then malloc_loop_at (fuel st) size align manual_align st
  else
    '(ret, st') ← kheap_expand_at (MAX (mh_min_size (ms_heap st)) size) st;
    if K_FAILED ret then Ret (ret, 0, st')
    else malloc_loop_at (fuel st') size align manual_align st'.

(** ** [kheap_free] *)

(** Inside the block that holds the address: the number of sections given
    back. *)
Definition free_in_block_at (addr cur : Z) : ST S Z :=
  start ← get (cur ⊕ start_at);
  section_size ← get (cur ⊕ section_size_at);
  sect_num ← pure (udiv (addr ⊖ start) section_size);
  v ← bitset_get_at (cur ⊕ used_sections_at) sect_num;
  _ ← pure (assert (truthy v));
  length ← get (cur ⊕ delimiters_at ⊕ bs_length_at);
  r ← for_returnST sect_num length (λ i _,
        v ← bitset_get_at (cur ⊕ delimiters_at) i;
        if truthy v then _ ← bitset_clear_at (cur ⊕ delimiters_at) i; mret (Return i)
        else mret (Continue ())) ();
  let last_section := match r with Return i => i | Continue _ => 0 end in
  _ ← pure (assert (truthy last_section));
  _ ← for_rangeST sect_num (last_section + 1) (λ i, bitset_clear_at (cur ⊕ used_sections_at) i);
  _ ← put (cur ⊕ first_free_section_at) sect_num;
  free ← get (cur ⊕ free_sections_at);
  _ ← put (cur ⊕ free_sections_at) (free ⊕ (last_section ⊖ sect_num ⊕ 1));
  mret (last_section ⊖ sect_num ⊕ 1).

Fixpoint free_walk_at (fuel : nat) (addr cur : Z) : ST S (option Z) :=
  match fuel with
  | O => λ _, NoFuel
  | Datatypes.S fuel' =>
      if truthy cur then
        start ← get (cur ⊕ start_at);
        size ← get (cur ⊕ block_size_at);
        if (start <? addr) && (addr <? start ⊕ size) then
          n ← free_in_block_at addr cur; mret (Some n)
        else next ← get (cur ⊕ next_at); free_walk_at fuel' addr next
      else mret None
  end.

Definition kheap_free_at (addr : Z) (st : mem_state S) : outcome (bool * mem_state S) :=
  let heap := ms_heap st in
  '(r, s) ← free_walk_at block_fuel addr (mh_first heap) (ms_sys st);
  match r with
  | Some n =>
      Ret (true, MemState (MemHeap (mh_first heap) (mh_section_size heap) (mh_min_size heap) (mh_flags heap)
                             (mh_effective heap) (mh_total heap ⊕ n)) (ms_asa st) s)
  | None => Ret (false, MemState heap (ms_asa st) s)
  end.

(** ** The wrappers behind [kmalloc] and [kfree] *)

Definition kheap_kalloc_malloc_real_at (size : Z) (phys : bool) (flags : Z) (st : mem_state S)
    : outcome (Z * option Z * mem_state S) :=
  '(ret, res, st') ← kheap_malloc_at size
     (if has_flag flags KALLOC_PAGE_ALIGN then page_size else 0) st;
  if K_FAILED ret then Abort
  else if phys then
    '(p, s) ← kpage_get_phys pages res (ms_sys st');
    Ret (res, Some p, MemState (ms_heap st') (ms_asa st') s)
  else Ret (res, None, st').

Definition kheap_kalloc_free_at (addr : Z) (st : mem_state S) : outcome (mem_state S) :=
  '(_, st') ← kheap_free_at addr st; Ret st'.
End code.
