(* ===== verification/HeapLayout.v ===== *)
(** Blocks of the heap in memory: what the words of mapped pages promise
    ([PagedMemory]), how the header and the bitsets of a block lie in them
    ([block_at]), and that the code of [HeapMemory.v] on one block does to them
    what the code of [Kheap.v] does to the record. *)
From stdpp Require Import base numbers list.
From Stdlib Require Import ZArith Lia.
From S2P Require Import Prelude Kernel Bitset Alloc Asa Machine KPaging Kheap KheapBlock Layout HeapMemory.

Open Scope Z_scope.

(** * What the words of mapped pages promise *)

(** Addresses of whole words in the pages a client may map. *)
Definition client_word (a : Z) : Prop := a mod 4 = 0 ∧ client_page (a / PAGE_SIZE).

Section interface.
Context {S : Type} (mapped : S → Z → option Z) (word : S → Z → Z).

(** Nothing a client can see has changed, apart from the page [x]. *)
Record same_memory_but (x : Z → Prop) (s s' : S) : Prop := SameMemory {
  sm_mapped : ∀ q, client_page q → ¬ x q → mapped s' q = mapped s q;
  sm_word : ∀ a, client_word a → ¬ x (a / PAGE_SIZE) → mapped s (a / PAGE_SIZE) ≠ None →
    word s' a = word s a
}.
Definition same_memory : S → S → Prop := same_memory_but (λ _, False).
End interface.

(** A paging system whose pages can be read and written by words. *)
Class PagedMemory {S : Type} (ki : kpaging_interface S) (inv : S → Prop)
    (mapped : S → Z → option Z) (load : Z → S → outcome (Z * S)) (store : Z → Z → S → outcome S)
    (word : S → Z → Z) := {
  paged_mapper :: PageMapper ki inv mapped;
  paged_word s a : inv s → is_u32 (word s a);
  paged_load a s : inv s → client_word a → mapped s (a / PAGE_SIZE) ≠ None →
    wp (load a s) (λ '(v, s'), v = word s a ∧ inv s' ∧ same_memory mapped word s s');
  paged_store a v s : inv s → client_word a → mapped s (a / PAGE_SIZE) ≠ None → is_u32 v →
    wp (store a v s) (λ s', inv s' ∧ word s' a = v ∧
      (∀ q, client_page q → mapped s' q = mapped s q) ∧
      ∀ b, client_word b → b ≠ a → mapped s (b / PAGE_SIZE) ≠ None → word s' b = word s b);
  paged_allocate p flags s :
    inv s → client_page p → mapped s p = None → map_flags flags →
    wp (kpage_allocate ki (p * PAGE_SIZE) flags s) (λ '(_, s'), same_memory_but mapped word (.= p) s s');
  paged_free p f s :
    inv s → client_page p → mapped s p = Some f →
    wp (kpage_free ki (p * PAGE_SIZE) s) (λ '(_, s'), same_memory_but mapped word (.= p) s s');
  paged_get_phys addr s :
    inv s → is_u32 addr → client_page (addr / PAGE_SIZE) →
    wp (kpage_get_phys ki addr s) (λ '(_, s'), same_memory mapped word s s')
}.

(** * Arrays of words *)

Definition array_at (v : Z → Z) (p : Z) (l : list Z) : Prop :=
  ∀ i x, l !! i = Some x → v (p + 4 * Z.of_nat i) = x.

Definition upd (v : Z → Z) (a x : Z) : Z → Z := λ b, if b =? a then x else v b.

(** Outside [n] words from [p] on, nothing has changed. *)
Definition frame (p : Z) (n : nat) (v v' : Z → Z) : Prop :=
  ∀ a, ¬ (p ≤ a < p + 4 * Z.of_nat n) → v' a = v a.

Lemma frame_refl p n v : frame p n v v.
Proof. done. Qed.

Lemma frame_trans p n v1 v2 v3 : frame p n v1 v2 → frame p n v2 v3 → frame p n v1 v3.
Proof. intros H1 H2 a Ha. by rewrite H2, H1. Qed.

#[export] Hint Resolve frame_refl : core.

Lemma upd_frame p n v k x : (k < n)%nat → frame p n v (upd v (p + 4 * Z.of_nat k) x).
Proof. intros Hk a Ha. unfold upd. destruct (Z.eqb_spec a (p + 4 * Z.of_nat k)); [lia|done]. Qed.

Lemma array_at_upd v p l k x : array_at v p l → array_at (upd v (p + 4 * Z.of_nat k) x) p (<[k := x]> l).
Proof.
  intros Hl i y Hi. unfold upd. destruct (Z.eqb_spec (p + 4 * Z.of_nat i) (p + 4 * Z.of_nat k)) as [He|Hne].
  - assert (i = k) as -> by lia. rewrite list_lookup_insert_eq in Hi; [congruence|].
    apply lookup_lt_Some in Hi. by rewrite length_insert in Hi.
  - rewrite list_lookup_insert_ne in Hi by (intros ->; done). by apply Hl.
Qed.

Lemma array_at_app v p l1 l2 :
  array_at v p l1 → array_at v (p + 4 * Z.of_nat (length l1)) l2 → array_at v p (l1 ++ l2).
Proof.
  intros H1 H2 i x Hi. apply lookup_app_Some in Hi as [Hi|[Hl Hi]]; [by apply H1|].
  specialize (H2 _ _ Hi). rewrite <- H2. f_equal. lia.
Qed.

Lemma array_at_frame v v' p l q n :
  array_at v p l → frame q n v v' →
  p + 4 * Z.of_nat (length l) ≤ q ∨ q + 4 * Z.of_nat n ≤ p → array_at v' p l.
Proof. intros Hl Hf Hd i x Hi. rewrite Hf; [by apply Hl|]. apply lookup_lt_Some in Hi. lia. Qed.

(** * Running code on memory

    [mem_is M v s]: the client pages are mapped by [M], and their words are
    [v]. *)
Section runs.
Context {S : Type} {ki : kpaging_interface S} {inv : S → Prop} {mapped : S → Z → option Z}.
Context {load : Z → S → outcome (Z * S)} {store : Z → Z → S → outcome S} {word : S → Z → Z}.
Context `{Hmem : !PagedMemory ki inv mapped load store word}.
Context (M : Z → option Z).

Record mem_is (v : Z → Z) (s : S) : Prop := MemIs {
  mi_inv : inv s;
  mi_mapped : ∀ q, client_page q → mapped s q = M q;
  mi_word : ∀ a, client_word a → M (a / PAGE_SIZE) ≠ None → word s a = v a;
  mi_u32 : ∀ a, is_u32 (v a)
}.

(** From memory [v], [m] returns with a result and a memory in [R]. *)
Definition runs {A} (v : Z → Z) (m : ST S A) (R : A → (Z → Z) → Prop) : Prop :=
  ∀ s, mem_is v s → wp (m s) (λ '(a, s'), ∃ v', mem_is v' s' ∧ R a v').

Lemma runs_ret {A} v (a : A) (R : A → (Z → Z) → Prop) : R a v → runs v (mret a) R.
Proof. intros H s Hs. exists v. by split. Qed.

Lemma runs_bind {A B} v (m : ST S A) (f : A → ST S B) R Q :
  runs v m R → (∀ a v', R a v' → runs v' (f a) Q) → runs v (m ≫= f) Q.
Proof.
  intros Hm Hf s Hs. unfold mbind at 1, st_bind. apply wp_bind. eapply wp_mono; [by apply Hm|].
  intros [a s'] (v' & Hs' & HR). by eapply Hf.
Qed.

Lemma runs_seq {A B} v (m : ST S A) (f : A → ST S B) Q :
  runs v m (λ a v', runs v' (f a) Q) → runs v (m ≫= f) Q.
Proof. intros H. eapply runs_bind; [exact H|]. auto. Qed.

(** Memory holds 32-bit words. *)
Lemma runs_words {A} v (m : ST S A) (R : A → (Z → Z) → Prop) : ((∀ a, is_u32 (v a)) → runs v m R) → runs v m R.
Proof. intros H s Hs. apply H; [|done]. apply Hs. Qed.

Lemma runs_mono {A} v (m : ST S A) (R Q : A → (Z → Z) → Prop) :
  runs v m R → (∀ a v', R a v' → Q a v') → runs v m Q.
Proof. intros Hm H s Hs. eapply wp_mono; [by apply Hm|]. intros [a s'] (v' & Hs' & HR). exists v'. auto. Qed.

Lemma runs_pure {A} v (m : outcome A) a (R : A → (Z → Z) → Prop) : m = Ret a → R a v → runs v (pure m) R.
Proof. intros -> HR s Hs. exists v. by split. Qed.

(** A computation that reads only. *)
Definition reads {A} (v : Z → Z) (m : ST S A) (a : A) : Prop := runs v m (λ a' v', a' = a ∧ v' = v).

Lemma runs_reads {A B} v (m : ST S A) a (f : A → ST S B) Q : reads v m a → runs v (f a) Q → runs v (m ≫= f) Q.
Proof. intros Hm Hf. eapply runs_bind; [exact Hm|]. by intros ? ? [-> ->]. Qed.

Lemma runs_pure_bind {A B} v (m : outcome A) a (f : A → ST S B) Q :
  m = Ret a → runs v (f a) Q → runs v (pure m ≫= f) Q.
Proof. intros Hm Hf. eapply runs_reads; [|exact Hf]. by eapply runs_pure. Qed.

(** Words that can be reached. *)
Definition accessible (a : Z) : Prop := client_word a ∧ M (a / PAGE_SIZE) ≠ None.

Lemma reads_get v a : accessible a → reads v (get load a) (v a).
Proof.
  intros [Ha HM] s [Hi Hm Hw Hu]. unfold get.
  eapply wp_mono; [apply paged_load; [done|done|]|].
  - rewrite Hm by apply Ha. done.
  - intros [x s'] (-> & Hi' & [Hm' Hw']). exists v. split; [|by rewrite Hw].
    assert (Hmap : ∀ q, client_page q → mapped s' q = M q) by (intros q Hq; rewrite Hm' by auto; by apply Hm).
    split; [done|done| |done]. intros b Hb HMb. rewrite Hw'; [by apply Hw|done|auto|]. by rewrite Hm by apply Hb.
Qed.

Lemma runs_put v a x (R : unit → (Z → Z) → Prop) :
  accessible a → is_u32 x → R () (upd v a x) → runs v (put store a x) R.
Proof.
  intros [Ha HM] Hx HR s [Hi Hm Hw Hu]. unfold put. apply wp_bind.
  eapply wp_mono; [apply (paged_store a x s Hi Ha); [|exact Hx]|].
  - rewrite Hm by apply Ha. done.
  - intros s' (Hi' & Hwa & Hm' & Hw'). apply wp_ret. exists (upd v a x). split; [|done].
    split; [done|intros q Hq; rewrite Hm' by done; by apply Hm| |].
    + intros b Hb HMb. unfold upd. destruct (Z.eqb_spec b a) as [->|Hne]; [done|].
      rewrite Hw'; [by apply Hw|done|done|]. by rewrite Hm by apply Hb.
    + intros b. unfold upd. by destruct (b =? a).
Qed.

(** ** Loops, along a loop without memory *)

Lemma runs_for_return {A A' R R'} (I : A → A' → (Z → Z) → Prop) (Q : flow A' R' → (Z → Z) → Prop)
    lo hi (body : Z → A → outcome (flow A R)) (body' : Z → A' → ST S (flow A' R')) a a' v f :
  for_return lo hi body a = Ret f → I a a' v →
  (∀ i a a' v g, lo ≤ i → I a a' v → body i a = Ret g →
     runs v (body' i a') (λ g' v', match g, g' with
       | Continue b, Continue b' => I b b' v'
       | Return r, Return r' => f = Return r → Q (Return r') v'
       | _, _ => False end)) →
  (∀ b b' v', f = Continue b → I b b' v' → Q (Continue b') v') →
  runs v (for_returnST lo hi body' a') Q.
Proof.
  intros Hrun HI Hbody Hend s Hs. unfold for_returnST, for_return in *. apply wp_bind.
  set (step := λ (i : Z) '(a, s), _).
  enough (H : ∀ n i a a' v s, lo ≤ i → rounds n i body a = Ret f → I a a' v → mem_is v s →
    wp (rounds n i step (a', s)) (λ r, wp (Ret match r with
      | Continue (a, s) => (Continue a, s) | Return (r, s) => (Return r, s) end)
      (λ '(r, s'), ∃ v', mem_is v' s' ∧ Q r v'))) by (eapply H; [lia|exact Hrun|exact HI|exact Hs]).
  clear Hrun HI Hs a a' v s.
  induction n as [|n IH]; intros i a a' v s Hi Hrun HI Hs; cbn [rounds] in *.
  { apply wp_ret, wp_ret. injection Hrun as <-. exists v. split; [done|]. by eapply Hend. }
  apply bind_Ret_inv in Hrun as (g & Hg & Hrun). unfold step at 1.
  apply wp_bind, wp_bind. eapply wp_mono; [eapply Hbody; [exact Hi|exact HI|exact Hg|exact Hs]|].
  intros [g' s'] (v' & Hs' & HR). apply wp_ret.
  destruct g as [b|r], g' as [b'|r']; try done.
  - eapply IH; [|exact Hrun|exact HR|exact Hs']. lia.
  - injection Hrun as <-. apply wp_ret, wp_ret. exists v'. auto.
Qed.

Lemma runs_for_range {A} (I : A → (Z → Z) → Prop) (Q : unit → (Z → Z) → Prop)
    lo hi (body : Z → A → outcome A) (body' : Z → ST S unit) a v a1 :
  for_range lo hi body a = Ret a1 → I a v →
  (∀ i a v b, lo ≤ i → I a v → body i a = Ret b → runs v (body' i) (λ _ v', I b v')) →
  (∀ v', I a1 v' → Q () v') →
  runs v (for_rangeST lo hi body') Q.
Proof.
  intros Hrun HI Hbody Hend s Hs. unfold for_rangeST, for_range in *. apply wp_bind.
  set (step := λ (i : Z) s, _).
  enough (H : ∀ n i a v s, lo ≤ i → rounds_all n i body a = Ret a1 → I a v → mem_is v s →
    wp (rounds_all n i step s) (λ s', ∃ v', mem_is v' s' ∧ Q () v')).
  { eapply wp_mono; [eapply H; [lia|exact Hrun|exact HI|exact Hs]|]. intros s' H'. by apply wp_ret. }
  clear Hrun HI Hs a v s.
  induction n as [|n IH]; intros i a v s Hi Hrun HI Hs; cbn [rounds_all] in *.
  { apply wp_ret. injection Hrun as <-. exists v. auto. }
  apply bind_Ret_inv in Hrun as (b & Hb & Hrun). unfold step at 1.
  apply wp_bind, wp_bind. eapply wp_mono; [eapply Hbody; [exact Hi|exact HI|exact Hb|exact Hs]|].
  intros [g' s'] (v' & Hs' & HR). apply wp_ret. eapply IH; [|exact Hrun|exact HR|exact Hs']. lia.
Qed.

(** * A block in memory *)

(** The words of the header. *)
Definition header (b : kheap_block) (next : Z) : list Z :=
  let used_start := block_start b + sizeof_kheap_block in
  [next; block_size b; section_size b; first_free_section b; free_sections b; block_start b;
   bs_length (used_sections b); used_start;
   bs_length (delimiters b); used_start + 4 * Z.of_nat (length (bs_start (used_sections b)))].

(** The header and the words of both bitsets. *)
Definition layout (b : kheap_block) (next : Z) : list Z :=
  header b next ++ bs_start (used_sections b) ++ bs_start (delimiters b).

Definition with_used (b : kheap_block) (u : bitset) : kheap_block :=
  KheapBlock (block_size b) (section_size b) (first_free_section b) (free_sections b) (block_start b) u
    (delimiters b).
Definition with_delims (b : kheap_block) (d : bitset) : kheap_block :=
  KheapBlock (block_size b) (section_size b) (first_free_section b) (free_sections b) (block_start b)
    (used_sections b) d.

(** [n] words from [p] on can be reached. *)
Record area (p : Z) (n : nat) : Prop := Area {
  ar_size : (10 ≤ n)%nat;
  ar_pos : 0 < p;
  ar_end : p + 4 * Z.of_nat n < 2 ^ 32;
  ar_access : ∀ i : nat, (i < n)%nat → accessible (p + 4 * Z.of_nat i)
}.

Section block.
Context (p : Z) (n : nat) (next : Z) (Harea : area p n).

(** Block [b] lies in the words [v] of the area. *)
Record block_at (v : Z → Z) (b : kheap_block) : Prop := BlockAt {
  ba_start : block_start b = p;
  ba_length : length (layout b next) = n;
  ba_array : array_at v p (layout b next);
  ba_words : Forall is_u32 (layout b next)
}.

Lemma area_addr k : 0 ≤ k < 4 * Z.of_nat n → p ⊕ k = p + k.
Proof. intros Hk. apply u32_small. destruct Harea. u32_lia. Qed.

(** A read and a write of word [k]. *)
Lemma reads_word v b k x a :
  block_at v b → layout b next !! k = Some x → a = p + 4 * Z.of_nat k → reads v (get load a) x.
Proof.
  intros [Hs Hl Hv _] Hk ->. rewrite <- (Hv _ _ Hk). apply reads_get. apply Harea.
  rewrite <- Hl. by eapply lookup_lt_Some.
Qed.

Lemma runs_word v b b' k x a (R : unit → (Z → Z) → Prop) :
  block_at v b → a = p + 4 * Z.of_nat k → is_u32 x → (k < n)%nat →
  block_start b' = p → layout b' next = <[k := x]> (layout b next) →
  (∀ v', block_at v' b' → frame p n v v' → R () v') →
  runs v (put store a x) R.
Proof.
  intros [Hs Hl Hv Hu] -> Hx Hk Hs' Hl' HR. apply runs_put; [by apply Harea|done|].
  apply HR; [|by apply upd_frame]. split; [done| | |]; rewrite Hl'.
  - by rewrite length_insert.
  - by apply array_at_upd.
  - by apply Forall_insert.
Qed.

(** ** Bitsets of the block *)

(** The bitset [B], its structure at word [f] and its words from [o] on. *)
Record bits_in (l : list Z) (f o : nat) (B : bitset) : Prop := BitsIn {
  bi_field : (Datatypes.S f < 10)%nat;
  bi_length : l !! f = Some (bs_length B);
  bi_start : l !! Datatypes.S f = Some (p + 4 * Z.of_nat o);
  bi_words : ∀ i w, bs_start B !! i = Some w → l !! (o + i)%nat = Some w
}.

Lemma used_in b : block_start b = p → bits_in (layout b next) 6 10 (used_sections b).
Proof.
  intros Hs. split; [lia|done|by rewrite <- Hs|]. intros i w Hi. unfold layout.
  rewrite lookup_app_r by (simpl; lia).
  replace (10 + i - length (header b next))%nat with i by (simpl; lia).
  rewrite lookup_app_l; [done|]. by eapply lookup_lt_Some.
Qed.

Lemma delims_in b :
  block_start b = p →
  bits_in (layout b next) 8 (10 + length (bs_start (used_sections b))) (delimiters b).
Proof.
  intros Hs. split; [lia|done| |].
  - rewrite <- Hs. unfold layout. simpl. unfold sizeof_kheap_block. f_equal. lia.
  - intros i w Hi. unfold layout. rewrite !lookup_app_r by (simpl; lia).
    by replace (10 + length (bs_start (used_sections b)) + i - length (header b next)
                - length (bs_start (used_sections b)))%nat with i by (simpl; lia).
Qed.

Lemma reads_bitset_word v b f o B m w a :
  block_at v b → bits_in (layout b next) f o B → a = p + 4 * Z.of_nat f →
  0 ≤ m < bs_length B → bs_start B !! Z.to_nat (m / 32) = Some w →
  reads v (bitset_word_at load a m) (p + 4 * Z.of_nat (o + Z.to_nat (m / 32))).
Proof.
  intros Hb [Hf Hlen Hst Hwords] -> Hm Hw. destruct Harea as [Hn Hp He _].
  unfold bitset_word_at, bs_length_at, bs_start_at.
  rewrite (u32_small (p + 4 * Z.of_nat f + 0)), (u32_small (p + 4 * Z.of_nat f + 4)) by u32_lia.
  eapply runs_pure_bind; [unfold truthy; destruct (Z.eqb_spec (p + 4 * Z.of_nat f) 0); [lia|done]|].
  eapply runs_reads; [eapply reads_word; [exact Hb|exact Hlen|lia]|].
  eapply runs_pure_bind; [unfold assert; destruct (Z.ltb_spec m (bs_length B)); [done|lia]|].
  eapply runs_reads; [eapply reads_word; [exact Hb|exact Hst|lia]|].
  apply runs_ret. split; [|done]. unfold INDEX_FROM_BIT.
  apply Hwords, lookup_lt_Some in Hw. rewrite (ba_length _ _ Hb) in Hw.
  pose proof (Z.div_pos m 32 ltac:(lia) ltac:(lia)).
  rewrite (u32_small (4 * (m / 32))) by u32_lia. rewrite u32_small by u32_lia. lia.
Qed.

Lemma reads_bitset_get v b f o B m a r :
  block_at v b → bits_in (layout b next) f o B → a = p + 4 * Z.of_nat f →
  0 ≤ m → bitset_get_bit B m = Ret r → reads v (bitset_get_at load a m) r.
Proof.
  intros Hb Hbits Ha Hm Hr. unfold bitset_get_bit, assert in Hr.
  destruct (Z.ltb_spec m (bs_length B)); [|done]. rewrite Ret_bind in Hr.
  apply bind_Ret_inv in Hr as (w & Hw & Hr). injection Hr as <-.
  apply array_get_Ret in Hw as [_ Hw].
  eapply runs_reads; [eapply reads_bitset_word; [exact Hb|exact Hbits|exact Ha|lia|exact Hw]|].
  eapply runs_reads; [eapply reads_word; [exact Hb|exact (bi_words _ _ _ _ Hbits _ _ Hw)|reflexivity]|].
  by apply runs_ret.
Qed.

(** Changing one word of a bitset. *)
Definition modifies (B B' : bitset) (m : Z) (g : Z → Z) : Prop :=
  0 ≤ m < bs_length B ∧ ∃ w, bs_start B !! Z.to_nat (m / 32) = Some w ∧ (is_u32 w → is_u32 (g w)) ∧
    B' = Bitset (bs_length B) (<[Z.to_nat (m / 32) := g w]> (bs_start B)).

Lemma runs_modify v b b' f o B B' m a g (R : unit → (Z → Z) → Prop) :
  block_at v b → bits_in (layout b next) f o B → a = p + 4 * Z.of_nat f → modifies B B' m g →
  block_start b' = p →
  (∀ i x, (i < length (bs_start B))%nat → B' = Bitset (bs_length B) (<[i := x]> (bs_start B)) →
     layout b' next = <[(o + i)%nat := x]> (layout b next)) →
  (∀ v', block_at v' b' → frame p n v v' → R () v') →
  runs v (x ← bitset_word_at load a m; w ← get load x; put store x (g w)) R.
Proof.
  intros Hb Hbits Ha (Hm & w & Hw & Hg & HB') Hs' Hl' HR.
  pose proof (bi_words _ _ _ _ Hbits _ _ Hw) as Hw'.
  eapply runs_reads; [eapply reads_bitset_word; [exact Hb|exact Hbits|exact Ha|exact Hm|exact Hw]|].
  eapply runs_reads; [eapply reads_word; [exact Hb|exact Hw'|reflexivity]|].
  eapply (runs_word v b b'); [exact Hb|reflexivity| | |exact Hs'| |exact HR].
  - apply Hg. exact (Forall_lookup_1 _ _ _ _ (ba_words _ _ Hb) Hw').
  - rewrite <- (ba_length _ _ Hb). by eapply lookup_lt_Some.
  - apply Hl'; [by eapply lookup_lt_Some|exact HB'].
Qed.

Lemma set_modifies B B' m :
  0 ≤ m → bitset_set_bit B m = Ret B' → modifies B B' m (λ w, Z.lor w (shl1 (OFFSET_FROM_BIT m))).
Proof.
  intros Hm Hr. unfold bitset_set_bit, assert in Hr.
  destruct (Z.ltb_spec m (bs_length B)); [|done]. rewrite Ret_bind in Hr.
  apply bind_Ret_inv in Hr as (w & Hw & Hr). apply array_get_Ret in Hw as [Hi Hw].
  unfold INDEX_FROM_BIT in *. pose proof (lookup_lt_Some _ _ _ Hw).
  rewrite array_set_in in Hr by lia. rewrite Ret_bind in Hr. injection Hr as <-.
  split; [lia|]. exists w. split; [done|]. split; [|done]. intros Hu. auto with u32db.
Qed.

Lemma clear_modifies B B' m :
  0 ≤ m → bitset_clear_bit B m = Ret B' → modifies B B' m (λ w, Z.land w (not32 (shl1 (OFFSET_FROM_BIT m)))).
Proof.
  intros Hm Hr. unfold bitset_clear_bit, assert in Hr.
  destruct (Z.ltb_spec m (bs_length B)); [|done]. rewrite Ret_bind in Hr.
  apply bind_Ret_inv in Hr as (w & Hw & Hr). apply array_get_Ret in Hw as [Hi Hw].
  unfold INDEX_FROM_BIT in *. pose proof (lookup_lt_Some _ _ _ Hw).
  rewrite array_set_in in Hr by lia. rewrite Ret_bind in Hr. injection Hr as <-.
  split; [lia|]. exists w. split; [done|]. split; [|done]. intros Hu. auto with u32db.
Qed.

Lemma layout_used b B' i x :
  (i < length (bs_start (used_sections b)))%nat →
  B' = Bitset (bs_length (used_sections b)) (<[i := x]> (bs_start (used_sections b))) →
  layout (with_used b B') next = <[(10 + i)%nat := x]> (layout b next).
Proof.
  intros Hi ->. unfold layout, header, with_used.
  cbn [block_start block_size section_size first_free_section free_sections used_sections delimiters
       bs_length bs_start]. rewrite length_insert.
  change (10 + i)%nat with (length (header b next) + i)%nat.
  rewrite (insert_app_r (header b next)). f_equal. by rewrite insert_app_l.
Qed.

Lemma layout_delims b B' i x :
  (i < length (bs_start (delimiters b)))%nat →
  B' = Bitset (bs_length (delimiters b)) (<[i := x]> (bs_start (delimiters b))) →
  layout (with_delims b B') next =
    <[(10 + length (bs_start (used_sections b)) + i)%nat := x]> (layout b next).
Proof.
  intros Hi ->. unfold layout, header, with_delims.
  cbn [block_start block_size section_size first_free_section free_sections used_sections delimiters
       bs_length bs_start].
  replace (10 + length (bs_start (used_sections b)) + i)%nat
    with (length (header b next) + (length (bs_start (used_sections b)) + i))%nat by (simpl; lia).
  rewrite (insert_app_r (header b next)). f_equal. by rewrite insert_app_r.
Qed.

Lemma runs_used_set v b m B' (R : unit → (Z → Z) → Prop) :
  block_at v b → 0 ≤ m → bitset_set_bit (used_sections b) m = Ret B' →
  (∀ v', block_at v' (with_used b B') → frame p n v v' → R () v') →
  runs v (bitset_set_at load store (p ⊕ used_sections_at) m) R.
Proof.
  intros Hb Hm Hr HR. pose proof (ba_start _ _ Hb) as Hs. destruct Harea as [Hn _ _ _].
  apply (runs_modify v b (with_used b B') 6 10 (used_sections b) B' m _
    (λ w, Z.lor w (shl1 (OFFSET_FROM_BIT m)))); [done|by apply used_in| | |done| |done].
  - apply area_addr. unfold used_sections_at. lia.
  - by apply set_modifies.
  - intros i x Hi HB. by apply layout_used.
Qed.

Lemma runs_used_clear v b m B' (R : unit → (Z → Z) → Prop) :
  block_at v b → 0 ≤ m → bitset_clear_bit (used_sections b) m = Ret B' →
  (∀ v', block_at v' (with_used b B') → frame p n v v' → R () v') →
  runs v (bitset_clear_at load store (p ⊕ used_sections_at) m) R.
Proof.
  intros Hb Hm Hr HR. pose proof (ba_start _ _ Hb) as Hs. destruct Harea as [Hn _ _ _].
  apply (runs_modify v b (with_used b B') 6 10 (used_sections b) B' m _
    (λ w, Z.land w (not32 (shl1 (OFFSET_FROM_BIT m))))); [done|by apply used_in| | |done| |done].
  - apply area_addr. unfold used_sections_at. lia.
  - by apply clear_modifies.
  - intros i x Hi HB. by apply layout_used.
Qed.

Lemma runs_delims_set v b m B' (R : unit → (Z → Z) → Prop) :
  block_at v b → 0 ≤ m → bitset_set_bit (delimiters b) m = Ret B' →
  (∀ v', block_at v' (with_delims b B') → frame p n v v' → R () v') →
  runs v (bitset_set_at load store (p ⊕ delimiters_at) m) R.
Proof.
  intros Hb Hm Hr HR. pose proof (ba_start _ _ Hb) as Hs. destruct Harea as [Hn _ _ _].
  eapply (runs_modify v b (with_delims b B') 8 _ (delimiters b) B' m _
    (λ w, Z.lor w (shl1 (OFFSET_FROM_BIT m)))); [done|by apply delims_in| | |done| |done].
  - apply area_addr. unfold delimiters_at. lia.
  - by apply set_modifies.
  - intros i x Hi HB. by apply layout_delims.
Qed.

Lemma runs_delims_clear v b m B' (R : unit → (Z → Z) → Prop) :
  block_at v b → 0 ≤ m → bitset_clear_bit (delimiters b) m = Ret B' →
  (∀ v', block_at v' (with_delims b B') → frame p n v v' → R () v') →
  runs v (bitset_clear_at load store (p ⊕ delimiters_at) m) R.
Proof.
  intros Hb Hm Hr HR. pose proof (ba_start _ _ Hb) as Hs. destruct Harea as [Hn _ _ _].
  eapply (runs_modify v b (with_delims b B') 8 _ (delimiters b) B' m _
    (λ w, Z.land w (not32 (shl1 (OFFSET_FROM_BIT m))))); [done|by apply delims_in| | |done| |done].
  - apply area_addr. unfold delimiters_at. lia.
  - by apply clear_modifies.
  - intros i x Hi HB. by apply layout_delims.
Qed.
End block.

(** The link to the next block changes. *)
Lemma runs_next p n next next' v b a (R : unit → (Z → Z) → Prop) :
  area p n → block_at p n next v b → a = p → is_u32 next' →
  (∀ v', block_at p n next' v' b → frame p n v v' → R () v') →
  runs v (put store a next') R.
Proof.
  intros [Hn Hp He Ha] [Hs Hl Hv Hu] -> Hx HR.
  assert (H0 : p = p + 4 * Z.of_nat 0) by lia. rewrite H0 at 1.
  assert (Hlay : layout b next' = <[0%nat := next']> (layout b next)) by done.
  apply runs_put; [apply Ha; lia|done|]. apply HR; [|apply upd_frame; lia].
  split; [done| | |]; rewrite Hlay.
  - by rewrite length_insert.
  - by apply array_at_upd.
  - by apply Forall_insert.
Qed.
End runs.
