(* ===== verification/HeapBlocks.v ===== *)
(** One block of the heap: the code of [HeapMemory.v] on the words of the
    block returns what the code of [Kheap.v] returns on the record, leaves the
    block that it leaves, and touches nothing outside the block. *)
From stdpp Require Import base numbers list.
From Stdlib Require Import ZArith Lia.
From S2P Require Import Prelude Kernel Bitset Alloc Asa Machine KPaging Kheap KheapBlock Layout HeapMemory HeapLayout.

Open Scope Z_scope.

Section blocks.
Context {S : Type} {ki : kpaging_interface S} {inv : S → Prop} {mapped : S → Z → option Z}.
Context {load : Z → S → outcome (Z * S)} {store : Z → Z → S → outcome S} {word : S → Z → Z}.
Context `{Hmem : !PagedMemory ki inv mapped load store word}.
Context (M : Z → option Z).
Local Abbreviation runs := (@runs S inv mapped word M _).
Local Abbreviation reads := (@reads S inv mapped word M _).

Section one_block.
Context (p : Z) (n : nat) (next : Z) (Harea : area M p n).
Local Abbreviation block_at := (block_at p n next).

(** ** Fields *)

Lemma field_addr off k : off = 4 * Z.of_nat k → (k < n)%nat → p ⊕ off = p + 4 * Z.of_nat k.
Proof. intros -> Hk. apply (area_addr M p n Harea). lia. Qed.

Lemma field_addr2 off off' k :
  0 ≤ off → 0 ≤ off' → off + off' = 4 * Z.of_nat k → (k < n)%nat → p ⊕ off ⊕ off' = p + 4 * Z.of_nat k.
Proof.
  intros H1 H2 H3 Hk. rewrite (area_addr M p n Harea off) by lia.
  replace (p + off + off') with (p + (4 * Z.of_nat k)) by lia. apply (area_addr M p n Harea). lia.
Qed.

Lemma field_bound k : (k < 10)%nat → (k < n)%nat.
Proof. destruct Harea. lia. Qed.

Lemma bind_field {A} v b k x a (f : Z → ST S A) Q :
  block_at v b → a = p + 4 * Z.of_nat k → layout b next !! k = Some x →
  runs v (f x) Q → runs v (get load a ≫= f) Q.
Proof. intros Hb Ha Hx Hf. eapply runs_reads; [by eapply (reads_word M p n next Harea)|exact Hf]. Qed.

Lemma block_u32 v b k x : block_at v b → layout b next !! k = Some x → is_u32 x.
Proof. intros [_ _ _ Hu] Hx. exact (Forall_lookup_1 _ _ _ _ Hu Hx). Qed.
End one_block.

(** The next step reads field [k]. *)
Ltac field k :=
  eapply (bind_field _ _ _ ltac:(eassumption) _ _ k);
  [eassumption
  |first [eapply field_addr; [eassumption|reflexivity|eapply field_bound; [eassumption|lia]]
         |eapply field_addr2; [eassumption|done|done|reflexivity|eapply field_bound; [eassumption|lia]]]
  |reflexivity|].

Section one_block.
Context (p : Z) (n : nat) (next : Z) (Harea : area M p n).
Local Abbreviation block_at := (block_at p n next).

(** ** The search *)

Lemma reads_used_get v b m r :
  block_at v b → 0 ≤ m → bitset_get_bit (used_sections b) m = Ret r →
  reads v (bitset_get_at load (p ⊕ used_sections_at) m) r.
Proof.
  intros Hb Hm Hr. pose proof (ba_start _ _ _ _ _ Hb) as Hs.
  eapply (reads_bitset_get M p n next Harea); [exact Hb|by apply used_in| |exact Hm|exact Hr].
  apply (field_addr p n Harea _ 6); [done|]. eapply field_bound; [exact Harea|lia].
Qed.

Lemma reads_delims_get v b m r :
  block_at v b → 0 ≤ m → bitset_get_bit (delimiters b) m = Ret r →
  reads v (bitset_get_at load (p ⊕ delimiters_at) m) r.
Proof.
  intros Hb Hm Hr. pose proof (ba_start _ _ _ _ _ Hb) as Hs.
  eapply (reads_bitset_get M p n next Harea); [exact Hb|by apply delims_in| |exact Hm|exact Hr].
  apply (field_addr p n Harea _ 8); [done|]. eapply field_bound; [exact Harea|lia].
Qed.

Lemma reads_scan v b n_sec k st f :
  block_at v b → section_scan_step (used_sections b) (first_free_section b) n_sec k st = Ret f →
  reads v (section_scan_at load p n_sec k st) f.
Proof.
  intros Hb Hf. destruct st as [ff c]. unfold section_scan_step in Hf. unfold section_scan_at.
  apply bind_Ret_inv in Hf as (i & Hi & Hf). apply bind_Ret_inv in Hf as (x & Hx & Hf).
  field 3%nat. field 6%nat. eapply runs_pure_bind; [exact Hi|].
  assert (Hi0 : 0 ≤ i).
  { pose proof (block_u32 p n next v b 6 _ Hb eq_refl) as Hu. unfold umod in Hi.
    destruct (Z.eqb_spec (bs_length (used_sections b)) 0); [done|]. injection Hi as <-.
    apply Z.mod_pos_bound. u32_lia. }
  eapply runs_reads; [by apply (reads_used_get v b)|]. apply runs_ret. split; [|done].
  destruct (x =? 0); [|congruence]. destruct (if i <? ff then _ else _) as [ff' c'].
  destruct (c' ⊕ 1 =? n_sec); congruence.
Qed.

Definition found_nonneg (f : flow (Z * Z) Z) : Prop :=
  match f with Continue st => 0 ≤ st.1 | Return r => 0 ≤ r end.

Lemma scan_step_nonneg used ffs n_sec k st f :
  0 ≤ bs_length used → 0 ≤ st.1 → section_scan_step used ffs n_sec k st = Ret f → found_nonneg f.
Proof.
  intros Hl Hst Hf. destruct st as [ff c]. unfold section_scan_step in Hf. simpl in Hst.
  apply bind_Ret_inv in Hf as (i & Hi & Hf). apply bind_Ret_inv in Hf as (x & _ & Hf).
  assert (Hi0 : 0 ≤ i).
  { unfold umod in Hi. destruct (Z.eqb_spec (bs_length used) 0); [done|]. injection Hi as <-.
    apply Z.mod_pos_bound. lia. }
  destruct (x =? 0); [|by injection Hf as <-].
  destruct (i <? ff); [|destruct (c =? 0)]; destruct (_ =? n_sec); injection Hf as <-; simpl; lia.
Qed.

Lemma runs_scan_loop v b n_sec f :
  block_at v b →
  for_return 0 (bs_length (used_sections b))
    (section_scan_step (used_sections b) (first_free_section b) n_sec) (0, 0) = Ret f →
  runs v (for_returnST 0 (bs_length (used_sections b)) (section_scan_at load p n_sec) (0, 0))
    (λ f' v', f' = f ∧ v' = v ∧ found_nonneg f).
Proof.
  intros Hb Hf. pose proof (block_u32 p n next v b 6 _ Hb eq_refl) as Hu.
  eapply (runs_for_return M (λ a a' v', a' = a ∧ v' = v ∧ 0 ≤ a.1)); [exact Hf|done| |].
  - intros i a a' v' g _ (-> & -> & Ha) Hg. eapply runs_mono; [by eapply reads_scan|].
    intros g' v' [-> ->]. pose proof (scan_step_nonneg _ _ _ _ _ _ (proj1 Hu) Ha Hg) as Hnn.
    destruct g as [a1|r]; [done|]. intros ->. by split.
  - intros b0 b' v' -> (-> & -> & Ha). by split.
Qed.

(** ** Marking *)

Lemma with_used_id b : with_used b (used_sections b) = b.
Proof. by destruct b. Qed.

Lemma runs_mark fuel v b j end_ u :
  block_at v b → 0 ≤ j → mark_sections fuel j end_ (used_sections b) = Ret u →
  runs v (mark_sections_at load store fuel p j end_) (λ _ v', block_at v' (with_used b u) ∧ frame p n v v').
Proof.
  revert v b j. induction fuel as [|fuel IH]; intros v b j Hb Hj Hu; [done|]. cbn [mark_sections mark_sections_at] in *.
  destruct (j <? end_); [|injection Hu as <-; apply runs_ret; by rewrite with_used_id].
  assert (Hnext : ∀ v1 u1 j1, 0 ≤ j1 → block_at v1 (with_used b u1) → frame p n v v1 →
    mark_sections fuel j1 end_ u1 = Ret u →
    runs v1 (mark_sections_at load store fuel p j1 end_)
      (λ _ v', block_at v' (with_used b u) ∧ frame p n v v')).
  { intros v1 u1 j1 Hj1 Hb1 Hf1 Hu1. eapply runs_mono; [by apply (IH v1 (with_used b u1) j1)|].
    intros _ v' [Hb' Hf']. split; [exact Hb'|]. by eapply frame_trans. }
  destruct (_ && _) eqn:Hword; apply bind_Ret_inv in Hu as (w & Hw & Hu).
  - field 7%nat. unfold array_set in Hw.
    destruct ((0 <=? j / 32) && (j / 32 <? Z.of_nat (length (bs_start (used_sections b))))) eqn:Hr; [|done].
    injection Hw as <-. apply andb_prop in Hr as [H1%Z.leb_le H2%Z.ltb_lt].
    pose proof Hb as [Hs Hl _ _]. pose proof Harea as [Hn Hp He _].
    assert (Hlen : (10 + Z.to_nat (j / 32) < n)%nat).
    { rewrite <- Hl. unfold layout. rewrite !length_app. change (length (header b next)) with 10%nat. lia. }
    apply runs_seq. eapply (runs_word M p n next Harea v b (with_used b (Bitset _ _)) (10 + Z.to_nat (j / 32))%nat);
      [exact Hb| | |exact Hlen|exact Hs|by eapply layout_used; [lia|]|].
    + rewrite Hs. unfold sizeof_kheap_block. rewrite (u32_small (4 * (j / 32))) by u32_lia.
      rewrite u32_small by u32_lia. lia.
    + by vm_compute.
    + intros v' Hb' Hf'. eapply Hnext; [|exact Hb'|exact Hf'|exact Hu]. apply u32_range.
  - apply runs_seq, (runs_used_set M p n next Harea v b j w); [exact Hb|exact Hj|exact Hw|].
    intros v' Hb' Hf'. eapply Hnext; [|exact Hb'|exact Hf'|exact Hu]. apply u32_range.
Qed.

(** ** Allocation *)

Definition with_counts (b : kheap_block) (first free : Z) : kheap_block :=
  KheapBlock (block_size b) (section_size b) first free (block_start b) (used_sections b) (delimiters b).

(** Writing the counters of the header. *)
Lemma runs_put_first {A} v b x (f : unit → ST S A) Q :
  block_at v b → is_u32 x →
  (∀ v', block_at v' (with_counts b x (free_sections b)) → frame p n v v' → runs v' (f ()) Q) →
  runs v (put store (p ⊕ first_free_section_at) x ≫= f) Q.
Proof.
  intros Hb Hx HQ. pose proof (ba_start _ _ _ _ _ Hb) as Hs.
  apply runs_seq, (runs_word M p n next Harea v b (with_counts b x (free_sections b)) 3 x);
    [done| |done|eapply field_bound; [exact Harea|lia]|done|done|exact HQ].
  apply (field_addr p n Harea _ 3); [done|]. eapply field_bound; [exact Harea|lia].
Qed.

Lemma runs_put_free {A} v b x (f : unit → ST S A) Q :
  block_at v b → is_u32 x →
  (∀ v', block_at v' (with_counts b (first_free_section b) x) → frame p n v v' → runs v' (f ()) Q) →
  runs v (put store (p ⊕ free_sections_at) x ≫= f) Q.
Proof.
  intros Hb Hx HQ. pose proof (ba_start _ _ _ _ _ Hb) as Hs.
  apply runs_seq, (runs_word M p n next Harea v b (with_counts b (first_free_section b) x) 4 x);
    [done| |done|eapply field_bound; [exact Harea|lia]|done|done|exact HQ].
  apply (field_addr p n Harea _ 4); [done|]. eapply field_bound; [exact Harea|lia].
Qed.

(** What the memory holds after a search in a block. *)
Definition malloc_post (v : Z → Z) (b : kheap_block) (r : option (Z * kheap_block * Z)) (r' : option (Z * Z))
    (v' : Z → Z) : Prop :=
  match r with
  | None => r' = None ∧ v' = v
  | Some (addr, b', n_sec) => r' = Some (addr, n_sec) ∧ block_at v' b' ∧ frame p n v v'
  end.

Lemma runs_malloc_in_block v b size align manual r :
  block_at v b → malloc_in_block size align manual b = Ret r →
  runs v (malloc_in_block_at load store size align manual p) (malloc_post v b r).
Proof.
  intros Hb Hr. pose proof (ba_start _ _ _ _ _ Hb) as Hs. unfold malloc_in_block in Hr. unfold malloc_in_block_at.
  apply bind_Ret_inv in Hr as (n_sec & Hn & Hr).
  field 1%nat. field 8%nat. field 6%nat. field 2%nat. eapply runs_pure_bind; [exact Hn|]. field 4%nat.
  change (block_size b ⊖ sizeof_kheap_block ⊖ (bs_length (delimiters b) / 32) ⊗ 4
    ⊖ (bs_length (used_sections b) / 32) ⊗ 4) with (max_free_space b).
  destruct (_ || _); [injection Hr as <-; by apply runs_ret|].
  apply bind_Ret_inv in Hr as (f & Hf & Hr).
  eapply runs_bind; [by apply runs_scan_loop|]. intros ? ? (-> & -> & Hnn).
  destruct f as [st|first_free]; [injection Hr as <-; by apply runs_ret|].
  apply bind_Ret_inv in Hr as (u & Hu & Hr). apply bind_Ret_inv in Hr as (d & Hd & Hr).
  apply bind_Ret_inv in Hr as (addr & Ha & Hr). injection Hr as <-.
  field 2%nat. eapply runs_bind; [by apply (runs_mark _ v b _ _ u)|]. intros _ v1 [Hb1 Hf1].
  apply runs_seq. eapply (runs_delims_set M p n next Harea v1 _ _ d); [exact Hb1|apply u32_range|exact Hd|].
  intros v2 Hb2 Hf2. rewrite Hs in Ha. eapply runs_pure_bind; [exact Ha|].
  field 4%nat.
  eapply runs_put_free; [exact Hb2|apply u32_range|]. intros v3 Hb3 Hf3.
  eapply runs_put_first; [exact Hb3|apply u32_range|]. intros v4 Hb4 Hf4.
  apply runs_ret. split; [done|]. split; [exact Hb4|]. by repeat (eapply frame_trans; [eassumption|]).
Qed.

(** ** Freeing *)

Lemma runs_delimiter_loop v b lo r :
  block_at v b → 0 ≤ lo →
  for_return lo (bs_length (delimiters b)) (λ i _,
    v ← bitset_get_bit (delimiters b) i;
    if truthy v then delims ← bitset_clear_bit (delimiters b) i; Ret (Return (i, delims))
    else Ret (Continue ())) () = Ret r →
  runs v (for_returnST lo (bs_length (delimiters b)) (λ i _,
      v ← bitset_get_at load (p ⊕ delimiters_at) i;
      if truthy v then _ ← bitset_clear_at load store (p ⊕ delimiters_at) i; mret (Return i)
      else mret (Continue ())) ())
    (λ r' v', match r with
       | Return (i, d) => r' = Return i ∧ block_at v' (with_delims b d) ∧ frame p n v v'
       | Continue _ => r' = Continue () ∧ v' = v end).
Proof.
  intros Hb Hlo Hr. eapply (runs_for_return M (λ _ _ v', v' = v)); [exact Hr|done| |].
  - intros i [] [] v' g Hi -> Hg. apply bind_Ret_inv in Hg as (x & Hx & Hg).
    eapply runs_reads; [apply (reads_delims_get v b); [exact Hb|lia|exact Hx]|].
    destruct (truthy x); [|injection Hg as <-; by apply runs_ret].
    apply bind_Ret_inv in Hg as (d & Hd & Hg). injection Hg as <-.
    apply runs_seq, (runs_delims_clear M p n next Harea v b i d); [done|lia|done|].
    intros v1 Hb1 Hf1. apply runs_ret. intros ->. done.
  - by intros [] [] v' -> ->.
Qed.

Lemma runs_free_in_block v b addr b' k :
  block_at v b → 0 < section_size b → free_in_block addr b = Ret (b', k) →
  runs v (free_in_block_at load store addr p) (λ k' v', k' = k ∧ block_at v' b' ∧ frame p n v v').
Proof.
  intros Hb Hsec Hr. pose proof (ba_start _ _ _ _ _ Hb) as Hs. unfold free_in_block in Hr. unfold free_in_block_at.
  apply bind_Ret_inv in Hr as (sect & Hsect & Hr). apply bind_Ret_inv in Hr as (x & Hx & Hr).
  apply bind_Ret_inv in Hr as (t & Ht & Hr). apply bind_Ret_inv in Hr as (r & Hloop & Hr).
  field 5%nat. field 2%nat. eapply runs_pure_bind; [exact Hsect|].
  assert (H0 : 0 ≤ sect).
  { rewrite udiv_pos in Hsect by done. injection Hsect as <-. apply Z.div_pos; [apply u32_range|done]. }
  eapply runs_reads; [by apply (reads_used_get v b)|]. eapply runs_pure_bind; [exact Ht|]. field 8%nat.
  eapply runs_bind; [by apply (runs_delimiter_loop v b sect r)|]. intros r' v1 Hr'.
  set (last := match r with Return p => p.1 | Continue _ => 0 end).
  set (d := match r with Return p => p.2 | Continue _ => delimiters b end).
  assert (Hpost : (match r' with Return i => i | Continue _ => 0 end) = last ∧
    block_at v1 (with_delims b d) ∧ frame p n v v1).
  { destruct r as [c|[i d0]].
    - destruct Hr' as [-> ->]. split_and!; [done| |done]. by destruct b.
    - by destruct Hr' as (-> & Hb1 & Hf1). }
  destruct Hpost as (-> & Hb1 & Hf1).
  replace (match r with Return p => p | Continue _ => (0, delimiters b) end) with (last, d) in Hr by (by destruct r as [|[]]).
  apply bind_Ret_inv in Hr as (t' & Ht' & Hr). apply bind_Ret_inv in Hr as (u & Hu & Hr). injection Hr as <- <-.
  eapply runs_pure_bind; [exact Ht'|]. apply runs_seq.
  eapply (runs_for_range M (λ u' v', block_at v' (with_used (with_delims b d) u') ∧ frame p n v v'));
    [exact Hu| |intros i a v' a1 Hi [Hb' Hf'] Ha|intros v2 [Hb2 Hf2]].
  - split; [|done]. by destruct b.
  - eapply (runs_used_clear M p n next Harea v' _ i a1); [exact Hb'|lia|exact Ha|].
    intros v2 Hb2 Hf2. split; [by destruct b|]. by eapply frame_trans.
  - eapply runs_put_first; [exact Hb2| |].
    { rewrite udiv_pos in Hsect by done. injection Hsect as <-.
      pose proof (u32_range (addr - block_start b)) as Hr1. unfold is_u32 in *.
      pose proof (Z.div_le_upper_bound (addr ⊖ block_start b) (section_size b) (2 ^ 32 - 1) Hsec). nia. }
    intros v3 Hb3 Hf3. field 4%nat.
    eapply runs_put_free; [exact Hb3|apply u32_range|]. intros v4 Hb4 Hf4.
    apply runs_ret. split; [done|]. split; [exact Hb4|]. by repeat (eapply frame_trans; [eassumption|]).
Qed.
End one_block.

(** ** New blocks *)

(** The globals of both models agree. *)
Record same_globals (mh : mem_heap) (h : kheap) : Prop := SameGlobals {
  sg_section : mh_section_size mh = default_section_size h;
  sg_min : mh_min_size mh = min_block_size h;
  sg_flags : mh_flags mh = kheap_flags h;
  sg_effective : mh_effective mh = effective_size h;
  sg_total : mh_total mh = total_free_sections h
}.

(** [memset] on words. *)
Lemma runs_clear v start k :
  0 ≤ k → start + 4 * k < 2 ^ 32 → 0 < start → (∀ i, 0 ≤ i < k → accessible M (start + 4 * i)) →
  runs v (for_rangeST 0 k (λ i, put store (start ⊕ 4 ⊗ i) 0))
    (λ _ v', array_at v' start (replicate (Z.to_nat k) 0) ∧ frame start (Z.to_nat k) v v').
Proof.
  intros Hk He Hs Ha.
  set (count := λ i j, if (i =? j) && (i <? k) then Ret (j + 1) else Fault).
  assert (Hrun : for_range 0 k count 0 = Ret k).
  { enough (H : wp (for_range 0 k count 0) (λ j, j = k)) by (by apply wp_inv in H as (? & -> & ->)).
    apply (wp_for_range (λ i j, j = i)); [done|done|]. intros i j Hi ->. unfold count.
    rewrite Z.eqb_refl. destruct (Z.ltb_spec i k); [done|lia]. }
  eapply (runs_for_range M (λ j v', array_at v' start (replicate (Z.to_nat j) 0) ∧
    frame start (Z.to_nat k) v v')); [exact Hrun|done| |done].
  intros i j v' j' Hi [Hz Hf] Hj. unfold count in Hj.
  destruct (Z.eqb_spec i j) as [<-|]; [|done]. destruct (Z.ltb_spec i k); [|done]. injection Hj as <-.
  rewrite (u32_small (4 * i)), (u32_small (start + 4 * i)) by u32_lia.
  replace (start + 4 * i) with (start + 4 * Z.of_nat (Z.to_nat i)) by lia.
  apply runs_put; [|done|split].
  - rewrite Z2Nat.id by lia. apply Ha. lia.
  - intros m x Hm. unfold upd.
    destruct (Z.eqb_spec (start + 4 * Z.of_nat m) (start + 4 * Z.of_nat (Z.to_nat i))).
    + apply lookup_replicate in Hm as [-> _]. done.
    + apply Hz. apply lookup_replicate in Hm as [-> Hm]. apply lookup_replicate. split; [done|lia].
  - eapply frame_trans; [exact Hf|]. apply upd_frame. lia.
Qed.

Section new_block.
Context (P : Z) (f : Z) (HP : 1 ≤ P) (Hf : reserved_pages ≤ f) (Hend : f + P ≤ n_kernel_pages).
Let p := f * PAGE_SIZE.
Let n := Z.to_nat (10 + 16 * P).
Context (Harea : area M p n).

(** The block before any section is marked; two of its counters are whatever
    was in memory. *)
Definition empty_block (first free : Z) : kheap_block :=
  let zero := Bitset (256 * P) (replicate (Z.to_nat (8 * P)) 0) in
  KheapBlock (P * PAGE_SIZE) SECTION_SIZE_DEFAULT first free p zero zero.

(** [bitset_init]: both fields and all words. *)
Lemma runs_bitset_init v b start :
  0 < b → b + 4 < 2 ^ 32 → accessible M b → accessible M (b + 4) → 0 < start → start + 32 * P < 2 ^ 32 →
  (∀ i, 0 ≤ i < 8 * P → accessible M (start + 4 * i)) →
  b + 8 ≤ start →
  runs v (bitset_init_at store b start (256 * P)) (λ _ v', v' b = 256 * P ∧ v' (b + 4) = start ∧
    array_at v' start (replicate (Z.to_nat (8 * P)) 0) ∧
    ∀ a, a ≠ b → a ≠ b + 4 → ¬ (start ≤ a < start + 32 * P) → v' a = v a).
Proof.
  intros Hb Hb4 Hab Hab4 Hs Hse Hacc Hbs. change n_kernel_pages with 262143 in Hend. change reserved_pages with 380 in Hf.
  unfold bitset_init_at, bs_start_at, bs_length_at. rewrite (u32_small (b + 4)), (u32_small (b + 0)), Z.add_0_r by u32_lia.
  apply runs_seq, runs_put; [done|u32_lia|]. apply runs_seq, runs_put; [done|u32_lia|].
  rewrite DIV_ROUND_UP_ceil by lia.
  replace (ceil_div (256 * P) 32) with (8 * P) by (unfold ceil_div; div_lia).
  eapply runs_pure_bind; [done|].
  eapply runs_mono; [apply runs_clear; [lia|lia|lia|exact Hacc]|].
  intros _ v' [Hz Hfr].
  assert (Hother : ∀ a, ¬ (start ≤ a < start + 32 * P) →
    v' a = upd (upd v (b + 4) start) b (256 * P) a) by (intros a Ha; apply Hfr; lia).
  split_and!; [|  |exact Hz|].
  - rewrite Hother by lia. unfold upd. by rewrite Z.eqb_refl.
  - rewrite Hother by lia. unfold upd. rewrite Z.eqb_refl. destruct (Z.eqb_spec (b + 4) b); [lia|done].
  - intros a H1 H2 H3. rewrite Hother by done. unfold upd.
    destruct (Z.eqb_spec a b); [done|]. by destruct (Z.eqb_spec a (b + 4)).
Qed.

(** Addresses of the area. *)
Lemma area_access a k : a = p + 4 * k → 0 ≤ k < 10 + 16 * P → accessible M a.
Proof.
  intros -> Hk. destruct Harea as [_ _ _ Ha]. specialize (Ha (Z.to_nat k)). rewrite Z2Nat.id in Ha by lia.
  apply Ha. unfold n. lia.
Qed.

(** The words of an empty block, from the writes that make it. *)
Lemma empty_block_at v :
  (∀ a, p + 12 ≤ a < p + 20 → is_u32 (v a)) → v p = 0 → v (p + 4) = P * PAGE_SIZE → v (p + 8) = SECTION_SIZE_DEFAULT →
  v (p + 20) = p → v (p + 24) = 256 * P → v (p + 28) = p + 40 → v (p + 32) = 256 * P → v (p + 36) = p + 40 + 32 * P →
  array_at v (p + 40) (replicate (Z.to_nat (8 * P)) 0) →
  array_at v (p + 40 + 32 * P) (replicate (Z.to_nat (8 * P)) 0) →
  block_at p n 0 v (empty_block (v (p + 12)) (v (p + 16))).
Proof.
  change n_kernel_pages with 262143 in Hend. change reserved_pages with 380 in Hf.
  intros Hu H0 H1 H2 H5 H6 H7 H8 H9 Hus Hds.
  assert (Hp : 0 < p ∧ p + 40 + 32 * P < 2 ^ 32) by (unfold p, PAGE_SIZE; lia).
  split; [done| | |]; unfold layout, header, empty_block, sizeof_kheap_block;
    cbn [block_start block_size section_size first_free_section free_sections used_sections delimiters
         bs_length bs_start]; rewrite ?length_app, ?length_replicate.
  - simpl. unfold n. lia.
  - apply array_at_app; [|apply array_at_app].
    + intros i x Hi.
      destruct i as [|[|[|[|[|[|[|[|[|[|i]]]]]]]]]]; [injection Hi as <-..|done]; simpl Z.of_nat;
        rewrite ?Z.mul_0_r, ?Z.add_0_r; try done.
      transitivity (v (p + 36)); [done|]. rewrite H9. lia.
    + done.
    + rewrite length_replicate. intros i x Hi. rewrite <- (Hds i x Hi). f_equal. simpl. lia.
  - apply Forall_app. split; [|apply Forall_app; split; by apply Forall_replicate].
    assert (Hz : ∀ a, 0 ≤ a < 2 ^ 32 → is_u32 a) by done. unfold PAGE_SIZE.
    repeat (apply Forall_cons; split; [first [apply Hu; lia|apply Hz; lia|done]|]). by apply Forall_nil.
Qed.

(** The statements of [kheap_add_block] up to the two bitsets. *)
Lemma runs_header {A} v (k : unit → ST S A) Q :
  (∀ v' first free, block_at p n 0 v' (empty_block first free) → frame p n v v' → runs v' (k ()) Q) →
  runs v (_ ← put store (p ⊕ next_at) 0;
          _ ← put store (p ⊕ block_size_at) (P * PAGE_SIZE);
          _ ← put store (p ⊕ section_size_at) SECTION_SIZE_DEFAULT;
          _ ← put store (p ⊕ start_at) p;
          _ ← bitset_init_at store (p ⊕ used_sections_at) (p ⊕ sizeof_kheap_block) (256 * P);
          bitset_init_at store (p ⊕ delimiters_at) (p ⊕ sizeof_kheap_block ⊕ 32 * P) (256 * P) ≫= k) Q.
Proof.
  change n_kernel_pages with 262143 in Hend. change reserved_pages with 380 in Hf. intros HQ.
  assert (Hp : 0 < p ∧ p + 4096 * P < 2 ^ 30) by (unfold p, PAGE_SIZE; lia).
  unfold next_at, block_size_at, section_size_at, start_at, used_sections_at, delimiters_at, sizeof_kheap_block.
  rewrite Z.add_0_r.
  rewrite (u32_small p), (u32_small (p + 4)), (u32_small (p + 8)), (u32_small (p + 20)), (u32_small (p + 24)),
    (u32_small (p + 32)), (u32_small (p + 40)), (u32_small (p + 40 + 32 * P)) by u32_lia.
  apply runs_seq, runs_put; [by apply (area_access _ 0); lia|done|].
  apply runs_seq, runs_put; [by apply (area_access _ 1); lia|unfold PAGE_SIZE; u32_lia|].
  apply runs_seq, runs_put; [by apply (area_access _ 2); lia|done|].
  apply runs_seq, runs_put; [by apply (area_access _ 5); lia|u32_lia|]. set (v4 := upd _ _ _).
  eapply runs_bind; [apply runs_bitset_init;
    [lia|lia|by apply (area_access _ 6); lia|by apply (area_access _ 7); lia|lia|lia| |lia]|].
  { intros i Hi. apply (area_access _ (10 + i)); lia. }
  intros [] v5 (H6 & H7 & Hu & Hf5).
  eapply runs_bind; [apply runs_bitset_init;
    [lia|lia|by apply (area_access _ 8); lia|by apply (area_access _ 9); lia|lia|lia| |lia]|].
  { intros i Hi. apply (area_access _ (10 + 8 * P + i)); lia. }
  intros [] v6 (H8 & H9 & Hd & Hf6). apply runs_words. intros Hu6.
  assert (Hlow : ∀ a, p ≤ a < p + 24 → v6 a = v4 a) by (intros a Hla; rewrite Hf6, Hf5 by lia; done).
  apply (HQ v6 (v6 (p + 12)) (v6 (p + 16))).
  - apply empty_block_at; try done.
    1-4: rewrite Hlow by lia; unfold v4, upd;
      repeat match goal with |- context [?x =? ?y] => destruct (Z.eqb_spec x y); [try done; lia|] end; lia || done.
    + rewrite Hf6 by lia. done.
    + rewrite Hf6 by lia. rewrite <- H7. f_equal; lia.
    + rewrite <- H9. f_equal; lia.
    + intros i x Hi. rewrite <- (Hu i x Hi). apply lookup_lt_Some in Hi. rewrite length_replicate in Hi. apply Hf6; lia.
  - intros a Ha. unfold n in Ha. rewrite Hf6, Hf5 by lia. unfold v4, upd.
    repeat match goal with |- context [?x =? ?y] => destruct (Z.eqb_spec x y); [lia|] end. done.
Qed.

(** [kheap_add_block]: the new block is in memory, in front of the old list. *)
Lemma runs_add_block v mh heap heap' :
  same_globals mh heap → is_u32 (mh_first mh) →
  kheap_add_block heap p (P * PAGE_SIZE) SECTION_SIZE_DEFAULT = Ret heap' →
  runs v (kheap_add_block_at load store mh p (P * PAGE_SIZE) SECTION_SIZE_DEFAULT) (λ mh' v',
    ∃ b, first heap' = b :: first heap ∧ block_at p n (mh_first mh) v' b ∧ frame p n v v' ∧
      mh_first mh' = p ∧ same_globals mh' heap').
Proof.
  change n_kernel_pages with 262143 in Hend. change reserved_pages with 380 in Hf.
  intros [G1 G2 G3 G4 G5] Hnext Hadd. unfold kheap_add_block in Hadd. unfold kheap_add_block_at.
  assert (Hc1 : DIV_ROUND_UP (P * PAGE_SIZE) (SECTION_SIZE_DEFAULT ⊗ 32) = Ret (8 * P)).
  { change (SECTION_SIZE_DEFAULT ⊗ 32) with 512. unfold PAGE_SIZE.
    rewrite DIV_ROUND_UP_ceil by lia. f_equal. unfold ceil_div. div_lia. }
  assert (Hc2 : DIV_ROUND_UP (P * PAGE_SIZE) SECTION_SIZE_DEFAULT = Ret (256 * P)).
  { unfold SECTION_SIZE_DEFAULT, PAGE_SIZE. rewrite DIV_ROUND_UP_ceil by lia. f_equal. unfold ceil_div. div_lia. }
  assert (Hsz : 8 * P ⊗ 4 = 32 * P) by (rewrite u32_small by u32_lia; lia).
  assert (Hc3 : DIV_ROUND_UP (sizeof_kheap_block ⊕ 32 * P ⊗ 2) SECTION_SIZE_DEFAULT = Ret (4 * P + 3)).
  { unfold SECTION_SIZE_DEFAULT, sizeof_kheap_block. rewrite (u32_small (32 * P * 2)), u32_small by u32_lia.
    rewrite DIV_ROUND_UP_ceil by lia. f_equal. unfold ceil_div. div_lia. }
  assert (Hinit : bitset_init (256 * P) = Ret (Bitset (256 * P) (replicate (Z.to_nat (8 * P)) 0))).
  { unfold bitset_init. rewrite DIV_ROUND_UP_ceil by lia.
    by replace (ceil_div (256 * P) 32) with (8 * P) by (unfold ceil_div; div_lia). }
  apply bind_Ret_inv in Hadd as (t1 & Ht1 & Hadd). apply bind_Ret_inv in Hadd as (t2 & Ht2 & Hadd).
  rewrite Hc1, Ret_bind, Hc2, Ret_bind, Hsz in Hadd. apply bind_Ret_inv in Hadd as (t3 & Ht3 & Hadd).
  rewrite Hinit, !Ret_bind, Hc3, Ret_bind in Hadd. apply bind_Ret_inv in Hadd as (u & Hu & Hadd).
  injection Hadd as <-.
  eapply runs_pure_bind; [exact Ht1|]. eapply runs_pure_bind; [exact Ht2|].
  eapply runs_pure_bind; [exact Hc1|]. eapply runs_pure_bind; [exact Hc2|]. rewrite Hsz.
  eapply runs_pure_bind; [exact Ht3|].
  apply runs_header. intros v1 first free Hb1 Hf1. eapply runs_pure_bind; [exact Hc3|].
  apply runs_seq.
  eapply (runs_for_range M (λ u' v', block_at p n 0 v' (with_used (empty_block first free) u') ∧ frame p n v v'));
    [exact Hu|done|intros i u1 v2 u2 Hi [Hb2 Hf2] Hu2|intros v2 [Hb2 Hf2]].
  - eapply (runs_used_set M p n 0 Harea v2 _ i u2); [exact Hb2|lia|exact Hu2|].
    intros v3 Hb3 Hf3. split; [done|]. by eapply frame_trans.
  - eapply (runs_put_free p n 0 Harea); [exact Hb2|apply u32_range|]. intros v3 Hb3 Hf3.
    eapply (runs_put_first p n 0 Harea); [exact Hb3|u32_lia|]. intros v4 Hb4 Hf4.
    assert (Hp : 0 < p ∧ p + 4096 * P < 2 ^ 30) by (unfold p, PAGE_SIZE; lia).
    apply runs_seq, (runs_next M p n 0 (mh_first mh) v4 _ _ _ Harea Hb4); [|exact Hnext|].
    + unfold next_at. rewrite Z.add_0_r. apply u32_small. u32_lia.
    + intros v5 Hb5 Hf5. apply runs_ret. eexists. split; [done|]. split; [exact Hb5|].
      split; [by repeat (eapply frame_trans; [eassumption|])|]. split; [done|].
      split; cbn; congruence.
Qed.
End new_block.
End blocks.
