(* ===== verification/HeapWords.v ===== *)
(** The heap in memory, as a whole: the list of blocks linked through the
    words of mapped pages, the walks over it, expansion, [kheap_malloc] and
    [kheap_free].  Each of them does to memory what [Kheap.v] does to the list of
    records, and keeps every word of a mapped page that is not metadata of
    the heap. *)
From stdpp Require Import base numbers list.
From Stdlib Require Import ZArith Lia.
From S2P Require Import Prelude Kernel Bitset Alloc Asa Machine KPaging Kheap KheapBlock KheapSpec KheapProps.
From S2P Require Import Layout HeapMemory HeapLayout HeapBlocks.

Open Scope Z_scope.

(** * The list of blocks *)

(** The words of a block's header and bitsets. *)
Definition block_words (b : kheap_block) : nat := Z.to_nat (10 + 16 * (block_size b / PAGE_SIZE)).

Definition in_metadata (bs : list kheap_block) (a : Z) : Prop :=
  ∃ b, b ∈ bs ∧ block_start b ≤ a < block_start b + 4 * Z.of_nat (block_words b).

Lemma in_metadata_cons b bs a :
  in_metadata (b :: bs) a ↔
  block_start b ≤ a < block_start b + 4 * Z.of_nat (block_words b) ∨ in_metadata bs a.
Proof.
  unfold in_metadata. setoid_rewrite elem_of_cons. split.
  - intros (c & [->|Hc] & Ha); [by left|right; by exists c].
  - intros [Ha|(c & Hc & Ha)]; [by exists b; auto|exists c; auto].
Qed.

(** Outside the metadata of [bs] nothing has changed. *)
Definition metadata_frame (bs : list kheap_block) (v v' : Z → Z) : Prop :=
  ∀ a, ¬ in_metadata bs a → v' a = v a.

(** The metadata of two blocks does not overlap. *)
Definition apart (b c : kheap_block) : Prop :=
  block_start b + 4 * Z.of_nat (block_words b) ≤ block_start c ∨
  block_start c + 4 * Z.of_nat (block_words c) ≤ block_start b.

Section list_at.
Context (M : Z → option Z) (v : Z → Z).

(** The list from address [ptr] on holds the blocks [bs]. *)
Fixpoint list_at (ptr : Z) (bs : list kheap_block) : Prop :=
  match bs with
  | [] => ptr = 0
  | b :: bs' =>
      ptr = block_start b ∧ area M ptr (block_words b) ∧
      ∃ next, block_at ptr (block_words b) next v b ∧ list_at next bs'
  end.
End list_at.

Lemma block_at_agree p n next v v' b :
  block_at p n next v b → (∀ i : nat, (i < n)%nat → v' (p + 4 * Z.of_nat i) = v (p + 4 * Z.of_nat i)) →
  block_at p n next v' b.
Proof.
  intros [Hs Hl Hv Hu] Ha. split; [done|done| |done]. intros i x Hi. rewrite Ha; [by apply Hv|].
  rewrite <- Hl. by eapply lookup_lt_Some.
Qed.

(** The list stays where its words stay. *)
Lemma list_at_agree M M' v v' ptr bs :
  list_at M v ptr bs →
  (∀ a, in_metadata bs a → accessible M a → accessible M' a ∧ v' a = v a) →
  list_at M' v' ptr bs.
Proof.
  revert ptr. induction bs as [|b bs IH]; intros ptr; simpl; [done|].
  intros (-> & [Ha1 Ha2 Ha3 Ha4] & next & Hb & Hbs) Hag.
  assert (Hw : ∀ i : nat, (i < block_words b)%nat → accessible M' (block_start b + 4 * Z.of_nat i) ∧
    v' (block_start b + 4 * Z.of_nat i) = v (block_start b + 4 * Z.of_nat i)).
  { intros i Hi. apply Hag; [|by apply Ha4]. apply in_metadata_cons. left. lia. }
  split; [done|]. split; [split; [done|done|done|]; intros i Hi; by apply Hw|].
  exists next. split; [eapply block_at_agree; [exact Hb|]; intros i Hi; by apply Hw|].
  apply IH; [done|]. intros a Hin. apply Hag. apply in_metadata_cons. by right.
Qed.

Lemma list_at_frame M v v' ptr bs b n :
  list_at M v ptr bs → Forall (apart b) bs → (n ≤ block_words b)%nat → frame (block_start b) n v v' →
  list_at M v' ptr bs.
Proof.
  intros Hl Hap Hn Hf. eapply list_at_agree; [exact Hl|]. intros a (c & Hc & Ha) Hacc. split; [done|].
  apply Hf. pose proof (proj1 (Forall_forall _ _) Hap c Hc) as [|]; lia.
Qed.

(** The search and the release inside a block keep its place. *)
Lemma malloc_in_block_frame size align manual b addr b' n :
  malloc_in_block size align manual b = Ret (Some (addr, b', n)) → same_frame b b'.
Proof.
  unfold malloc_in_block. intros (k & _ & H)%bind_Ret_inv. destruct (_ || _); [done|].
  apply bind_Ret_inv in H as ([|f] & _ & H); [done|].
  apply bind_Ret_inv in H as (u & _ & H). apply bind_Ret_inv in H as (d & _ & H).
  apply bind_Ret_inv in H as (x & _ & H). injection H as <- <- <-. done.
Qed.

Lemma free_in_block_frame addr b b' n : free_in_block addr b = Ret (b', n) → same_frame b b'.
Proof.
  unfold free_in_block. intros (k & _ & H)%bind_Ret_inv.
  apply bind_Ret_inv in H as (x & _ & H). apply bind_Ret_inv in H as (t & _ & H).
  apply bind_Ret_inv in H as (r & _ & H).
  destruct (match r with Return p => p | Continue _ => (0, delimiters b) end) as [last d].
  apply bind_Ret_inv in H as (t' & _ & H). apply bind_Ret_inv in H as (u & _ & H).
  injection H as <- <-. done.
Qed.

Lemma same_frame_words b b' : same_frame b b' → block_start b' = block_start b ∧ block_words b' = block_words b.
Proof. intros [H1 H2]. unfold block_words. by rewrite H2. Qed.

Lemma metadata_frame_cons b bs v v' : metadata_frame bs v v' → metadata_frame (b :: bs) v v'.
Proof. intros H a Ha. apply H. intros Hin. apply Ha, in_metadata_cons. by right. Qed.

Lemma metadata_frame_head b bs v v' : frame (block_start b) (block_words b) v v' → metadata_frame (b :: bs) v v'.
Proof. intros H a Ha. apply H. intros Hin. apply Ha, in_metadata_cons. by left. Qed.

(** ** The blocks of a heap *)

Lemma block_words_le b : block_ok b → 4 * Z.of_nat (block_words b) ≤ block_size b.
Proof.
  intros Hb. pose proof (block_bounds b Hb) as (Hn & Hs & HP & _). unfold block_words, PAGE_SIZE.
  lia.
Qed.

Lemma blocks_apart bs : Forall block_ok bs → ForallOrdPairs disjoint_blocks bs → ForallOrdPairs apart bs.
Proof.
  intros Hok. induction 1 as [|b bs Hb Hbs IH]; [constructor|]. inversion Hok as [|? ? Hbo Hbso]; subst.
  constructor; [|by apply IH]. apply Forall_forall. intros c Hc.
  pose proof (proj1 (Forall_forall _ _) Hb c Hc) as Hd. pose proof (proj1 (Forall_forall _ _) Hbso c Hc) as Hco.
  pose proof (block_words_le b Hbo). pose proof (block_words_le c Hco).
  unfold disjoint_blocks, block_end, apart in *. lia.
Qed.

(** Every block has a page of its own: the walks have fuel for all of them. *)
Lemma blocks_fuel bs : Forall block_ok bs → ForallOrdPairs disjoint_blocks bs → (length bs < block_fuel)%nat.
Proof.
  intros Hok Hdis.
  assert (Hnd : NoDup ((λ b, block_start b / PAGE_SIZE) <$> bs)).
  { revert Hok. induction Hdis as [|b bs Hb Hbs IH]; intros Hok; simpl; [constructor|].
    inversion Hok as [|? ? Hbo Hbso]; subst. constructor; [|by apply IH].
    intros (c & Hc & Hin)%list_elem_of_fmap.
    pose proof (proj1 (Forall_forall _ _) Hb c Hin) as Hd. pose proof (proj1 (Forall_forall _ _) Hbso c Hin) as Hco.
    destruct (bo_start _ Hbo) as [_ H1]. destruct (bo_start _ Hco) as [_ H2].
    destruct (bo_size _ Hbo) as [H3 _]. destruct (bo_size _ Hco) as [H4 _].
    unfold disjoint_blocks, block_end, PAGE_SIZE in *. clear - Hc Hd H1 H2 H3 H4. div_lia. }
  assert (Hsub : (λ b, block_start b / PAGE_SIZE) <$> bs ⊆ seqZ 0 n_kernel_pages).
  { intros q (b & -> & Hin)%list_elem_of_fmap. apply elem_of_seqZ.
    pose proof (proj1 (Forall_forall _ _) Hok b Hin) as Hb. destruct (bo_start _ Hb) as [H1 _].
    destruct (bo_size _ Hb) as [H3 _]. pose proof (bo_end _ Hb) as H4. unfold block_end in H4.
    change (reserved_pages * PAGE_SIZE) with 1556480 in H1.
    change (n_kernel_pages * PAGE_SIZE) with 1073737728 in H4. change n_kernel_pages with 262143.
    unfold PAGE_SIZE. clear - H1 H3 H4. div_lia. }
  pose proof (NoDup_submseteq _ _ Hnd (λ x Hx, Hsub x Hx)) as Hlen%submseteq_length.
  rewrite length_fmap, length_seqZ in Hlen. unfold block_fuel.
  change (KVIRT_MAX / PAGE_SIZE) with n_kernel_pages. lia.
Qed.

Section words.
Context {S : Type} {ki : kpaging_interface S} {inv : S → Prop} {mapped : S → Z → option Z}.
Context {load : Z → S → outcome (Z * S)} {store : Z → Z → S → outcome S} {word : S → Z → Z}.
Context `{Hmem : !PagedMemory ki inv mapped load store word}.

Section walks.
Context (M : Z → option Z).
Local Abbreviation runs := (@runs S inv mapped word M _).
Local Abbreviation list_at := (list_at M).

Lemma list_at_head v ptr b bs :
  list_at v ptr (b :: bs) →
  truthy ptr = true ∧ ptr = block_start b ∧ area M ptr (block_words b) ∧
  ∃ next, block_at ptr (block_words b) next v b ∧ list_at v next bs.
Proof.
  intros (-> & Ha & Hb). split; [|done]. destruct Ha. unfold truthy.
  destruct (Z.eqb_spec (block_start b) 0); [lia|done].
Qed.

(** Reading a field of the first block. *)
Lemma head_field {A} k off v b next x (f : Z → ST S A) Q :
  area M (block_start b) (block_words b) → block_at (block_start b) (block_words b) next v b →
  off = 4 * Z.of_nat k → (k < 10)%nat → layout b next !! k = Some x →
  runs v (f x) Q → runs v (get load (block_start b ⊕ off) ≫= f) Q.
Proof.
  intros Ha Hb -> Hk Hx Hf. eapply (bind_field M _ _ _ Ha); [exact Hb| |exact Hx|exact Hf].
  eapply field_addr; [exact Ha|done|]. by eapply field_bound.
Qed.

(** The head of the list changes, the rest stays. *)
Lemma list_at_replace v v' b b' bs next :
  area M (block_start b) (block_words b) → same_frame b b' → Forall (apart b) bs →
  block_at (block_start b) (block_words b) next v' b' → frame (block_start b) (block_words b) v v' →
  list_at v next bs → list_at v' (block_start b) (b' :: bs).
Proof.
  intros Ha Hsame Hap Hb Hf Hl. destruct (same_frame_words _ _ Hsame) as [Hs Hw].
  cbn [HeapWords.list_at]. rewrite Hs, Hw. split; [done|]. split; [done|]. exists next. split; [done|].
  eapply list_at_frame; [exact Hl|exact Hap|reflexivity|exact Hf].
Qed.

(** The rest of the list changes, the head stays. *)
Lemma list_at_skip v v' b bs bs' next :
  area M (block_start b) (block_words b) → block_at (block_start b) (block_words b) next v b →
  Forall (apart b) bs → metadata_frame bs v v' → list_at v' next bs' →
  list_at v' (block_start b) (b :: bs').
Proof.
  intros Ha Hb Hap Hf Hl. cbn [HeapWords.list_at]. split; [done|]. split; [done|]. exists next.
  split; [|done]. eapply block_at_agree; [exact Hb|]. intros i Hi. apply Hf. intros (c & Hc & Hin).
  pose proof (proj1 (Forall_forall _ _) Hap c Hc) as [|]; lia.
Qed.

(** What a walk that takes sections leaves. *)
Definition walk_post {A} (v : Z → Z) (ptr : Z) (bs : list kheap_block) (r : option (list kheap_block)) (x : option A)
    (r' : option A) (v' : Z → Z) : Prop :=
  r' = x ∧ metadata_frame bs v v' ∧ list_at v' ptr (default bs r).

Lemma runs_malloc_walk fuel v ptr bs size align manual r :
  list_at v ptr bs → ForallOrdPairs apart bs → (length bs < fuel)%nat →
  malloc_in_blocks size align manual bs = Ret r →
  runs v (malloc_walk_at load store fuel size align manual ptr)
    (walk_post v ptr bs (snd ∘ fst <$> r) ((λ p, (p.1.1, p.2)) <$> r)).
Proof.
  revert v ptr bs r. induction fuel as [|fuel IH]; intros v ptr bs r Hl Hap Hfuel Hr; [lia|].
  cbn [malloc_walk_at]. destruct bs as [|b bs].
  { simpl in Hr. injection Hr as <-. rewrite (Hl : ptr = 0). by apply runs_ret. }
  destruct (list_at_head _ _ _ _ Hl) as (-> & -> & Ha & next & Hb & Hbs).
  inversion Hap as [|? ? Hap1 Hap2]; subst. cbn [malloc_in_blocks] in Hr.
  apply bind_Ret_inv in Hr as (r1 & Hr1 & Hr).
  eapply runs_bind; [by eapply (runs_malloc_in_block M _ _ _ Ha)|].
  intros r1' v' Hpost. destruct r1 as [[[addr b'] n]|]; simpl in Hpost.
  - destruct Hpost as (-> & Hb' & Hf). injection Hr as <-. apply runs_ret. split; [done|].
    split; [by apply metadata_frame_head|].
    eapply list_at_replace; [done|by eapply malloc_in_block_frame|done|done|done|done].
  - destruct Hpost as (-> & ->). apply bind_Ret_inv in Hr as (r2 & Hr2 & Hr).
    eapply (head_field 0 next_at); [exact Ha|exact Hb|done|lia|done|].
    eapply runs_mono; [eapply (IH v next bs r2); [done|done|simpl in Hfuel; lia|done]|].
    intros r2' v2 (-> & Hf2 & Hl2).
    assert (Hback : ∀ bs', list_at v2 next bs' → list_at v2 (block_start b) (b :: bs')).
    { intros bs' Hl'. by eapply list_at_skip. }
    destruct r2 as [[[addr bs'] n]|]; injection Hr as <-;
      (split; [done|]; split; [by apply metadata_frame_cons|]; by apply Hback).
Qed.

Lemma runs_free_walk fuel v ptr bs addr r :
  list_at v ptr bs → ForallOrdPairs apart bs → (length bs < fuel)%nat →
  Forall (λ b, 0 < section_size b) bs → free_in_blocks addr bs = Ret r →
  runs v (free_walk_at load store fuel addr ptr) (walk_post v ptr bs (fst <$> r) (snd <$> r)).
Proof.
  revert v ptr bs r. induction fuel as [|fuel IH]; intros v ptr bs r Hl Hap Hfuel Hsec Hr; [lia|].
  cbn [free_walk_at]. destruct bs as [|b bs].
  { simpl in Hr. injection Hr as <-. rewrite (Hl : ptr = 0). by apply runs_ret. }
  destruct (list_at_head _ _ _ _ Hl) as (-> & -> & Ha & next & Hb & Hbs).
  inversion Hap as [|? ? Hap1 Hap2]; subst. inversion Hsec as [|? ? Hs1 Hs2]; subst.
  cbn [free_in_blocks] in Hr.
  eapply (head_field 5 start_at); [exact Ha|exact Hb|done|lia|done|].
  eapply (head_field 1 block_size_at); [exact Ha|exact Hb|done|lia|done|].
  destruct (_ && _).
  - apply bind_Ret_inv in Hr as ([b' n] & Hr1 & Hr). injection Hr as <-.
    eapply runs_bind; [by eapply (runs_free_in_block M _ _ _ Ha)|]. intros n' v' (-> & Hb' & Hf).
    apply runs_ret. split; [done|]. split; [by apply metadata_frame_head|].
    eapply list_at_replace; [done|by eapply free_in_block_frame|done|done|done|done].
  - apply bind_Ret_inv in Hr as (r2 & Hr2 & Hr).
    eapply (head_field 0 next_at); [exact Ha|exact Hb|done|lia|done|].
    eapply runs_mono; [eapply (IH v next bs r2); [done|done|simpl in Hfuel; lia|done|done]|].
    intros r2' v2 (-> & Hf2 & Hl2).
    assert (Hback : ∀ bs', list_at v2 next bs' → list_at v2 (block_start b) (b :: bs')).
    { intros bs' Hl'. by eapply list_at_skip. }
    destruct r2 as [[bs' n]|]; injection Hr as <-;
      (split; [done|]; split; [by apply metadata_frame_cons|]; by apply Hback).
Qed.
End walks.

(** ** States *)

(** What was mapped stays mapped, and its words outside [X] keep their
    contents. *)
Record keeps (X : Z → Prop) (s s' : S) : Prop := Keeps {
  kp_mapped : ∀ q, client_page q → mapped s q ≠ None → mapped s' q = mapped s q;
  kp_word : ∀ a, client_word a → mapped s (a / PAGE_SIZE) ≠ None → ¬ X a → word s' a = word s a
}.

Lemma keeps_refl X s : keeps X s s.
Proof. done. Qed.

Lemma keeps_trans (X : Z → Prop) s1 s2 s3 : keeps X s1 s2 → keeps X s2 s3 → keeps X s1 s3.
Proof.
  intros [H1 H2] [H3 H4]. split.
  - intros q Hq Hm. rewrite H3, H1; [done|done|done|done|]. by rewrite H1.
  - intros a Ha Hm HX. rewrite H4, H2; [done|done|done|done|done| |done]. by rewrite H1 by (done || apply Ha).
Qed.

Lemma keeps_weaken (X Y : Z → Prop) s s' :
  keeps X s s' → (∀ a, mapped s (a / PAGE_SIZE) ≠ None → X a → Y a) → keeps Y s s'.
Proof. intros [H1 H2] HXY. split; [done|]. intros a Ha Hm HY. apply H2; [done|done|]. auto. Qed.

Lemma same_but_keeps (x : Z → Prop) s s' :
  same_memory_but mapped word x s s' → (∀ q, x q → mapped s q = None) → keeps (λ _, False) s s'.
Proof.
  intros [H1 H2] Hx. split.
  - intros q Hq Hm. apply H1; [done|]. intros ?%Hx. done.
  - intros a Ha Hm _. apply H2; [done| |done]. intros ?%Hx. done.
Qed.

(** The list is where it was when the words around it change. *)
Lemma list_at_keeps X s s' ptr bs :
  list_at (mapped s) (word s) ptr bs → keeps X s s' → (∀ a, in_metadata bs a → ¬ X a) →
  list_at (mapped s') (word s') ptr bs.
Proof.
  intros Hl [H1 H2] HX. eapply list_at_agree; [exact Hl|]. intros a Hin [Ha Hm].
  split; [|by apply H2; auto]. split; [done|]. by rewrite H1 by (done || apply Ha).
Qed.

(** From the words of a state to the state. *)
Lemma runs_elim {A} s (m : ST S A) R :
  inv s → @runs S inv mapped word (mapped s) A (word s) m R →
  wp (m s) (λ '(a, s'), inv s' ∧ (∀ q, client_page q → mapped s' q = mapped s q) ∧
    ∃ v', (∀ a, accessible (mapped s) a → word s' a = v' a) ∧ R a v').
Proof.
  intros Hs Hrun. eapply wp_mono; [apply Hrun|].
  - split; [done|done|done|]. intros a. by apply paged_word.
  - intros [a s'] (v' & [Hi Hm Hw _] & HR). split; [done|]. split; [done|]. exists v'. split; [|done].
    intros b [Hb1 Hb2]. by apply Hw.
Qed.

(** A heap, as blocks, and the same heap in memory. *)
Record mheap_inv (h : kheap) (ms : mem_state S) : Prop := MheapInv {
  mh_globals : same_globals (ms_heap ms) h;
  mh_inv : heap_inv inv mapped (HeapState h (ms_asa ms) (ms_sys ms));
  mh_list : list_at (mapped (ms_sys ms)) (word (ms_sys ms)) (mh_first (ms_heap ms)) (first h)
}.

Lemma first_u32 M v ptr bs : list_at M v ptr bs → is_u32 ptr.
Proof.
  destruct bs as [|b bs]; simpl; [by intros ->|]. intros (-> & [_ H1 H2 _] & _). u32_lia.
Qed.

(** ** Expansion *)

Lemma same_but_trans (x y : Z → Prop) s1 s2 s3 :
  same_memory_but mapped word x s1 s2 → same_memory_but mapped word y s2 s3 → (∀ q, y q → x q) →
  same_memory_but mapped word x s1 s3.
Proof.
  intros [H1 H2] [H3 H4] Hyx. split.
  - intros q Hq Hx. rewrite H3, H1; auto.
  - intros a Ha Hx Hm. rewrite H4, H2; auto. rewrite H1; [done|apply Ha|done].
Qed.

Lemma same_but_refl x s : same_memory_but mapped word x s s.
Proof. done. Qed.

(** Mapping and unmapping a run of pages leaves the other pages alone. *)
Lemma map_pages_memory f P s :
  inv s → 1 ≤ P → reserved_pages ≤ f → f + P ≤ n_kernel_pages →
  (∀ p, f ≤ p < f + P → mapped s p = None) →
  wp (map_pages ki PAGE_SIZE (f * PAGE_SIZE) P s) (λ r,
    same_memory_but mapped word (λ q, f ≤ q < f + P) s (match r with Continue s' => s' | Return p => p.2 end)).
Proof.
  intros Hs HP Hf Hend Hun. unfold map_pages. pose proof (run_pages f P Hf Hend) as Hfp.
  apply (wp_for_return (λ i s', mapped_upto inv mapped s s' f P i ∧
    same_memory_but mapped word (λ q, f ≤ q < f + P) s s')); [lia|by split; [apply mapped_none|]| |].
  2:{ by intros s' [_ ?]. }
  intros i s1 Hi [Hm Hk]. rewrite page_addr by lia. apply wp_bind.
  pose proof (map_page_step ki inv mapped f P i s s1 Hm Hi Hf Hend) as Hstep.
  pose proof Hm as (Hs1 & _ & _ & Hrest).
  pose proof (paged_allocate (f + i) (Z.lor KPAGE_PRESENT KPAGE_RW) s1 Hs1
    (run_client f P (f + i) Hf Hend ltac:(lia)) (Hrest (f + i) ltac:(lia)) ltac:(by split)) as Hmemory.
  eapply wp_mono; [exact (wp_and _ _ _ Hstep Hmemory)|].
  intros [ret s2] [Hres Hsame].
  assert (Hk2 : same_memory_but mapped word (λ q, f ≤ q < f + P) s s2).
  { eapply same_but_trans; [exact Hk|exact Hsame|]. intros q ->. lia. }
  by destruct Hres as [(-> & Hm2)|(-> & Hm2)]; apply wp_ret.
Qed.

Lemma unmap_pages_memory s0 f P i s :
  mapped_upto inv mapped s0 s f P (Z.of_nat i) → Z.of_nat i ≤ P → reserved_pages ≤ f → f + P ≤ n_kernel_pages →
  wp (unmap_pages ki PAGE_SIZE i (f * PAGE_SIZE) s) (λ s', same_memory_but mapped word (λ q, f ≤ q < f + P) s s').
Proof.
  intros Hm Hi Hf Hend. pose proof (run_pages f P Hf Hend) as Hfp.
  revert s Hm. induction i as [|i IH]; intros s Hm; simpl; [done|].
  rewrite page_addr by lia. apply wp_bind.
  destruct (unmap_page_step ki inv mapped f P (Z.of_nat i) s0 s) as (a & Ha & Hwp); [|lia|done|done|].
  { by replace (Z.of_nat i + 1) with (Z.of_nat (Datatypes.S i)) by lia. }
  pose proof (paged_free (f + Z.of_nat i) a s (proj1 Hm) (run_client f P (f + Z.of_nat i) Hf Hend ltac:(lia)) Ha) as Hmemory.
  eapply wp_mono; [exact (wp_and _ _ _ Hwp Hmemory)|].
  intros [ret s2] [Hm2 Hsame]. eapply wp_mono; [apply IH; [lia|done]|].
  intros s3 H3. eapply same_but_trans; [|exact H3|auto].
  destruct Hsame as [H1 H2]. split; [intros q Hq Hx; apply H1; [done|intros ->; lia]|].
  intros b Hb Hx Hmap. apply H2; [done|intros Heq; rewrite Heq in Hx; lia|done].
Qed.

Lemma run_area (s : S) f P :
  1 ≤ P → reserved_pages ≤ f → f + P ≤ n_kernel_pages → (∀ q, f ≤ q < f + P → mapped s q ≠ None) →
  area (mapped s) (f * PAGE_SIZE) (Z.to_nat (10 + 16 * P)).
Proof.
  intros HP Hf Hend Hm. pose proof (run_client f P) as Hcl.
  change reserved_pages with 380 in *. change n_kernel_pages with 262143 in *.
  split; [lia|unfold PAGE_SIZE; lia|unfold PAGE_SIZE; lia|].
  intros i Hi. assert (Hpage : f ≤ (f * PAGE_SIZE + 4 * Z.of_nat i) / PAGE_SIZE < f + P).
  { unfold PAGE_SIZE. clear Hm Hcl. div_lia. }
  split; [split; [unfold PAGE_SIZE; clear Hm Hcl Hpage; div_lia|apply Hcl; lia]|]. by apply Hm.
Qed.

Lemma add_block_memory f P mh heap heap' s1 :
  inv s1 → 1 ≤ P → reserved_pages ≤ f → f + P ≤ n_kernel_pages →
  (∀ q, f ≤ q < f + P → mapped s1 q ≠ None) → same_globals mh heap → is_u32 (mh_first mh) →
  kheap_add_block heap (f * PAGE_SIZE) (P * PAGE_SIZE) SECTION_SIZE_DEFAULT = Ret heap' →
  wp (kheap_add_block_at load store mh (f * PAGE_SIZE) (P * PAGE_SIZE) SECTION_SIZE_DEFAULT s1) (λ '(mh', s2),
    inv s2 ∧ (∀ q, client_page q → mapped s2 q = mapped s1 q) ∧
    same_memory_but mapped word (λ q, f ≤ q < f + P) s1 s2 ∧ same_globals mh' heap' ∧
    mh_first mh' = f * PAGE_SIZE ∧ area (mapped s2) (f * PAGE_SIZE) (Z.to_nat (10 + 16 * P)) ∧
    ∃ b, first heap' = b :: first heap ∧
      block_at (f * PAGE_SIZE) (Z.to_nat (10 + 16 * P)) (mh_first mh) (word s2) b).
Proof.
  intros Hs HP Hf Hend Hm Hg Hu Hadd.
  pose proof (run_area s1 f P HP Hf Hend Hm) as Harea.
  eapply wp_mono; [apply runs_elim; [exact Hs|]|].
  { eapply (runs_add_block (mapped s1) P f HP Hf Hend Harea); [exact Hg|exact Hu|exact Hadd]. }
  intros [mh' s2] (Hs2 & Hm2 & v' & Hw & b & Hb & Hat & Hfr & Hfirst & Hg').
  split; [done|]. split; [done|]. split; [|split; [done|split; [done|split]]].
  - split; [intros q Hq _; by apply Hm2|]. intros a Ha Hx Hma. rewrite Hw by done. apply Hfr.
    unfold PAGE_SIZE in *. rewrite Z2Nat.id by lia. intros Hin. apply Hx. clear - Hin HP. div_lia.
  - apply (run_area s2 f P HP Hf Hend). intros q Hq. rewrite Hm2; [by apply Hm|]. by apply (run_client f P).
  - exists b. split; [done|]. eapply block_at_agree; [exact Hat|]. intros i Hi. apply Hw. by apply Harea.
Qed.

(** A new block on freshly mapped pages joins the heap in memory. *)
Lemma new_block_memory f P mh h h1 asa1 s s1 :
  1 ≤ P → reserved_pages ≤ f → f + P ≤ n_kernel_pages → same_globals mh h →
  list_at (mapped s) (word s) (mh_first mh) (first h) →
  (∀ q, f ≤ q < f + P → mapped s q = None) → (∀ q, f ≤ q < f + P → mapped s1 q ≠ None) →
  same_memory_but mapped word (λ q, f ≤ q < f + P) s s1 → heap_inv inv mapped (HeapState h1 asa1 s1) →
  (∀ b, first h1 = b :: first h → block_size b = P * PAGE_SIZE) →
  kheap_add_block h (f * PAGE_SIZE) (P * PAGE_SIZE) SECTION_SIZE_DEFAULT = Ret h1 →
  wp (kheap_add_block_at load store mh (f * PAGE_SIZE) (P * PAGE_SIZE) SECTION_SIZE_DEFAULT s1) (λ '(mh2, s2),
    mheap_inv h1 (MemState mh2 asa1 s2) ∧ keeps (λ _, False) s s2 ∧
    ∃ b, first h1 = b :: first h ∧ ∀ a, in_metadata [b] a → mapped s (a / PAGE_SIZE) = None).
Proof.
  intros HP Hf Hend Hg Hl Hunm Hin Hsame Hinv1 Hsize Hadd.
  pose proof (hi_sys _ _ _ Hinv1) as Hs1. cbn in Hs1.
  eapply wp_mono; [apply (add_block_memory f P mh h h1 s1 Hs1 HP Hf Hend Hin Hg); [by eapply first_u32|exact Hadd]|].
  intros [mh2 s2] (Hs2 & Hm2 & Hsame2 & Hg2 & Hfirst & Harea & b & Hb & Hat).
  assert (Hkeep : keeps (λ _, False) s s2).
  { apply (same_but_keeps (λ q, f ≤ q < f + P)); [by eapply same_but_trans|done]. }
  assert (Hbw : block_words b = Z.to_nat (10 + 16 * P)).
  { unfold block_words. by rewrite (Hsize b Hb), Z.div_mul. }
  split; [split; cbn [ms_heap ms_asa ms_sys]|split; [done|]].
  - done.
  - by eapply heap_inv_sys.
  - rewrite Hfirst, Hb. cbn [list_at]. rewrite (ba_start _ _ _ _ _ Hat), Hbw. split; [done|]. split; [done|].
    exists (mh_first mh). split; [done|]. eapply list_at_keeps; [exact Hl|exact Hkeep|auto].
  - exists b. split; [done|]. intros a [Ha|(c & Hc & _)]%in_metadata_cons; [|by apply elem_of_nil in Hc].
    rewrite (ba_start _ _ _ _ _ Hat), Hbw in Ha. apply Hunm. unfold PAGE_SIZE in *. clear - Ha HP. div_lia.
Qed.

(** [kheap_expand] with a heap in memory. *)
Definition expanded (h h' : kheap) (ms ms' : mem_state S) : Prop :=
  ∃ b, first h' = b :: first h ∧ fresh_block b ∧
    (∀ a, in_metadata [b] a → mapped (ms_sys ms) (a / PAGE_SIZE) = None) ∧
    asa_free_pages (ms_asa ms') < asa_free_pages (ms_asa ms).

Lemma kheap_expand_memory size h ms :
  mheap_inv h ms → 1 ≤ size < 2 ^ 31 + 2 ^ 14 →
  wp (kheap_expand_at ki PAGE_SIZE load store size ms) (λ '(ret, ms'), ∃ h', mheap_inv h' ms' ∧
    keeps (λ _, False) (ms_sys ms) (ms_sys ms') ∧
    ((ret = K_OOM ∧ h' = h) ∨ (ret = K_SUCCESS ∧ expanded h h' ms ms'))).
Proof.
  destruct ms as [mh asa s]. intros [Hg Hinv Hl] Hsize. cbn [ms_heap ms_asa ms_sys] in *.
  pose proof (kheap_expand_spec ki inv mapped size _ Hinv Hsize) as Hspec.
  apply wp_inv in Hspec as ([ret [h' asa' sa']] & Hrun & Hinv' & Hcase).
  unfold kheap_expand in Hrun. unfold kheap_expand_at. cbn [hs_heap hs_asa hs_sys ms_heap ms_asa ms_sys] in *.
  destruct (expand_pages_spec size Hsize) as (P & HP & HPb & _). rewrite HP, Ret_bind in Hrun. rewrite HP, Ret_bind.
  pose proof (asa_alloc_spec P asa (hi_asa _ _ _ Hinv) ltac:(lia)) as Halloc.
  apply wp_inv in Halloc as ([location asa1] & Halloc & Hasa & Hloc). rewrite Halloc, Ret_bind in Hrun. rewrite Halloc, Ret_bind.
  destruct (Z.eqb_spec location 0) as [->|Hne].
  { injection Hrun as <- <- <- <-. exists h. split; [by split|]. split; [apply keeps_refl|by left]. }
  destruct Hloc as [(f & -> & Hf & (Hf0 & Hfn & Hclear) & _ & Hup & Hcount)|(? & _)]; [|done].
  pose proof (hi_asa _ _ _ Hinv) as Hasa0. cbn in Hasa0. rewrite (asa_length _ Hasa0) in Hfn. simpl in Hcount.
  assert (Hunm : ∀ p, f ≤ p < f + P → mapped s p = None).
  { intros p Hp. apply (hi_unmapped _ _ _ Hinv); [lia|by apply Hclear]. }
  pose proof (hi_sys _ _ _ Hinv) as Hs. cbn in Hs.
  pose proof (wp_and _ _ _ (map_pages_spec ki inv mapped f P s Hs ltac:(lia) Hf Hfn Hunm)
    (map_pages_memory f P s Hs ltac:(lia) Hf Hfn Hunm)) as Hmap.
  apply wp_inv in Hmap as (r & Hmap & Hupto & Hsame). rewrite Hmap, Ret_bind in Hrun. rewrite Hmap, Ret_bind.
  destruct r as [s1|[i s1]]; cbn [snd] in Hsame.
  - apply bind_Ret_inv in Hrun as (h1 & Hadd & Hrun). injection Hrun as <- <- <- <-.
    rewrite (sg_section _ _ Hg). pose proof (hi_section _ _ _ Hinv) as Hsec. cbn in Hsec. rewrite Hsec in Hadd |- *.
    rewrite u32_small in Hadd |- * by (pose proof (run_pages f P Hf Hfn); unfold PAGE_SIZE; u32_lia).
    destruct Hupto as (Hs1 & _ & Hin & _). apply wp_bind.
    destruct Hcase as [(? & _)|(_ & (b' & Hb' & Hfresh & HPb' & _) & Hless)]; [done|].
    rewrite HP in HPb'. injection HPb' as HPb'. destruct (bo_size _ (fb_ok _ Hfresh)) as [_ Hal].
    eapply wp_mono; [apply (new_block_memory f P mh h h1 asa1 s s1);
      [lia|done|done|done|done|done|done|done|exact Hinv'| |exact Hadd]|].
    { intros b Hb. rewrite Hb in Hb'. injection Hb' as ->. rewrite HPb'. by apply aligned_page. }
    intros [mh2 s2] (Hinv2 & Hkeep & b & Hb & Hnew). apply wp_ret. exists h1. split; [done|]. split; [done|].
    right. split; [done|]. exists b. rewrite Hb in Hb'. injection Hb' as <-. by split_and!.
  - destruct Hupto as (Hi & Hupto). apply bind_Ret_inv in Hrun as ([ret1 asa2] & Hfree & Hrun). rewrite Hfree, Ret_bind.
    apply bind_Ret_inv in Hrun as (s2 & Hunmap & Hrun). injection Hrun as <- <- <- <-.
    rewrite Hunmap, Ret_bind. destruct Hcase as [(_ & _)|(? & _)]; [|done].
    pose proof (unmap_pages_memory s f P (Z.to_nat i) s1) as Hmem2. rewrite Z2Nat.id in Hmem2 by lia.
    specialize (Hmem2 Hupto ltac:(lia) Hf Hfn). rewrite Hunmap in Hmem2. apply wp_ret in Hmem2.
    assert (Hkeep : keeps (λ _, False) s s2).
    { apply (same_but_keeps (λ q, f ≤ q < f + P)); [by eapply same_but_trans|done]. }
    exists h. split; [|split; [done|by left]]. split; [done|done|]. eapply list_at_keeps; [exact Hl|exact Hkeep|auto].
Qed.

(** ** Allocation *)

(** A walk over the list of a heap in memory. *)
Lemma walk_elim {A} h ms (m : ST S (option A)) r x :
  mheap_inv h ms →
  @runs S inv mapped word (mapped (ms_sys ms)) _ (word (ms_sys ms)) m
    (walk_post (mapped (ms_sys ms)) (word (ms_sys ms)) (mh_first (ms_heap ms)) (first h) r x) →
  wp (m (ms_sys ms)) (λ '(x', s'), x' = x ∧ inv s' ∧ (∀ q, client_page q → mapped s' q = mapped (ms_sys ms) q) ∧
    keeps (in_metadata (first h)) (ms_sys ms) s' ∧
    list_at (mapped s') (word s') (mh_first (ms_heap ms)) (default (first h) r)).
Proof.
  intros [_ Hinv _] Hrun. pose proof (hi_sys _ _ _ Hinv) as Hs. cbn in Hs.
  eapply wp_mono; [by apply runs_elim|]. intros [x' s'] (Hs' & Hm & v' & Hw & -> & Hf & Hl).
  split; [done|]. split; [done|]. split; [done|]. split.
  - split; [by intros q Hq _; apply Hm|]. intros a Ha Hma HX. rewrite Hw by done. by apply Hf.
  - eapply list_at_agree; [exact Hl|]. intros a _ [Ha Hma]. split; [|by apply Hw].
    split; [done|]. rewrite Hm; [done|apply Ha].
Qed.

Lemma mheap_apart h ms : mheap_inv h ms → ForallOrdPairs apart (first h) ∧ (length (first h) < block_fuel)%nat.
Proof.
  intros [_ [_ _ _ _ _ Hok _ Hdis _] _]. cbn in *. by split; [apply blocks_apart|apply blocks_fuel].
Qed.

Definition malloc_outcome (size align : Z) (manual_align : bool) (h h' : kheap) (ret addr : Z) : Prop :=
  ∃ bs, grown (first h) bs ∧
    ((ret = K_SUCCESS ∧ ∃ n, allocated size align manual_align bs (first h') addr n)
     ∨ (ret = K_OOM ∧ first h' = bs)).

Lemma keeps_expanded h h1 ms ms1 s2 :
  keeps (λ _, False) (ms_sys ms) (ms_sys ms1) → expanded h h1 ms ms1 →
  keeps (in_metadata (first h1)) (ms_sys ms1) s2 → keeps (in_metadata (first h)) (ms_sys ms) s2.
Proof.
  intros Hk1 (b & Hb & _ & Hnew & _) Hk2.
  assert (Hk : keeps (in_metadata (first h1)) (ms_sys ms) s2).
  { eapply keeps_trans; [|exact Hk2]. eapply keeps_weaken; [exact Hk1|done]. }
  eapply keeps_weaken; [exact Hk|]. intros a Hma. rewrite Hb. intros [Ha|Ha]%in_metadata_cons; [|done].
  destruct Hma. apply Hnew, in_metadata_cons. by left.
Qed.

Lemma malloc_loop_memory fuel size align manual h ms :
  mheap_inv h ms → request size align manual → (Z.to_nat (asa_free_pages (ms_asa ms)) < fuel)%nat →
  wp (malloc_loop_at ki PAGE_SIZE load store fuel size align manual ms) (λ '(ret, addr, ms'), ∃ h',
    mheap_inv h' ms' ∧ keeps (in_metadata (first h)) (ms_sys ms) (ms_sys ms') ∧
    malloc_outcome size align manual h h' ret addr).
Proof.
  intros Hinv Hreq. revert h ms Hinv. induction fuel as [|fuel IH]; intros h ms Hinv Hfuel; [lia|].
  cbn [malloc_loop_at]. destruct (mheap_apart _ _ Hinv) as [Hap Hlen].
  pose proof Hinv as [[G1 G2 G3 G4 G5] Hi Hl]. pose proof (hi_blocks _ _ _ Hi) as Hok. cbn in Hok.
  pose proof (malloc_in_blocks_spec size align manual _ Hok Hreq) as Hspec.
  apply wp_inv in Hspec as (r & Hr & Hres). apply wp_bind.
  eapply wp_mono.
  { eapply walk_elim; [exact Hinv|]. by eapply (runs_malloc_walk (mapped (ms_sys ms))). }
  intros [r' s'] (-> & Hs' & Hm & Hk & Hl').
  assert (Hi' : heap_inv inv mapped (HeapState h (ms_asa ms) s')) by (eapply heap_inv_sys; [exact Hi|done|done]).
  destruct r as [[[addr bs'] n]|]; cbn [fmap option_fmap option_map fst snd] in *.
  - apply wp_ret. pose proof Hres as (l1 & b & b' & l2 & f & Hf & -> & -> & Ht & Hokb & _).
    eexists (Kheap (l1 ++ b' :: l2) (default_section_size h) (min_block_size h) (kheap_flags h)
      (effective_size h) (total_free_sections h ⊖ ceil_div size 16)). split; [split|].
    + split; cbn; congruence.
    + eapply heap_inv_replace; [exact Hi'|exact Hf|apply Ht|done|].
      cbn. rewrite (ts_free _ _ _ _ Ht). f_equal. lia.
    + exact Hl'.
    + split; [exact Hk|]. exists (first h). split; [apply grown_refl|]. left. split; [done|]. by eexists.
  - rewrite G2. pose proof (hi_min _ _ _ Hi) as Hmin. cbn in Hmin. rewrite Hmin. apply wp_bind.
    assert (Hinv1 : mheap_inv h (MemState (ms_heap ms) (ms_asa ms) s')) by (split; [by split|done|done]).
    eapply wp_mono; [apply (kheap_expand_memory _ h); [exact Hinv1|by eapply MAX_request]|].
    intros [ret ms1] (h1 & Hinv2 & Hk1 & [(-> & ->)|(-> & Hexp)]); cbn [ms_heap ms_asa ms_sys] in *.
    + apply wp_ret. exists h. split; [done|]. split.
      * eapply keeps_trans; [exact Hk|]. eapply keeps_weaken; [exact Hk1|done].
      * exists (first h). split; [apply grown_refl|by right].
    + pose proof Hexp as (b & Hb & Hfresh & _ & Hless). cbn in Hless.
      pose proof (count_clear_nonneg (kasa_pages (ms_asa ms1))) as Hnn. unfold asa_free_pages in *.
      change (K_FAILED K_SUCCESS) with false. cbv iota.
      eapply wp_mono; [apply (IH h1); [done|lia]|].
      intros [[ret addr] ms2] (h2 & Hinv3 & Hk2 & bs & Hgr & Hout). exists h2. split; [done|]. split.
      * eapply keeps_trans; [exact Hk|]. by eapply (keeps_expanded h h1 (MemState (ms_heap ms) (ms_asa ms) s')).
      * exists bs. rewrite Hb in Hgr. split; [by eapply grown_cons|done].
Qed.

Lemma kheap_malloc_memory size align h ms :
  mheap_inv h ms → 1 ≤ size < 2 ^ 31 → 0 ≤ align ≤ PAGE_SIZE →
  wp (kheap_malloc_at ki PAGE_SIZE load store size align ms) (λ '(ret, addr, ms'), ∃ h',
    mheap_inv h' ms' ∧ keeps (in_metadata (first h)) (ms_sys ms) (ms_sys ms') ∧
    malloc_outcome (padded size align) align (manual align) h h' ret addr).
Proof.
  intros Hinv Hs Ha. pose proof (padded_request size align Hs Ha) as Hreq.
  pose proof Hinv as [[G1 G2 G3 G4 G5] Hi Hl]. pose proof (hi_section _ _ _ Hi) as Hsec.
  pose proof (hi_min _ _ _ Hi) as Hmin. cbn in Hsec, Hmin. unfold kheap_malloc_at.
  rewrite G1, G2, Hsec, Hmin. fold (manual align).
  replace (if manual align then size ⊕ align else size) with (padded size align).
  2:{ unfold padded, PAGE_SIZE in *. destruct (manual align); [|done]. rewrite u32_small; [done|u32_lia]. }
  assert (Hfuel : ∀ (h : kheap) (ms : mem_state S), (Z.to_nat (asa_free_pages (ms_asa ms))
    < Datatypes.S (Z.to_nat (bs_length (kasa_pages (ms_asa ms)))))%nat).
  { intros h1 ms1. exact (malloc_fuel_enough (HeapState h1 (ms_asa ms1) (ms_sys ms1))). }
  destruct (first h) as [|b bs] eqn:Hf.
  - rewrite (Hl : mh_first (ms_heap ms) = 0). cbn [truthy Z.eqb negb]. apply wp_bind.
    eapply wp_mono; [apply (kheap_expand_memory _ h); [exact Hinv|by eapply MAX_request]|].
    intros [ret ms1] (h1 & Hinv2 & Hk1 & [(-> & ->)|(-> & Hexp)]).
    + apply wp_ret. exists h. split; [done|]. split; [by eapply keeps_weaken|].
      exists (first h). split; [apply grown_refl|by right].
    + change (K_FAILED K_SUCCESS) with false. cbv iota.
      eapply wp_mono; [apply (malloc_loop_memory _ _ _ _ h1); [done|exact Hreq|by apply (Hfuel h1)]|].
      intros [[ret addr] ms2] (h2 & Hinv3 & Hk2 & bs & Hgr & Hout). exists h2. split; [done|].
      rewrite <- Hf. split; [by eapply keeps_expanded|].
      pose proof Hexp as (b & Hb & Hfresh & _). exists bs. rewrite Hb in Hgr. split; [by eapply grown_cons|done].
  - destruct (list_at_head _ _ _ _ _ Hl) as (-> & _). rewrite <- Hf.
    apply malloc_loop_memory; [done|exact Hreq|by apply (Hfuel h)].
Qed.
End words.
