(* ===== verification/HeapSafety.v ===== *)
(** The heap in memory: its main theorems.  [kheap_malloc] and [kheap_free] on
    the words of mapped pages keep the heap well formed, do to it what the
    specification of Kheap.v's heap says, and keep every word outside the
    heap's own metadata; so what a client writes into its allocation is there
    until the client writes again or frees it. *)
From stdpp Require Import base numbers list.
From Stdlib Require Import ZArith Lia.
From S2P Require Import Prelude Kernel Bitset Alloc Asa Machine KPaging Kheap KheapBlock KheapSpec KheapProps.
From S2P Require Import Layout HeapMemory HeapLayout HeapBlocks HeapWords.

Open Scope Z_scope.

(** * Allocations and metadata *)

(** Sections [lo, hi) of the block at [start] are an allocation. *)
Record allocation := Allocation { al_start : Z; al_lo : Z; al_hi : Z }.

Definition live_in (h : kheap) (A : allocation) : Prop :=
  ∃ b, block_start b = al_start A ∧ heap_live h b (al_lo A) (al_hi A).

(** The bytes of an allocation. *)
Definition in_allocation (A : allocation) (a : Z) : Prop :=
  al_start A + 16 * al_lo A ≤ a < al_start A + 16 * al_hi A.

(** Bytes of a block past its metadata sections are not metadata. *)
Lemma metadata_sections bs b a :
  Forall block_ok bs → ForallOrdPairs disjoint_blocks bs → b ∈ bs →
  block_start b + 16 * meta_sections b ≤ a < block_end b → ¬ in_metadata bs a.
Proof.
  intros Hok Hdis Hb Ha (c & Hc & Hac).
  pose proof (proj1 (Forall_forall _ _) Hok b Hb) as Hbok. pose proof (proj1 (Forall_forall _ _) Hok c Hc) as Hcok.
  pose proof (block_words_le c Hcok). pose proof (block_bounds b Hbok) as (_ & _ & HP & _ & _ & Hm & _).
  assert (b = c) as <-.
  { apply (overlap_same bs _ _ a Hdis); [done|done|lia|]. unfold block_end. lia. }
  unfold block_words, PAGE_SIZE in *. lia.
Qed.

Lemma live_bytes h asa S (s : S) sinv mapped A a :
  heap_inv sinv mapped (HeapState h asa s) → live_in h A → in_allocation A a →
  ¬ in_metadata (first h) a ∧ client_page (a / PAGE_SIZE) ∧ mapped s (a / PAGE_SIZE) ≠ None.
Proof.
  intros Hi (b & Hst & Hb & (Hlh & Hhi & _) & Hm) Ha. unfold in_allocation in Ha. rewrite <- Hst in Ha.
  pose proof (hi_blocks _ _ _ Hi) as Hok. pose proof (hi_disjoint _ _ _ Hi) as Hdis. cbn in Hok, Hdis.
  pose proof (proj1 (Forall_forall _ _) Hok b Hb) as Hbok.
  pose proof (block_bounds b Hbok) as (Hns & Hbs & HP & _ & _ & Hmm & _).
  assert (Hin : block_start b ≤ a < block_end b) by (unfold block_end; lia).
  destruct (bo_start _ Hbok) as [Hlow Hal]. pose proof (bo_end _ Hbok) as Hhigh. destruct (bo_size _ Hbok) as [_ Hsz].
  split; [eapply metadata_sections; [done|done|exact Hb|]; unfold block_end in *; lia|]. split.
  - apply kernel_client. clear - Hin Hlow Hhigh. unfold PAGE_SIZE in *. div_lia.
  - apply (hi_pages _ _ _ Hi b _ Hb). unfold block_page. clear - Hin Hal Hsz.
    unfold block_end in *. unfold PAGE_SIZE in *. div_lia.
Qed.

(** ** Allocations stay live *)

Lemma grown_live h h' A : grown (first h) (first h') → live_in h A → live_in h' A.
Proof.
  intros (new & Hn & _) (b & Hst & Hb & Hl). exists b. split; [done|]. split; [|done].
  rewrite Hn. apply elem_of_app. by right.
Qed.

Lemma takes_live_in bs h' b b' l1 l2 f n A :
  bs = l1 ++ b :: l2 → first h' = l1 ++ b' :: l2 → block_ok b → takes_sections b b' f n →
  (∃ c, block_start c = al_start A ∧ c ∈ bs ∧ live c (al_lo A) (al_hi A) ∧ meta_sections c ≤ al_lo A) →
  live_in h' A.
Proof.
  intros -> Hl' Hb Ht (c & Hst & Hc & Hl & Hm). unfold live_in, heap_live. rewrite Hl'.
  apply (elem_of_replace _ b') in Hc as [->|Hc]; [|by exists c].
  destruct (ts_frame _ _ _ _ Ht) as [Hs Hz].
  exists b'. split; [congruence|]. split; [apply elem_of_middle|]. split.
  - by apply (proj2 (takes_live b b' f n Hb Ht)).
  - unfold meta_sections in *. by rewrite Hz.
Qed.

Lemma malloc_live_in size align manual h h' ret addr A :
  Forall block_ok (first h) → malloc_outcome size align manual h h' ret addr → live_in h A → live_in h' A.
Proof.
  intros Hok (bs & Hg & Hcase) Hl.
  pose proof (grown_live h (Kheap bs 0 0 0 0 0) A Hg Hl) as Hl1.
  destruct Hcase as [(_ & n & Ha)|(_ & Hf)].
  - pose proof (grown_ok _ _ Hok Hg) as Hbs.
    destruct Ha as (l1 & b & b' & l2 & f & Hl2 & Hl3 & -> & Ht & _).
    eapply takes_live_in; [exact Hl2|exact Hl3| |exact Ht|exact Hl1].
    rewrite Hl2 in Hbs. apply Forall_app in Hbs as [_ Hbs]. by inversion Hbs.
  - destruct Hl1 as (b & Hst & Hb). exists b. split; [done|]. unfold heap_live in *. by rewrite Hf.
Qed.

(** The allocation [B] that is freed is not part of [A]. *)
Definition other_allocation (A B : allocation) : Prop :=
  al_start A ≠ al_start B ∨ al_hi A ≤ al_lo B ∨ al_hi B ≤ al_lo A.

Lemma gives_live_in h h' b b' l1 l2 A B :
  first h = l1 ++ b :: l2 → first h' = l1 ++ b' :: l2 → 0 ≤ al_lo B < al_hi B → block_start b = al_start B →
  gives_sections b b' (al_lo B) (al_hi B) → other_allocation A B → live_in h A → live_in h' A.
Proof.
  intros Hl Hl' Hlo Hst Hg Hother (c & Hc & Hin & Hlive & Hm). unfold live_in, heap_live. rewrite Hl in Hin. rewrite Hl'.
  apply (elem_of_replace _ b') in Hin as [->|Hin]; [|by exists c].
  destruct (gs_frame _ _ _ _ Hg) as [Hs Hz]. exists b'. split; [congruence|]. split; [apply elem_of_middle|].
  split; [|unfold meta_sections in *; by rewrite Hz].
  eapply gives_live; [exact Hlo|exact Hg|exact Hlive|]. destruct Hother as [Hne|?]; [congruence|lia].
Qed.

(** Two allocations share no byte. *)
Lemma others_disjoint h asa S (s : S) sinv mapped A B a :
  heap_inv sinv mapped (HeapState h asa s) → live_in h A → live_in h B → other_allocation A B →
  in_allocation A a → ¬ in_allocation B a.
Proof.
  intros Hi (b & Hb & Hbin & (Hlb & Hhb & _) & Hmb) (c & Hc & Hcin & (Hlc & Hhc & _) & Hmc) Hother Ha Ha'.
  unfold in_allocation in *. rewrite <- Hb in Ha. rewrite <- Hc in Ha'.
  pose proof (hi_blocks _ _ _ Hi) as Hok. cbn in Hok.
  pose proof (proj1 (Forall_forall _ _) Hok b Hbin) as Hbok. pose proof (proj1 (Forall_forall _ _) Hok c Hcin) as Hcok.
  pose proof (block_bounds b Hbok) as (_ & Hbs & _). pose proof (block_bounds c Hcok) as (_ & Hcs & _).
  assert (b = c) as ->.
  { apply (overlap_same _ _ _ a (hi_disjoint _ _ _ Hi)); [done|done|unfold block_end; lia|unfold block_end; lia]. }
  destruct Hother as [Hne|?]; [congruence|lia].
Qed.

(** * Memory determines the heap *)

Lemma array_at_same v p l l' : array_at v p l → array_at v p l' → length l = length l' → l = l'.
Proof.
  intros H1 H2 Hlen. apply (list_eq_same_length _ _ (length l)); [done|done|].
  intros i x y Hi Hx Hy. rewrite <- (H1 _ _ Hx). by apply H2.
Qed.

Lemma block_at_words p n v b next : block_at p n next v b → (10 ≤ n)%nat → v (p + 4) = block_size b ∧ v p = next.
Proof.
  intros [_ _ Hv _] Hn. split; [exact (Hv 1%nat _ eq_refl)|]. rewrite <- (Hv 0%nat _ eq_refl). f_equal. lia.
Qed.

Lemma block_at_same p n v b b' next next' :
  block_at p n next v b → block_at p n next' v b' → b = b' ∧ next = next'.
Proof.
  intros [Hs Hl Hv _] [Hs' Hl' Hv' _]. assert (Heq : layout b next = layout b' next').
  { eapply array_at_same; [exact Hv|exact Hv'|congruence]. }
  destruct b as [sz sec ff fr st [ul uw] [dl dw]], b' as [sz' sec' ff' fr' st' [ul' uw'] [dl' dw']].
  unfold layout, header in Heq. cbn in Heq.
  injection Heq as -> -> -> -> -> -> -> _ -> Hlen Hrest.
  assert (length uw = length uw') by lia. apply app_inj_1 in Hrest as [-> ->]; done.
Qed.

Lemma list_at_same M v ptr bs bs' : list_at M v ptr bs → list_at M v ptr bs' → bs = bs'.
Proof.
  revert ptr bs'. induction bs as [|b bs IH]; intros ptr [|b' bs']; simpl; [done|..].
  - intros -> (_ & [_ ? _ _] & _). lia.
  - intros (_ & [_ ? _ _] & _) ->. lia.
  - intros (-> & Ha & next & Hb & Hl) (Hst & Ha' & next' & Hb' & Hl').
    destruct (block_at_words _ _ _ _ _ Hb (ar_size _ _ _ Ha)) as [Hz _].
    destruct (block_at_words _ _ _ _ _ Hb' (ar_size _ _ _ Ha')) as [Hz' _].
    assert (Hw : block_words b' = block_words b) by (unfold block_words; congruence). rewrite Hw in Hb'.
    destruct (block_at_same _ _ _ _ _ _ _ Hb Hb') as [<- <-]. f_equal. by eapply IH.
Qed.

(** * Calls of the heap's clients

    A client allocates, frees and writes words. *)
Inductive heap_call :=
  | CallMalloc (size align : Z)
  | CallFree (addr : Z)
  | CallStore (a v : Z).

(** The calls that respect allocation [A]: free another allocation, write
    into another allocation. *)
Definition respects (A : allocation) (h : kheap) (c : heap_call) : Prop :=
  match c with
  | CallMalloc size align => 1 ≤ size < 2 ^ 31 ∧ 0 ≤ align ≤ PAGE_SIZE
  | CallFree addr => ∃ B, live_in h B ∧ other_allocation A B ∧
      al_start B + 16 * al_lo B ≤ addr < al_start B + 16 * al_lo B + 16
  | CallStore a v => is_u32 v ∧ a mod 4 = 0 ∧ ∃ B, live_in h B ∧ other_allocation A B ∧ in_allocation B a
  end.

Section calls.
Context {S : Type} (ki : kpaging_interface S) (load : Z → S → outcome (Z * S)) (store : Z → Z → S → outcome S).

Definition run_call (c : heap_call) (ms : mem_state S) : outcome (mem_state S) :=
  match c with
  | CallMalloc size align => '(_, ms') ← kheap_malloc_at ki PAGE_SIZE load store size align ms; Ret ms'
  | CallFree addr => '(_, ms') ← kheap_free_at load store addr ms; Ret ms'
  | CallStore a v => s ← store a v (ms_sys ms); Ret (MemState (ms_heap ms) (ms_asa ms) s)
  end.

Fixpoint run_calls (cs : list heap_call) (ms : mem_state S) : outcome (mem_state S) :=
  match cs with
  | [] => Ret ms
  | c :: cs' => ms' ← run_call c ms; run_calls cs' ms'
  end.

(** Every call of the sequence respects [A] in the heap it finds. *)
Fixpoint all_respect (inv : S → Prop) (mapped : S → Z → option Z) (word : S → Z → Z) (A : allocation)
    (cs : list heap_call) (ms : mem_state S) : Prop :=
  match cs with
  | [] => True
  | c :: cs' =>
      (∃ h, mheap_inv (inv := inv) (mapped := mapped) (word := word) h ms ∧ respects A h c) ∧
      ∀ ms', run_call c ms = Ret ms' → all_respect inv mapped word A cs' ms'
  end.
End calls.

(** * Theorems *)

Section safety.
Context {S : Type} (ki : kpaging_interface S) (inv : S → Prop) (mapped : S → Z → option Z).
Context (load : Z → S → outcome (Z * S)) (store : Z → Z → S → outcome S) (word : S → Z → Z).
Context `{Hmem : !PagedMemory ki inv mapped load store word}.
Local Abbreviation mheap_inv := (@mheap_inv S inv mapped word).
Local Abbreviation keeps := (@keeps S mapped word).

(** The heap in memory after [kheap_kalloc_install]. *)
Lemma install_memory asa s :
  asa_inv asa → inv s →
  (∀ p, reserved_pages ≤ p < n_kernel_pages → bit (kasa_pages asa) p = false → mapped s p = None) →
  mheap_inv (kheap_init kheap_zero SECTION_SIZE_DEFAULT MIN_BLOCK_SIZE_DEFAULT KHEAP_AUTO_EXPAND)
    (MemState (MemHeap 0 SECTION_SIZE_DEFAULT MIN_BLOCK_SIZE_DEFAULT KHEAP_AUTO_EXPAND 0 0) asa s).
Proof.
  intros Ha Hs Hun. split; [done| |done]. exact (install_inv ki inv mapped asa s kheap_zero Ha Hs Hun).
Qed.

(** An allocation of the search lies past the metadata. *)
Lemma allocated_outside h h' asa s size align bs addr n a :
  heap_inv inv mapped (HeapState h' asa s) → Forall block_ok bs → 1 ≤ size < 2 ^ 31 → 0 ≤ align ≤ PAGE_SIZE →
  grown (first h) bs → allocated (padded size align) align (manual align) bs (first h') addr n →
  addr ≤ a < addr + size → ¬ in_metadata (first h') a.
Proof.
  intros Hinv Hbs Hs Hal _ Halloc Ha.
  destruct (allocated_bytes _ _ _ _ _ _ Hbs Hs Hal Halloc)
    as (_ & _ & _ & l1 & b & b' & l2 & f & Hl & Hl' & Hb & Ht & Hin).
  destruct (Hin a Ha) as [Hab Hsec]. destruct (ts_frame _ _ _ _ Ht) as [Hst Hsz].
  pose proof (ts_range _ _ _ _ Ht) as (Hf & _ & _).
  eapply (metadata_sections _ b'); [apply Hinv|apply Hinv|cbn; rewrite Hl'; apply elem_of_middle|].
  unfold meta_sections, block_end in *. rewrite Hst, Hsz. clear - Hab Hsec Hf. div_lia.
Qed.

(** The sections of a successful request are a new allocation. *)
Lemma allocated_live h h' asa s size align bs addr n :
  heap_inv inv mapped (HeapState h' asa s) → Forall block_ok bs → 1 ≤ size < 2 ^ 31 → 0 ≤ align ≤ PAGE_SIZE →
  grown (first h) bs → allocated (padded size align) align (manual align) bs (first h') addr n →
  ∃ A, live_in h' A ∧ (∀ a, addr ≤ a < addr + size → in_allocation A a) ∧
    (manual align = false → addr = al_start A + 16 * al_lo A) ∧ ∀ B, live_in h B → other_allocation B A.
Proof.
  intros Hinv Hbs Hs Hal Hg Halloc.
  destruct Halloc as (l1 & b & b' & l2 & f & Hl & Hl' & -> & Ht & _ & Ha). set (n := ceil_div _ 16) in *.
  assert (Hb : block_ok b).
  { apply (proj1 (Forall_forall _ _) Hbs). rewrite Hl. apply elem_of_middle. }
  destruct (address_bounds b f size align addr Hs Hal (proj2 (bo_start _ Hb)) Ha) as (H1 & H2 & _). fold n in H2.
  destruct (takes_live b b' f n Hb Ht) as [Hlive _]. destruct (ts_frame _ _ _ _ Ht) as [Hst Hsz].
  pose proof (ts_range _ _ _ _ Ht) as (Hf & _ & _).
  exists (Allocation (block_start b) f (f + n)). split; [|split; [|split]].
  - exists b'. split; [done|]. split; [rewrite Hl'; apply elem_of_middle|]. split; [done|].
    unfold meta_sections in *. simpl. by rewrite Hsz.
  - intros a Hin. unfold in_allocation. simpl. lia.
  - intros Hman. unfold address_ok in Ha. by rewrite Hman in Ha.
  - intros B (c & Hc & Hin & (Hlh & Hhi & Hused & _) & Hm). unfold other_allocation. simpl.
    destruct (decide (al_start B = block_start b)) as [He|]; [right|by left].
    destruct Hg as (new & Hnew & _). assert (Hcin : c ∈ l1 ++ b :: l2).
    { rewrite <- Hl, Hnew. apply elem_of_app. by right. }
    assert (Hdis : ForallOrdPairs disjoint_blocks (l1 ++ b :: l2)).
    { pose proof (hi_disjoint _ _ _ Hinv) as Hd. cbn in Hd. rewrite Hl' in Hd.
      assert (Hend : block_end b' = block_end b) by (unfold block_end; congruence).
      eapply ForallOrdPairs_replace; [..|exact Hd]; unfold disjoint_blocks; intros z; by rewrite Hst, Hend. }
    assert (Hcok : block_ok c) by (apply (proj1 (Forall_forall _ _) Hbs); by rewrite Hl).
    destruct (bo_size _ Hb) as [Hpos _]. destruct (bo_size _ Hcok) as [Hpos' _].
    assert (c = b) as ->.
    { apply (overlap_same _ _ _ (block_start b) Hdis); [done|apply elem_of_middle|..]; unfold block_end; lia. }
    destruct (decide (al_hi B ≤ f)); [by left|]. destruct (decide (f + n ≤ al_lo B)); [by right|]. exfalso.
    pose proof (ts_clear _ _ _ _ Ht (Z.max f (al_lo B)) ltac:(lia)) as Hclear.
    rewrite Hused in Hclear by lia. done.
Qed.

(** What a successful call hands out: an allocation of its own. *)
Definition new_allocation (h h' : kheap) (ms' : mem_state S) (size align addr : Z) : Prop :=
  (0 < align → addr mod align = 0) ∧ 0 < addr ∧ addr + size ≤ 2 ^ 30 ∧
  (∀ a, addr ≤ a < addr + size → ¬ byte_used h a ∧ byte_used h' a ∧ ¬ in_metadata (first h') a ∧
     client_page (a / PAGE_SIZE) ∧ mapped (ms_sys ms') (a / PAGE_SIZE) ≠ None) ∧
  ∃ A, live_in h' A ∧ (∀ a, addr ≤ a < addr + size → in_allocation A a) ∧
    (manual align = false → addr = al_start A + 16 * al_lo A) ∧ ∀ B, live_in h B → other_allocation B A.

Lemma kheap_malloc_result size align h ms :
  mheap_inv h ms → 1 ≤ size < 2 ^ 31 → 0 ≤ align ≤ PAGE_SIZE →
  wp (kheap_malloc_at ki PAGE_SIZE load store size align ms) (λ '(ret, addr, ms'), ∃ h',
    mheap_inv h' ms' ∧ keeps (in_metadata (first h)) (ms_sys ms) (ms_sys ms') ∧
    (∀ a, byte_used h a → byte_used h' a) ∧ (∀ A, live_in h A → live_in h' A) ∧
    ((ret = K_SUCCESS ∧ new_allocation h h' ms' size align addr)
     ∨ (ret = K_OOM ∧ grown (first h) (first h')))).
Proof.
  intros Hinv Hs Hal. eapply wp_mono; [by apply (kheap_malloc_memory size align h)|].
  intros [[ret addr] ms'] (h' & Hinv' & Hk & Hout). exists h'. split; [done|]. split; [done|].
  pose proof Hinv as [_ Hi _]. pose proof Hinv' as [_ Hi' _].
  pose proof (hi_blocks _ _ _ Hi) as Hok. cbn in Hok.
  assert (Hlive : ∀ A, live_in h A → live_in h' A) by (intros A; by eapply malloc_live_in).
  destruct Hout as (bs & Hg & [(-> & n & Ha)|(-> & <-)]).
  - pose proof (grown_ok _ _ Hok Hg) as Hbs.
    destruct (kheap_malloc_bytes inv mapped size align _ addr _ bs n Hi Hi' Hg Hbs Hs Hal Ha) as (H1 & H2 & H3 & H4 & H5).
    split; [exact H4|]. split; [done|]. left. split; [done|]. split; [done|]. split; [done|]. split; [done|]. split.
    + intros a Hin. destruct (H5 a Hin) as (Hu1 & Hu2 & Hc & Hm). split_and!; try done. by eapply allocated_outside.
    + by eapply allocated_live.
  - split; [intros a; by apply byte_used_grown|]. split; [done|]. by right.
Qed.

(** C5. Allocation in memory is sound and total: over any paging system whose
    pages hold words, [kheap_malloc], following the pointers and changing
    the headers and bitsets where they lie, returns; the memory holds a
    well-formed heap again; every byte in use stays in use, every live
    allocation stays live and every word of a mapped page outside the heap's
    metadata keeps its contents.  On success the range was free, is in use,
    lies on mapped pages outside the metadata and in an allocation of its
    own; on failure only empty blocks are new. *)
Theorem kheap_malloc_in_memory size align h ms :
  mheap_inv h ms → 1 ≤ size < 2 ^ 31 → 0 ≤ align ≤ PAGE_SIZE →
  ∃ ret addr ms' h', kheap_malloc_at ki PAGE_SIZE load store size align ms = Ret (ret, addr, ms') ∧
    mheap_inv h' ms' ∧ keeps (in_metadata (first h)) (ms_sys ms) (ms_sys ms') ∧
    (∀ a, byte_used h a → byte_used h' a) ∧ (∀ A, live_in h A → live_in h' A) ∧
    ((ret = K_SUCCESS ∧ new_allocation h h' ms' size align addr)
     ∨ (ret = K_OOM ∧ grown (first h) (first h'))).
Proof.
  intros Hinv Hs Hal. pose proof (kheap_malloc_result size align h ms Hinv Hs Hal) as Hwp.
  apply wp_inv in Hwp as ([[ret addr] ms'] & Hrun & h' & Hres). by exists ret, addr, ms', h'.
Qed.

Lemma kheap_free_memory h ms A addr :
  mheap_inv h ms → live_in h A → al_start A + 16 * al_lo A ≤ addr < al_start A + 16 * al_lo A + 16 →
  ∃ ms' h', kheap_free_at load store addr ms = Ret (true, ms') ∧ mheap_inv h' ms' ∧
    keeps (in_metadata (first h)) (ms_sys ms) (ms_sys ms') ∧
    (∃ l1 b b' l2, first h = l1 ++ b :: l2 ∧ first h' = l1 ++ b' :: l2 ∧ block_start b = al_start A ∧
       gives_sections b b' (al_lo A) (al_hi A)) ∧
    ∀ B, other_allocation B A → live_in h B → live_in h' B.
Proof.
  intros Hinv (b & Hst & Hlive) Haddr. pose proof Hinv as [[G1 G2 G3 G4 G5] Hi Hl].
  destruct (mheap_apart _ _ Hinv) as [Hap Hlen]. rewrite <- Hst in Haddr.
  destruct (kheap_free_spec inv mapped h (ms_asa ms) (ms_sys ms) b addr _ _ Hi Hlive Haddr)
    as (h' & l1 & l2 & b' & Hrun & Hi' & Hf & Hf' & Hg).
  unfold kheap_free in Hrun. apply bind_Ret_inv in Hrun as (r & Hr & Hrun).
  assert (Hsec : Forall (λ b, 0 < section_size b) (first h)).
  { pose proof (hi_blocks _ _ _ Hi) as Hok. cbn in Hok. eapply Forall_impl; [exact Hok|].
    intros c Hc. rewrite (bo_section _ Hc). lia. }
  destruct r as [[bs' n]|]; [|done]. injection Hrun as Hh'.
  assert (Hwp : wp (free_walk_at load store block_fuel addr (mh_first (ms_heap ms)) (ms_sys ms)) (λ '(x', s'),
    x' = Some n ∧ inv s' ∧ (∀ q, client_page q → mapped s' q = mapped (ms_sys ms) q) ∧
    keeps (in_metadata (first h)) (ms_sys ms) s' ∧
    list_at (mapped s') (word s') (mh_first (ms_heap ms)) bs')).
  { eapply (walk_elim h ms _ (Some bs') (Some n) Hinv).
    by apply (runs_free_walk (mapped (ms_sys ms)) _ _ _ _ _ (Some (bs', n))). }
  apply wp_inv in Hwp as ([x' s'] & Heq & -> & Hs' & Hm & Hk & Hl'). unfold kheap_free_at.
  rewrite Heq, Ret_bind. eexists _, h'. split; [done|]. split; [|split; [exact Hk|split]].
  - subst h'. split; [split; cbn; congruence| |exact Hl']. by eapply heap_inv_sys.
  - by exists l1, b, b', l2.
  - intros B Hother HB. destruct Hlive as (_ & (Hlh & _) & _). by eapply (gives_live_in h h' b b' l1 l2 B A).
Qed.

(** C6. Freeing in memory: a live allocation is found from the address of its
    first section by following the pointers; in the memory exactly its
    sections become free, the other allocations stay, and every word outside
    the heap's metadata keeps its contents. *)
Theorem kheap_free_in_memory h ms A addr :
  mheap_inv h ms → live_in h A → al_start A + 16 * al_lo A ≤ addr < al_start A + 16 * al_lo A + 16 →
  ∃ ms' h', kheap_free_at load store addr ms = Ret (true, ms') ∧ mheap_inv h' ms' ∧
    keeps (in_metadata (first h)) (ms_sys ms) (ms_sys ms') ∧
    (∃ l1 b b' l2, first h = l1 ++ b :: l2 ∧ first h' = l1 ++ b' :: l2 ∧ block_start b = al_start A ∧
       gives_sections b b' (al_lo A) (al_hi A)) ∧
    ∀ B, other_allocation B A → live_in h B → live_in h' B.
Proof. apply kheap_free_memory. Qed.

(** One heap is in the memory. *)
Lemma mheap_inv_unique h h' ms : mheap_inv h ms → mheap_inv h' ms → h = h'.
Proof.
  intros [[G1 G2 G3 G4 G5] _ Hl] [[G1' G2' G3' G4' G5'] _ Hl'].
  pose proof (list_at_same _ _ _ _ _ Hl Hl') as Hf. destruct h, h'. cbn in *. congruence.
Qed.

(** Writing a word of an allocation. *)
Lemma client_store_memory h ms A a v :
  mheap_inv h ms → live_in h A → in_allocation A a → a mod 4 = 0 → is_u32 v →
  ∃ s', store a v (ms_sys ms) = Ret s' ∧ mheap_inv h (MemState (ms_heap ms) (ms_asa ms) s') ∧
    word s' a = v ∧ keeps (.= a) (ms_sys ms) s'.
Proof.
  intros [Hg Hi Hl] Hlive Ha Hmod Hv.
  destruct (live_bytes _ _ _ _ _ _ _ _ Hi Hlive Ha) as (Hmeta & Hc & Hm).
  pose proof (hi_sys _ _ _ Hi) as Hs. cbn in Hs.
  pose proof (paged_store a v _ Hs ltac:(by split) Hm Hv) as Hwp.
  apply wp_inv in Hwp as (s' & Hrun & Hs' & Hw & Hm' & Hkeep). exists s'. split; [done|].
  assert (Hk : keeps (.= a) (ms_sys ms) s').
  { split; [by intros q Hq _; apply Hm'|]. intros b Hb Hmb Hne. by apply Hkeep. }
  split; [|by split]. split; [done|by eapply heap_inv_sys|]. eapply list_at_keeps; [exact Hl|exact Hk|].
  by intros b Hb ->.
Qed.

(** ** Behind [kmalloc] and [kfree] *)

(** [__kheap_kalloc_malloc_real] returns an allocation of its own, page-aligned
    when that was asked for, with the frame it lies on, or panics. *)
Lemma kalloc_in_memory size phys flags h ms :
  mheap_inv h ms → 1 ≤ size < 2 ^ 31 →
  match kheap_kalloc_malloc_real_at ki PAGE_SIZE load store size phys flags ms with
  | Ret (p, ph, ms') => ∃ h', mheap_inv h' ms' ∧ keeps (in_metadata (first h)) (ms_sys ms) (ms_sys ms') ∧
      (∀ a, byte_used h a → byte_used h' a) ∧ (∀ A, live_in h A → live_in h' A) ∧
      new_allocation h h' ms' size (if has_flag flags KALLOC_PAGE_ALIGN then PAGE_SIZE else 0) p ∧
      ph = (if phys then mapped (ms_sys ms') (p / PAGE_SIZE) else None)
  | Abort => True
  | _ => False
  end.
Proof.
  intros Hinv Hs. unfold kheap_kalloc_malloc_real_at. set (align := if has_flag _ _ then _ else _).
  assert (Hal : 0 ≤ align ≤ PAGE_SIZE) by (unfold align, PAGE_SIZE; destruct (has_flag flags KALLOC_PAGE_ALIGN); lia).
  pose proof (kheap_malloc_result size align h ms Hinv Hs Hal) as Hwp.
  apply wp_inv in Hwp as ([[ret p] ms1] & -> & h' & Hinv' & Hk & Hmono & Hlive & [(-> & Hnew)|(-> & _)]);
    rewrite Ret_bind; [|done].
  change (K_FAILED K_SUCCESS) with false. cbv iota. destruct phys; [|by exists h'].
  pose proof Hnew as (_ & Hp & Hend & Hin & _). destruct (Hin p) as (_ & _ & _ & Hc & Hm); [lia|].
  destruct Hinv' as [Hg Hi Hl]. pose proof (hi_sys _ _ _ Hi) as Hsys. cbn in Hsys.
  assert (Hu : is_u32 p) by u32_lia.
  pose proof (wp_and _ _ _ (mapper_get_phys p _ Hsys Hu Hc) (paged_get_phys p _ Hsys Hu Hc)) as Hwp.
  apply wp_inv in Hwp as ([f s'] & -> & (Hs' & -> & Hmap) & Hsame). rewrite Ret_bind.
  assert (Hk2 : keeps (λ _, False) (ms_sys ms1) s') by (by eapply same_but_keeps).
  exists h'. split; [|split; [|split; [done|split; [done|split]]]].
  - split; [done|by eapply heap_inv_sys|]. eapply list_at_keeps; [exact Hl|exact Hk2|auto].
  - eapply keeps_trans; [exact Hk|]. by eapply keeps_weaken.
  - destruct Hnew as (H1 & H2 & H3 & H4 & H5). split_and!; try done.
    intros a Ha. destruct (H4 a Ha) as (? & ? & ? & Hca & ?). split_and!; try done. cbn. by rewrite Hmap.
  - cbn. rewrite Hmap by done. by destruct (mapped (ms_sys ms1) (p / PAGE_SIZE)).
Qed.

(** [__kheap_kalloc_free] on the address of a live allocation. *)
Lemma kfree_in_memory h ms A addr :
  mheap_inv h ms → live_in h A → al_start A + 16 * al_lo A ≤ addr < al_start A + 16 * al_lo A + 16 →
  ∃ ms' h', kheap_kalloc_free_at load store addr ms = Ret ms' ∧ mheap_inv h' ms' ∧
    keeps (in_metadata (first h)) (ms_sys ms) (ms_sys ms') ∧
    ∀ B, other_allocation B A → live_in h B → live_in h' B.
Proof.
  intros Hinv HA Haddr. destruct (kheap_free_memory h ms A addr Hinv HA Haddr) as (ms' & h' & Hrun & H1 & H2 & _ & H3).
  exists ms', h'. unfold kheap_kalloc_free_at. by rewrite Hrun.
Qed.

(** What [kheap_kalloc_install] leaves in [kalloc_data], over the heap in
    memory: it keeps the promise of the allocation interface. *)
Definition memory_kalloc : kalloc_interface (mem_state S) :=
  KallocInterface (Some (kheap_kalloc_malloc_real_at ki PAGE_SIZE load store))
    (Some (kheap_kalloc_free_at load store)).

#[export] Instance memory_provider :
  Provider memory_kalloc (λ ms, ∃ h, mheap_inv h ms) (λ ms a, ∃ h, mheap_inv h ms ∧ byte_used h a).
Proof.
  split. eexists. split; [done|]. intros size phys flags ms [h Hinv] Hs _ p ph ms' Hrun.
  pose proof (kalloc_in_memory size phys flags h ms Hinv Hs) as Hres. rewrite Hrun in Hres.
  destruct Hres as (h' & Hinv' & _ & Hmono & _ & (Hal & Hpos & Hend & Hin & _) & _).
  split; [by exists h'|]. split.
  - intros a (h0 & Hinv0 & Ha). rewrite (mheap_inv_unique _ _ _ Hinv0 Hinv) in Ha. exists h'. auto.
  - intros _. split; [lia|]. split; [done|]. split; [intros Hf; rewrite Hf in Hal; by apply Hal|].
    intros a Ha. destruct (Hin a Ha) as (Hn & Hu & _). split; [|by exists h'].
    intros (h0 & Hinv0 & Ha0). rewrite (mheap_inv_unique _ _ _ Hinv0 Hinv) in Ha0. done.
Qed.

Lemma memory_kmalloc_run size fl h ms p ms' :
  mheap_inv h ms → 1 ≤ size < 2 ^ 31 → kmalloc memory_kalloc size fl ms = Ret (p, ms') →
  ∃ h', mheap_inv h' ms' ∧ keeps (in_metadata (first h)) (ms_sys ms) (ms_sys ms') ∧
    new_allocation h h' ms' size (if has_flag fl KALLOC_PAGE_ALIGN then PAGE_SIZE else 0) p.
Proof.
  intros Hinv Hs Hk. unfold kmalloc, installed in Hk. cbn [memory_kalloc ki_malloc_real] in Hk. rewrite Ret_bind in Hk.
  apply bind_Ret_inv in Hk as ([[q ph] ms1] & Hk & Heq). injection Heq as -> ->.
  pose proof (kalloc_in_memory size false fl h ms Hinv Hs) as Hres. rewrite Hk in Hres.
  destruct Hres as (h' & H1 & H2 & _ & _ & H3 & _). by exists h'.
Qed.

(** C15. Memory handed out by two calls of [kmalloc] in a row, whatever their
    flags, never overlaps, and what a client has written into the first range
    is still there after the second call. *)
Theorem kmalloc_in_memory_disjoint size1 size2 fl1 fl2 h ms p1 p2 ms1 ms2 :
  mheap_inv h ms → 1 ≤ size1 < 2 ^ 31 → 1 ≤ size2 < 2 ^ 31 → is_u32 fl1 → is_u32 fl2 →
  kmalloc memory_kalloc size1 fl1 ms = Ret (p1, ms1) → kmalloc memory_kalloc size2 fl2 ms1 = Ret (p2, ms2) →
  (∀ a, ¬ (p1 ≤ a < p1 + size1 ∧ p2 ≤ a < p2 + size2)) ∧
  ∀ a, p1 ≤ a < p1 + size1 → a mod 4 = 0 → word (ms_sys ms2) a = word (ms_sys ms1) a.
Proof.
  intros Hinv Hs1 Hs2 Hf1 Hf2 Hk1 Hk2.
  destruct (memory_kmalloc_run _ _ _ _ _ _ Hinv Hs1 Hk1) as (h1 & Hinv1 & _ & (_ & Hp1 & _ & Hin1 & _)).
  destruct (memory_kmalloc_run _ _ _ _ _ _ Hinv1 Hs2 Hk2) as (h2 & _ & [_ Hw] & (_ & Hp2 & _)).
  split.
  - eapply (kmalloc_disjoint memory_kalloc); [by exists h|exact Hs1|exact Hs2|exact Hf1|exact Hf2|exact Hk1|exact Hk2|lia|lia].
  - intros a Ha Hmod. destruct (Hin1 a Ha) as (_ & _ & Hmeta & Hc & Hm). apply Hw; [by split|done|done].
Qed.

(** Words of [A] are not touched by what respects [A]. *)
Definition word_of (A : allocation) (a : Z) : Prop := in_allocation A a ∧ a mod 4 = 0.

Lemma keeps_word A h ms s' X a :
  mheap_inv h ms → live_in h A → word_of A a → keeps X (ms_sys ms) s' → ¬ X a → word s' a = word (ms_sys ms) a.
Proof.
  intros [_ Hi _] Hlive [Ha Hmod] [_ Hk] HX.
  destruct (live_bytes _ _ _ _ _ _ _ _ Hi Hlive Ha) as (_ & Hc & Hm). apply Hk; [by split|done|done].
Qed.

Lemma respectful_call A c h ms :
  mheap_inv h ms → live_in h A → respects A h c →
  ∃ ms' h', run_call ki load store c ms = Ret ms' ∧ mheap_inv h' ms' ∧ live_in h' A ∧
    ∀ a, word_of A a → word (ms_sys ms') a = word (ms_sys ms) a.
Proof.
  intros Hinv HA Hc.
  assert (Hmeta : ∀ a, word_of A a → ¬ in_metadata (first h) a).
  { intros a [Ha _]. by eapply live_bytes; [apply Hinv|exact HA|]. }
  destruct c as [size align|addr|a v]; simpl in *.
  - destruct Hc as [Hs Hal].
    pose proof (kheap_malloc_memory size align h ms Hinv Hs Hal) as Hwp.
    apply wp_inv in Hwp as ([[ret addr] ms'] & -> & h' & Hinv' & Hk & Hout). exists ms', h'.
    split; [done|]. split; [done|]. split.
    + pose proof Hinv as [_ Hi _]. eapply malloc_live_in; [apply Hi|exact Hout|exact HA].
    + intros a Ha. eapply keeps_word; [exact Hinv|exact HA|exact Ha|exact Hk|by apply Hmeta].
  - destruct Hc as (B & HB & Hother & Haddr).
    destruct (kheap_free_memory h ms B addr Hinv HB Haddr) as (ms' & h' & -> & Hinv' & Hk & _ & Hlive).
    exists ms', h'. split; [done|]. split; [done|]. split; [by apply Hlive|].
    intros a Ha. eapply keeps_word; [exact Hinv|exact HA|exact Ha|exact Hk|by apply Hmeta].
  - destruct Hc as (Hv & Hmod & B & HB & Hother & Hin).
    destruct (client_store_memory h ms B a v Hinv HB Hin Hmod Hv) as (s' & -> & Hinv' & _ & Hk).
    eexists _, h. split; [done|]. split; [done|]. split; [done|].
    intros b Hb. eapply keeps_word; [exact Hinv|exact HA|exact Hb|exact Hk|]. intros ->.
    pose proof Hinv as [_ Hi _]. exact (others_disjoint h _ _ _ _ _ A B a Hi HA HB Hother (proj1 Hb) Hin).
Qed.

(** C8. Allocations are private: whatever sequence of calls the other clients
    make (allocations of any size, frees of other allocations, writes into
    other allocations), every call returns, the allocation stays live, and
    its owner reads from each of its words what was there before. *)
Theorem allocations_private A cs h ms :
  mheap_inv h ms → live_in h A → all_respect ki load store inv mapped word A cs ms →
  ∃ ms' h', run_calls ki load store cs ms = Ret ms' ∧ mheap_inv h' ms' ∧ live_in h' A ∧
    ∀ a, word_of A a → ∃ s', load a (ms_sys ms') = Ret (word (ms_sys ms) a, s').
Proof.
  enough (H : mheap_inv h ms → live_in h A → all_respect ki load store inv mapped word A cs ms →
    ∃ ms' h', run_calls ki load store cs ms = Ret ms' ∧ mheap_inv h' ms' ∧ live_in h' A ∧
      ∀ a, word_of A a → word (ms_sys ms') a = word (ms_sys ms) a).
  { intros Hinv HA Hcs. destruct (H Hinv HA Hcs) as (ms' & h' & Hrun & Hinv' & HA' & Hw). exists ms', h'.
    split; [done|]. split; [done|]. split; [done|]. intros a Ha. rewrite <- (Hw a Ha).
    pose proof Hinv' as [_ Hi _]. destruct Ha as [Ha Hmod].
    destruct (live_bytes _ _ _ _ _ _ _ _ Hi HA' Ha) as (_ & Hc & Hm).
    pose proof (paged_load a _ (hi_sys _ _ _ Hi) ltac:(by split) Hm) as Hwp.
    apply wp_inv in Hwp as ([v s'] & Hrun' & -> & _). by exists s'. }
  revert h ms. induction cs as [|c cs IH]; intros h ms Hinv HA; simpl.
  - intros _. by exists ms, h.
  - intros [(h0 & Hinv0 & Hc) Hrest]. rewrite (mheap_inv_unique _ _ _ Hinv0 Hinv) in Hc.
    destruct (respectful_call A c h ms Hinv HA Hc) as (ms1 & h1 & Hrun & Hinv1 & HA1 & Hw1).
    rewrite Hrun, Ret_bind.
    destruct (IH h1 ms1 Hinv1 HA1 (Hrest ms1 Hrun)) as (ms2 & h2 & Hrun2 & Hinv2 & HA2 & Hw2).
    exists ms2, h2. split; [done|]. split; [done|]. split; [done|]. intros a Ha. by rewrite Hw2, Hw1.
Qed.
End safety.
