(* ===== verification/HeapPaging.v ===== *)
(** The i386 paging system keeps words: the pages it maps for clients hold what
    was stored in them, through every page allocation, release and lookup.
    So the theorems on the heap in memory hold on the i386 pages. *)
From stdpp Require Import base numbers list gmap.
From Stdlib Require Import ZArith Lia.
From S2P Require Import Prelude Kernel Bitset Alloc Meminfo Frames Machine KPaging Asa.
From S2P Require Import Paging Window PagingSpec Layout HeapMemory HeapLayout.

Open Scope Z_scope.

(** The word at a client's address, through the page tables. *)
Definition mapped_word (s : paging_state) (a : Z) : Z :=
  match mapped_frame s (a / PAGE_SIZE) with
  | Some f => phys_read (ps_mach s) (f + a mod PAGE_SIZE)
  | None => 0
  end.

Lemma client_word_u32 a : client_word a → is_u32 a.
Proof.
  intros [_ Hc]. unfold client_page in Hc. change (KVIRT_RESERVED / PAGE_SIZE) with 380 in Hc.
  unfold PAGE_SIZE in *. unfold is_u32. div_lia.
Qed.

(** A word is an entry of its page. *)
Lemma client_word_index a :
  client_word a → a mod PAGE_SIZE = 4 * (a mod PAGE_SIZE / 4) ∧ 0 ≤ a mod PAGE_SIZE / 4 < 1024.
Proof. intros [Ha _]. unfold PAGE_SIZE. div_lia. Qed.

Lemma client_kept_same x s s' :
  (∀ q, client_page q → ¬ x q → mapped_frame s' q = mapped_frame s q) →
  client_kept x (ps_mach s) (ps_mach s') → same_memory_but mapped_frame mapped_word x s s'.
Proof.
  intros Hm Hk. split; [done|]. intros a Ha Hx Hma. unfold mapped_word.
  destruct (mapped_frame s (a / PAGE_SIZE)) as [f|] eqn:Hf; [|done].
  destruct (Hk _ _ (proj2 Ha) Hx Hf) as [Hf' Hc]. unfold mapped_frame. rewrite Hf'.
  destruct (client_word_index a Ha) as [Hi Hr]. rewrite Hi. by apply Hc.
Qed.

Lemma kept_same s m :
  paging_inv s → kept (window_page s) (λ _, False) (ps_mach s) m →
  same_memory mapped_frame mapped_word s (set_mach s m).
Proof.
  intros Hs Hk. apply client_kept_same.
  - intros q Hq _. apply Hk; [by apply client_is_page|].
    eapply client_not_window; [by apply window_page_early|done].
  - eapply kept_client_none; [apply (pi_core _ Hs)|exact Hk].
Qed.

(** A store into a client's page. *)
Lemma store_client s a v f :
  paging_inv s → client_word a → mapped_frame s (a / PAGE_SIZE) = Some f → is_u32 v →
  wp (store a v s) (λ s', paging_inv s' ∧ mapped_word s' a = v ∧
    (∀ q, client_page q → mapped_frame s' q = mapped_frame s q) ∧
    ∀ b, client_word b → b ≠ a → mapped_frame s (b / PAGE_SIZE) ≠ None → mapped_word s' b = mapped_word s b).
Proof.
  intros Hs Ha Hf Hv. pose proof (client_word_u32 a Ha) as Hu.
  destruct (store_mapped s Hs a f v Hu Hf) as (m & -> & Hm & Hs1). apply wp_ret.
  destruct (client_word_index a Ha) as [Hi Hr]. rewrite Hi. set (i := a mod PAGE_SIZE / 4) in *.
  pose proof (pi_core _ Hs1) as Hc1. simpl in Hc1.
  assert (Hf1 : walk m (a / PAGE_SIZE) = Some f) by (by rewrite Hm).
  pose proof (pc_client _ _ _ _ _ Hc1 _ _ (proj2 Ha) Hf1) as Hns.
  destruct (write_page_spec _ _ _ _ _ f i v Hc1 Hns Hr Hv) as (Hk & Hc & Hw).
  set (m' := phys_write m (f + 4 * i) v) in *.
  assert (Hwalk : ∀ q, client_page q → walk m' q = walk (ps_mach s) q).
  { intros q Hq. rewrite (k_walk _ _ _ _ Hk); [by rewrite Hm|by apply client_is_page|].
    eapply client_not_window; [by apply (window_page_early s)|done]. }
  split_and!.
  - apply (paging_inv_mach (set_mach s m)); [done|exact Hc|]. apply (tlb_ok_walks m); [apply (pi_tlb _ Hs1)|done|].
    intros q Hq. destruct (decide (q = window_page s)) as [->|]; [exact Hw|by apply Hk].
  - unfold mapped_word, mapped_frame. simpl. rewrite Hwalk by apply Ha. fold (mapped_frame s (a / PAGE_SIZE)).
    rewrite Hf, Hi. fold i. apply phys_read_write_eq.
  - exact Hwalk.
  - intros b Hb Hne Hmb. unfold mapped_word, mapped_frame. simpl. rewrite Hwalk by apply Hb.
    destruct (walk (ps_mach s) (b / PAGE_SIZE)) as [g|] eqn:Hg; [|done].
    destruct (client_word_index b Hb) as [Hj Hrj]. rewrite Hj. set (j := b mod PAGE_SIZE / 4) in *.
    transitivity (phys_read m (g + 4 * j)); [|by rewrite Hm]. apply phys_read_write_ne.
    destruct (decide (b / PAGE_SIZE = a / PAGE_SIZE)) as [He|He].
    + assert (g = f) as -> by (unfold mapped_frame in Hf; congruence).
      intros Heq. apply Hne. unfold PAGE_SIZE in *. clear - He Heq Hi Hj. subst i j. div_lia.
    + apply slot_ne; [apply Hns| |intros ->|done|done].
      * eapply (pc_client _ _ _ _ _ (pi_core _ Hs) (b / PAGE_SIZE)); [apply Hb|exact Hg].
      * apply He. eapply (pc_inj _ _ _ _ _ (pi_core _ Hs)); [apply client_is_page, Hb|apply client_is_page, Ha| | |exact Hg|exact Hf];
          (eapply client_not_window; [by apply (window_page_early s)|apply Hb || apply Ha]).
Qed.

(** The words of the pages that [i386_paging_interface] maps. *)
#[export] Instance i386_paged_memory :
  PagedMemory i386_paging_interface paging_inv mapped_frame load store mapped_word.
Proof.
  split; [exact i386_page_mapper|..].
  - intros s a Hs. unfold mapped_word. destruct (mapped_frame s (a / PAGE_SIZE)); [|done].
    apply (pc_tables _ _ _ _ _ (pi_core _ Hs)).
  - intros a s Hs Ha Hm. destruct (mapped_frame s (a / PAGE_SIZE)) as [f|] eqn:Hf; [|done].
    destruct (load_mapped s Hs a f (client_word_u32 a Ha) Hf) as (m & -> & Heq & Hs1). apply wp_ret.
    split; [unfold mapped_word; by rewrite Hf|]. split; [done|]. apply kept_same; [done|by apply kept_equiv].
  - intros a v s Hs Ha Hm Hv. destruct (mapped_frame s (a / PAGE_SIZE)) as [f|] eqn:Hf; [|done].
    by eapply store_client.
  - intros p flags s Hs Hp Hun Hfl. unfold kpage_allocate. simpl. unfold i386_kpage_allocate.
    apply wp_bind. eapply wp_mono; [by apply (allocate_page_spec s p flags flags)|].
    intros [[ret out] s'] (_ & _ & Hother & Hck & _). apply wp_ret. apply client_kept_same.
    + intros q Hq Hqp. apply Hother; [by apply client_is_page|done|].
      eapply client_not_window; [by apply window_page_early|done].
    + eapply client_kept_weaken; [exact Hck|]. by intros q [].
  - intros p f s Hs Hp Hf. unfold kpage_free. simpl. unfold i386_kpage_free.
    eapply wp_mono; [by apply (free_page_mapped s p f)|].
    intros [ret s'] (_ & _ & _ & _ & Hother & _ & _ & Hck). apply client_kept_same; [|exact Hck].
    intros q Hq Hqp. apply Hother; [by apply client_is_page|done|].
    eapply client_not_window; [by apply window_page_early|done].
  - intros addr s Hs Ha Hp. unfold kpage_get_phys. simpl. unfold i386_kpage_get_phys.
    destruct (page_get_phys_spec s addr Hs Ha Hp) as (m & -> & Hs' & Hk). apply wp_ret. by apply kept_same.
Qed.

(** C4. Refinement: the i386 functions behind [kpaging_data.interface], with the
    processor's loads and stores, implement the paged memory that the heap is
    verified against: they map and unmap exactly the page asked for, and every
    word of every other mapped page stays what was stored there. *)
Theorem i386_paging_refines_paged_memory :
  PagedMemory i386_paging_interface paging_inv mapped_frame load store mapped_word.
Proof. exact i386_paged_memory. Qed.
