(* ===== verification/HeapMemDemo.v ===== *)
(** The heap in memory on the demonstration machine of Boot.v: two allocations
    on i386 pages, and the theorems of HeapSafety.v at work on them. *)
From stdpp Require Import base numbers list gmap.
From Stdlib Require Import ZArith Lia.
From S2P Require Import Prelude Kernel Bitset Alloc Meminfo EarlyHeap Frames Machine KPaging Asa.
From S2P Require Import Paging Window PagingSpec PagingInit Kheap KheapBlock KheapSpec KheapProps Boot KheapDemo.
From S2P Require Import Layout HeapMemory HeapLayout HeapBlocks HeapWords HeapSafety HeapPaging.

Open Scope Z_scope.

(** The heap that [kernel_early] leaves: no block, so no pointer. *)
Definition demo_memory : mem_state paging_state :=
  MemState (MemHeap 0 SECTION_SIZE_DEFAULT MIN_BLOCK_SIZE_DEFAULT KHEAP_AUTO_EXPAND 0 0)
    (hs_asa demo_state) (hs_sys demo_state).

Abbreviation demo_inv := (mheap_inv (inv := paging_inv) (mapped := mapped_frame) (word := mapped_word)).
Abbreviation demo_malloc := (kheap_malloc_at i386_paging_interface PAGE_SIZE load store).
Abbreviation demo_free := (kheap_free_at load store).

(** Whatever the machine: after [kernel_early] has set up the memory system,
    the heap is in its memory. *)
Theorem kernel_early_heap_in_memory mem mboot m :
  boot_ok mem mboot m →
  ∃ st ki h, kernel_early_memory mem mboot m = Ret (st, ki) ∧
    demo_inv h (MemState (MemHeap 0 SECTION_SIZE_DEFAULT MIN_BLOCK_SIZE_DEFAULT KHEAP_AUTO_EXPAND 0 0)
      (hs_asa st) (hs_sys st)) ∧ first h = [].
Proof.
  intros Hboot. destruct (kernel_early_memory_run mem mboot m Hboot) as (st & ki & Hrun & Hinv & He & Hun & _).
  exists st, ki. eexists. split; [done|]. split; [|].
  - apply (install_memory i386_paging_interface); [apply Hinv|apply Hinv|].
    intros p Hp _. apply Hun. by apply kernel_client.
  - done.
Qed.

Lemma demo_memory_inv : ∃ h, demo_inv h demo_memory.
Proof.
  destruct (kernel_early_heap_in_memory _ _ _ demo_boot_ok) as (st & ki & h & Hrun & Hinv & _).
  destruct demo_state_run as [ki' Hrun']. exists h. unfold demo_memory.
  assert (Hst : demo_state = st) by congruence. by rewrite Hst.
Qed.

(** Two allocations of 100 and of 50 bytes, in one evaluation. *)
Definition demo_memory1 : mem_state paging_state :=
  last_state demo_memory (demo_malloc 100 0 demo_memory).
Definition demo_memory2 : mem_state paging_state :=
  last_state demo_memory1 (demo_malloc 50 0 demo_memory1).

Definition malloc_gives (size addr : Z) (ms : mem_state paging_state) (next : mem_state paging_state → bool) : bool :=
  match demo_malloc size 0 ms with
  | Ret (ret, p, ms') => (ret =? K_SUCCESS) && (p =? addr) && next ms'
  | _ => false
  end.

Lemma malloc_gives_sound size addr ms next :
  malloc_gives size addr ms next = true →
  let ms' := last_state ms (demo_malloc size 0 ms) in
  demo_malloc size 0 ms = Ret (K_SUCCESS, addr, ms') ∧ next ms' = true.
Proof.
  unfold malloc_gives. destruct (demo_malloc size 0 ms) as [[[ret p] ms']| | |]; cbn [last_state]; [|done..].
  rewrite !andb_true_iff, !Z.eqb_eq. by intros [[-> ->] ?].
Qed.

Lemma demo_mallocs_checked :
  malloc_gives 100 1573232 demo_memory (λ ms, malloc_gives 50 1573344 ms (λ _, true)) = true.
Proof. vm_compute. reflexivity. Qed.

Lemma demo_malloc1 : demo_malloc 100 0 demo_memory = Ret (K_SUCCESS, 1573232, demo_memory1).
Proof. exact (proj1 (malloc_gives_sound _ _ _ _ demo_mallocs_checked)). Qed.

Lemma demo_malloc2 : demo_malloc 50 0 demo_memory1 = Ret (K_SUCCESS, 1573344, demo_memory2).
Proof.
  exact (proj1 (malloc_gives_sound _ _ _ _ (proj2 (malloc_gives_sound _ _ _ _ demo_mallocs_checked)))).
Qed.

(** A successful call on the demonstration system. *)
Lemma demo_allocates size addr h ms ms' :
  demo_inv h ms → 1 ≤ size < 2 ^ 31 → demo_malloc size 0 ms = Ret (K_SUCCESS, addr, ms') →
  ∃ h' A, demo_inv h' ms' ∧ live_in h' A ∧ addr = al_start A + 16 * al_lo A ∧
    (∀ a, addr ≤ a < addr + size → in_allocation A a) ∧
    (∀ B, live_in h B → live_in h' B ∧ other_allocation B A).
Proof.
  intros Hinv Hs Hrun.
  pose proof (kheap_malloc_result i386_paging_interface paging_inv mapped_frame load store mapped_word
    size 0 h ms Hinv Hs ltac:(unfold PAGE_SIZE; lia)) as Hwp.
  rewrite Hrun in Hwp. apply wp_ret in Hwp as (h' & Hinv' & _ & _ & Hlive & [(_ & Hnew)|(? & _)]); [|done].
  destruct Hnew as (_ & _ & _ & _ & A & HA & Hin & Haddr & Hother). exists h', A. split_and!; auto.
Qed.

Lemma demo_two_allocations :
  ∃ h A B, demo_inv h demo_memory2 ∧ live_in h A ∧ live_in h B ∧ other_allocation A B ∧
    1573232 = al_start A + 16 * al_lo A ∧ 1573344 = al_start B + 16 * al_lo B ∧
    in_allocation A 1573232 ∧ in_allocation B 1573344.
Proof.
  destruct demo_memory_inv as [h Hi].
  destruct (demo_allocates 100 _ _ _ _ Hi ltac:(lia) demo_malloc1) as (h1 & A & Hi1 & HA & Ha & Hin1 & _).
  destruct (demo_allocates 50 _ _ _ _ Hi1 ltac:(lia) demo_malloc2) as (h2 & B & Hi2 & HB & Hb & Hin2 & Hk).
  destruct (Hk A HA) as [HA2 Hother]. exists h2, A, B. split_and!; try done.
  - apply Hin1. lia.
  - apply Hin2. lia.
Qed.

#[global] Opaque demo_memory1 demo_memory2.

(** C5 at work: a page-aligned request. *)
Lemma kheap_malloc_in_memory_witness :
  ∃ ret addr ms' h', demo_malloc 100 4096 demo_memory = Ret (ret, addr, ms') ∧ demo_inv h' ms'.
Proof.
  destruct demo_memory_inv as [h Hi].
  destruct (kheap_malloc_in_memory i386_paging_interface paging_inv mapped_frame load store mapped_word
    100 4096 _ _ Hi) as (ret & addr & ms' & h' & H1 & H2 & _);
    [split; [discriminate|reflexivity]|split; [discriminate|discriminate]|].
  exact (ex_intro _ ret (ex_intro _ addr (ex_intro _ ms' (ex_intro _ h' (conj H1 H2))))).
Defined.

(** C6 at work: the first of the two allocations is freed. *)
Lemma kheap_free_in_memory_witness :
  ∃ ms' h', demo_free 1573232 demo_memory2 = Ret (true, ms') ∧ demo_inv h' ms'.
Proof.
  destruct demo_two_allocations as (h & A & B & Hi & HA & _ & _ & Ha & _).
  destruct (kheap_free_in_memory i386_paging_interface paging_inv mapped_frame load store mapped_word
    h demo_memory2 A 1573232 Hi HA) as (ms' & h' & H1 & H2 & _).
  { rewrite <- Ha. split; [discriminate|reflexivity]. }
  exact (ex_intro _ ms' (ex_intro _ h' (conj H1 H2))).
Defined.

(** C15 at work: 100 bytes, then 50 bytes. *)
Definition demo_memory_kalloc : kalloc_interface (mem_state paging_state) :=
  memory_kalloc i386_paging_interface load store.

Lemma demo_memory_kmalloc size ms addr ms' :
  demo_malloc size 0 ms = Ret (K_SUCCESS, addr, ms') →
  kmalloc demo_memory_kalloc size KALLOC_GENERAL ms = Ret (addr, ms').
Proof.
  intros H. unfold kmalloc, demo_memory_kalloc, memory_kalloc, installed. cbn [ki_malloc_real].
  rewrite Ret_bind. unfold kheap_kalloc_malloc_real_at.
  change (has_flag KALLOC_GENERAL KALLOC_PAGE_ALIGN) with false. cbv iota. rewrite H. reflexivity.
Qed.

Lemma kmalloc_in_memory_disjoint_witness :
  ∃ p1 p2 ms1 ms2, kmalloc demo_memory_kalloc 100 KALLOC_GENERAL demo_memory = Ret (p1, ms1) ∧
    kmalloc demo_memory_kalloc 50 KALLOC_GENERAL ms1 = Ret (p2, ms2) ∧
    (∀ a, ¬ (p1 ≤ a < p1 + 100 ∧ p2 ≤ a < p2 + 50)) ∧
    mapped_word (ms_sys ms2) p1 = mapped_word (ms_sys ms1) p1.
Proof.
  pose proof (demo_memory_kmalloc 100 demo_memory 1573232 demo_memory1 demo_malloc1) as H1.
  pose proof (demo_memory_kmalloc 50 demo_memory1 1573344 demo_memory2 demo_malloc2) as H2.
  destruct demo_memory_inv as [h Hi].
  destruct (kmalloc_in_memory_disjoint i386_paging_interface paging_inv mapped_frame load store mapped_word
    100 50 KALLOC_GENERAL KALLOC_GENERAL h demo_memory 1573232 1573344
    demo_memory1 demo_memory2 Hi) as [Hd Hw];
    [split; [discriminate|reflexivity]|split; [discriminate|reflexivity]|split; [discriminate|reflexivity]
    |split; [discriminate|reflexivity]|exact H1|exact H2|].
  exists 1573232, 1573344, demo_memory1, demo_memory2.
  refine (conj H1 (conj H2 (conj Hd _))).
  apply Hw; [split; [discriminate|reflexivity]|reflexivity].
Defined.

(** What the other client does: writes into its allocation, frees it,
    allocates again. *)
Definition demo_calls : list heap_call :=
  [CallStore 1573344 0xCAFE; CallFree 1573344; CallMalloc 4096 0].

Lemma demo_calls_all_respect h A B ms :
  demo_inv h ms → live_in h B → other_allocation A B → 1573344 = al_start B + 16 * al_lo B → in_allocation B 1573344 →
  all_respect i386_paging_interface load store paging_inv mapped_frame mapped_word A demo_calls ms.
Proof.
  intros Hi HB Hother Hb HinB.
  destruct (client_store_memory i386_paging_interface paging_inv mapped_frame load store mapped_word
    h ms B 1573344 0xCAFE Hi HB HinB eq_refl ltac:(done)) as (s & Hrun & Hi1 & _).
  destruct (kheap_free_memory i386_paging_interface paging_inv mapped_frame load store mapped_word
    h _ B 1573344 Hi1 HB) as (ms2 & h2 & Hrun2 & Hi2 & _); [rewrite <- Hb; lia|].
  cbn [all_respect demo_calls run_call respects]. split; [|rewrite Hrun; intros ms1 [= <-]; split].
  - exists h. split; [exact Hi|]. split; [done|]. split; [done|]. by exists B.
  - exists h. split; [exact Hi1|]. exists B. split; [done|]. split; [done|]. rewrite <- Hb. lia.
  - rewrite Hrun2. intros ms2' [= <-]. split; [|done]. exists h2. split; [exact Hi2|]. unfold PAGE_SIZE. lia.
Qed.

(** C8 at work: meanwhile the first client's word keeps its value. *)
Lemma allocations_private_witness :
  ∃ ms' s', run_calls i386_paging_interface load store demo_calls demo_memory2 = Ret ms' ∧
    load 1573232 (ms_sys ms') = Ret (mapped_word (ms_sys demo_memory2) 1573232, s').
Proof.
  destruct demo_two_allocations as (h & A & B & Hi & HA & HB & Hother & _ & Hb & HinA & HinB).
  pose proof (demo_calls_all_respect h A B _ Hi HB Hother Hb HinB) as Hcs.
  assert (Hw : word_of A 1573232) by (split; [exact HinA|reflexivity]).
  destruct (allocations_private i386_paging_interface paging_inv mapped_frame load store mapped_word
    A demo_calls h demo_memory2 Hi HA Hcs) as (ms' & h' & Hrun & _ & _ & Hread).
  destruct (Hread 1573232 Hw) as [s' Hs'].
  exact (ex_intro _ ms' (ex_intro _ s' (conj Hrun Hs'))).
Defined.
