(* ===== verification/Entry.v ===== *)
(** Before and after the C code: [boot.asm], [crti.asm] with [crtn.asm], and
    [modes.asm] of [kernel/arch/i386], instruction by instruction, on the
    registers and the stack. *)
From stdpp Require Import base numbers list gmap strings.
From Stdlib Require Import ZArith Lia String.
From S2P Require Import Prelude Kernel.

Open Scope Z_scope.

(** * The processor, as far as this code sees it *)

Record cpu := Cpu {
  eax : Z;
  ebx : Z;
  ebp : Z;
  esp : Z;
  words : gmap Z Z;                 (** memory, by the addresses of words *)
  cr0 : Z;
  interrupts : bool;
  called : list (string * Z * Z)    (** calls so far, with the first two words of arguments *)
}.

Inductive register := EAX | EBX | EBP | ESP.

Definition reg (r : register) : cpu → Z :=
  match r with EAX => eax | EBX => ebx | EBP => ebp | ESP => esp end.

Definition set_reg (r : register) (v : Z) (c : cpu) : cpu :=
  let 'Cpu a b bp sp w z i l := c in
  match r with
  | EAX => Cpu v b bp sp w z i l
  | EBX => Cpu a v bp sp w z i l
  | EBP => Cpu a b v sp w z i l
  | ESP => Cpu a b bp v w z i l
  end.
Definition set_cr0 (v : Z) (c : cpu) : cpu :=
  Cpu (eax c) (ebx c) (ebp c) (esp c) (words c) v (interrupts c) (called c).
Definition set_interrupts (i : bool) (c : cpu) : cpu :=
  Cpu (eax c) (ebx c) (ebp c) (esp c) (words c) (cr0 c) i (called c).
Definition write (a v : Z) (c : cpu) : cpu :=
  Cpu (eax c) (ebx c) (ebp c) (esp c) (<[a := v]> (words c)) (cr0 c) (interrupts c) (called c).
Definition note_call (f : string) (x y : Z) (c : cpu) : cpu :=
  Cpu (eax c) (ebx c) (ebp c) (esp c) (words c) (cr0 c) (interrupts c) (called c ++ [(f, x, y)]).
Definition read (a : Z) (c : cpu) : Z := default 0 (words c !! a).

Definition push (v : Z) (c : cpu) : cpu :=
  write (esp c ⊖ 4) v (set_reg ESP (esp c ⊖ 4) c).
Definition pop (c : cpu) : Z * cpu := (read (esp c) c, set_reg ESP (esp c ⊕ 4) c).

Inductive instruction :=
  | mov_imm (r : register) (v : Z)
  | mov (r r' : register)
  | and_imm (r : register) (v : Z)
  | or_imm (r : register) (v : Z)
  | push_reg (r : register)
  | pop_reg (r : register)
  | mov_from_cr0 (r : register)
  | mov_to_cr0 (r : register)
  | cli
  | hlt
  | jmp (target : nat)
  | call (f : string)
  | gcc_part                        (** what the linker puts between [crti.o] and [crtn.o] *)
  | ret.

(** * The code *)

(** [_start], with [.hang] at 8. *)
Definition _start (stack_top : Z) : list instruction :=
  [mov_imm ESP stack_top; and_imm ESP (u32 (-16)); push_reg EBX; push_reg EAX;
   call "kernel_early"; call "_init"; call "kernel_main"; cli; hlt; jmp 8].

(** [_init] and [_fini]: their beginnings and their ends are in two files. *)
Definition _init : list instruction := [push_reg EBP; mov EBP ESP; gcc_part; pop_reg EBP; ret].
Definition _fini : list instruction := [push_reg EBP; mov EBP ESP; gcc_part; pop_reg EBP; ret].

Definition _i386_enter_pmode : list instruction :=
  [cli; mov_from_cr0 EAX; or_imm EAX 1; mov_to_cr0 EAX; ret].

(** * Running it

    The called functions and the part of [gcc] are parameters.  A [call] pushes
    the address after it, which the callee pops. *)
Section run.
Context (callee : string → cpu → outcome cpu) (gcc : cpu → outcome cpu) (return_address : nat → Z).

(** One instruction of [code] at [pc]; [None]: the code has returned. *)
Definition step (code : list instruction) (pc : nat) (c : cpu) : outcome (option nat * cpu) :=
  let next c := Ret (Some (Datatypes.S pc), c) in
  match code !! pc with
  | Some (mov_imm r v) => next (set_reg r v c)
  | Some (mov r r') => next (set_reg r (reg r' c) c)
  | Some (and_imm r v) => next (set_reg r (Z.land (reg r c) v) c)
  | Some (or_imm r v) => next (set_reg r (Z.lor (reg r c) v) c)
  | Some (push_reg r) => next (push (reg r c) c)
  | Some (pop_reg r) => let '(v, c') := pop c in next (set_reg r v c')
  | Some (mov_from_cr0 r) => next (set_reg r (cr0 c) c)
  | Some (mov_to_cr0 r) => next (set_cr0 (reg r c) c)
  | Some cli => next (set_interrupts false c)
  | Some hlt => next c
  | Some (jmp target) => Ret (Some target, c)
  | Some (call f) =>
      c' ← callee f (push (return_address pc) (note_call f (read (esp c) c) (read (esp c ⊕ 4) c) c));
      next c'
  | Some gcc_part => c' ← gcc c; next c'
  | Some ret => Ret (None, snd (pop c))
  | None => Fault
  end.

Fixpoint steps (n : nat) (code : list instruction) (pc : nat) (c : cpu) : outcome (option nat * cpu) :=
  match n with
  | O => Ret (Some pc, c)
  | Datatypes.S n' =>
      '(pc', c') ← step code pc c;
      match pc' with Some pc' => steps n' code pc' c' | None => Ret (None, c') end
  end.

(** What a function compiled for this calling convention keeps. *)
Definition keeps_frame (c c' : cpu) : Prop :=
  ebx c' = ebx c ∧ ebp c' = ebp c ∧ called c' = called c.
Definition returns (f : cpu → outcome cpu) : Prop :=
  ∀ c, is_u32 (esp c) → wp (f c) (λ c', keeps_frame c c' ∧ esp c' = esp c ⊕ 4).

(** [gcc]'s part of [_init] leaves the stack as it found it. *)
Definition balanced (f : cpu → outcome cpu) : Prop :=
  ∀ c, wp (f c) (λ c', called c' = called c ∧ ebx c' = ebx c ∧ esp c' = esp c ∧
    ∀ a, esp c ≤ a → words c' !! a = words c !! a).
End run.

(** * Theorems *)

Lemma read_write_eq a v c : read a (write a v c) = v.
Proof. unfold read. simpl. by rewrite lookup_insert_eq. Qed.

Lemma read_write_ne a b v c : a ≠ b → read b (write a v c) = read b c.
Proof. intros H. unfold read. simpl. by rewrite lookup_insert_ne. Qed.

Section theorems.
Context (callee : string → cpu → outcome cpu) (gcc : cpu → outcome cpu) (return_address : nat → Z).
Local Abbreviation steps := (steps callee gcc return_address).

Lemma steps_app n m code pc c :
  steps (n + m) code pc c =
    ('(pc', c') ← steps n code pc c; match pc' with Some pc' => steps m code pc' c' | None => Ret (None, c') end).
Proof.
  revert pc c. induction n as [|n IH]; intros pc c; [done|]. simpl.
  destruct (step callee gcc return_address code pc c) as [[[pc'|] c']| | |]; simpl; [apply IH|done..].
Qed.

(** The stack pointer at the first call: a multiple of 16 less 8. *)
Definition first_esp (stack_top : Z) : Z := stack_top - stack_top mod 16 - 8.

(** Up to the call of [kernel_early]: the loader's magic number and the address
    of its information are the arguments, in that order; at a call the stack
    pointer is 8 more than a multiple of 16. *)
Lemma start_arguments stack_top c :
  is_u32 stack_top → 16 ≤ stack_top →
  ∃ c', steps 4 (_start stack_top) 0 c = Ret (Some 4%nat, c') ∧
    esp c' = first_esp stack_top ∧ esp c' mod 16 = 8 ∧
    read (esp c') c' = eax c ∧ read (esp c' ⊕ 4) c' = ebx c ∧
    called c' = called c ∧ interrupts c' = interrupts c.
Proof.
  intros Hu Hlow. destruct c as [a b bp sp w z i l]. unfold first_esp.
  pose proof (land_high_mask stack_top 4 Hu ltac:(lia)) as Hmask. change (2 ^ 4) with 16 in Hmask.
  change (Z.shiftl (Z.ones (32 - 4)) 4) with (u32 (-16)) in Hmask.
  pose proof (Z.mod_pos_bound stack_top 16 ltac:(lia)). set (top := stack_top - stack_top mod 16) in *.
  assert (Ht : 16 ≤ top ≤ stack_top ∧ top mod 16 = 0) by (unfold top; clear Hmask; div_lia).
  assert (H4 : top ⊖ 4 = top - 4) by (apply u32_small; u32_lia).
  assert (H8 : top - 4 ⊖ 4 = top - 8) by (rewrite u32_small by u32_lia; lia).
  eexists. split; [reflexivity|]. unfold push. cbn. rewrite Hmask, H4. cbn. rewrite H8.
  split; [done|]. split; [clear Hmask H4 H8; div_lia|].
  split; [by rewrite read_write_eq|]. rewrite (u32_small (top - 8 + 4)) by u32_lia.
  split; [|done]. rewrite read_write_ne by lia.
  replace (top - 8 + 4) with (top - 4) by lia. unfold read. cbn. by rewrite lookup_insert_eq.
Qed.

(** A call of a function that returns. *)
Lemma call_step code pc f c :
  code !! pc = Some (call f) → returns (callee f) → is_u32 (esp c) →
  wp (steps 1 code pc c) (λ '(pc', c'), pc' = Some (Datatypes.S pc) ∧ esp c' = esp c ∧ ebx c' = ebx c ∧
    called c' = called c ++ [(f, read (esp c) c, read (esp c ⊕ 4) c)]).
Proof.
  intros Hcode Hret Hu. cbn [Entry.steps]. apply wp_bind. unfold step. rewrite Hcode. apply wp_bind.
  destruct c as [a b bp sp w z i l]. cbn in Hu |- *.
  eapply wp_mono; [apply Hret; apply u32_range|]. intros c' ((Hb & _ & Hl) & Hsp). apply wp_ret. apply wp_ret.
  cbn in Hb, Hl, Hsp |- *. split_and!; [done| |done|done].
  rewrite Hsp. unfold u32. rewrite Zplus_mod_idemp_l, Z.sub_add. by apply u32_small.
Qed.

(** [_start]: the kernel is entered with the loader's magic number and the
    address of its information as arguments, then the constructors run, then
    [kernel_main]; should that return, the processor stays in the loop of
    [hlt] with interrupts off. *)
Theorem start_correct stack_top c :
  is_u32 stack_top → 16 ≤ stack_top → returns (callee "kernel_early") → returns (callee "_init") →
  (∃ c', steps 4 (_start stack_top) 0 c = Ret (Some 4%nat, c') ∧ esp c' mod 16 = 8 ∧
     read (esp c') c' = eax c ∧ read (esp c' ⊕ 4) c' = ebx c) ∧
  (∃ c' x y, steps 6 (_start stack_top) 0 c = Ret (Some 6%nat, c') ∧ esp c' = first_esp stack_top ∧
     called c' = called c ++ [("kernel_early"%string, eax c, ebx c); ("_init"%string, x, y)]) ∧
  (returns (callee "kernel_main") → ∀ n, ∃ pc c',
     steps (8 + n) (_start stack_top) 0 c = Ret (Some pc, c') ∧ (pc = 8 ∨ pc = 9)%nat ∧ interrupts c' = false ∧
     List.length (called c') = (List.length (called c) + 3)%nat).
Proof.
  intros Hu Hlow Hearly Hinit.
  destruct (start_arguments stack_top c Hu Hlow) as (c4 & H4 & Hsp4 & Hmod & Ha & Hb & Hl4 & _).
  assert (Hsp : is_u32 (first_esp stack_top)).
  { unfold first_esp. unfold is_u32 in *. clear - Hu Hlow. div_lia. }
  split; [by exists c4|].
  pose proof (call_step (_start stack_top) 4 _ c4 eq_refl Hearly ltac:(by rewrite Hsp4)) as H5.
  apply wp_inv in H5 as ([? c5] & H5 & -> & Hsp5 & _ & Hl5). rewrite Hsp4 in Hsp5.
  pose proof (call_step (_start stack_top) 5 _ c5 eq_refl Hinit ltac:(by rewrite Hsp5)) as H6.
  apply wp_inv in H6 as ([? c6] & H6 & -> & Hsp6 & _ & Hl6). rewrite Hsp5 in Hsp6.
  assert (Hrun6 : steps 6 (_start stack_top) 0 c = Ret (Some 6%nat, c6)).
  { rewrite (steps_app 4 2), H4, Ret_bind, (steps_app 1 1), H5, Ret_bind. done. }
  split.
  - exists c6, (read (first_esp stack_top) c5), (read (first_esp stack_top ⊕ 4) c5). split; [done|]. split; [done|].
    rewrite Hl6, Hl5, Hl4, Ha, Hb, Hsp5, <- app_assoc. done.
  - intros Hmain.
    pose proof (call_step (_start stack_top) 6 _ c6 eq_refl Hmain ltac:(by rewrite Hsp6)) as H7.
    apply wp_inv in H7 as ([? c7] & H7 & -> & _ & _ & Hl7).
    assert (Hrun8 : steps 8 (_start stack_top) 0 c = Ret (Some 8%nat, set_interrupts false c7)).
    { rewrite (steps_app 6 2), Hrun6, Ret_bind, (steps_app 1 1), H7, Ret_bind. done. }
    assert (Hloop : ∀ n pc c1, (pc = 8 ∨ pc = 9)%nat → ∃ pc', steps n (_start stack_top) pc c1 = Ret (Some pc', c1) ∧
      (pc' = 8 ∨ pc' = 9)%nat).
    { induction n as [|n IH]; intros pc c1 Hpc; [by exists pc|].
      destruct Hpc as [-> | ->]; cbn [Entry.steps step _start lookup list_lookup nth_error]; simpl;
        apply IH; auto. }
    intros n. destruct (Hloop n 8%nat (set_interrupts false c7)) as (pc & Hn & Hpc); [by left|].
    exists pc, (set_interrupts false c7). rewrite steps_app, Hrun8, Ret_bind. split; [exact Hn|]. split; [done|].
    split; [done|]. cbn. rewrite Hl7, Hl6, Hl5, Hl4, !length_app. simpl. lia.
Qed.

(** [_init] and [_fini] are functions that return, if [gcc]'s part of them is
    balanced. *)
Theorem init_returns :
  balanced gcc → returns (λ c, '(_, c') ← steps 5 _init 0 c; Ret c') ∧ _fini = _init.
Proof.
  intros Hgcc. split; [|done]. intros c Hu. destruct c as [a b bp sp w z i l]. cbn in Hu.
  set (c2 := Cpu a b (sp ⊖ 4) (sp ⊖ 4) (<[sp ⊖ 4 := bp]> w) z i l).
  assert (Hrun : steps 5 _init 0 (Cpu a b bp sp w z i l) = (c' ← gcc c2; steps 2 _init 3 c')).
  { cbn. fold c2. by destruct (gcc c2). }
  rewrite Hrun. apply wp_bind, wp_bind. eapply wp_mono; [apply Hgcc|].
  intros [a1 b1 bp1 sp1 w1 z1 i1 l1] (Hl & Hb & Hsp & Hw).
  cbn in Hl, Hb, Hsp, Hw. subst. cbn. split_and!; [split_and!; [done| |done]|].
  - unfold read. cbn. rewrite Hw by lia. by rewrite lookup_insert_eq.
  - assert (sp ⊖ 4 ⊕ 4 = sp) as ->; [|done]. unfold u32. rewrite Zplus_mod_idemp_l, Z.sub_add. by apply u32_small.
Qed.

(** [_i386_enter_pmode] sets the bit of protected mode, with interrupts off,
    and changes [eax]. *)
Theorem enter_pmode_correct c :
  ∃ c', steps 5 _i386_enter_pmode 0 c = Ret (None, c') ∧ cr0 c' = Z.lor (cr0 c) 1 ∧ interrupts c' = false ∧
    ebx c' = ebx c ∧ ebp c' = ebp c ∧ words c' = words c ∧ esp c' = esp c ⊕ 4.
Proof. destruct c. eexists. split; [reflexivity|]. by split_and!. Qed.
End theorems.

(** The entry with functions that only return: the stack at [0x9004], the magic
    number and the address of the loader's information. *)
Definition demo_callee (f : string) (c : cpu) : outcome cpu := Ret (snd (pop c)).

Lemma demo_callee_returns f : returns (demo_callee f).
Proof. intros [] _. by repeat split. Qed.

Lemma start_example :
  ∃ c', steps demo_callee Ret (λ _, 0) 20 (_start 0x9004) 0 (Cpu 0x2BADB002 0x9500 0 0 ∅ 0 true []) = Ret (Some 8%nat, c') ∧
    called c' = [("kernel_early", 0x2BADB002, 0x9500); ("_init", 0x2BADB002, 0x9500);
                 ("kernel_main", 0x2BADB002, 0x9500)]%string ∧ esp c' = 0x8ff8 ∧ interrupts c' = false.
Proof. eexists. split; [vm_compute; reflexivity|]. split_and!; vm_compute; reflexivity. Qed.
